(* ===== verification/_CoqProject ===== *)
-Q . S2P
Prelude.v
Base64.v
Loggers.v
ReturnCodes.v
Json.v
JsonObjects.v
Ossl.v
Bcrypt.v
BcryptFacts.v
WinCrypt.v
WinFacts.v
BaseX509.v
LinuxX509.v
Accepts.v
WindowsX509.v
Jwt.v
CertGen.v
Policy.v
Esys.v
SecretsTpm.v
Secrets.v
Cvm.v
SecretsTool.v
Sample.v
GuestTpm.v
Digest.v
SecretSpec.v
SampleFacts.v
Provisioned.v
CertGenFacts.v
WinSecrets.v
WinSecretsFacts.v
WinRelease.v
WinGen.v
WinGenFacts.v
GuestTpmFacts.v
TpmHandles.v
TpmFacade.v
HclReport.v
TpmEmits.v
JsonCpp.v
JsonDouble.v
JsonReader.v
JsonReaderFacts.v
JsonWriter.v
JsonRoundTrip.v
JsonText.v
Http.v
ClientUtils.v
Evidence.v
EvidenceText.v
TokenDecrypt.v
AkCert.v
Attest.v
AttestFacts.v
Skr.v
SkrFacts.v
SkrKeys.v
WinHttp.v
ClientDemo.v
TpmClient.v
SampleApp.v
SkrDemo.v
Lifecycle.v
