(* ===== verification/Prelude.v ===== *)
(** * Confidential-VM guest attestation: a verification development

    The repository lets an Azure confidential VM prove what it is and receive secrets. It has
    four programs:

    - the client library (src/client-library): [Attest] collects evidence from the TPM and the
      host, posts it to the attestation service and decrypts the token it gets; [Encrypt] and
      [Decrypt] wrap keys for the TPM;
    - the secrets library (src/azure-protected-vm-secrets): [unprotect_secret] releases a secret
      from a signed and encrypted token, when the caller's policy admits it;
    - the secure-key-release app (src/cvm-securekey-release-app): attests with the client
      library, asks a key vault to release a key for the token, and wraps or unwraps with it;
    - LinuxTpm (src/client-library/src/Attestation/LinuxTpm): the client library's TPM access, with a
      command-line client of its own.

    The secrets library and what differs in the secure-key-release app are modelled for Linux and
    for Windows, the others for Linux.

    ** How the model is built

    Code without effects is a function to [outcome]: a value, an exception ([exn] has the C++
    classes), or a fault: undefined behaviour, [std::terminate], or no fuel left. Code with
    effects is a computation [M E S A]: a function from a state to an outcome, a state and the
    list of the calls it made outside with their answers. The calls are signatures ([EsysCall],
    [OsslCall], [BCall], [CurlCall], ...) joined by [E -< F]; what answers them is any
    [Handler], and theorems that need more of tpm2-tss, OpenSSL, CNG, Boost or a JSON library
    state the documented behaviour as a class of laws ([NvLaws], [PcrLaws], [DigestLaws],
    [EcLaws], [BoostBase64Laws], [NlohmannLaws], ...), each with an instance that satisfies it.
    [wp], [emits], [throws], [yields] and [ends] are the rules for all outcomes, for the calls
    made, the exceptions, the results, and results with the calls before them; [delivers] and
    [meets] those of runs that must succeed, or must agree with a specification.

    ** The interfaces between components

    - [TssWrapper] (TpmFacade.v): the operations of the TPM; the implementation of
      Tss2Wrapper.cpp is the instance and [TssErrors] the law on its exceptions.
    - [BaseX509] with [X509Laws] and [X509Errors] (BaseX509.v): certificates of a platform. The
      tokens, the policy and the release of secrets are proved against it; LinuxX509.v and
      WindowsX509.v are the two instances. [X509Accepts] (Accepts.v) is the converse contract, what a
      platform must accept, with an instance for OpenSSL.
    - [Decryptor] with [DecryptorLaws] (Secrets.v): the decryption of a platform and the width
      of its [long]; instances in Secrets.v and WinRelease.v.
    - [JsonText] (Json.v and JsonText.v): the JSON library of a client; jsoncpp as modelled is
      an instance, which the concrete worlds use.

    ** The files

    - This file: bytes and machine integers, outcomes, computations and their rules.
    - Base64.v: the codecs of all programs (AttestationHelper.cpp, JsonWebToken.cpp,
      AttestationUtil.cpp, Utils.cpp). ReturnCodes.v: ReturnCodes.h. Loggers.v: what the loggers
      of all programs write (LibraryLogger.cpp, DebugInfo.cpp, Tpm2Logger.cpp, AttestationUtil.h,
      Logger.cpp, AttestationLibTelemetry.cpp).
    - JSON: Json.v and JsonCpp.v (values and accessors of the two libraries), JsonObjects.v
      (objects of strings and numbers print and read back), JsonReader.v and
      JsonWriter.v (Json::Reader and the writer of StreamWriterBuilder), JsonDouble.v (the
      reading of doubles), JsonReaderFacts.v, JsonRoundTrip.v, JsonText.v (theorems).
    - Secrets library on Linux: Ossl.v (Linux/*.cpp), LinuxX509.v, Accepts.v (the certificates
      OpenSSL accepts), Jwt.v (JsonWebToken.cpp),
      Policy.v (Policy.cpp), SecretsTpm.v (TssCtx.cpp, Tss2Wrapper.cpp, Tpm.cpp), Secrets.v
      (SecretsProvisioningLibrary.cpp), SecretSpec.v (what a release promises, and that the
      Linux pipeline implements it), Cvm.v (CvmHelper.cpp), SecretsTool.v (the command-line
      tool), Sample.v and SampleFacts.v (the static sample),
      Provisioned.v (signed tokens are released), CertGen.v and CertGenFacts.v (the chains made for
      tests, against RFC 5280), HclReport.v (HclReportParser.cpp of both libraries).
    - Secrets library on Windows: Bcrypt.v and BcryptFacts.v (AesWrapper.cpp, BcryptHKDF.cpp),
      WinCrypt.v and WinFacts.v (BcryptECDiffieHellman.cpp, WincryptX509.cpp), WindowsX509.v,
      WinSecrets.v and WinSecretsFacts.v (System.cpp, decrypt_secret, the same refinement),
      WinRelease.v (the entry points on Windows), WinGen.v and
      WinGenFacts.v (the chain made for tests there).
    - LinuxTpm: Esys.v (the calls), GuestTpm.v (Tss2Util.cpp, Tss2Session.cpp,
      Tss2Wrapper.cpp), Digest.v, GuestTpmFacts.v (NV storage, PCRs), TpmHandles.v (which
      handles stay live), TpmEmits.v (the calls each operation makes), TpmFacade.v (Tpm.cpp),
      TpmClient.v (the command-line client, testclient).
    - Client library: Http.v (curl senders), ClientUtils.v (AttestationLibUtils.cpp), Evidence.v
      and EvidenceText.v (AttestationParameters.cpp, TpmInfo.cpp, IsolationInfo.cpp),
      TokenDecrypt.v (TpmUnseal.cpp), AkCert.v (TpmCertOperations.cpp), Attest.v
      (AttestationClientImpl.cpp), AttestFacts.v (its theorems), Lifecycle.v
      (AttestationClient.cpp), ClientDemo.v (a concrete world), SampleApp.v (cvm-attestation-sample-app).
    - Secure-key-release app: Skr.v (AttestationUtil.cpp, Main.cpp), SkrFacts.v and SkrKeys.v (its
      theorems), WinHttp.v (its request and its options on Windows), SkrDemo.v (a concrete world).

    ** What the theorems show

    - Release of secrets: data leaves [unprotect_secret] only when the policy admits the payload
      and its signature chain was verified where required, on both platforms; what is released
      is the value the specification in SecretSpec.v gives for the token; the result codes;
      legacy text; the double destruction of a key handle on Windows; and the converse: a text the
      sample protects for a machine is what library and tool release there, and a secret sealed
      for a machine and signed with a trusted certificate is released under every policy. The chains the library
      makes for tests are valid by RFC 5280, accepted, and their signatures verify on Linux; on Windows
      each certificate is signed by the one above, and the leaf's key is converted faithfully.
    - Attestation: a token handed out was returned by the service, over https, for the validated
      evidence, and was opened by the TPM and AES-GCM; where requests go, how many there are, and
      that one answer among the attempts is enough; when the attestation key's certificate is
      renewed; which evidence is sent, and that the service reads back the same.
    - Key release: the app succeeds only through an attested token, a 200 from the vault and a
      key decrypted by the TPM; every failure has a documented exit code; on Windows each WinHTTP handle is closed once.
    - Logs: what is put for the placeholders of a message, and what a trace tells of a secret.
    - TPM: handles are flushed on all paths, NV storage round trips, PCR reads are complete; every
      exception that leaves the facade carries a result code; what the exit status of its
      command-line client means.
    - Data: codecs, JSON text, keys and tokens round trip, or the theorem says what is lost; the
      JSON parser ends on every text with a value in range; doubles are read to the nearest;
      parsers read past short buffers exactly where the theorem says so.
    - Memory of the client: which logger the library holds and which were deleted.

    ** Fuel and bounds

    Loops on structured data are structural. [Fuel] bounds four loops that the outside ends: the
    chunks of an NV read, the rounds of a PCR read (of LinuxTpm and of its client), OpenSSL's error
    queue and the blocks of a WinHTTP answer. For the first two the theorems give the fuel that suffices under the laws of a TPM (512
    bytes per chunk, one round per PCR), for the last WinHttp.v gives it (one round more than there are
    bytes); [OutOfFuel] elsewhere means an outside that never ends. Retry loops
    count down the limits of the source (four attempts), and need no fuel. The JSON reader runs
    with fuel computed from its text (one more than the characters left), which is proved
    enough for every text. The SMBIOS walk is bounded by the table's length.

    ** Not modelled

    - The calls of the loggers in the other files: they only write, and what they write is in
      Loggers.v. The logger of the sample app, which formats and drops its text.
    - Frees by smart pointers and failing allocations: the C++ run-time does both. On Windows the
      destructors are modelled, because some destroy handles twice or throw; those of certificates
      run where the chain for tests is made, and where else such objects die is left out.
    - The Windows build of the client library (its TPM calls, the TCG log) and AZURE_LOCAL.
    - Third-party code: nlohmann::json, Boost, curl, OpenSSL, CNG and tpm2-tss are signatures or
      interfaces. Of the vendored jsoncpp: comments as parts of values, OurReader, the Fast and
      Styled writers, paths, the texts of error messages and, in the writer and the
      accessors, values of 1 GiB and more; the reader keeps its 32-bit sizes.
    - Tests, scripts, the Python bindings, Tss2LogController.h (no object of it is made) and the build.
*)

From Stdlib Require Export ZArith Lia.
From Stdlib Require Export Strings.String Strings.Byte.
From stdpp Require Export base list gmap sets.

#[export] Set Default Goal Selector "!".

(** ** Bytes and strings

    [std::string] and [std::vector<unsigned char>] are both sequences of bytes;
    they are modelled by [list byte], and the conversions between the two
    (constructors from an iterator pair) are the identity. *)

Notation byte := Byte.byte.
Notation bytes := (list byte).

#[export] Instance byte_eq_dec : EqDecision byte := Byte.byte_eq_dec.

Definition str (s : string) : bytes := list_byte_of_string s.
Arguments str s%_string_scope.

Definition z_of_byte (b : byte) : Z := Z.of_N (Byte.to_N b).
Definition byte_of_z (z : Z) : byte :=
  match Byte.of_N (Z.to_N (z mod 256)) with Some b => b | None => x00 end.

Lemma byte_of_z_of_byte b : byte_of_z (z_of_byte b) = b.
Proof. destruct b; reflexivity. Qed.

#[export] Instance byte_countable : Countable byte.
Proof.
  refine (inj_countable z_of_byte (fun z => Some (byte_of_z z)) _).
  intros b. by rewrite byte_of_z_of_byte.
Defined.

Lemma z_of_byte_range b : (0 <= z_of_byte b < 256)%Z.
Proof. destruct b; vm_compute; split; congruence. Qed.

Lemma z_of_byte_inj b1 b2 : z_of_byte b1 = z_of_byte b2 -> b1 = b2.
Proof. intros E. rewrite <- (byte_of_z_of_byte b1), E. apply byte_of_z_of_byte. Qed.

Lemma z_of_byte_of_z z : (0 <= z < 256)%Z -> z_of_byte (byte_of_z z) = z.
Proof.
  intros Hz. unfold byte_of_z. rewrite Z.mod_small by lia.
  destruct (Byte.of_N (Z.to_N z)) eqn:E.
  - apply Byte.to_of_N in E. unfold z_of_byte. rewrite E. lia.
  - apply Byte.of_N_None_iff in E. lia.
Qed.

(** A property of all bytes is checked by evaluating it on the 256 of them. *)
Ltac by_bytes b := revert b; intros b; destruct b; (reflexivity || discriminate).

Definition size (l : bytes) : Z := Z.of_nat (length l).
Definition count_byte (c : byte) (l : bytes) : nat :=
  length (filter (fun x => x = c) l).

Lemma count_byte_app c l k : count_byte c (l ++ k) = count_byte c l + count_byte c k.
Proof. unfold count_byte. by rewrite list.filter_app, length_app. Qed.

Lemma count_byte_replicate c n : count_byte c (replicate n c) = n.
Proof.
  unfold count_byte. induction n as [|n IH]; [done|]. simpl.
  rewrite filter_cons_True by done. simpl. by rewrite IH.
Qed.

Lemma count_byte_none c l : Forall (fun x => x <> c) l -> count_byte c l = 0.
Proof.
  unfold count_byte. induction 1 as [|x l Hx _ IH]; [done|].
  by rewrite filter_cons_False.
Qed.

(** [s.find(c)] and [s.rfind(c)] for a character; [None] is [npos]. *)
Fixpoint find_byte (c : byte) (l : bytes) : option nat :=
  match l with
  | [] => None
  | x :: l' => if decide (x = c) then Some 0 else S <$> find_byte c l'
  end.
Fixpoint rfind_byte (c : byte) (l : bytes) : option nat :=
  match l with
  | [] => None
  | x :: l' => match rfind_byte c l' with
               | Some n => Some (S n)
               | None => if decide (x = c) then Some 0 else None
               end
  end.
(** [s.find(p)] for a string, and [s.substr(pos, n)] with [pos] in range. *)
Fixpoint is_prefix (p l : bytes) : bool :=
  match p, l with
  | [], _ => true
  | a :: p', b :: l' => bool_decide (a = b) && is_prefix p' l'
  | _, [] => false
  end.
Fixpoint find_str (p l : bytes) : option nat :=
  if is_prefix p l then Some 0
  else match l with [] => None | _ :: l' => S <$> find_str p l' end.
Definition substr (l : bytes) (pos n : nat) : bytes := take n (drop pos l).

Lemma is_prefix_iff p l : is_prefix p l = true <-> exists b, l = p ++ b.
Proof.
  split.
  - revert l. induction p as [|a p IH]; intros [|b l]; cbn; try done; [by eexists|by eexists|].
    intros [->%bool_decide_eq_true [b' ->]%IH]%andb_true_iff. by eexists.
  - intros [b ->]. induction p as [|a p IH]; cbn; [done|]. by rewrite bool_decide_eq_true_2.
Qed.
Lemma find_str_is_Some p l : is_Some (find_str p l) <-> exists a b, l = a ++ p ++ b.
Proof.
  induction l as [|x l IH]; cbn [find_str]; (destruct (is_prefix p _) eqn:Hp;
    [split; [|by eexists]; intros _; apply is_prefix_iff in Hp as [b ->]; by exists [], b|]).
  - split; [by intros []|]. intros (a & b & Hab). destruct a; [|done].
    assert (is_prefix p [] = true) by (apply is_prefix_iff; by exists b). congruence.
  - rewrite fmap_is_Some, IH. split; intros (a & b & Hab); [exists (x :: a), b; by rewrite Hab|].
    destruct a as [|y a]; [|injection Hab as -> ->; by exists a, b].
    assert (is_prefix p (x :: l) = true) by (apply is_prefix_iff; by exists b). congruence.
Qed.
Lemma find_str_Some p l n : find_str p l = Some n -> p <> [] ->
  l = take n l ++ p ++ drop (n + length p) l /\ find_str p (take n l) = None.
Proof.
  revert n. induction l as [|x l IH]; intros n Hn Hne; cbn [find_str] in Hn.
  all: destruct (is_prefix p _) eqn:Hp; [injection Hn as <-; apply is_prefix_iff in Hp as [b Hb]|].
  1,3: rewrite Hb; cbn; rewrite drop_app_length; split; [done|by destruct p].
  - done.
  - destruct (find_str p l) as [m|] eqn:Hm; [|done]. injection Hn as <-. destruct (IH m eq_refl Hne) as [Hl Hno].
    cbn [take Nat.add drop app find_str]. split; [by f_equal|].
    replace (is_prefix p (x :: take m l)) with false; [by rewrite Hno|]. symmetry. apply not_true_iff_false.
    intros [b Hb]%is_prefix_iff. assert (is_prefix p (x :: l) = true); [|congruence].
    apply is_prefix_iff. exists (b ++ drop m l). by rewrite app_assoc, <- Hb, <- (take_drop m l) at 1.
Qed.

Lemma find_byte_none c l : Forall (fun x => x <> c) l -> find_byte c l = None.
Proof. induction 1 as [|x l Hx _ IH]; simpl; [done|]. by rewrite decide_False, IH. Qed.
Lemma rfind_byte_none c l : Forall (fun x => x <> c) l -> rfind_byte c l = None.
Proof. induction 1 as [|x l Hx _ IH]; simpl; [done|]. by rewrite IH, decide_False. Qed.
Lemma find_byte_app c l k :
  Forall (fun x => x <> c) l -> find_byte c (l ++ c :: k) = Some (length l).
Proof.
  induction 1 as [|x l Hx _ IH]; simpl; [by rewrite decide_True|].
  by rewrite decide_False, IH.
Qed.
Lemma rfind_byte_app c l k :
  Forall (fun x => x <> c) k -> rfind_byte c (l ++ c :: k) = Some (length l).
Proof.
  intros Hk. induction l as [|x l IH]; simpl; [by rewrite rfind_byte_none, decide_True|].
  by rewrite IH.
Qed.
Lemma find_byte_lt c l n : find_byte c l = Some n -> n < length l.
Proof.
  revert n. induction l as [|x l IH]; intros n; simpl; [done|].
  case_decide; [intros [= <-]; lia|].
  destruct (find_byte c l) as [m|]; intros [= <-]. specialize (IH m eq_refl). lia.
Qed.
Lemma rfind_byte_lt c l n : rfind_byte c l = Some n -> n < length l.
Proof.
  revert n. induction l as [|x l IH]; intros n; simpl; [done|].
  destruct (rfind_byte c l) as [m|]; [intros [= <-]; specialize (IH m eq_refl); lia|].
  case_decide; [intros [= <-]; lia|done].
Qed.

(** Wrap-around of the fixed-width unsigned and two's-complement integers. *)
Definition u16 (z : Z) : Z := z mod 2 ^ 16.
Definition u32 (z : Z) : Z := z mod 2 ^ 32.
Definition u64 (z : Z) : Z := z mod 2 ^ 64.
Definition s32 (z : Z) : Z :=
  let r := u32 z in if (r <? 2 ^ 31)%Z then r else (r - 2 ^ 32)%Z.
Lemma s32_small z : (0 <= z < 2 ^ 31)%Z -> s32 z = z.
Proof. unfold s32, u32. intros H. rewrite Z.mod_small by lia. destruct (_ <? _)%Z eqn:?; lia. Qed.
(** A two's-complement integer of [w] bits *)
Definition wrap_signed (w z : Z) : Z :=
  (let r := z mod 2 ^ w in if r <? 2 ^ (w - 1) then r else r - 2 ^ w)%Z.
Lemma wrap_signed_small w z : (0 < w)%Z -> (0 <= z < 2 ^ (w - 1))%Z -> wrap_signed w z = z.
Proof.
  intros Hw Hz. unfold wrap_signed.
  assert (2 ^ w = 2 * 2 ^ (w - 1))%Z by (rewrite <- Z.pow_succ_r by lia; f_equal; lia).
  rewrite Z.mod_small by lia. destruct (_ <? _)%Z eqn:?; lia.
Qed.
Lemma u16_small z : (0 <= z < 2 ^ 16)%Z -> u16 z = z.
Proof. apply Z.mod_small. Qed.

(** Numbers in decimal, as [std::to_string] prints them. *)
Fixpoint digits_fuel (n : nat) (z : Z) : bytes :=
  match n with
  | 0 => []
  | S n' => (if z <? 10 then [] else digits_fuel n' (z / 10))%Z ++ [byte_of_z (48 + z mod 10)]
  end.
Definition digits (z : Z) : bytes := digits_fuel (S (Z.to_nat (Z.log2 z))) z.
Definition z_text (z : Z) : bytes :=
  if (z <? 0)%Z then "-"%byte :: digits (- z) else digits z.

(** ** Outcomes

    A C++ function returns, throws, or leaves the language: undefined
    behaviour, and [std::terminate] when an exception reaches a [noexcept]
    boundary, are values of their own so that theorems can exclude them. *)

Inductive json_error := ParseErr | TypeErr | OutOfRangeErr | OtherJsonErr.

Inductive exn :=
| RuntimeError (what : bytes)
| InvalidArgument (what : bytes)
| StdOutOfRange (what : bytes)
| LengthError (what : bytes)
| BadAlloc
| DataflowException (what : bytes)            (* boost::archive::iterators *)
| JsonError (kind : json_error) (what : bytes) (* nlohmann::json *)
| TpmErr (rc : Z) (what : bytes) (librc : Z)
| OsslErr (code : Z) (what : bytes)
| JwtErr (what : bytes) (librc : Z)
| Tss2Exception (what : bytes) (rc : Z)
| JsoncppError (what : bytes)                 (* Json::LogicError *)
| SkrErr (code : Z) (what : bytes)
| BcryptErr (status : Z) (what : bytes) (librc : Z)
| WinCryptErr (what : bytes) (errorcode : Z) (librc : Z)
| UnknownThrown.                              (* not derived from std::exception *)

(** The class hierarchy, for the matching of catch clauses. *)
Definition is_runtime_error (e : exn) : bool :=
  match e with
  | RuntimeError _ | TpmErr _ _ _ | OsslErr _ _ | JwtErr _ _ | Tss2Exception _ _ | SkrErr _ _
  | BcryptErr _ _ _ | WinCryptErr _ _ _ => true
  | _ => false
  end.
Definition is_std_exception (e : exn) : bool :=
  match e with UnknownThrown => false | _ => true end.
Definition what (e : exn) : bytes :=
  match e with
  | RuntimeError w | InvalidArgument w | StdOutOfRange w | LengthError w
  | DataflowException w | JsonError _ w | TpmErr _ w _ | OsslErr _ w
  | JwtErr w _ | Tss2Exception w _ | JsoncppError w | SkrErr _ w
  | BcryptErr _ w _ | WinCryptErr w _ _ => w
  | BadAlloc => str "std::bad_alloc"
  | UnknownThrown => []
  end.

(** Case analysis on an exception and its kind. *)
Ltac destruct_exn e := destruct e; repeat match goal with k : json_error |- _ => destruct k end.

Inductive fault := UndefinedBehaviour | StdTerminate | OutOfFuel.

Inductive outcome (A : Type) :=
| Ret (a : A)
| Throw (e : exn)
| Fault (f : fault).
Arguments Ret {A} a.
Arguments Throw {A} e.
Arguments Fault {A} f.

#[export] Instance outcome_ret : MRet outcome := fun A a => Ret a.
#[export] Instance outcome_bind : MBind outcome := fun A B k m =>
  match m with Ret a => k a | Throw e => Throw e | Fault x => Fault x end.
#[export] Instance outcome_fmap : FMap outcome := fun A B f m =>
  match m with Ret a => Ret (f a) | Throw e => Throw e | Fault x => Fault x end.

(** [guard_throw b e]: [if (!b) throw e;] *)
Definition guard_throw (b : bool) (e : exn) : outcome unit :=
  if b then Ret tt else Throw e.

Definition noexcept {A} (m : outcome A) : outcome A :=
  match m with Throw _ => Fault StdTerminate | _ => m end.

(** [returns m]: [m] neither throws nor leaves the language. *)
Definition returns {A} (m : outcome A) : Prop := exists a, m = Ret a.

Lemma outcome_bind_ret {A B} (m : outcome A) (k : A -> outcome B) b :
  (m ≫= k) = Ret b -> exists a, m = Ret a /\ k a = Ret b.
Proof. destruct m; simpl; intros; simplify_eq; eauto. Qed.

(** Whatever [m] throws satisfies [X]. *)
Definition othrows {A} (X : exn -> Prop) (m : outcome A) : Prop := forall e, m = Throw e -> X e.

Lemma othrows_ret {A} X (a : A) : othrows X (Ret a).
Proof. by intros e. Qed.
Lemma othrows_throw {A} (X : exn -> Prop) e : X e -> othrows (A := A) X (Throw e).
Proof. by intros H e' [= <-]. Qed.
Lemma othrows_bind {A B} X (m : outcome A) (k : A -> outcome B) :
  othrows X m -> (forall a, othrows X (k a)) -> othrows X (m ≫= k).
Proof. intros Hm Hk e. destruct m; simpl; [apply Hk| |done]. intros [= <-]. by apply Hm. Qed.

(** [v.resize(n)] of a byte vector: [n] is a [size_t]; a request above
    [max_size] throws, a longer one value-initialises the new elements. *)
Definition vector_max_size : Z := 2 ^ 63 - 1.
Definition resize (l : bytes) (n : Z) : outcome bytes :=
  if (vector_max_size <? n)%Z then Throw (LengthError (str "vector::_M_default_append"))
  else Ret (take (Z.to_nat n) l ++ replicate (Z.to_nat n - length l) x00).

Lemma resize_shrink l k :
  (size (l ++ k) <= vector_max_size)%Z -> resize (l ++ k) (size l) = Ret l.
Proof.
  unfold resize, size. rewrite length_app. intros H.
  rewrite (proj2 (Z.ltb_ge _ _)) by lia.
  rewrite Nat2Z.id, take_app_length.
  replace (length l - (length l + length k)) with 0 by lia.
  by rewrite app_nil_r.
Qed.

Lemma resize_underflow l n :
  (0 < n <= vector_max_size)%Z -> (size l < n)%Z ->
  resize l (u64 (size l - n)) = Throw (LengthError (str "vector::_M_default_append")).
Proof.
  unfold resize, u64, size, vector_max_size. intros Hn Hl.
  replace ((Z.of_nat (length l) - n) mod 2 ^ 64)%Z with (Z.of_nat (length l) - n + 2 ^ 64)%Z.
  2: { apply (Z.mod_unique _ _ (-1)); lia. }
  by rewrite (proj2 (Z.ltb_lt _ _)) by lia.
Qed.

Lemma othrows_resize (X : exn -> Prop) l n :
  (forall w, X (LengthError w)) -> othrows X (resize l n).
Proof.
  intros HX. unfold resize. destruct (_ <? n)%Z; [by apply othrows_throw|apply othrows_ret].
Qed.

(** ** Memory: reading [n] bytes at an offset, little-endian integers of 32 bits, and writing into a
    buffer; what lies outside is undefined. *)
Definition read_bytes (buf : bytes) (off n : Z) : outcome bytes :=
  if (off + n <=? size buf)%Z then Ret (take (Z.to_nat n) (drop (Z.to_nat off) buf))
  else Fault UndefinedBehaviour.
Fixpoint le (l : bytes) : Z := match l with [] => 0%Z | b :: l' => (z_of_byte b + 256 * le l')%Z end.
Definition read_u32 (buf : bytes) (off : Z) : outcome Z := d ← read_bytes buf off 4; Ret (le d).
Definition u32_bytes (z : Z) : bytes :=
  map (fun k => byte_of_z (Z.shiftr z (8 * k) mod 256)) [0; 1; 2; 3]%Z.
Definition overwrite (buf : bytes) (off : Z) (out : bytes) : outcome bytes :=
  if bool_decide (0 <= off /\ off + size out <= size buf)%Z
  then Ret (take (Z.to_nat off) buf ++ out ++ drop (Z.to_nat (off + size out)) buf)
  else Fault UndefinedBehaviour.

Lemma size_app (a b : bytes) : size (a ++ b) = (size a + size b)%Z.
Proof. unfold size. rewrite length_app. lia. Qed.
Lemma overwrite_at a z o : (size o <= size z)%Z -> overwrite (a ++ z) (size a) o = Ret (a ++ o ++ drop (length o) z).
Proof.
  intros Ho. unfold overwrite. rewrite bool_decide_eq_true_2 by (unfold size in *; rewrite length_app; lia).
  unfold size. rewrite Nat2Z.id, take_app_length. do 3 f_equal.
  replace (Z.to_nat _) with (length a + length o)%nat by lia. by rewrite drop_app_add.
Qed.
Lemma read_bytes_ok buf off n : (off + n <= size buf)%Z ->
  read_bytes buf off n = Ret (take (Z.to_nat n) (drop (Z.to_nat off) buf)).
Proof. intros Hn. unfold read_bytes. by rewrite (proj2 (Z.leb_le _ _)). Qed.
Lemma read_bytes_fault buf off n : (size buf < off + n)%Z ->
  read_bytes buf off n = Fault UndefinedBehaviour.
Proof. intros Hn. unfold read_bytes. by rewrite (proj2 (Z.leb_gt _ _)). Qed.
Lemma read_bytes_no_throw buf off n : othrows (fun _ => False) (read_bytes buf off n).
Proof. unfold read_bytes. by case_match. Qed.

(** ** Computations with effects

    A call out of the program (to the TPM, to OpenSSL, to the network, to the
    clock) is a value of an event signature [E : Type -> Type], whose index is
    the type of the answer. What answers the calls is a [Handler]: theorems
    quantify over every handler, or assume laws of it.  A computation threads
    the handler's state, returns an outcome, and records the calls it made with
    their answers, in order. *)

Class Handler (E : Type -> Type) (S : Type) :=
  handle : forall R : Type, E R -> S -> R * S.
Arguments handle {E S _ R} e s.

Inductive event (E : Type -> Type) : Type :=
| Ev (R : Type) (e : E R) (r : R).
Arguments Ev {E R} e r.

Record result (E : Type -> Type) (S A : Type) :=
  Res { res : outcome A; post : S; evs : list (event E) }.
Arguments Res {E S A} res post evs.
Arguments res {E S A} r.
Arguments post {E S A} r.
Arguments evs {E S A} r.

Definition M (E : Type -> Type) (S A : Type) : Type := S -> result E S A.

#[export] Instance M_ret E S : MRet (M E S) := fun A a s => Res (Ret a) s [].
#[export] Instance M_bind E S : MBind (M E S) := fun A B k m s =>
  match m s with
  | Res (Ret a) s1 t1 => match k a s1 with Res o s2 t2 => Res o s2 (t1 ++ t2) end
  | Res (Throw e) s1 t1 => Res (Throw e) s1 t1
  | Res (Fault x) s1 t1 => Res (Fault x) s1 t1
  end.

Definition lift {E S A} (o : outcome A) : M E S A := fun s => Res o s [].
Definition throw {E S A} (e : exn) : M E S A := lift (Throw e).
Definition fault_with {E S A} (x : fault) : M E S A := lift (Fault x).
Definition call {E S R} `{Handler E S} (e : E R) : M E S R := fun s =>
  let '(r, s1) := handle e s in Res (Ret r) s1 [Ev e r].

(** [try { m } catch ...]: [h] is the chain of catch clauses, in order, and
    answers [None] for an exception none of them matches. *)
Definition try_catch {E S A} (m : M E S A) (h : exn -> option (M E S A)) : M E S A :=
  fun s => match m s with
           | Res (Throw e) s1 t1 =>
               match h e with
               | Some k => match k s1 with Res o s2 t2 => Res o s2 (t1 ++ t2) end
               | None => Res (Throw e) s1 t1
               end
           | r => r
           end.
Definition try_all {E S A} (m : M E S A) (h : exn -> M E S A) : M E S A :=
  try_catch m (fun e => Some (h e)).

(** Destructors: [d] runs when [m] returns and when it throws. *)
Definition finally {E S A} (m : M E S A) (d : M E S unit) : M E S A := fun s =>
  match m s with
  | Res (Fault x) s1 t1 => Res (Fault x) s1 t1
  | Res o s1 t1 => match d s1 with
                   | Res (Ret _) s2 t2 => Res o s2 (t1 ++ t2)
                   | Res (Throw _) s2 t2 => Res (Fault StdTerminate) s2 (t1 ++ t2)
                   | Res (Fault x) s2 t2 => Res (Fault x) s2 (t1 ++ t2)
                   end
  end.

Definition noexcept_m {E S A} (m : M E S A) : M E S A := fun s =>
  match m s with
  | Res (Throw _) s1 t1 => Res (Fault StdTerminate) s1 t1
  | r => r
  end.

(** *** Weakest preconditions *)

Definition post_cond (E : Type -> Type) (S A : Type) : Type :=
  outcome A -> S -> list (event E) -> Prop.
Definition wp {E S A} (m : M E S A) (s : S) (Q : post_cond E S A) : Prop :=
  Q (res (m s)) (post (m s)) (evs (m s)).

Section WP.
Context {E : Type -> Type} {S : Type}.
Implicit Types s : S.

Lemma wp_mono {A} (m : M E S A) s (Q Q' : post_cond E S A) :
  wp m s Q -> (forall o s' t, Q o s' t -> Q' o s' t) -> wp m s Q'.
Proof. unfold wp. auto. Qed.

Lemma wp_ret {A} (a : A) s (Q : post_cond E S A) : Q (Ret a) s [] -> wp (mret a) s Q.
Proof. done. Qed.

Lemma wp_lift {A} (o : outcome A) s (Q : post_cond E S A) : Q o s [] -> wp (lift o) s Q.
Proof. done. Qed.

Lemma wp_bind {A B} (m : M E S A) (k : A -> M E S B) s (Q : post_cond E S B) :
  wp m s (fun o s1 t1 =>
    match o with
    | Ret a => wp (k a) s1 (fun o2 s2 t2 => Q o2 s2 (t1 ++ t2))
    | Throw e => Q (Throw e) s1 t1
    | Fault x => Q (Fault x) s1 t1
    end) -> wp (m ≫= k) s Q.
Proof.
  unfold wp, mbind, M_bind. destruct (m s) as [[a|e|x] s1 t1]; simpl; try done.
  by destruct (k a s1).
Qed.

Lemma wp_call {R} `{Handler E S} (e : E R) s (Q : post_cond E S R) :
  (forall r s1, handle e s = (r, s1) -> Q (Ret r) s1 [Ev e r]) -> wp (call e) s Q.
Proof. unfold wp, call. destruct (handle e s) as [r s1]; simpl. auto. Qed.

Lemma wp_try {A} (m : M E S A) h s (Q : post_cond E S A) :
  wp m s (fun o s1 t1 =>
    match o with
    | Throw e => match h e with
                 | Some k => wp k s1 (fun o2 s2 t2 => Q o2 s2 (t1 ++ t2))
                 | None => Q (Throw e) s1 t1
                 end
    | o => Q o s1 t1
    end) -> wp (try_catch m h) s Q.
Proof.
  unfold wp, try_catch. destruct (m s) as [[a|e|x] s1 t1]; simpl; try done.
  destruct (h e) as [k|]; simpl; [|done]. by destruct (k s1).
Qed.

Lemma wp_finally {A} (m : M E S A) d s (Q : post_cond E S A) :
  wp m s (fun o s1 t1 =>
    match o with
    | Fault x => Q (Fault x) s1 t1
    | o => wp d s1 (fun o2 s2 t2 =>
             match o2 with
             | Ret _ => Q o s2 (t1 ++ t2)
             | Throw _ => Q (Fault StdTerminate) s2 (t1 ++ t2)
             | Fault x => Q (Fault x) s2 (t1 ++ t2)
             end)
    end) -> wp (finally m d) s Q.
Proof.
  unfold wp, finally. destruct (m s) as [[a|e|x] s1 t1]; simpl; try done.
  all: by destruct (d s1) as [[?|?|?] s2 t2].
Qed.

Lemma wp_noexcept {A} (m : M E S A) s (Q : post_cond E S A) :
  wp m s (fun o s1 t1 =>
    match o with Throw _ => Q (Fault StdTerminate) s1 t1 | o => Q o s1 t1 end) ->
  wp (noexcept_m m) s Q.
Proof. unfold wp, noexcept_m. by destruct (m s) as [[a|e|x] s1 t1]. Qed.

(** *** Trace properties: every call a computation makes satisfies [P]. *)
Definition emits {A} (P : event E -> Prop) (m : M E S A) : Prop :=
  forall s, Forall P (evs (m s)).

Variable P : event E -> Prop.

Lemma emits_ret {A} (a : A) : emits P (mret a).
Proof. intros s. constructor. Qed.
Lemma emits_lift {A} (o : outcome A) : emits P (lift o).
Proof. intros s. constructor. Qed.
Lemma emits_call {R} `{Handler E S} (e : E R) : (forall r, P (Ev e r)) -> emits P (call e).
Proof.
  intros He s. unfold call. destruct (handle e s). simpl. by repeat constructor.
Qed.
Lemma emits_bind {A B} (m : M E S A) (k : A -> M E S B) :
  emits P m -> (forall a, emits P (k a)) -> emits P (m ≫= k).
Proof.
  intros Hm Hk s. unfold mbind, M_bind. specialize (Hm s).
  destruct (m s) as [[a|e|x] s1 t1]; simpl in *; try done.
  specialize (Hk a s1). destruct (k a s1); simpl in *. by apply Forall_app.
Qed.
Lemma emits_try {A} (m : M E S A) h :
  emits P m -> (forall e k, h e = Some k -> emits P k) -> emits P (try_catch m h).
Proof.
  intros Hm Hk s. unfold try_catch. specialize (Hm s).
  destruct (m s) as [[a|e|x] s1 t1]; simpl in *; try done.
  destruct (h e) as [k|] eqn:Eh; [|done]. specialize (Hk e k Eh s1).
  destruct (k s1); simpl in *. by apply Forall_app.
Qed.
Lemma emits_finally {A} (m : M E S A) d :
  emits P m -> emits P d -> emits P (finally m d).
Proof.
  intros Hm Hd s. unfold finally. specialize (Hm s).
  destruct (m s) as [[a|e|x] s1 t1]; simpl in *; try done.
  all: specialize (Hd s1); destruct (d s1) as [[?|?|?] s2 t2]; simpl in *.
  all: by apply Forall_app.
Qed.
Lemma emits_noexcept {A} (m : M E S A) : emits P m -> emits P (noexcept_m m).
Proof.
  intros Hm s. unfold noexcept_m. specialize (Hm s). by destruct (m s) as [[a|e|x] s1 t1].
Qed.

(** *** Exceptions: whatever a computation throws satisfies [X]. *)
Definition throws {A} (X : exn -> Prop) (m : M E S A) : Prop :=
  forall s e, res (m s) = Throw e -> X e.

Variable X : exn -> Prop.

Lemma throws_ret {A} (a : A) : throws X (mret a).
Proof. by intros s e. Qed.
Lemma throws_lift {A} (o : outcome A) : othrows X o -> throws X (lift o).
Proof. intros H s e. apply H. Qed.
Lemma throws_throw {A} e : X e -> throws (A := A) X (throw e).
Proof. by intros H s e' [= <-]. Qed.
Lemma throws_call {R} `{Handler E S} (e : E R) : throws X (call e).
Proof. intros s x. unfold call. destruct (handle e s). discriminate. Qed.
Lemma throws_bind {A B} (m : M E S A) (k : A -> M E S B) :
  throws X m -> (forall a, throws X (k a)) -> throws X (m ≫= k).
Proof.
  intros Hm Hk s e. unfold mbind, M_bind. specialize (Hm s).
  destruct (m s) as [[a|e'|x] s1 t1]; simpl in *; [|by intros [= <-]; apply Hm|done].
  specialize (Hk a s1). destruct (k a s1); simpl in *. apply Hk.
Qed.
Lemma throws_try {A} (m : M E S A) h :
  throws X m -> (forall e k, h e = Some k -> throws X k) -> throws X (try_catch m h).
Proof.
  intros Hm Hk s e. unfold try_catch. specialize (Hm s).
  destruct (m s) as [[a|e'|x] s1 t1]; simpl in *; try done.
  destruct (h e') as [k|] eqn:Eh; [|intros [= <-]; by apply Hm].
  specialize (Hk e' k Eh s1). destruct (k s1); simpl in *. apply Hk.
Qed.
(** The handlers only see what the body throws. *)
Lemma throws_caught {A} (Y : exn -> Prop) (m : M E S A) h :
  throws X m -> (forall e, X e -> match h e with Some k => throws Y k | None => Y e end) ->
  throws Y (try_catch m h).
Proof.
  intros Hm Hh s e. unfold try_catch. specialize (Hm s).
  destruct (m s) as [[a|x|f] s1 t1]; simpl in *; [discriminate| |discriminate].
  specialize (Hh x (Hm x eq_refl)). destruct (h x) as [k|]; [|by intros [= <-]].
  specialize (Hh s1). destruct (k s1); simpl in *. apply Hh.
Qed.
Lemma throws_try_all {A} (m : M E S A) h :
  (forall e, throws X (h e)) -> throws X (try_all m h).
Proof.
  intros Hk s e. unfold try_all, try_catch.
  destruct (m s) as [[a|e'|x] s1 t1]; simpl in *; try done.
  specialize (Hk e' s1). destruct (h e' s1); simpl in *. apply Hk.
Qed.
Lemma throws_finally {A} (m : M E S A) d : throws X m -> throws X (finally m d).
Proof.
  intros Hm s e. unfold finally. specialize (Hm s).
  destruct (m s) as [[a|e'|x] s1 t1]; simpl in *; try done.
  all: destruct (d s1) as [[?|?|?] s2 t2]; simpl; try done; auto.
Qed.
Lemma throws_noexcept {A} (m : M E S A) : throws X (noexcept_m m).
Proof. intros s e. unfold noexcept_m. destruct (m s) as [[a|e'|x] s1 t1]; discriminate. Qed.

(** *** Results: whatever a computation returns satisfies [Y]. *)
Definition yields {A} (Y : A -> Prop) (m : M E S A) : Prop :=
  forall s a, res (m s) = Ret a -> Y a.

Lemma yields_ret {A} (Y : A -> Prop) a : Y a -> yields Y (mret a).
Proof. by intros H s a' [= <-]. Qed.
Lemma yields_lift {A} (Y : A -> Prop) (o : outcome A) :
  (forall a, o = Ret a -> Y a) -> yields Y (lift o).
Proof. intros H s a. apply H. Qed.
Lemma yields_true {A} (m : M E S A) : yields (fun _ => True) m.
Proof. done. Qed.
Lemma yields_bind_strong {A B} (Z : A -> Prop) (Y : B -> Prop) (m : M E S A) (k : A -> M E S B) :
  yields Z m -> (forall a, Z a -> yields Y (k a)) -> yields Y (m ≫= k).
Proof.
  intros Hm Hk s b. unfold mbind, M_bind. specialize (Hm s).
  destruct (m s) as [[a|e|x] s1 t1]; simpl in *; try discriminate.
  specialize (Hk a (Hm a eq_refl) s1 b). destruct (k a s1); simpl in *. apply Hk.
Qed.
Lemma yields_bind {A B} (Y : B -> Prop) (m : M E S A) (k : A -> M E S B) :
  (forall a, yields Y (k a)) -> yields Y (m ≫= k).
Proof. intros Hk. by apply (yields_bind_strong (fun _ => True)). Qed.
Lemma yields_try_all {A} (Y : A -> Prop) (m : M E S A) h :
  yields Y m -> (forall e, yields Y (h e)) -> yields Y (try_all m h).
Proof.
  intros Hm Hk s a. unfold try_all, try_catch. specialize (Hm s).
  destruct (m s) as [[b|e|x] s1 t1]; simpl in *; [apply Hm| |discriminate].
  specialize (Hk e s1 a). destruct (h e s1); simpl in *. apply Hk.
Qed.
(** The handlers only see exceptions that satisfy [X]. *)
Lemma yields_try_throws {A} (Y : A -> Prop) (m : M E S A) h :
  yields Y m -> throws X m -> (forall e, X e -> yields Y (h e)) -> yields Y (try_all m h).
Proof.
  intros Hm HX Hk s a. unfold try_all, try_catch. specialize (Hm s). specialize (HX s).
  destruct (m s) as [[b|e|x] s1 t1]; simpl in *; [apply Hm| |discriminate].
  specialize (Hk e (HX e eq_refl) s1 a). destruct (h e s1); simpl in *. apply Hk.
Qed.
Lemma yields_finally {A} (Y : A -> Prop) (m : M E S A) d : yields Y m -> yields Y (finally m d).
Proof.
  intros Hm s a. unfold finally. specialize (Hm s).
  destruct (m s) as [[b|e|x] s1 t1]; simpl in *; try discriminate.
  all: destruct (d s1) as [[?|?|?] s2 t2]; simpl; try discriminate; auto.
Qed.

End WP.

Create HintDb throws.
#[export] Hint Resolve throws_ret throws_call throws_noexcept : throws.

Create HintDb emits.
#[export] Hint Resolve emits_ret emits_lift emits_call emits_bind emits_try
  emits_finally emits_noexcept : emits.

(** *** Signatures and their sums

    A component is written against the signature of the calls it makes; [E -< F]
    embeds it in the signature of the program that uses it. *)

Class Sub (E F : Type -> Type) := inj : forall R : Type, E R -> F R.
Arguments inj {E F _ R} e.
Notation "E -< F" := (Sub E F) (at level 70).

Inductive sumE (E F : Type -> Type) (R : Type) : Type :=
| InL (e : E R)
| InR (f : F R).
Arguments InL {E F R} e.
Arguments InR {E F R} f.

#[export] Instance sub_refl E : E -< E | 5 := fun R e => e.
#[export] Instance sub_left E F : E -< sumE E F | 1 := fun R e => InL e.
#[export] Instance sub_right E F G : F -< G -> F -< sumE E G | 2 := fun i R e => InR (i R e).

Definition trig {E F S R} `{Handler F S} `{E -< F} (e : E R) : M F S R := call (inj e).

Lemma wp_trig {E F S R} `{Handler F S} `{E -< F} (e : E R) s (Q : post_cond F S R) :
  (forall r s1, handle (inj e) s = (r, s1) -> Q (Ret r) s1 [Ev (inj e) r]) -> wp (trig e) s Q.
Proof. apply wp_call. Qed.
Lemma emits_trig {E F S R} `{Handler F S} `{E -< F} P (e : E R) :
  (forall r, P (Ev (inj e) r)) -> emits P (trig (S := S) e).
Proof. apply emits_call. Qed.
#[export] Hint Resolve emits_trig : emits.

(** [for (x : l) m x], and the pattern [if (bad) throw e;]. *)
Fixpoint for_each {E S A} (l : list A) (m : A -> M E S unit) : M E S unit :=
  match l with [] => mret tt | x :: l' => m x ≫= fun _ => for_each l' m end.
Definition require {E S} (b : bool) (e : exn) : M E S unit :=
  if b then mret tt else throw e.

Lemma wp_require {E S} b e s (Q : post_cond E S unit) :
  (b = true -> Q (Ret tt) s []) -> (b = false -> Q (Throw e) s []) -> wp (require b e) s Q.
Proof. destruct b; unfold wp; simpl; auto. Qed.
Lemma emits_require {E S} P b e : emits (E := E) (S := S) P (require b e).
Proof. unfold require. destruct b; intros s; constructor. Qed.
#[export] Hint Resolve emits_require : emits.

Lemma throws_trig {E F S R} `{Handler F S} `{E -< F} X (e : E R) : throws X (trig (S := S) e).
Proof. apply throws_call. Qed.
Lemma throws_require {E S} X b e :
  (b = false -> X e) -> throws (E := E) (S := S) X (require b e).
Proof. unfold require. destruct b; intros HX s e'; simpl; [done|]. intros [= <-]. auto. Qed.
#[export] Hint Resolve throws_trig : throws.

(** What a returning [m ≫= k] did: the parts, and their calls in order. *)
Lemma bind_ret_inv {E S A B} (m : M E S A) (k : A -> M E S B) s b s2 t :
  (m ≫= k) s = Res (Ret b) s2 t ->
  exists a s1 t1 t2, m s = Res (Ret a) s1 t1 /\ k a s1 = Res (Ret b) s2 t2 /\ t = t1 ++ t2.
Proof.
  unfold mbind, M_bind. destruct (m s) as [[a|e|x] s1 t1]; [|done..].
  destruct (k a s1) as [o s3 t3] eqn:Ek. intros; simplify_eq. eauto 10.
Qed.

Lemma bind_pure {E S A B} (m : M E S A) (k : A -> M E S B) s a :
  m s = Res (Ret a) s [] -> (m ≫= k) s = k a s.
Proof. unfold mbind, M_bind. intros ->. by destruct (k a s). Qed.
Lemma trig_ret_inv {E F S R} `{Handler F S} `{E -< F} (e : E R) s r s' t :
  trig e s = Res (Ret r) s' t -> t = [Ev (inj e) r].
Proof. unfold trig, call. destruct (handle (inj e) s). by intros; simplify_eq. Qed.

(** *** Local variables and destructors

    A variable that is assigned inside a scope, and read by a destructor when the
    scope is left, normally or by an exception, is a component added to the state
    of the scope's body. *)

#[export] Instance handler_local {F S L} `{Handler F S} : Handler F (S * L) :=
  fun R e s => let '(r, s1) := handle e (fst s) in (r, (s1, snd s)).
Definition get_local {F S L} : M F (S * L) L := fun s => Res (Ret (snd s)) s [].
Definition put_local {F S L} (l : L) : M F (S * L) unit :=
  fun s => Res (Ret tt) (fst s, l) [].
Definition scoped {F S L A} (init : L) (m : M F (S * L) A) (d : L -> M F S unit) : M F S A :=
  fun s =>
    match m (s, init) with
    | Res (Fault x) s1 t1 => Res (Fault x) (fst s1) t1
    | Res o s1 t1 =>
        match d (snd s1) (fst s1) with
        | Res (Ret _) s2 t2 => Res o s2 (t1 ++ t2)
        | Res (Throw _) s2 t2 => Res (Fault StdTerminate) s2 (t1 ++ t2)
        | Res (Fault x) s2 t2 => Res (Fault x) s2 (t1 ++ t2)
        end
    end.

(** A computation that does not touch the local variable. *)
Definition zoom {F S L A} (m : M F S A) : M F (S * L) A := fun s =>
  match m (fst s) with Res o s1 t1 => Res o (s1, snd s) t1 end.

Lemma wp_scoped {F S L A} (init : L) (m : M F (S * L) A) d s (Q : post_cond F S A) :
  wp m (s, init) (fun o s1 t1 =>
    match o with
    | Fault x => Q (Fault x) (fst s1) t1
    | o => wp (d (snd s1)) (fst s1) (fun o2 s2 t2 =>
             match o2 with
             | Ret _ => Q o s2 (t1 ++ t2)
             | Throw _ => Q (Fault StdTerminate) s2 (t1 ++ t2)
             | Fault x => Q (Fault x) s2 (t1 ++ t2)
             end)
    end) -> wp (scoped init m d) s Q.
Proof.
  unfold wp, scoped. destruct (m (s, init)) as [[a|e|x] s1 t1]; simpl; try done.
  all: by destruct (d (snd s1) (fst s1)) as [[?|?|?] s2 t2].
Qed.
Lemma emits_scoped {F S L A} P (init : L) (m : M F (S * L) A) (d : L -> M F S unit) :
  emits P m -> (forall l, emits P (d l)) -> emits P (scoped init m d).
Proof.
  intros Hm Hd s. unfold scoped. specialize (Hm (s, init)).
  destruct (m (s, init)) as [[a|e|x] s1 t1]; simpl in *; try done.
  all: specialize (Hd (snd s1) (fst s1));
    destruct (d (snd s1) (fst s1)) as [[?|?|?] s2 t2]; simpl in *; by apply Forall_app.
Qed.
Lemma emits_local {F S L} P (l : L) :
  emits P (get_local (F := F) (S := S) (L := L)) /\ emits P (put_local (F := F) (S := S) l).
Proof. split; intros s; constructor. Qed.
Lemma wp_get_local {F S L} (s : S * L) (Q : post_cond F (S * L) L) :
  Q (Ret (snd s)) s [] -> wp get_local s Q.
Proof. done. Qed.
Lemma wp_put_local {F S L} (l : L) (s : S * L) (Q : post_cond F (S * L) unit) :
  Q (Ret tt) (fst s, l) [] -> wp (put_local l) s Q.
Proof. done. Qed.

(** *** What happened before a computation returned

    [ends P m]: whenever [m] returns [a], having made the calls [t], [P a t]; for [P]
    that other calls around [t] cannot falsify, the last part of a program decides. *)
Definition ends {E S A} (P : A -> list (event E) -> Prop) (m : M E S A) : Prop :=
  forall s a, res (m s) = Ret a -> P a (evs (m s)).
Definition grows {E A} (P : A -> list (event E) -> Prop) : Prop :=
  forall a t1 t t2, P a t -> P a (t1 ++ t ++ t2).

Lemma ends_ret {E S A} (P : A -> list (event E) -> Prop) a : P a [] -> ends (S := S) P (mret a).
Proof. by intros H s a' [= <-]. Qed.
Lemma ends_lift {E S A} (P : A -> list (event E) -> Prop) (o : outcome A) :
  (forall a, o = Ret a -> P a []) -> ends (S := S) P (lift o).
Proof. intros H s a. apply H. Qed.
Lemma ends_mono {E S A} (P Q : A -> list (event E) -> Prop) (m : M E S A) :
  ends P m -> (forall a t, P a t -> Q a t) -> ends Q m.
Proof. intros Hm HPQ s a Ha. auto. Qed.
Lemma ends_trig {E F S R} `{Handler F S} `{E -< F} (P : R -> list (event F) -> Prop) (e : E R) :
  (forall r, P r [Ev (inj e) r]) -> ends P (trig (S := S) e).
Proof. intros HP s a. unfold trig, call. destruct (handle (inj e) s). simpl. by intros [= <-]. Qed.

Lemma wp_ends {E S A} (P : A -> list (event E) -> Prop) (m : M E S A) s :
  ends P m -> wp m s (fun o _ t => forall a, o = Ret a -> P a t).
Proof. intros Hm a Ha. by apply Hm. Qed.

Section Ends.
Context {E : Type -> Type} {S : Type}.

(** The second part knows what the first has returned and done. *)
Lemma ends_bind {A B} (Q : A -> list (event E) -> Prop) (P : B -> list (event E) -> Prop)
    (m : M E S A) (k : A -> M E S B) :
  ends Q m -> (forall a t, Q a t -> ends (fun b t2 => P b (t ++ t2)) (k a)) -> ends P (m ≫= k).
Proof.
  intros Hm Hk s b. unfold mbind, M_bind. specialize (Hm s).
  destruct (m s) as [[a|e|x] s1 t1]; simpl in *; try discriminate.
  specialize (Hk a t1 (Hm a eq_refl) s1 b). destruct (k a s1); simpl in *. apply Hk.
Qed.
Lemma ends_lead {A} (P : A -> list (event E) -> Prop) (m : M E S A) t :
  grows P -> ends P m -> ends (fun a t2 => P a (t ++ t2)) m.
Proof. intros HP Hm s a Ha. rewrite <- (app_nil_r (evs _)). by apply HP, Hm. Qed.
Lemma ends_after {A B} (P : B -> list (event E) -> Prop) (m : M E S A) (k : A -> M E S B) :
  grows P -> (forall a, ends P (k a)) -> ends P (m ≫= k).
Proof.
  intros HP Hk. apply (ends_bind (fun _ _ => True)); [done|]. intros a t _ s b Hb.
  rewrite <- (app_nil_r (evs _)). apply HP. by apply Hk.
Qed.
(** The value returned by [k] is settled by what [m] has done. *)
Lemma ends_before {A B} (Q : A -> list (event E) -> Prop) (P : B -> list (event E) -> Prop)
    (m : M E S A) (k : A -> M E S B) :
  grows P -> ends Q m -> (forall a t, Q a t -> yields (fun b => P b t) (k a)) -> ends P (m ≫= k).
Proof.
  intros HP Hm Hk. apply (ends_bind Q); [done|]. intros a t Ha s b Hb.
  apply (HP b [] t). by eapply Hk.
Qed.
Lemma ends_finally {A} (P : A -> list (event E) -> Prop) (m : M E S A) d :
  grows P -> ends P m -> ends P (finally m d).
Proof.
  intros HP Hm s a. unfold finally. specialize (Hm s).
  destruct (m s) as [[b|e|x] s1 t1]; simpl in *; try discriminate.
  all: destruct (d s1) as [[?|?|?] s2 t2]; simpl; try discriminate.
  intros [= <-]. apply (HP b []). auto.
Qed.
Lemma ends_scoped {L A} (P : A -> list (event E) -> Prop) (init : L) (m : M E (S * L) A) d :
  grows P -> ends P m -> ends P (scoped init m d).
Proof.
  intros HP Hm s a. unfold scoped. specialize (Hm (s, init)).
  destruct (m (s, init)) as [[b|e|x] s1 t1]; simpl in *; try discriminate.
  all: destruct (d (snd s1) (fst s1)) as [[?|?|?] s2 t2]; simpl; try discriminate.
  intros [= <-]. apply (HP b []). auto.
Qed.
Lemma ends_noexcept {A} (P : A -> list (event E) -> Prop) (m : M E S A) :
  ends P m -> ends P (noexcept_m m).
Proof. intros Hm s a. unfold noexcept_m. specialize (Hm s). destruct (m s) as [[?|?|?] ? ?]; naive_solver. Qed.
(** The handlers only see what the body throws. *)
Lemma ends_caught {A} (X : exn -> Prop) (P : A -> list (event E) -> Prop) (m : M E S A) h :
  throws X m -> grows P -> ends P m -> (forall e k, X e -> h e = Some k -> ends P k) ->
  ends P (try_catch m h).
Proof.
  intros HX HP Hm Hh s a. unfold try_catch. specialize (Hm s). specialize (HX s).
  destruct (m s) as [[b|e|x] s1 t1]; simpl in *; [apply Hm| |discriminate].
  destruct (h e) as [k|] eqn:Eh; [|discriminate].
  specialize (Hh e k (HX e eq_refl) Eh s1 a). destruct (k s1) as [o s2 t2]; simpl in *. intros Ho.
  rewrite <- (app_nil_r t2). by apply HP, Hh.
Qed.
Lemma ends_try {A} (P : A -> list (event E) -> Prop) (m : M E S A) h :
  grows P -> ends P m -> (forall e k, h e = Some k -> ends P k) -> ends P (try_catch m h).
Proof. intros HP Hm Hh. apply (ends_caught (fun _ => True)); [done..|]. intros e k _. apply Hh. Qed.
Lemma ends_try_all {A} (P : A -> list (event E) -> Prop) (m : M E S A) h :
  grows P -> ends P m -> (forall e, ends P (h e)) -> ends P (try_all m h).
Proof. intros HP Hm Hh. apply ends_try; [done..|]. intros e k [= <-]. apply Hh. Qed.
Lemma ends_rethrow {A} (P : A -> list (event E) -> Prop) (m : M E S A) (d : M E S unit) :
  ends P m -> ends P (try_all m (fun e => _ ← d; throw e)).
Proof.
  intros Hm s a. unfold try_all, try_catch. specialize (Hm s).
  destruct (m s) as [[b|e|x] s1 t1]; [apply Hm| |discriminate].
  unfold mbind, M_bind. by destruct (d s1) as [[[]|?|?] s2 t2].
Qed.
Lemma ends_yields {A} (Y : A -> Prop) (m : M E S A) : yields Y m -> ends (fun a _ => Y a) m.
Proof. intros Hm s a. apply Hm. Qed.
(** Nothing is claimed of the other results, such as exit codes of failures. *)
Lemma ends_unless {A} (X : A -> Prop) (Q : A -> list (event E) -> Prop) (m : M E S A) :
  yields (fun a => ~ X a) m -> ends (fun a t => X a -> Q a t) m.
Proof. intros Hm s a Ha HX. by destruct (Hm s a Ha). Qed.
End Ends.

Lemma ends_zoom {E S L A} (P : A -> list (event E) -> Prop) (m : M E S A) : ends P m -> ends P (zoom (L := L) m).
Proof. intros Hm s a. unfold zoom. specialize (Hm (fst s)). destruct (m (fst s)). apply Hm. Qed.
Lemma throws_zoom {E S L A} X (m : M E S A) : throws X m -> throws X (zoom (L := L) m).
Proof. intros Hm s e. unfold zoom. specialize (Hm (fst s)). destruct (m (fst s)). apply Hm. Qed.
Lemma throws_scoped {E S L A} X (init : L) (m : M E (S * L) A) (d : L -> M E S unit) :
  throws X m -> throws X (scoped init m d).
Proof.
  intros Hm s e. unfold scoped. specialize (Hm (s, init)).
  destruct (m (s, init)) as [[a|e'|x] s1 t1]; cbn [res] in *; try done;
    destruct (d s1.2 s1.1) as [[|?|?] s2 t2]; cbn [res]; try done. apply Hm.
Qed.
Lemma yields_zoom {E S L A} Y (m : M E S A) : yields Y m -> yields Y (zoom (L := L) m).
Proof. intros Hm s a. unfold zoom. specialize (Hm (fst s)). destruct (m (fst s)). apply Hm. Qed.
Lemma yields_scoped {E S L A} (Y : A -> Prop) (init : L) (m : M E (S * L) A) (d : L -> M E S unit) :
  yields Y m -> yields Y (scoped init m d).
Proof.
  intros Hm s a. unfold scoped. specialize (Hm (s, init)). destruct (m (s, init)) as [[b|e|x] s1 t1]; simpl in *; try discriminate.
  all: destruct (d (snd s1) (fst s1)) as [[?|?|?] s2 t2]; simpl; try discriminate; auto.
Qed.

(** What is known of a part of the trace is known of the trace. *)
Lemma grows_l {E A} (P : A -> list (event E) -> Prop) a t1 t : grows P -> P a t -> P a (t1 ++ t).
Proof. intros HP Ha. rewrite <- (app_nil_r t). by apply HP. Qed.
Lemma grows_cons {E A} (P : A -> list (event E) -> Prop) a x t : grows P -> P a t -> P a (x :: t).
Proof. apply (grows_l P a [x]). Qed.
Lemma grows_r {E A} (P : A -> list (event E) -> Prop) a t t2 : grows P -> P a t -> P a (t ++ t2).
Proof. intros HP Ha. by apply (HP a []). Qed.
Ltac grow G :=
  first [assumption | apply (grows_r _ _ _ _ G); assumption
        | apply (grows_cons _ _ _ _ G); grow G | apply (grows_l _ _ _ _ G); grow G].

(** *** Total correctness: the computation returns, and what it returns satisfies [P]. *)
Definition delivers {E S A} (m : M E S A) (s : S) (P : A -> S -> Prop) : Prop :=
  match m s with Res (Ret a) s' _ => P a s' | _ => False end.
Section Delivers.
Context {E : Type -> Type} {S : Type}.
Lemma delivers_ret {A} (a : A) s (P : A -> S -> Prop) : P a s -> delivers (E := E) (mret a) s P.
Proof. done. Qed.
Lemma delivers_lift {A} (o : outcome A) a s (P : A -> S -> Prop) :
  o = Ret a -> P a s -> delivers (E := E) (lift o) s P.
Proof. by intros ->. Qed.
Lemma delivers_bind {A B} (m : M E S A) (k : A -> M E S B) s (P : B -> S -> Prop) :
  delivers m s (fun a s1 => delivers (k a) s1 P) -> delivers (m ≫= k) s P.
Proof.
  unfold delivers, mbind, M_bind. destruct (m s) as [[a|e|x] s1 t1]; simpl; try done.
  by destruct (k a s1).
Qed.
Lemma delivers_mono {A} (m : M E S A) s (P Q : A -> S -> Prop) :
  delivers m s P -> (forall a s', P a s' -> Q a s') -> delivers m s Q.
Proof. unfold delivers. destruct (m s) as [[a|e|x] s1 t1]; naive_solver. Qed.
Lemma delivers_require b e s (P : unit -> S -> Prop) :
  b = true -> P tt s -> delivers (E := E) (require b e) s P.
Proof. by intros ->. Qed.
Lemma delivers_call {R} `{Handler E S} (e : E R) s r s' (P : R -> S -> Prop) :
  handle e s = (r, s') -> P r s' -> delivers (call e) s P.
Proof. unfold delivers, call. by intros ->. Qed.
(** The outcome of a program whose first part returns. *)
Lemma delivers_after {A B} (m : M E S A) (k : A -> M E S B) s (R : outcome B) :
  delivers m s (fun a s1 => res (k a s1) = R) -> res ((m ≫= k) s) = R.
Proof.
  unfold delivers, mbind, M_bind. destruct (m s) as [[a|e|x] s1 t1]; simpl; try done.
  by destruct (k a s1).
Qed.
Lemma delivers_res {A} (m : M E S A) s (P : A -> S -> Prop) :
  delivers m s P -> exists a, res (m s) = Ret a /\ exists s', P a s'.
Proof. unfold delivers. destruct (m s) as [[a|e|x] s1 t1]; simpl; naive_solver. Qed.
End Delivers.
Lemma delivers_trig {E F S R} `{Handler F S} `{E -< F} (e : E R) s r s' (P : R -> S -> Prop) :
  handle (inj e) s = (r, s') -> P r s' -> delivers (trig e) s P.
Proof. apply delivers_call. Qed.
Lemma delivers_answer {E F S R} `{Handler F S} `{E -< F} (e : E R) s r (P : R -> S -> Prop) :
  fst (handle (inj e) s) = r -> (forall s', P r s') -> delivers (trig e) s P.
Proof. unfold delivers, trig, call. destruct (handle (inj e) s) as [x s']. simpl. intros ->. auto. Qed.

(** A computation that starts with a call, a check or a pure step. *)
Lemma next_answer {E F S R A} `{Handler F S} `{E -< F} (e : E R) (k : R -> M F S A) s r (P : A -> S -> Prop) :
  fst (handle (inj e) s) = r -> delivers (k r) (snd (handle (inj e) s)) P -> delivers (trig e ≫= k) s P.
Proof. intros Hr Hk. apply delivers_bind. eapply delivers_trig; [apply surjective_pairing|]. by rewrite Hr. Qed.
Lemma next_call {E F S R A} `{Handler F S} `{E -< F} (e : E R) (k : R -> M F S A) s r s' (P : A -> S -> Prop) :
  handle (inj e) s = (r, s') -> delivers (k r) s' P -> delivers (trig e ≫= k) s P.
Proof. intros He Hk. apply delivers_bind. by eapply delivers_trig. Qed.
Lemma next_true {E S A} e s (k : unit -> M E S A) (P : A -> S -> Prop) :
  delivers (k tt) s P -> delivers (require true e ≫= k) s P.
Proof. intros Hk. by apply delivers_bind, delivers_require. Qed.
Lemma next_lift {E S A B} (o : outcome A) a (k : A -> M E S B) s (P : B -> S -> Prop) :
  o = Ret a -> delivers (k a) s P -> delivers (lift o ≫= k) s P.
Proof. intros Ho Hk. apply delivers_bind. by eapply delivers_lift. Qed.
Lemma next_run {E S A B} (m : M E S A) (k : A -> M E S B) s (Q : A -> S -> Prop) (P : B -> S -> Prop) :
  delivers m s Q -> (forall a s', Q a s' -> delivers (k a) s' P) -> delivers (m ≫= k) s P.
Proof. intros Hm Hk. apply delivers_bind. by eapply delivers_mono. Qed.

(** *** Results and exceptions: [m] returns what satisfies [Q] or throws what satisfies [X], and has
    no fault. *)
Definition meets {E S A} (m : M E S A) (s : S) (Q : A -> S -> Prop) (X : exn -> Prop) : Prop :=
  match m s with Res (Ret a) s' _ => Q a s' | Res (Throw e) _ _ => X e | _ => False end.
Section Meets.
Context {E : Type -> Type} {S : Type} (X : exn -> Prop).
Lemma meets_ret {A} (a : A) s (Q : A -> S -> Prop) : Q a s -> meets (E := E) (mret a) s Q X.
Proof. done. Qed.
Lemma meets_throw {A} e s (Q : A -> S -> Prop) : X e -> meets (E := E) (throw e) s Q X.
Proof. done. Qed.
Lemma meets_lift {A} (o : outcome A) a s (Q : A -> S -> Prop) :
  o = Ret a -> Q a s -> meets (E := E) (lift o) s Q X.
Proof. by intros ->. Qed.
Lemma meets_bind {A B} (m : M E S A) (k : A -> M E S B) s (Q : B -> S -> Prop) :
  meets m s (fun a s1 => meets (k a) s1 Q X) X -> meets (m ≫= k) s Q X.
Proof.
  unfold meets, mbind, M_bind. destruct (m s) as [[a|e|x] s1 t1]; simpl; try done.
  by destruct (k a s1).
Qed.
Lemma meets_mono {A} (m : M E S A) s (P Q : A -> S -> Prop) :
  meets m s P X -> (forall a s', P a s' -> Q a s') -> meets m s Q X.
Proof. unfold meets. destruct (m s) as [[a|e|x] s1 t1]; naive_solver. Qed.
Lemma meets_require b e s (Q : unit -> S -> Prop) :
  (b = true -> Q tt s) -> (b = false -> X e) -> meets (E := E) (require b e) s Q X.
Proof. destruct b; unfold meets; simpl; auto. Qed.
Lemma meets_delivers {A} (m : M E S A) s (Q : A -> S -> Prop) : delivers m s Q -> meets m s Q X.
Proof. unfold delivers, meets. by destruct (m s) as [[a|e|x] s1 t1]. Qed.
(** A computation of which only the outcome is known. *)
Lemma meets_res {A} (m : M E S A) s o (Q : A -> S -> Prop) :
  res (m s) = o ->
  match o with Ret a => forall s', Q a s' | Throw e => X e | Fault _ => False end -> meets m s Q X.
Proof. intros <-. unfold meets. destruct (m s) as [[a|e|x] s1 t1]; simpl; auto. Qed.
(** A destructor that returns, whatever the state. *)
Lemma meets_finally {A} (m : M E S A) d s (Q : A -> S -> Prop) :
  (forall s', delivers d s' (fun _ _ => True)) -> (forall a s1 s2, Q a s1 -> Q a s2) ->
  meets m s Q X -> meets (finally m d) s Q X.
Proof.
  intros Hd HQ. unfold meets, finally. destruct (m s) as [[a|e|x] s1 t1]; try done;
    specialize (Hd s1); unfold delivers in Hd; destruct (d s1) as [[[]|e'|x'] s2 t2]; try done.
  intros Ha. by eapply HQ.
Qed.
End Meets.
Lemma meets_try_all {E S A} (m : M E S A) h s (Q Q' : A -> S -> Prop) (X X' : exn -> Prop) :
  meets m s Q X -> (forall a s', Q a s' -> Q' a s') -> (forall e s', X e -> meets (h e) s' Q' X') ->
  meets (try_all m h) s Q' X'.
Proof.
  intros Hm HQ HX. unfold meets, try_all, try_catch in *. destruct (m s) as [[a|e|x] s1 t1]; auto.
  specialize (HX e s1 Hm). by destruct (h e s1) as [[]].
Qed.
Lemma meets_total {E S A} (m : M E S A) s (Q : A -> S -> Prop) :
  meets m s Q (fun _ => False) -> exists a, res (m s) = Ret a /\ exists s', Q a s'.
Proof. unfold meets. destruct (m s) as [[a|e|x] s1 t1]; simpl; naive_solver. Qed.
Lemma delivers_zoom {E S L A} (m : M E S A) (s : S * L) : delivers m (fst s) (fun _ _ => True) ->
  delivers (zoom m) s (fun _ _ => True).
Proof. unfold delivers, zoom. by destruct (m (fst s)) as [[a|e|x] s1 t1]. Qed.
(** Local variables: what holds whatever they are, and a destructor that returns. *)
Lemma meets_zoom {E S L A} (m : M E S A) (s : S * L) (Q : A -> S * L -> Prop) (X : exn -> Prop) :
  meets m (fst s) (fun a s' => Q a (s', snd s)) X -> meets (zoom m) s Q X.
Proof. unfold meets, zoom. by destruct (m (fst s)) as [[a|e|x] s1 t1]. Qed.
Lemma meets_scoped {E S L A} (init : L) (m : M E (S * L) A) d s (Q : A -> Prop) (X : exn -> Prop) :
  (forall l s', delivers (d l) s' (fun _ _ => True)) -> meets m (s, init) (fun a _ => Q a) X ->
  meets (scoped init m d) s (fun a _ => Q a) X.
Proof.
  intros Hd. unfold meets, scoped. destruct (m (s, init)) as [[a|e|x] [s1 l] t1]; cbn [fst snd]; try done;
    specialize (Hd l s1); unfold delivers in Hd; by destruct (d l s1) as [[[]|?|?] s2 t2].
Qed.
(** Calls, by their answer alone or with the state they leave. *)
Lemma meets_answer {E F S R B} `{Handler F S} `{E -< F} (e : E R) (k : R -> M F S B) s r
  (Q : B -> S -> Prop) X :
  fst (handle (inj e) s) = r -> (forall s', meets (k r) s' Q X) -> meets (trig e ≫= k) s Q X.
Proof.
  intros Hr Hk. apply meets_bind, meets_delivers. eapply delivers_answer; [exact Hr|]. exact Hk.
Qed.
Lemma meets_call {E F S R B} `{Handler F S} `{E -< F} (e : E R) (k : R -> M F S B) s r s'
  (Q : B -> S -> Prop) X :
  handle (inj e) s = (r, s') -> meets (k r) s' Q X -> meets (trig e ≫= k) s Q X.
Proof.
  intros Hr Hk. apply meets_bind, meets_delivers. eapply delivers_trig; [exact Hr|]. exact Hk.
Qed.

(** Closed equations, by evaluation in the virtual machine. *)
Ltac vm_eq := match goal with |- ?a = ?b => exact (eq_refl b <: a = b) end.

(** One step of the weakest-precondition calculus; [wp_go] repeats it and
    splits on the conditionals of the program. *)
Ltac wp_step :=
  cbn beta iota;
  lazymatch goal with
  | |- wp (mbind _ _) _ _ => apply wp_bind
  | |- wp (mret _) _ _ => apply wp_ret
  | |- wp (lift _) _ _ => apply wp_lift
  | |- wp (throw _) _ _ => apply wp_lift
  | |- wp (fault_with _) _ _ => apply wp_lift
  | |- wp (call _) _ _ => apply wp_call; intros ? ? ?
  | |- wp (trig _) _ _ => apply wp_trig; intros ? ? ?
  | |- wp (require _ _) _ _ => apply wp_require; intros ?
  | |- wp (try_catch _ _) _ _ => apply wp_try
  | |- wp (try_all _ _) _ _ => apply wp_try
  | |- wp (finally _ _) _ _ => apply wp_finally
  | |- wp (scoped _ _ _) _ _ => apply wp_scoped
  | |- wp get_local _ _ => apply wp_get_local
  | |- wp (put_local _) _ _ => apply wp_put_local
  | |- wp (noexcept_m _) _ _ => apply wp_noexcept
  | |- wp (if ?b then _ else _) _ _ => let H := fresh "Hif" in destruct b eqn:H
  | |- wp (match ?x with _ => _ end) _ _ => let H := fresh "Hm" in destruct x eqn:H
  end; cbn beta iota.
Ltac wp_go := repeat wp_step.

(** Structural proof that a program only makes calls of a given kind. *)
Ltac emits_step :=
  lazymatch goal with
  | |- emits _ (mbind _ _) => apply emits_bind; [|intros ?]
  | |- emits _ (mret _) => apply emits_ret
  | |- emits _ (lift _) => apply emits_lift
  | |- emits _ (throw _) => apply emits_lift
  | |- emits _ (fault_with _) => apply emits_lift
  | |- emits _ (try_catch _ _) => apply emits_try; [|intros ? ? ?; simplify_eq/=]
  | |- emits _ (try_all _ _) => apply emits_try; [|intros ? ? ?; simplify_eq/=]
  | |- emits _ (finally _ _) => apply emits_finally
  | |- emits _ (scoped _ _ _) => apply emits_scoped; [|intros ?]
  | |- emits _ get_local => intros ?; constructor
  | |- emits _ (put_local _) => intros ?; constructor
  | |- emits _ (noexcept_m _) => apply emits_noexcept
  | |- emits _ (if ?b then _ else _) => let H := fresh "Hif" in destruct b eqn:H
  | |- emits _ (match ?x with _ => _ end) => let H := fresh "Hm" in destruct x eqn:H
  | |- emits _ (call _) => apply emits_call; intros ?
  | |- emits _ (trig _) => apply emits_trig; intros ?
  | |- emits _ (require _ _) => apply emits_require
  end; cbn beta iota.
Ltac emits_go := repeat emits_step; eauto with emits.

(** The same for what a program throws; what is left are the exceptions. *)
Ltac throws_step :=
  lazymatch goal with
  | |- throws _ (mbind _ _) => apply throws_bind; [|intros ?]
  | |- throws _ (mret _) => apply throws_ret
  | |- throws _ (lift _) => apply throws_lift
  | |- throws _ (throw _) => apply throws_throw
  | |- throws _ (fault_with _) => apply throws_lift; intros ? ?; discriminate
  | |- throws _ (try_all _ _) => apply throws_try_all; intros ?
  | |- throws _ (try_catch _ _) => apply throws_try; [|intros ? ? ?; simplify_eq/=]
  | |- throws _ (finally _ _) => apply throws_finally
  | |- throws _ (noexcept_m _) => apply throws_noexcept
  | |- throws _ (if ?b then _ else _) => let H := fresh "Hif" in destruct b eqn:H
  | |- throws _ (match ?x with _ => _ end) => let H := fresh "Hm" in destruct x eqn:H
  | |- throws _ (call _) => apply throws_call
  | |- throws _ (trig _) => apply throws_trig
  | |- throws _ (require _ _) => apply throws_require; intros _
  end; cbn beta iota.
Ltac throws_go := repeat throws_step; eauto with throws.

(** And for what it returns; what is left are the values returned. *)
Ltac yields_step :=
  cbn beta iota;
  lazymatch goal with
  | |- yields _ (mbind _ _) => apply yields_bind; intros ?
  | |- yields _ (mret _) => apply yields_ret
  | |- yields _ (throw _) => apply yields_lift; intros ? ?; discriminate
  | |- yields _ (fault_with _) => apply yields_lift; intros ? ?; discriminate
  | |- yields _ (try_all _ _) => apply yields_try_all; [|intros ?]
  | |- yields _ (finally _ _) => apply yields_finally
  | |- yields _ (if ?b then _ else _) => let H := fresh "Hif" in destruct b eqn:H
  | |- yields _ (match ?x with _ => _ end) => let H := fresh "Hm" in destruct x eqn:H
  end; cbn beta iota.
Ltac yields_go := repeat yields_step.

(** Membership in a trace that is a concatenation. *)
Lemma elem_app_l {A} (x : A) l k : x ∈ l -> x ∈ l ++ k.
Proof. rewrite elem_of_app. auto. Qed.
Lemma elem_app_r {A} (x : A) l k : x ∈ k -> x ∈ l ++ k.
Proof. rewrite elem_of_app. auto. Qed.
Lemma elem_single {A} (x : A) : x ∈ [x].
Proof. by apply list_elem_of_singleton. Qed.
Create HintDb trace.
#[export] Hint Resolve elem_app_l elem_app_r elem_single : trace.
#[export] Hint Constructors list_elem_of : trace.

(** Loops whose end depends on what the outside answers take their bound from
    [fuel]; running out of it is the fault [OutOfFuel]. *)
Class Fuel := fuel : nat.

(** Files read whole; [None] is a file that could not be opened. *)
Inductive FileCall : Type -> Type :=
| ReadFile (name : bytes) : FileCall (option bytes).
