(* ===== verification/Base64.v ===== *)
(** * Text encodings of binary data

    The base64, base64url and hexadecimal codecs of the four programs:
    [AttestBase64] is client-library's [attest::base64] (AttestationHelper.cpp),
    [Encoders] the [encoders] name space of azure-protected-vm-secrets
    (JsonWebToken.cpp), [SkrUtil] the codecs of [Util] in the secure-key-release
    app (AttestationUtil.cpp), [SampleUtils] those of the sample app (Utils.cpp).

    The iterator adaptors of Boost.Serialization and the string algorithms of
    Boost are not part of the repository: they are the classes [BoostBase64] and
    [BoostString] with the laws of their documentation, and [rfc4648] /
    [boost_string] are concrete instances that satisfy the laws. *)

From S2P Require Import Prelude.

(** ** The Boost interfaces *)

(** [b64_text] is [base64_from_binary<transform_width<It, 6, 8>>], without the
    padding; [b64_bytes] is [transform_width<binary_from_base64<It>, 8, 6>]. *)
Class BoostBase64 := {
  b64_text : bytes -> bytes;
  b64_bytes : bytes -> outcome bytes }.

Definition in_range (lo hi c : byte) : bool :=
  ((z_of_byte lo <=? z_of_byte c) && (z_of_byte c <=? z_of_byte hi))%Z.
Definition is_alnum (c : byte) : bool :=
  in_range "A" "Z" c || in_range "a" "z" c || in_range "0" "9" c.
Definition b64_alphabet (c : byte) : bool :=
  is_alnum c || bool_decide (c = "+"%byte) || bool_decide (c = "/"%byte).

Definition pad_count (n : nat) : nat := (3 - n mod 3) mod 3.

Class BoostBase64Laws `{BoostBase64} : Prop := {
  text_alphabet l : Forall (fun c => b64_alphabet c = true) (b64_text l);
  text_length l : length (b64_text l) = (4 * length l + 2) / 3;
  bytes_text l : b64_bytes (b64_text l) = Ret l;
  bytes_errors t e : b64_bytes t = Throw e -> exists w, e = DataflowException w;
  (* an [=] stands for six zero bits *)
  bytes_padded l :
    b64_bytes (b64_text l ++ replicate (pad_count (length l)) "="%byte) =
    Ret (l ++ replicate (pad_count (length l)) x00) }.

(** [boost::replace_all] with a one-character pattern and replacement, and
    [boost::algorithm::trim_right_copy_if]. *)
Class BoostString := {
  replace_all : bytes -> byte -> byte -> bytes;
  trim_right_copy_if : bytes -> (byte -> bool) -> bytes }.

Class BoostStringLaws `{BoostString} : Prop := {
  replace_all_map l a b :
    replace_all l a b = map (fun c => if decide (c = a) then b else c) l;
  trim_right_split l p :
    exists tail, l = trim_right_copy_if l p ++ tail /\ Forall (fun c => p c = true) tail;
  trim_right_last l p c :
    last (trim_right_copy_if l p) = Some c -> p c = false }.

(** ** client-library: attest::base64 *)
Module AttestBase64.
Section Ops.
Context `{BoostBase64, BoostString}.

Definition base64_to_binary (base64_data : bytes) : outcome bytes :=
  binary_data ← b64_bytes base64_data;
  let num_padding_chars := Z.of_nat (count_byte "=" base64_data) in
  if (0 <? num_padding_chars)%Z
  then resize binary_data (u64 (size binary_data - num_padding_chars))
  else mret binary_data.

Definition binary_to_base64 (binary_data : bytes) : bytes :=
  b64_text binary_data ++ replicate (pad_count (length binary_data)) "="%byte.

Definition binary_to_base64url (binary_data : bytes) : bytes :=
  let tmp := b64_text binary_data in
  let tmp := replace_all tmp "+" "-" in
  replace_all tmp "/" "_".

Definition base64url_to_binary (base64_data : bytes) : outcome bytes :=
  let stringData := replace_all base64_data "-" "+" in
  let stringData := replace_all stringData "_" "/" in
  base64_to_binary stringData.

Definition base64_encode (data : bytes) : bytes :=
  b64_text data ++ replicate (pad_count (length data)) "="%byte.

Definition base64_decode (data : bytes) : outcome bytes :=
  decoded ← b64_bytes data;
  mret (trim_right_copy_if decoded (fun c => bool_decide (c = x00))).

End Ops.
End AttestBase64.

(** ** azure-protected-vm-secrets: encoders *)
Module Encoders.
Section Ops.
Context `{BoostBase64, BoostString}.

Definition base64_encode (value : bytes) : bytes :=
  b64_text value ++ replicate (pad_count (length value)) "="%byte.

Definition base64_url_encode (value : bytes) : bytes :=
  let base64 := base64_encode value in
  let base64 := replace_all base64 "+" "-" in
  replace_all base64 "/" "_".

Definition base64_decode (base64 : bytes) : outcome bytes :=
  base64DecodedVector ← b64_bytes base64;
  let num_padding_chars := Z.of_nat (count_byte "=" base64) in
  if (0 <? num_padding_chars)%Z
  then resize base64DecodedVector (u64 (size base64DecodedVector - num_padding_chars))
  else mret base64DecodedVector.

Definition base64_url_decode (base64Url : bytes) : outcome bytes :=
  let base64Url := replace_all base64Url "-" "+" in
  let base64Url := replace_all base64Url "_" "/" in
  base64_decode base64Url.

End Ops.
End Encoders.

(** ** C library pieces: strtol in base 16, and stream output in hex *)

Definition isspace (c : byte) : bool :=
  bool_decide (c = " "%byte) || in_range x09 x0d c.
Definition hex_value (c : byte) : option Z :=
  if in_range "0" "9" c then Some (z_of_byte c - 48)%Z
  else if in_range "a" "f" c then Some (z_of_byte c - 87)%Z
  else if in_range "A" "F" c then Some (z_of_byte c - 55)%Z
  else None.
Fixpoint hex_digits (acc : Z) (s : bytes) : Z :=
  match s with
  | c :: s' => match hex_value c with Some d => hex_digits (acc * 16 + d) s' | None => acc end
  | [] => acc
  end.
Fixpoint skip_space (s : bytes) : bytes :=
  match s with c :: s' => if isspace c then skip_space s' else s | [] => [] end.
Definition skip_0x (s : bytes) : bytes :=
  match s with
  | z :: x :: d :: s' =>
      if bool_decide (z = "0"%byte)
         && (bool_decide (x = "x"%byte) || bool_decide (x = "X"%byte))
         && bool_decide (is_Some (hex_value d))
      then d :: s' else s
  | _ => s
  end.
Fixpoint c_str (s : bytes) : bytes :=
  match s with c :: s' => if decide (c = x00) then [] else c :: c_str s' | [] => [] end.
(** [strtol(s.c_str(), NULL, 16)], saturating at the range of [long]. *)
Definition strtol16 (s : bytes) : Z :=
  let clamp z := Z.max (- 2 ^ 63) (Z.min (2 ^ 63 - 1) z) in
  match skip_space (c_str s) with
  | c :: s' =>
      if decide (c = "-"%byte) then clamp (- hex_digits 0 (skip_0x s'))%Z
      else if decide (c = "+"%byte) then clamp (hex_digits 0 (skip_0x s'))
      else clamp (hex_digits 0 (skip_0x (c :: s')))
  | [] => 0
  end.
Definition hex_char (d : Z) : byte :=
  if (d <? 10)%Z then byte_of_z (48 + d) else byte_of_z (87 + d).

(** ** cvm-securekey-release-app: Util *)
Module SkrUtil.
Section Ops.
Context `{BoostBase64, BoostString}.

Definition base64_to_binary (base64_data : bytes) : outcome bytes :=
  decoded ← b64_bytes base64_data;
  mret (trim_right_copy_if decoded (fun c => bool_decide (c = x00))).

Definition binary_to_base64 (binary_data : bytes) : bytes :=
  b64_text binary_data ++ replicate (pad_count (length binary_data)) "="%byte.

(** [ss << std::setw(2) << static_cast<int>(c)] with fill ['0'], base 16. *)
Definition binary_to_hex (binary_data : bytes) : bytes :=
  flat_map (fun c => [hex_char (z_of_byte c / 16); hex_char (z_of_byte c mod 16)]) binary_data.

(** The loop advances by two and takes [substr(i, 2)], shorter at the end. *)
Fixpoint hex_to_binary (hex_data : bytes) : bytes :=
  match hex_data with
  | c1 :: c2 :: rest => byte_of_z (strtol16 [c1; c2]) :: hex_to_binary rest
  | [c1] => [byte_of_z (strtol16 [c1])]
  | [] => []
  end.

Definition binary_to_base64url (binary_data : bytes) : bytes :=
  let tmp := b64_text binary_data in
  let tmp := replace_all tmp "+" "-" in
  replace_all tmp "/" "_".

Definition base64url_to_binary (base64_data : bytes) : outcome bytes :=
  let stringData := replace_all base64_data "-" "+" in
  let stringData := replace_all stringData "_" "/" in
  base64_to_binary stringData.

Definition base64_decode (data : bytes) : outcome bytes :=
  decoded ← b64_bytes data;
  mret (trim_right_copy_if decoded (fun c => bool_decide (c = x00))).

End Ops.
End SkrUtil.

(** ** cvm-attestation-sample-app: Utils.cpp *)
Module SampleUtils.
Section Ops.
Context `{BoostBase64, BoostString}.

Definition base64_to_binary (base64_data : bytes) : outcome bytes :=
  decoded ← b64_bytes base64_data;
  mret (trim_right_copy_if decoded (fun c => bool_decide (c = x00))).

Definition binary_to_base64 (binary_data : bytes) : bytes :=
  b64_text binary_data ++ replicate (pad_count (length binary_data)) "="%byte.

Definition binary_to_base64url (binary_data : bytes) : bytes :=
  let tmp := b64_text binary_data in
  let tmp := replace_all tmp "+" "-" in
  replace_all tmp "/" "_".

Definition base64url_to_binary (base64_data : bytes) : outcome bytes :=
  let stringData := replace_all base64_data "-" "+" in
  let stringData := replace_all stringData "_" "/" in
  base64_to_binary stringData.

Definition base64_decode (data : bytes) : outcome bytes :=
  decoded ← b64_bytes data;
  mret (trim_right_copy_if decoded (fun c => bool_decide (c = x00))).

End Ops.
End SampleUtils.

(** ** Instances of the interfaces: RFC 4648, and the string algorithms *)

Definition b64_char (v : Z) : byte :=
  nth (Z.to_nat v)
    (str "ABCDEFGHIJKLMNOPQRSTUVWXYZabcdefghijklmnopqrstuvwxyz0123456789+/") "="%byte.
Definition b64_value (c : byte) : option Z :=
  if in_range "A" "Z" c then Some (z_of_byte c - 65)%Z
  else if in_range "a" "z" c then Some (z_of_byte c - 71)%Z
  else if in_range "0" "9" c then Some (z_of_byte c + 4)%Z
  else if decide (c = "+"%byte) then Some 62%Z
  else if decide (c = "/"%byte) then Some 63%Z
  else if decide (c = "="%byte) then Some 0%Z
  else None.

Fixpoint rfc4648_text (l : bytes) : bytes :=
  match l with
  | a :: b :: c :: r =>
      let n := (z_of_byte a * 65536 + z_of_byte b * 256 + z_of_byte c)%Z in
      b64_char (n / 262144) :: b64_char (n / 4096 mod 64) ::
      b64_char (n / 64 mod 64) :: b64_char (n mod 64) :: rfc4648_text r
  | [a; b] =>
      let n := (z_of_byte a * 65536 + z_of_byte b * 256)%Z in
      [b64_char (n / 262144); b64_char (n / 4096 mod 64); b64_char (n / 64 mod 64)]
  | [a] =>
      let n := (z_of_byte a * 65536)%Z in
      [b64_char (n / 262144); b64_char (n / 4096 mod 64)]
  | [] => []
  end.

(** What Boost throws for a character outside the alphabet. *)
Definition b64_error : exn :=
  DataflowException (str "attempt to decode a value not in base64 char set").

Definition sextets (l : bytes) : option (list Z) := mapM b64_value l.
Fixpoint octets (l : list Z) : outcome bytes :=
  match l with
  | v1 :: v2 :: v3 :: v4 :: r =>
      let n := (v1 * 262144 + v2 * 4096 + v3 * 64 + v4)%Z in
      rest ← octets r;
      mret (byte_of_z (n / 65536) :: byte_of_z (n / 256 mod 256) :: byte_of_z (n mod 256) :: rest)
  | [v1; v2; v3] =>
      let n := (v1 * 262144 + v2 * 4096 + v3 * 64)%Z in
      mret [byte_of_z (n / 65536); byte_of_z (n / 256 mod 256)]
  | [v1; v2] => mret [byte_of_z ((v1 * 262144 + v2 * 4096) / 65536)%Z]
  | [_] => Throw b64_error
  | [] => mret []
  end.
Definition rfc4648_bytes (l : bytes) : outcome bytes :=
  match sextets l with Some vs => octets vs | None => Throw b64_error end.

#[export] Instance rfc4648 : BoostBase64 :=
  {| b64_text := rfc4648_text; b64_bytes := rfc4648_bytes |}.

Fixpoint trim_right (l : bytes) (p : byte -> bool) : bytes :=
  match l with
  | [] => []
  | c :: l' => match trim_right l' p with
               | [] => if p c then [] else [c]
               | t => c :: t
               end
  end.
#[export] Instance boost_string : BoostString :=
  {| replace_all l a b := map (fun c => if decide (c = a) then b else c) l;
     trim_right_copy_if := trim_right |}.

#[export] Instance boost_string_laws : BoostStringLaws.
Proof.
  split; simpl.
  - done.
  - intros l p. induction l as [|c l (tail & IH & Ht)]; simpl; [by exists []|].
    destruct (trim_right l p) as [|d t] eqn:E; simpl in IH.
    + subst tail. destruct (p c) eqn:Hc.
      * exists (c :: l). split; [done|]. by constructor.
      * by exists l.
    + exists tail. by rewrite IH at 1.
  - intros l p. induction l as [|c l IH]; simpl; [done|]. intros d.
    destruct (trim_right l p) as [|e t] eqn:E.
    + destruct (p c) eqn:Hc; simpl; [done|]. by intros [= <-].
    + intros Hd. apply IH. by rewrite last_cons_cons in Hd.
Qed.

Section Rfc4648.
Open Scope Z_scope.

Lemma sextet_split a b c :
  0 <= a < 256 -> 0 <= b < 256 -> 0 <= c < 256 ->
  let n := a * 65536 + b * 256 + c in
  (0 <= n / 262144 < 64) /\ (0 <= n / 4096 mod 64 < 64) /\
  (0 <= n / 64 mod 64 < 64) /\ (0 <= n mod 64 < 64) /\
  n / 262144 * 262144 + n / 4096 mod 64 * 4096 + n / 64 mod 64 * 64 + n mod 64 = n.
Proof. cbn zeta. intros. repeat split; Z.to_euclidean_division_equations; lia. Qed.

Lemma octet_split a b c :
  0 <= a < 256 -> 0 <= b < 256 -> 0 <= c < 256 ->
  let n := a * 65536 + b * 256 + c in
  n / 65536 = a /\ n / 256 mod 256 = b /\ n mod 256 = c.
Proof. cbn zeta. intros. repeat split; Z.to_euclidean_division_equations; lia. Qed.

Lemma b64_value_char v : 0 <= v < 64 -> b64_value (b64_char v) = Some v.
Proof.
  intros Hv. assert (Hall : forallb (fun n => bool_decide
    (b64_value (b64_char (Z.of_nat n)) = Some (Z.of_nat n))) (seq 0 64) = true)
    by (vm_compute; reflexivity).
  rewrite forallb_forall in Hall. specialize (Hall (Z.to_nat v)).
  rewrite bool_decide_eq_true, Z2Nat.id in Hall by lia. apply Hall, in_seq. lia.
Qed.

Lemma b64_char_alphabet v : 0 <= v < 64 -> b64_alphabet (b64_char v) = true.
Proof.
  intros Hv. assert (Hall : forallb (fun n => b64_alphabet (b64_char (Z.of_nat n))) (seq 0 64)
    = true) by (vm_compute; reflexivity).
  rewrite forallb_forall in Hall. specialize (Hall (Z.to_nat v)).
  rewrite Z2Nat.id in Hall by lia. apply Hall, in_seq. lia.
Qed.

Lemma bytes_ind3 (P : bytes -> Prop) :
  P [] -> (forall a, P [a]) -> (forall a b, P [a; b]) ->
  (forall a b c r, P r -> P (a :: b :: c :: r)) -> forall l, P l.
Proof.
  intros H0 H1 H2 H3. fix IH 1. intros [|a [|b [|c r]]]; [done..|]. apply H3, IH.
Qed.
End Rfc4648.

Lemma octets_four v1 v2 v3 v4 r a b c :
  (0 <= a < 256)%Z -> (0 <= b < 256)%Z -> (0 <= c < 256)%Z ->
  (v1 * 262144 + v2 * 4096 + v3 * 64 + v4 = a * 65536 + b * 256 + c)%Z ->
  octets (v1 :: v2 :: v3 :: v4 :: r) =
  (rest ← octets r; mret (byte_of_z a :: byte_of_z b :: byte_of_z c :: rest)).
Proof.
  intros Ha Hb Hc E. destruct (octet_split a b c) as (E1 & E2 & E3); [done..|].
  cbn [octets]. cbn zeta. by rewrite E, E1, E2, E3.
Qed.

Lemma bytes_four c1 c2 c3 c4 v1 v2 v3 v4 r a b c :
  b64_value c1 = Some v1 -> b64_value c2 = Some v2 ->
  b64_value c3 = Some v3 -> b64_value c4 = Some v4 ->
  (v1 * 262144 + v2 * 4096 + v3 * 64 + v4 =
   z_of_byte a * 65536 + z_of_byte b * 256 + z_of_byte c)%Z ->
  rfc4648_bytes (c1 :: c2 :: c3 :: c4 :: r) =
  (rest ← rfc4648_bytes r; mret (a :: b :: c :: rest)).
Proof.
  intros E1 E2 E3 E4 E. unfold rfc4648_bytes, sextets. cbn [mapM].
  rewrite E1, E2, E3, E4. cbn [mbind option_bind mret option_ret].
  destruct (mapM b64_value r) as [vs|]; [|done]. cbn [mbind option_bind mret option_ret].
  rewrite (octets_four _ _ _ _ _ _ _ _ (z_of_byte_range a) (z_of_byte_range b)
             (z_of_byte_range c) E).
  by rewrite !byte_of_z_of_byte.
Qed.

Lemma text_four a b c r :
  exists c1 c2 c3 c4 v1 v2 v3 v4,
    rfc4648_text (a :: b :: c :: r) = c1 :: c2 :: c3 :: c4 :: rfc4648_text r /\
    b64_value c1 = Some v1 /\ b64_value c2 = Some v2 /\
    b64_value c3 = Some v3 /\ b64_value c4 = Some v4 /\
    Forall (fun d => b64_alphabet d = true) [c1; c2; c3; c4] /\
    (v1 * 262144 + v2 * 4096 + v3 * 64 + v4 =
     z_of_byte a * 65536 + z_of_byte b * 256 + z_of_byte c)%Z.
Proof.
  destruct (sextet_split _ _ _ (z_of_byte_range a) (z_of_byte_range b) (z_of_byte_range c))
    as (H1 & H2 & H3 & H4 & E).
  do 8 eexists. cbn [rfc4648_text]. split; [reflexivity|].
  do 4 (split; [by apply b64_value_char|]). split; [|exact E].
  repeat constructor; by apply b64_char_alphabet.
Qed.

(** A final group of two bytes or of one is a full group with zero bytes,
    of which the last characters are not written. *)
Lemma text_two a b : exists c1 c2 c3 v1 v2 v3,
  rfc4648_text [a; b] = [c1; c2; c3] /\
  b64_value c1 = Some v1 /\ b64_value c2 = Some v2 /\ b64_value c3 = Some v3 /\
  Forall (fun d => b64_alphabet d = true) [c1; c2; c3] /\
  (v1 * 262144 + v2 * 4096 + v3 * 64 = z_of_byte a * 65536 + z_of_byte b * 256)%Z.
Proof.
  destruct (sextet_split _ _ 0 (z_of_byte_range a) (z_of_byte_range b)) as (H1 & H2 & H3 & _ & E);
    [done|]. rewrite Z.add_0_r in *.
  do 6 eexists. cbn [rfc4648_text]. split; [reflexivity|].
  do 3 (split; [by apply b64_value_char|]).
  split; [repeat constructor; by apply b64_char_alphabet|].
  revert E. Z.to_euclidean_division_equations; lia.
Qed.
Lemma text_one a : exists c1 c2 v1 v2,
  rfc4648_text [a] = [c1; c2] /\ b64_value c1 = Some v1 /\ b64_value c2 = Some v2 /\
  Forall (fun d => b64_alphabet d = true) [c1; c2] /\
  (v1 * 262144 + v2 * 4096 = z_of_byte a * 65536)%Z.
Proof.
  destruct (sextet_split _ 0 0 (z_of_byte_range a)) as (H1 & H2 & _ & _ & E); [done..|].
  rewrite !Z.add_0_r in *.
  do 4 eexists. cbn [rfc4648_text]. split; [reflexivity|].
  do 2 (split; [by apply b64_value_char|]).
  split; [repeat constructor; by apply b64_char_alphabet|].
  revert E. Z.to_euclidean_division_equations; lia.
Qed.

Lemma pad_count_step n : pad_count (S (S (S n))) = pad_count n.
Proof.
  unfold pad_count. replace (S (S (S n))) with (n + 1 * 3) by lia.
  by rewrite Nat.Div0.mod_add.
Qed.

Lemma octets_errors vs : othrows (fun e => exists w, e = DataflowException w) (octets vs).
Proof.
  revert vs. fix IH 1. intros [|v1 [|v2 [|v3 [|v4 vs]]]]; try apply othrows_ret.
  - apply othrows_throw. by eexists.
  - apply othrows_bind; [apply IH|]. intros rest. apply othrows_ret.
Qed.

#[export] Instance rfc4648_laws : BoostBase64Laws.
Proof.
  split; cbn [b64_text b64_bytes rfc4648].
  - intros l. induction l as [|a|a b|a b c r IH] using bytes_ind3; [constructor| | |].
    + destruct (text_one a) as (?&?&?&?&->&_&_&HF&_). done.
    + destruct (text_two a b) as (?&?&?&?&?&?&->&_&_&_&HF&_). done.
    + destruct (text_four a b c r) as (?&?&?&?&?&?&?&?&->&_&_&_&_&HF&_).
      apply (Forall_app_2 _ [_; _; _; _] _ HF IH).
  - intros l. induction l as [|a|a b|a b c r IH] using bytes_ind3; [done..|].
    cbn [rfc4648_text length] in *. rewrite IH.
    apply (Nat.div_unique _ 3 _ ((4 * length r + 2) mod 3)).
    + by apply Nat.mod_upper_bound.
    + pose proof (Nat.div_mod_eq (4 * length r + 2) 3). lia.
  - intros l. induction l as [|a|a b|a b c r IH] using bytes_ind3; [done| | |].
    + destruct (text_one a) as (c1&c2&v1&v2&->&E1&E2&_&E).
      unfold rfc4648_bytes, sextets; cbn. rewrite E1, E2; cbn. rewrite E.
      by rewrite Z.div_mul, byte_of_z_of_byte.
    + destruct (text_two a b) as (c1&c2&c3&v1&v2&v3&->&E1&E2&E3&_&E).
      unfold rfc4648_bytes, sextets; cbn. rewrite E1, E2, E3; cbn. rewrite E.
      destruct (octet_split _ _ 0 (z_of_byte_range a) (z_of_byte_range b)) as (E4&E5&_); [done|].
      rewrite Z.add_0_r in E4, E5. by rewrite E4, E5, !byte_of_z_of_byte.
    + destruct (text_four a b c r) as (c1&c2&c3&c4&v1&v2&v3&v4&->&E1&E2&E3&E4&_&E).
      rewrite (bytes_four _ _ _ _ _ _ _ _ _ a b c E1 E2 E3 E4 E). by rewrite IH.
  - intros t e. unfold rfc4648_bytes. destruct (sextets t) as [vs|]; [|intros [= <-]; by eexists].
    apply octets_errors.
  - intros l. induction l as [|a|a b|a b c r IH] using bytes_ind3; [done| | |].
    + destruct (text_one a) as (c1&c2&v1&v2&->&E1&E2&_&E).
      apply (bytes_four c1 c2 _ _ v1 v2 0 0 [] a x00 x00); cbn; [done..|]. lia.
    + destruct (text_two a b) as (c1&c2&c3&v1&v2&v3&->&E1&E2&E3&_&E).
      apply (bytes_four c1 c2 c3 _ v1 v2 v3 0 [] a b x00); cbn; [done..|]. lia.
    + destruct (text_four a b c r) as (c1&c2&c3&c4&v1&v2&v3&v4&->&E1&E2&E3&E4&_&E).
      cbn [length]. rewrite pad_count_step. cbn [app].
      rewrite (bytes_four _ _ _ _ _ _ _ _ _ a b c E1 E2 E3 E4 E). by rewrite IH.
Qed.

(** ** Properties *)

(** The bytes without the run of NULs at their end. *)
Definition strip_nul (l : bytes) : bytes := trim_right l (fun c => bool_decide (c = x00)).
Definition url_alphabet (c : byte) : bool :=
  is_alnum c || bool_decide (c = "-"%byte) || bool_decide (c = "_"%byte).
Definition to_url (c : byte) : byte :=
  if decide (c = "+"%byte) then "-"%byte else if decide (c = "/"%byte) then "_"%byte else c.
Definition of_url (c : byte) : byte :=
  if decide (c = "-"%byte) then "+"%byte else if decide (c = "_"%byte) then "/"%byte else c.

Lemma pad_count_le n : pad_count n <= 2.
Proof. unfold pad_count. pose proof (Nat.mod_upper_bound (3 - n mod 3) 3). lia. Qed.

Lemma strip_nul_exact l : strip_nul l = l <-> last l <> Some x00.
Proof.
  unfold strip_nul. split.
  - intros E Hl. rewrite <- E in Hl.
    by pose proof (trim_right_last l (fun c => bool_decide (c = x00)) x00 Hl).
  - intros Hl. destruct (trim_right_split l (fun c => bool_decide (c = x00))) as (tail & E & Ht).
    destruct tail as [|c tail _] using rev_ind; [by rewrite app_nil_r in E|].
    exfalso. apply Hl. apply Forall_app in Ht as [_ Hc%Forall_singleton%bool_decide_eq_true].
    by rewrite E, app_assoc, last_snoc, Hc.
Qed.

Lemma of_to_url c : b64_alphabet c = true \/ c = "="%byte -> of_url (to_url c) = c.
Proof. intros [H| ->]; [|done]. revert H. by_bytes c. Qed.
Lemma to_url_alphabet c : b64_alphabet c = true -> url_alphabet (to_url c) = true.
Proof. by_bytes c. Qed.
Lemma alphabet_not_pad c : b64_alphabet c = true -> c <> "="%byte.
Proof. by intros H ->. Qed.
Lemma to_url_pad c : to_url c = "="%byte <-> c = "="%byte.
Proof. split; [by_bytes c | by intros ->]. Qed.

Section Boost.
Context `{Bb : BoostBase64, !BoostBase64Laws, Bs : BoostString, !BoostStringLaws}.

Lemma url_encode_map l :
  replace_all (replace_all l "+" "-") "/" "_" = map to_url l.
Proof.
  rewrite !replace_all_map, map_map. apply map_ext. intros c. unfold to_url.
  by repeat case_decide; subst.
Qed.
Lemma url_decode_map l :
  replace_all (replace_all l "-" "+") "_" "/" = map of_url l.
Proof.
  rewrite !replace_all_map, map_map. apply map_ext. intros c. unfold of_url.
  by repeat case_decide; subst.
Qed.
Lemma url_decode_encode l :
  Forall (fun c => b64_alphabet c = true \/ c = "="%byte) l -> map of_url (map to_url l) = l.
Proof.
  induction 1 as [|c l Hc _ IH]; [done|]. cbn [map]. by rewrite of_to_url, IH.
Qed.
Lemma padded_alphabet l n :
  Forall (fun c => b64_alphabet c = true \/ c = "="%byte) (b64_text l ++ replicate n "="%byte).
Proof.
  apply Forall_app_2.
  - eapply Forall_impl; [apply text_alphabet|]. auto.
  - apply Forall_replicate. by right.
Qed.
Lemma text_url_inverse l : map of_url (map to_url (b64_text l)) = b64_text l.
Proof. rewrite <- (app_nil_r (b64_text l)). apply url_decode_encode, (padded_alphabet l 0). Qed.

Lemma text_count_pad l : count_byte "=" (b64_text l) = 0.
Proof.
  apply count_byte_none. eapply Forall_impl; [apply text_alphabet|].
  cbv beta. apply alphabet_not_pad.
Qed.
Lemma padded_count_pad l n :
  count_byte "=" (b64_text l ++ replicate n "="%byte) = n.
Proof. by rewrite count_byte_app, text_count_pad, count_byte_replicate. Qed.

Lemma trim_strip l : trim_right_copy_if l (fun c => bool_decide (c = x00)) = strip_nul l.
Proof.
  destruct (trim_right_split l (fun c => bool_decide (c = x00))) as (tail & E & Ht).
  pose proof (trim_right_last l (fun c => bool_decide (c = x00))) as Hl.
  set (t := trim_right_copy_if l _) in *. rewrite E. clear E.
  unfold strip_nul. induction t as [|c t IH]; simpl.
  - induction Ht as [|d tail Hd _ IH]; simpl; [done|]. by rewrite <- IH, Hd.
  - rewrite <- IH; [|intros d Hd; apply Hl; destruct t; [done|by rewrite last_cons_cons]].
    destruct t; [|done]. by rewrite (Hl c).
Qed.

(** Removing as many bytes as there are padding characters restores the data. *)
Lemma unpad_padded l :
  (size l + 2 <= vector_max_size)%Z ->
  resize (l ++ replicate (pad_count (length l)) x00)
    (u64 (size (l ++ replicate (pad_count (length l)) x00)
          - Z.of_nat (pad_count (length l)))) = Ret l.
Proof.
  intros Hs. pose proof (pad_count_le (length l)).
  assert (E : size (l ++ replicate (pad_count (length l)) x00) =
              (size l + Z.of_nat (pad_count (length l)))%Z).
  { unfold size. rewrite length_app, length_replicate. lia. }
  replace (u64 _) with (size l).
  - apply resize_shrink. lia.
  - rewrite E. unfold u64, size, vector_max_size in *. rewrite Z.mod_small; lia.
Qed.

Lemma attest_decode_padded l :
  (size l + 2 <= vector_max_size)%Z ->
  AttestBase64.base64_to_binary
    (b64_text l ++ replicate (pad_count (length l)) "="%byte) = Ret l.
Proof.
  intros Hs. unfold AttestBase64.base64_to_binary.
  rewrite bytes_padded, padded_count_pad. cbn [mbind outcome_bind].
  destruct (0 <? _)%Z eqn:Hp; [by apply unpad_padded|].
  apply Z.ltb_ge in Hp. replace (pad_count (length l)) with 0 by lia. by rewrite app_nil_r.
Qed.
(** Decoding fails only by Boost's exception and by the [resize] of excess padding. *)
Lemma decode_throws (X : exn -> Prop) t :
  (forall w, X (DataflowException w)) -> (forall w, X (LengthError w)) ->
  othrows X (AttestBase64.base64_to_binary t).
Proof.
  intros H1 H2. apply othrows_bind.
  - intros e E. destruct (bytes_errors t e E) as [w ->]. apply H1.
  - intros d. cbn zeta. destruct (Z.ltb _ _); [by apply othrows_resize|apply othrows_ret].
Qed.
Lemma attest_decode_text l : AttestBase64.base64_to_binary (b64_text l) = Ret l.
Proof. unfold AttestBase64.base64_to_binary. by rewrite bytes_text, text_count_pad. Qed.

End Boost.

Section Theorems.
Context `{Bb : BoostBase64, !BoostBase64Laws, Bs : BoostString, !BoostStringLaws}.

(** The decoders of the secure-key-release app, on what its encoder writes. *)
Lemma strip_nul_padded l n : strip_nul (l ++ replicate n x00) = strip_nul l.
Proof.
  unfold strip_nul. induction l as [|c l IH]; simpl; [|by rewrite IH].
  induction n as [|n IHn]; simpl; [done|]. by rewrite IHn.
Qed.
Lemma skr_decode_padded l :
  SkrUtil.base64_to_binary (SkrUtil.binary_to_base64 l) = Ret (strip_nul l).
Proof.
  unfold SkrUtil.base64_to_binary, SkrUtil.binary_to_base64. rewrite bytes_padded.
  cbn [mbind outcome_bind]. by rewrite trim_strip, strip_nul_padded.
Qed.
Lemma skr_decode_string l :
  SkrUtil.base64_decode (SkrUtil.binary_to_base64 l) = Ret (strip_nul l).
Proof.
  unfold SkrUtil.base64_decode, SkrUtil.binary_to_base64. rewrite bytes_padded.
  cbn [mbind outcome_bind]. by rewrite trim_strip, strip_nul_padded.
Qed.

(** the client library's codec loses nothing: decoding the padded base64 of
    any byte string (of less than [max_size - 2] bytes), and decoding its
    unpadded base64url, give the byte string back, zero bytes at its end
    included. *)
Theorem attest_base64_round_trip l :
  (size l + 2 <= vector_max_size)%Z ->
  AttestBase64.base64_to_binary (AttestBase64.binary_to_base64 l) = Ret l /\
  AttestBase64.base64_to_binary (AttestBase64.base64_encode l) = Ret l /\
  AttestBase64.base64url_to_binary (AttestBase64.binary_to_base64url l) = Ret l.
Proof.
  intros Hs. split; [|split]; [by apply attest_decode_padded..|].
  unfold AttestBase64.base64url_to_binary, AttestBase64.binary_to_base64url.
  rewrite url_encode_map, url_decode_map, text_url_inverse. apply attest_decode_text.
Qed.

(** The [encoders] of the secrets library lose nothing either, and this one
    keeps the padding in its base64url text: both decoders invert their encoder. *)
Theorem encoders_round_trip l :
  (size l + 2 <= vector_max_size)%Z ->
  Encoders.base64_decode (Encoders.base64_encode l) = Ret l /\
  Encoders.base64_url_decode (Encoders.base64_url_encode l) = Ret l.
Proof.
  intros Hs. split; [by apply attest_decode_padded|].
  unfold Encoders.base64_url_decode, Encoders.base64_url_encode.
  rewrite url_encode_map, url_decode_map, url_decode_encode by apply padded_alphabet.
  by apply attest_decode_padded.
Qed.

(** the secure-key-release app's decoders trim: what comes back from base64,
    base64url and the string decoder is the data without the zero bytes at its
    end, so data round-trips exactly when it does not end in a zero byte. *)
Theorem skr_base64_strips_nul l :
  SkrUtil.base64_to_binary (SkrUtil.binary_to_base64 l) = Ret (strip_nul l) /\
  SkrUtil.base64url_to_binary (SkrUtil.binary_to_base64url l) = Ret (strip_nul l) /\
  SkrUtil.base64_decode (SkrUtil.binary_to_base64 l) = Ret (strip_nul l) /\
  (SkrUtil.base64_to_binary (SkrUtil.binary_to_base64 l) = Ret l <-> last l <> Some x00).
Proof.
  rewrite skr_decode_string, !skr_decode_padded.
  unfold SkrUtil.base64url_to_binary, SkrUtil.binary_to_base64url.
  rewrite url_encode_map, url_decode_map, text_url_inverse.
  unfold SkrUtil.base64_to_binary. rewrite bytes_text. cbn [mbind outcome_bind].
  rewrite trim_strip. split_and!; try done.
  rewrite <- strip_nul_exact. split; [by intros [= ->] | by intros ->].
Qed.

(** Base64url text is safe in a URL: letters, digits, [-] and [_] only (no
    padding) from the client library, of length [ceil(4n/3)]. *)
Theorem attest_url_safe l :
  Forall (fun c => url_alphabet c = true) (AttestBase64.binary_to_base64url l) /\
  length (AttestBase64.binary_to_base64url l) = (4 * length l + 2) / 3.
Proof.
  unfold AttestBase64.binary_to_base64url. rewrite url_encode_map, length_map, text_length.
  split; [|done]. apply Forall_map. eapply Forall_impl; [apply text_alphabet|].
  cbv beta. apply to_url_alphabet.
Qed.

(** Text with more padding characters than decoded bytes is refused: the
    subtraction of the padding count wraps below zero and the [resize] throws
    [std::length_error], it never returns a byte string. *)
Theorem attest_excess_padding t d :
  b64_bytes t = Ret d ->
  (size d < Z.of_nat (count_byte "=" t) <= vector_max_size)%Z ->
  AttestBase64.base64_to_binary t = Throw (LengthError (str "vector::_M_default_append")).
Proof.
  intros E [H1 H2]. unfold AttestBase64.base64_to_binary. rewrite E. cbn [mbind outcome_bind].
  rewrite (proj2 (Z.ltb_lt _ _)) by (unfold size in *; lia).
  apply resize_underflow; unfold size in *; lia.
Qed.

End Theorems.

Lemma hex_pair h l :
  (0 <= h < 16)%Z -> (0 <= l < 16)%Z -> strtol16 [hex_char h; hex_char l] = (h * 16 + l)%Z.
Proof.
  intros Hh Hl. assert (Hall : forallb (fun n => forallb (fun m =>
    (strtol16 [hex_char (Z.of_nat n); hex_char (Z.of_nat m)] =? Z.of_nat n * 16 + Z.of_nat m)%Z)
    (seq 0 16)) (seq 0 16) = true) by (vm_compute; reflexivity).
  rewrite forallb_forall in Hall. specialize (Hall (Z.to_nat h)).
  rewrite forallb_forall in Hall. ospecialize (Hall _ (Z.to_nat l) _).
  - apply in_seq. lia.
  - apply in_seq. lia.
  - rewrite !Z2Nat.id in Hall by lia. by apply Z.eqb_eq.
Qed.

(** [hex_to_binary] inverts [binary_to_hex]: two lower-case digits per byte,
    leading zeros kept. *)
Theorem hex_round_trip l :
  SkrUtil.hex_to_binary (SkrUtil.binary_to_hex l) = l /\
  length (SkrUtil.binary_to_hex l) = 2 * length l.
Proof.
  unfold SkrUtil.binary_to_hex. induction l as [|c l [IH1 IH2]]; [done|].
  cbn [flat_map app SkrUtil.hex_to_binary length]. pose proof (z_of_byte_range c).
  rewrite IH1, IH2, hex_pair.
  - split; [|lia]. f_equal. rewrite (Z.mul_comm _ 16), <- Z.div_mod by done.
    apply byte_of_z_of_byte.
  - Z.to_euclidean_division_equations; lia.
  - Z.to_euclidean_division_equations; lia.
Qed.

(** Witnesses, with the RFC 4648 instance. *)
Lemma attest_base64_round_trip_witness :
  let l := [x61; xfb; x00; x00] in
  AttestBase64.binary_to_base64 l = str "YfsAAA==" /\
  AttestBase64.base64_to_binary (AttestBase64.binary_to_base64 l) = Ret l.
Proof.
  cbn zeta. split; [vm_compute; reflexivity|].
  apply (attest_base64_round_trip [x61; xfb; x00; x00]). vm_compute. discriminate.
Defined.

Lemma encoders_round_trip_witness :
  let l := [xff; xfe] in
  Encoders.base64_url_encode l = str "__4=" /\
  Encoders.base64_url_decode (Encoders.base64_url_encode l) = Ret l.
Proof.
  cbn zeta. split; [vm_compute; reflexivity|].
  apply (encoders_round_trip [xff; xfe]). vm_compute. discriminate.
Defined.

Lemma skr_base64_strips_nul_witness :
  SkrUtil.base64_to_binary (SkrUtil.binary_to_base64 [x01; x00]) = Ret [x01].
Proof. apply (skr_base64_strips_nul [x01; x00]). Defined.

Lemma attest_url_safe_witness :
  AttestBase64.binary_to_base64url [xff; xfe] = str "__4" /\
  length (AttestBase64.binary_to_base64url [xff; xfe]) = 3.
Proof.
  split; [vm_compute; reflexivity|]. apply (attest_url_safe [xff; xfe]).
Defined.

Lemma attest_excess_padding_witness :
  AttestBase64.base64_to_binary (str "====") =
  Throw (LengthError (str "vector::_M_default_append")).
Proof.
  apply (attest_excess_padding (str "====") [x00; x00; x00]).
  - vm_compute. reflexivity.
  - vm_compute. split; congruence.
Defined.
