(* ===== verification/Loggers.v ===== *)
(** * Logs and traces

    LibraryLogger.cpp and LibraryLogger.h (the secrets library), DebugInfo.cpp, Tpm2Logger.cpp, the traces of the
    secure-key-release app (AttestationUtil.h, Logger.cpp) and SetTelemetryReporting. The other files leave
    their calls to these out; here is what they write. [format_safe_spec]: what is put for the
    placeholders; [redacted]: what the app's traces tell of a secret. *)

From S2P Require Import Prelude Base64.
#[local] Open Scope Z_scope.

(** Where a log goes. [vsnprintf] answers with the length of the text and the text. *)
Inductive LogCall : Type -> Type :=
| console (to_stderr : bool) (text : bytes) : LogCall unit
| sd_journal_send (fields : list (bytes * bytes)) : LogCall unit
| RegisterEventSourceA (provider : bytes) : LogCall bool
| ReportEventA (wType category eventId : Z) (texts : list bytes) : LogCall unit
| DeregisterEventSource : LogCall unit
| vsnprintf (fmt : bytes) : LogCall (Z * bytes).

(** The text after the last [c]. *)
Definition after_last (c : byte) (s : bytes) : bytes :=
  match rfind_byte c s with Some i => drop (Datatypes.S i) s | None => s end.

(** ** LibraryLogger *)
Module SecretsLogger.
Inductive LogLevel := Debug | Info | Warning | Error.

Definition categories : list (bytes * Z) :=
  [(str "Security", 1000); (str "Auth", 1000); (str "Access", 1000);
   (str "Crypto", 1100); (str "Encrypt", 1100); (str "Decrypt", 1100);
   (str "Policy", 1200);
   (str "JWT", 1300); (str "Token", 1300);
   (str "Parse", 1400)].
Definition GetEventId (logLevel : LogLevel) (eventName : option bytes) : Z :=
  let baseId := match eventName with
                | Some name => match list_find (fun c => is_Some (find_str c.1 name)) categories with
                               | Some (_, c) => c.2 | None => 1500 end
                | None => 1500
                end in
  match logLevel with Error => baseId + 1 | Warning => baseId + 10 | _ => baseId + 20 end.

Section Ops.
Context {F : Type -> Type} {S : Type} `{Handler F S} `{LogCall -< F}.
(** The build: with [DEBUG], and for the command-line tool ([DYNAMIC_SAMPLE]). *)
Variables (debug_build dynamic_sample : bool).

Definition level_text (l : LogLevel) : bytes :=
  str (match l with Debug => "[DEBUG]" | Info => "[INFO]" | Warning => "[WARNING]" | Error => "[ERROR]" end).
Definition LOG_ERR : Z := 3.
Definition LOG_WARNING : Z := 4.
Definition LOG_INFO : Z := 6.
Definition LOG_DEBUG : Z := 7.
Definition priority (l : LogLevel) : Z :=
  match l with Debug => LOG_DEBUG | Info => LOG_INFO | Warning => LOG_WARNING | Error => LOG_ERR end.
Definition PROVIDER_NAME : bytes := str "Microsoft.Azure.ProtectedVMSecrets".
Definition console_text (l : LogLevel) (file function : bytes) (line : Z) (eventName userMessage : bytes) : bytes :=
  str "[" ++ level_text l ++ str "] - File=" ++ file ++ str ",Function=" ++ function ++ str ",Line=" ++ z_text line
  ++ str " : " ++ eventName ++ [x0a] ++ userMessage.
(** In a build without [DEBUG] a debug message is dropped. *)
Definition dropped (l : LogLevel) : bool := match l with Debug => negb debug_build | _ => false end.

(** With PLATFORM_UNIX *)
Definition internal_logger (file function : bytes) (line : Z) (logLevel : LogLevel) (eventName userMessage : bytes) : M F S unit :=
  if dropped logLevel then mret tt
  else
    let file := after_last "/" file in
    _ ← trig (console dynamic_sample (console_text logLevel file function line eventName userMessage));
    trig (sd_journal_send
      [(str "PRIORITY", z_text (priority logLevel)); (str "SYSLOG_IDENTIFIER", PROVIDER_NAME);
       (str "CODE_FILE", file); (str "CODE_FUNC", function); (str "CODE_LINE", z_text line);
       (str "EVENT_NAME", eventName); (str "MESSAGE", c_str userMessage)]).

(** On Windows *)
Definition event_type (l : LogLevel) : Z := match l with Error => 1 | Warning => 2 | _ => 4 end.
Definition internal_logger_windows (file function : bytes) (line : Z) (logLevel : LogLevel) (eventName userMessage : bytes) : M F S unit :=
  if dropped logLevel then mret tt
  else
    let file := after_last "\" file in
    let structuredMessage := str "Event: " ++ eventName ++ [x0a] ++ str "File: " ++ file ++ [x0a] ++ str "Function: " ++ function
      ++ [x0a] ++ str "Line: " ++ z_text line ++ [x0a] ++ str "Level: " ++ level_text logLevel ++ [x0a] ++ str "Details: " ++ userMessage in
    _ ← trig (console dynamic_sample (console_text logLevel file function line eventName userMessage));
    hEventSource ← trig (RegisterEventSourceA PROVIDER_NAME);
    if negb hEventSource then mret tt
    else
      _ ← trig (ReportEventA (event_type logLevel) 1 (GetEventId logLevel (Some eventName)) [eventName; c_str structuredMessage]);
      trig DeregisterEventSource.

(** [fmt] may be null; the answer of [vsnprintf] is the text of [fmt] with the arguments. *)
Definition default_logger (file function : bytes) (line : Z) (logLevel : LogLevel) (eventName : bytes) (fmt : option bytes) : M F S unit :=
  userMessage ← (match fmt with
                 | Some (_ :: _ as fmt) => '(n, text) ← trig (vsnprintf fmt); mret (if 0 <? n then text else [])
                 | _ => mret []
                 end);
  internal_logger file function line logLevel eventName userMessage.

(** *** [format_safe] *)

(** An argument: an integer, a string, a C string, or a value with an [operator<<]. *)
Inductive log_arg := ArgInt (z : Z) | ArgString (s : bytes) | ArgCString (p : option bytes) | ArgStream (o : outcome bytes).
(** A [const char*] converts to a string: the branch for null pointers is never taken. *)
Definition to_string_safe (a : log_arg) : outcome bytes :=
  match a with
  | ArgInt z => Ret (z_text z)
  | ArgString s => Ret s
  | ArgCString (Some s) => Ret s
  | ArgCString None => Fault UndefinedBehaviour
  | ArgStream o => match o with Throw _ => Ret (str "[conversion_error]") | o => o end
  end.
(** The loop over the placeholders, from the position behind the last one. *)
Fixpoint fill (format : bytes) (args : list bytes) : bytes :=
  match args with
  | [] => format
  | a :: args' =>
      match find_str (str "{}") format with
      | None => format
      | Some placeholder => take placeholder format ++ a ++ fill (drop (placeholder + 2) format) args'
      end
  end.
Fixpoint arg_strings (args : list log_arg) : outcome (list bytes) :=
  match args with [] => Ret [] | a :: args' => s ← to_string_safe a; l ← arg_strings args'; Ret (s :: l) end.
Definition format_safe (format : bytes) (args : list log_arg) : outcome bytes :=
  match args with
  | [] => Ret format
  | _ => l ← arg_strings args; Ret (fill format l)
  end.
Definition modern_logger (file function : bytes) (line : Z) (logLevel : LogLevel) (eventName format : bytes) (args : list log_arg) : M F S unit :=
  noexcept_m (try_all (message ← lift (format_safe format args); internal_logger file function line logLevel eventName message)
    (fun _ => internal_logger file function line Error (str "Log Error") (str "Failed to format log message"))).
End Ops.
End SecretsLogger.

(** ** Tpm2Logger and the client's loggers *)
Module Tpm2Logger.
Inductive LogLevel := Info | Warn | Error.
Section Ops.
Context {F : Type -> Type} {S : Type} `{Handler F S} `{LogCall -< F}.
Definition default_logger (file function : bytes) (line : Z) (logLevel : LogLevel) (eventName fmt : bytes) : M F S unit :=
  let lvl := str (match logLevel with Info => "INFO" | Warn => "WARN" | Error => "ERROR" end) in
  _ ← trig (console false (lvl ++ str " : File=" ++ after_last "/" file ++ str ",Function=" ++ function ++ str ",Line=" ++ z_text line
                           ++ str " : " ++ eventName ++ str " : "));
  '(_, text) ← trig (vsnprintf fmt);
  _ ← trig (console false text);
  trig (console false [x0a]).
End Ops.
(** The logger in use is a global variable; the assignment is to a local one of that name. *)
Definition SetLogger {A} (logger f : A) : A := let __logger := f in logger.
End Tpm2Logger.

(** The first one set stays. *)
Definition SetTelemetryReporting {A} (telemetry_reporting telemetry_reporting_ : option A) : option A :=
  match telemetry_reporting with None => telemetry_reporting_ | Some _ => telemetry_reporting end.

(** ** Traces of the secure-key-release app *)
Module SkrTrace.
Record settings := { isTraceOn : bool; traceLevel : Z }.
(** At start, and after [set_tracing] for the values 1 and 2 of SKR_TRACE_ON. *)
Definition initial : settings := {| isTraceOn := false; traceLevel := 1 |}.
Definition traced (level : Z) : settings := {| isTraceOn := true; traceLevel := level |}.

Definition lower (c : byte) : byte := if in_range "A" "Z" c then byte_of_z (z_of_byte c + 32) else c.
(** [std::search] without regard to case *)
Definition has_error (s : bytes) : bool := bool_decide (is_Some (find_str (str "error") (map lower s))).
Definition reduct_log_percentage (s : bytes) : Z := if has_error s then 100 else 15.
(** [size * (percentage / 100)] in double precision is [size * percentage / 100] rounded down, for sizes below 2^49: the
    error is less than the distance to the next integer, and products that are integers round to themselves. *)
Definition reduct_log (t : settings) (s : bytes) : bytes :=
  let lengthMask := size s * reduct_log_percentage s / 100 in
  c_str (if (traceLevel t =? 1) && (lengthMask <? size s) then take (Z.to_nat lengthMask) s ++ str "..." else s).

Section Ops.
Context {F : Type -> Type} {S : Type} `{Handler F S} `{LogCall -< F}.
Definition trace_out (t : settings) (fmt : bytes) : M F S unit :=
  if isTraceOn t then
    '(_, text) ← trig (vsnprintf fmt);
    _ ← trig (console true text);
    trig (console true [x0a])
  else mret tt.
(** [Logger::Log]: a negative length makes an empty vector whose first element is written. *)
Definition Log (isTraceOn : bool) (log_tag level function : bytes) (line : Z) (fmt : bytes) : M F S unit :=
  if isTraceOn then
    '(len, text) ← trig (vsnprintf fmt);
    if len <? 0 then fault_with UndefinedBehaviour
    else trig (console false (str "Level: " ++ level ++ str " Tag: " ++ log_tag ++ str " " ++ function ++ str ":" ++ z_text line
                              ++ str ":" ++ c_str text ++ [x0a]))
  else mret tt.
End Ops.
End SkrTrace.

(** [formatHexBuffer] (DebugInfo.cpp): no width is set, so a byte below 16 is one digit. *)
Definition hex_digit (z : Z) : byte := byte_of_z (if z <? 10 then 48 + z else 87 + z).
Definition hex_number (c : byte) : bytes :=
  let z := z_of_byte c in if z <? 16 then [hex_digit z] else [hex_digit (z / 16); hex_digit (z mod 16)].
Definition formatHexBuffer (buffer : bytes) : bytes := concat (map hex_number buffer).

(** ** What is put for the placeholders *)
Module Placeholders.
Import SecretsLogger.
Definition placeholder : bytes := str "{}".
(** A text without placeholder. *)
Definition literal (s : bytes) : Prop := find_str placeholder s = None.
(** A format of the literals [ps], and the text with [args] between them: a placeholder without argument stays,
    an argument without placeholder is dropped. *)
Fixpoint format_of (ps : list bytes) : bytes :=
  match ps with [] => [] | [p] => p | p :: ps => p ++ placeholder ++ format_of ps end.
Fixpoint weave (ps args : list bytes) : bytes :=
  match ps, args with
  | p :: ((_ :: _) as ps'), a :: args' => p ++ a ++ weave ps' args'
  | _, _ => format_of ps
  end.

Lemma literal_before p rest : literal p -> find_str placeholder (p ++ placeholder ++ rest) = Some (length p).
Proof.
  unfold literal. induction p as [|x p IH]; [done|]. cbn [find_str].
  destruct (is_prefix placeholder (x :: p)) eqn:Hx; [done|]. intros Hp. cbn [app find_str length].
  replace (is_prefix placeholder (x :: p ++ placeholder ++ rest)) with false.
  - rewrite IH; [done|]. by destruct (find_str placeholder p).
  - destruct p as [|y p]; cbn in Hx |- *; [|done]. by rewrite andb_false_r.
Qed.
Lemma literals_of n format : (length format <= n)%nat -> exists ps, ps <> [] /\ Forall literal ps /\ format_of ps = format.
Proof.
  revert format. induction n as [|n IH]; intros format Hn.
  all: destruct (find_str placeholder format) as [i|] eqn:Hi; [|by exists [format]; repeat constructor].
  all: destruct (find_str_Some _ _ _ Hi) as [Hf Hlit]; [done|].
  - destruct format; [done|]. cbn in Hn. lia.
  - destruct (IH (drop (i + 2) format)) as (ps & Hps & Hall & Hdrop).
    { rewrite length_drop. assert (length format <> 0)%nat by (by destruct format). lia. }
    exists (take i format :: ps). split_and!; [done|by constructor|].
    cbn [format_of]. destruct ps; [done|]. rewrite Hdrop. by symmetry.
Qed.
Lemma fill_weave ps args : Forall literal ps -> fill (format_of ps) args = weave ps args.
Proof.
  intros Hps. revert args. induction Hps as [|p ps Hp Hps IH]; intros [|a args]; try done; [by destruct ps|].
  cbn [fill]. change (str "{}") with placeholder.
  destruct ps as [|q ps]; [cbn [format_of weave]; by rewrite Hp|]. 
  change (weave (p :: q :: ps) (a :: args)) with (p ++ a ++ weave (q :: ps) args).
  change (format_of (p :: q :: ps)) with (p ++ placeholder ++ format_of (q :: ps)).
  rewrite literal_before by done. by rewrite take_app_length, <- IH, <- drop_drop, drop_app_length.
Qed.
End Placeholders.

Section FormatSafe.
Import SecretsLogger Placeholders.
(** C39: every format is a sequence of literals with the placeholder {} between them, and [format_safe] puts the
    texts of the arguments, as they are and in order, for the placeholders: placeholders without argument stay, arguments
    without placeholder are dropped, and braces in an argument are never read as a placeholder. *)
Theorem format_safe_spec (format : bytes) :
  exists ps, ps <> [] /\ Forall literal ps /\ format = format_of ps /\
    forall args, format_safe format args = (l ← arg_strings args; Ret (weave ps l)).
Proof.
  destruct (literals_of (length format) format) as (ps & Hne & Hps & <-); [done|].
  exists ps. split_and!; [done..|]. intros [|a args]; cbn [format_safe].
  - by destruct ps as [|? [|??]].
  - destruct (arg_strings (a :: args)); [cbn; by rewrite fill_weave|done..].
Qed.
Example format_safe_example :
  format_safe (str "key {} of {} bits, {}") [ArgString (str "{}"); ArgInt 2048] = Ret (str "key {} of 2048 bits, {}").
Proof. reflexivity. Qed.
End FormatSafe.

(** ** What the app's traces tell *)
Module Redaction.
Import SkrTrace.
(** The text has the word in it, in any case. *)
Definition mentions_error (s : bytes) : Prop := exists a e b, s = a ++ e ++ b /\ map lower e = str "error".
Definition shown (s : bytes) : nat := Z.to_nat (size s * 15 / 100).

Lemma has_error_iff s : has_error s = true <-> mentions_error s.
Proof.
  unfold has_error. rewrite bool_decide_eq_true, find_str_is_Some. split.
  - intros (a & b & Hs). apply map_eq_app in Hs as (a' & s' & -> & _ & Hs).
    apply map_eq_app in Hs as (e & b' & -> & He & _). by exists a', e, b'.
  - intros (a & e & b & -> & He). rewrite !map_app, He. by eexists _, _.
Qed.
Lemma c_str_size s : size (c_str s) <= size s.
Proof.
  unfold size. induction s as [|c s IH]; cbn [c_str]; [done|]. case_decide; cbn [length]; lia.
Qed.
Lemma not_error s : ~ mentions_error s -> has_error s = false.
Proof. intros Hs. destruct (has_error s) eqn:E; [by apply has_error_iff in E|done]. Qed.
Lemma reduct_masked t s : traceLevel t = 1 -> ~ mentions_error s -> s <> [] ->
  reduct_log t s = c_str (take (shown s) s ++ str "...").
Proof.
  intros Ht Hs Hne. unfold reduct_log, reduct_log_percentage. rewrite Ht, not_error by done. cbn [Z.eqb Pos.eqb andb].
  rewrite (proj2 (Z.ltb_lt _ _)); [done|]. assert (0 < size s) by (destruct s; [done|unfold size; cbn; lia]).
  apply Z.div_lt_upper_bound; lia.
Qed.

(** At the first level the app's traces show of a text that does not have the word "error" in it the first
    15 percent, and nothing else but its length: two texts of one length with these bytes in common are traced alike, and
    no more than these bytes and three dots come out. A text with the word in it, in any case, is shown in full. *)
Theorem redacted (t : settings) (s1 s2 : bytes) :
  traceLevel t = 1 ->
  (~ mentions_error s1 -> (size (reduct_log t s1) <= size s1 * 15 / 100 + 3)) /\
  (~ mentions_error s1 -> ~ mentions_error s2 -> size s1 = size s2 -> take (shown s1) s1 = take (shown s2) s2 ->
   reduct_log t s1 = reduct_log t s2) /\
  (mentions_error s1 -> reduct_log t s1 = c_str s1).
Proof.
  intros Ht. split_and!.
  - intros Hs. destruct (decide (s1 = [])) as [->|Hne]; [unfold reduct_log; by rewrite Ht|].
    rewrite reduct_masked by done. etrans; [apply c_str_size|]. rewrite size_app. unfold size at 1. rewrite length_take.
    change (size (str "...")) with 3. unfold shown.
    assert (0 <= size s1 * 15 / 100) by (apply Z.div_pos; unfold size; lia). lia.
  - intros Hs1 Hs2 Hsz Heq. destruct (decide (s1 = [])) as [->|Hne].
    + destruct s2; [done|]. unfold size in Hsz. cbn in Hsz. lia.
    + rewrite !reduct_masked by (done || (intros ->; destruct s1; [done|unfold size in Hsz; cbn in Hsz; lia])).
      by rewrite Heq.
  - intros Hs%has_error_iff. unfold reduct_log, reduct_log_percentage. rewrite Hs, Z.div_mul by done.
    by rewrite Z.ltb_irrefl, andb_false_r.
Qed.
Definition secret1 : bytes := str "sk-0123456789abcdefg".
Definition secret2 : bytes := str "sk-zzzzzzzzzzzzzzzzz".
Lemma redacted_witness :
  reduct_log (traced 1) secret1 = str "sk-..." /\ reduct_log (traced 1) secret1 = reduct_log (traced 1) secret2 /\
  reduct_log (traced 1) (str "sk-eRRor-0123456") = str "sk-eRRor-0123456".
Proof.
  assert (Hno : forall s, has_error s = false -> ~ mentions_error s) by (intros s Hs Hm; apply has_error_iff in Hm; congruence).
  split_and!; [vm_compute; reflexivity| |].
  - apply (redacted (traced 1) secret1 secret2); [reflexivity|apply Hno; vm_compute; reflexivity..|reflexivity|
      vm_compute; reflexivity].
  - etrans; [apply (redacted (traced 1) (str "sk-eRRor-0123456") []); [reflexivity|]|vm_compute; reflexivity].
    apply has_error_iff. vm_compute. reflexivity.
Defined.
End Redaction.

(** A debug message leaves no trace in a release build. *)
Lemma debug_dropped {F S} `{Handler F S} `{LogCall -< F} dynamic_sample file function line eventName userMessage s :
  SecretsLogger.internal_logger false dynamic_sample file function line SecretsLogger.Debug eventName userMessage s = Res (Ret tt) s [].
Proof. reflexivity. Qed.
(** Different buffers with one hexadecimal text. *)
Example formatHexBuffer_ambiguous : formatHexBuffer [x01; x23] = formatHexBuffer [x12; x03].
Proof. reflexivity. Qed.
