(* ===== verification/ReturnCodes.v ===== *)
(** * ReturnCodes.h: the status codes of the secrets library

    [ErrorCode] has the constructors of the enumeration, [error_code] their
    values, [error_code_name] and [get_error_message] the two functions that turn
    a code into text (SecretsProvisioningLibrary.cpp). *)

From S2P Require Import Prelude.

Inductive ErrorCode :=
| Success
| TpmError
| TpmError_Auth_setAuthError
| TpmError_Handles_handlePresentError
| TpmError_Handles_evictControlError
| TpmError_Objects_createError
| TpmError_Context_tctiInitError
| TpmError_Context_esysFinalError
| TpmError_Context_esysInitError
| TpmError_Handles_esysNvReadError
| CryptographyError
| CryptographyError_AES_encryptError
| CryptographyError_AES_decryptError
| CryptographyError_ECC_keyError
| CryptographyError_ECC_keyGenError
| CryptographyError_HKDF_extractError
| CryptographyError_HKDF_expandError
| CryptographyError_X509_certChainError
| CryptographyError_X509_sigErrorError
| CryptographyError_TpmRsa_encryptError
| CryptographyError_TpmRsa_decryptError
| CryptographyError_Hash_hashError
| CryptographyError_Signing_verifyError
| CryptographyError_Signing_certChainError
| ParsingError
| ParsingError_Jwt_invStructureError
| ParsingError_Jwt_jsonParseError
| ParsingError_Jwt_timeError
| ParsingError_Jwt_missingFieldError
| ParsingError_Jwt_invalidFieldError
| ParsingError_X509_certParseError
| ParsingError_X509_certChainError
| ParsingError_X509_certLoadError
| ParsingError_X509_certStoreError
| ParsingError_Asn1_x509PrivKeyError
| ParsingError_Asn1_x509PubKeyError
| ParsingError_Unicode_utf8Error
| ParsingError_Base64_b64Error
| LibraryErrors
| LibraryError_Bcrypt_propertyError
| LibraryError_Bcrypt_providerError
| LibraryError_Bcrypt_handleError
| LibraryError_Bcrypt_keyError
| LibraryError_WinCrypt_certStoreError
| LibraryError_WinCrypt_certLoadError
| LibraryError_WinCrypt_certChainError
| LibraryError_JsonHpp_jsonParseError
| PolicyMismatchError
| GeneralError
| GeneralError_Memory_AllocError
| UnknownError.

#[export] Instance ErrorCode_eq_dec : EqDecision ErrorCode.
Proof. solve_decision. Defined.

#[local] Open Scope Z_scope.
(** The first value of each family, in the notation of the header. *)
Definition TpmError_base : Z := -1 * 0x1000.
Definition CryptographyError_base : Z := -1 * 0x2000.
Definition ParsingError_base : Z := -1 * 0x3000.
Definition LibraryErrors_base : Z := -1 * 0x4000.
Definition PolicyMismatchError_base : Z := -1 * 0x5000.
Definition GeneralError_base : Z := -1 * 0x6000.
Definition UnknownError_base : Z := -1 * 0x7000.

Definition error_code (c : ErrorCode) : Z :=
  match c with
  | Success => 0
  | TpmError => TpmError_base
  | TpmError_Auth_setAuthError => TpmError_base - 1
  | TpmError_Handles_handlePresentError => TpmError_base - 2
  | TpmError_Handles_evictControlError => TpmError_base - 3
  | TpmError_Objects_createError => TpmError_base - 4
  | TpmError_Context_tctiInitError => TpmError_base - 5
  | TpmError_Context_esysFinalError => TpmError_base - 6
  | TpmError_Context_esysInitError => TpmError_base - 7
  | TpmError_Handles_esysNvReadError => TpmError_base - 8
  | CryptographyError => CryptographyError_base
  | CryptographyError_AES_encryptError => CryptographyError_base - 1
  | CryptographyError_AES_decryptError => CryptographyError_base - 2
  | CryptographyError_ECC_keyError => CryptographyError_base - 3
  | CryptographyError_ECC_keyGenError => CryptographyError_base - 4
  | CryptographyError_HKDF_extractError => CryptographyError_base - 5
  | CryptographyError_HKDF_expandError => CryptographyError_base - 6
  | CryptographyError_X509_certChainError => CryptographyError_base - 7
  | CryptographyError_X509_sigErrorError => CryptographyError_base - 8
  | CryptographyError_TpmRsa_encryptError => CryptographyError_base - 9
  | CryptographyError_TpmRsa_decryptError => CryptographyError_base - 10
  | CryptographyError_Hash_hashError => CryptographyError_base - 11
  | CryptographyError_Signing_verifyError => CryptographyError_base - 12
  | CryptographyError_Signing_certChainError => CryptographyError_base - 13
  | ParsingError => ParsingError_base
  | ParsingError_Jwt_invStructureError => ParsingError_base - 1
  | ParsingError_Jwt_jsonParseError => ParsingError_base - 2
  | ParsingError_Jwt_timeError => ParsingError_base - 3
  | ParsingError_Jwt_missingFieldError => ParsingError_base - 4
  | ParsingError_Jwt_invalidFieldError => ParsingError_base - 5
  | ParsingError_X509_certParseError => ParsingError_base - 6
  | ParsingError_X509_certChainError => ParsingError_base - 7
  | ParsingError_X509_certLoadError => ParsingError_base - 8
  | ParsingError_X509_certStoreError => ParsingError_base - 9
  | ParsingError_Asn1_x509PrivKeyError => ParsingError_base - 10
  | ParsingError_Asn1_x509PubKeyError => ParsingError_base - 11
  | ParsingError_Unicode_utf8Error => ParsingError_base - 12
  | ParsingError_Base64_b64Error => ParsingError_base - 13
  | LibraryErrors => LibraryErrors_base
  | LibraryError_Bcrypt_propertyError => LibraryErrors_base - 1
  | LibraryError_Bcrypt_providerError => LibraryErrors_base - 2
  | LibraryError_Bcrypt_handleError => LibraryErrors_base - 3
  | LibraryError_Bcrypt_keyError => LibraryErrors_base - 4
  | LibraryError_WinCrypt_certStoreError => LibraryErrors_base - 5
  | LibraryError_WinCrypt_certLoadError => LibraryErrors_base - 6
  | LibraryError_WinCrypt_certChainError => LibraryErrors_base - 7
  | LibraryError_JsonHpp_jsonParseError => LibraryErrors_base - 8
  | PolicyMismatchError => PolicyMismatchError_base
  | GeneralError => GeneralError_base
  | GeneralError_Memory_AllocError => GeneralError_base - 1
  | UnknownError => UnknownError_base
  end.

Definition all_codes : list ErrorCode :=
  [Success;
   TpmError;
   TpmError_Auth_setAuthError;
   TpmError_Handles_handlePresentError;
   TpmError_Handles_evictControlError;
   TpmError_Objects_createError;
   TpmError_Context_tctiInitError;
   TpmError_Context_esysFinalError;
   TpmError_Context_esysInitError;
   TpmError_Handles_esysNvReadError;
   CryptographyError;
   CryptographyError_AES_encryptError;
   CryptographyError_AES_decryptError;
   CryptographyError_ECC_keyError;
   CryptographyError_ECC_keyGenError;
   CryptographyError_HKDF_extractError;
   CryptographyError_HKDF_expandError;
   CryptographyError_X509_certChainError;
   CryptographyError_X509_sigErrorError;
   CryptographyError_TpmRsa_encryptError;
   CryptographyError_TpmRsa_decryptError;
   CryptographyError_Hash_hashError;
   CryptographyError_Signing_verifyError;
   CryptographyError_Signing_certChainError;
   ParsingError;
   ParsingError_Jwt_invStructureError;
   ParsingError_Jwt_jsonParseError;
   ParsingError_Jwt_timeError;
   ParsingError_Jwt_missingFieldError;
   ParsingError_Jwt_invalidFieldError;
   ParsingError_X509_certParseError;
   ParsingError_X509_certChainError;
   ParsingError_X509_certLoadError;
   ParsingError_X509_certStoreError;
   ParsingError_Asn1_x509PrivKeyError;
   ParsingError_Asn1_x509PubKeyError;
   ParsingError_Unicode_utf8Error;
   ParsingError_Base64_b64Error;
   LibraryErrors;
   LibraryError_Bcrypt_propertyError;
   LibraryError_Bcrypt_providerError;
   LibraryError_Bcrypt_handleError;
   LibraryError_Bcrypt_keyError;
   LibraryError_WinCrypt_certStoreError;
   LibraryError_WinCrypt_certLoadError;
   LibraryError_WinCrypt_certChainError;
   LibraryError_JsonHpp_jsonParseError;
   PolicyMismatchError;
   GeneralError;
   GeneralError_Memory_AllocError;
   UnknownError].

(** The [switch] of [error_code_name]; a value of no enumerator falls through to
    the last [return]. *)
Definition error_code_name (c : ErrorCode) : bytes :=
  match c with
  | Success => str "Success"
  | TpmError => str "TpmError"
  | TpmError_Auth_setAuthError => str "TpmError_Auth_setAuthError"
  | TpmError_Handles_handlePresentError => str "TpmError_Handles_handlePresentError"
  | TpmError_Handles_evictControlError => str "TpmError_Handles_evictControlError"
  | TpmError_Objects_createError => str "TpmError_Objects_createError"
  | TpmError_Context_tctiInitError => str "TpmError_Context_tctiInitError"
  | TpmError_Context_esysFinalError => str "TpmError_Context_esysFinalError"
  | TpmError_Context_esysInitError => str "TpmError_Context_esysInitError"
  | TpmError_Handles_esysNvReadError => str "TpmError_Handles_esysNvReadError"
  | CryptographyError => str "CryptographyError"
  | CryptographyError_AES_encryptError => str "CryptographyError_AES_encryptError"
  | CryptographyError_AES_decryptError => str "CryptographyError_AES_decryptError"
  | CryptographyError_ECC_keyError => str "CryptographyError_ECC_keyError"
  | CryptographyError_ECC_keyGenError => str "CryptographyError_ECC_keyGenError"
  | CryptographyError_HKDF_extractError => str "CryptographyError_HKDF_extractError"
  | CryptographyError_HKDF_expandError => str "CryptographyError_HKDF_expandError"
  | CryptographyError_X509_certChainError => str "CryptographyError_X509_certChainError"
  | CryptographyError_X509_sigErrorError => str "CryptographyError_X509_sigErrorError"
  | CryptographyError_TpmRsa_encryptError => str "CryptographyError_TpmRsa_encryptError"
  | CryptographyError_TpmRsa_decryptError => str "CryptographyError_TpmRsa_decryptError"
  | CryptographyError_Hash_hashError => str "CryptographyError_Hash_hashError"
  | CryptographyError_Signing_verifyError => str "CryptographyError_Signing_verifyError"
  | CryptographyError_Signing_certChainError => str "CryptographyError_Signing_certChainError"
  | ParsingError => str "ParsingError"
  | ParsingError_Jwt_invStructureError => str "ParsingError_Jwt_invStructureError"
  | ParsingError_Jwt_jsonParseError => str "ParsingError_Jwt_jsonParseError"
  | ParsingError_Jwt_timeError => str "ParsingError_Jwt_timeError"
  | ParsingError_Jwt_missingFieldError => str "ParsingError_Jwt_missingFieldError"
  | ParsingError_Jwt_invalidFieldError => str "ParsingError_Jwt_invalidFieldError"
  | ParsingError_X509_certParseError => str "ParsingError_X509_certParseError"
  | ParsingError_X509_certChainError => str "ParsingError_X509_certChainError"
  | ParsingError_X509_certLoadError => str "ParsingError_X509_certLoadError"
  | ParsingError_X509_certStoreError => str "ParsingError_X509_certStoreError"
  | ParsingError_Asn1_x509PrivKeyError => str "ParsingError_Asn1_x509PrivKeyError"
  | ParsingError_Asn1_x509PubKeyError => str "ParsingError_Asn1_x509PubKeyError"
  | ParsingError_Unicode_utf8Error => str "ParsingError_Unicode_utf8Error"
  | ParsingError_Base64_b64Error => str "ParsingError_Base64_b64Error"
  | LibraryErrors => str "LibraryErrors"
  | LibraryError_Bcrypt_propertyError => str "LibraryError_Bcrypt_propertyError"
  | LibraryError_Bcrypt_providerError => str "LibraryError_Bcrypt_providerError"
  | LibraryError_Bcrypt_handleError => str "LibraryError_Bcrypt_handleError"
  | LibraryError_Bcrypt_keyError => str "LibraryError_Bcrypt_keyError"
  | LibraryError_WinCrypt_certStoreError => str "LibraryError_WinCrypt_certStoreError"
  | LibraryError_WinCrypt_certLoadError => str "LibraryError_WinCrypt_certLoadError"
  | LibraryError_WinCrypt_certChainError => str "LibraryError_WinCrypt_certChainError"
  | LibraryError_JsonHpp_jsonParseError => str "LibraryError_JsonHpp_jsonParseError"
  | PolicyMismatchError => str "PolicyMismatchError"
  | GeneralError => str "GeneralError"
  | GeneralError_Memory_AllocError => str "GeneralError_Memory_AllocError"
  | UnknownError => str "UnknownError"
  end.
Definition enumerator (z : Z) : option ErrorCode :=
  find (fun c => error_code c =? z) all_codes.
Definition error_code_name_of (z : Z) : bytes :=
  match enumerator z with Some c => error_code_name c | None => str "UnknownError" end.

(** [static_cast<ErrorCode>(long)] keeps the low 32 bits. *)
Definition get_error_message (code : Z) : bytes :=
  if 0 <=? code then error_code_name Success else error_code_name_of (s32 code).

Lemma all_codes_all c : c ∈ all_codes.
Proof. apply list_elem_of_In. destruct c; simpl; tauto. Qed.

Lemma enumerator_code c : enumerator (error_code c) = Some c.
Proof. by destruct c. Qed.

Lemma enumerator_Some z c : enumerator z = Some c -> error_code c = z.
Proof. unfold enumerator. intros [_ H]%find_some. by apply Z.eqb_eq. Qed.

Lemma error_code_inj c1 c2 : error_code c1 = error_code c2 -> c1 = c2.
Proof. intros E. apply (f_equal enumerator) in E. rewrite !enumerator_code in E. congruence. Qed.

Lemma error_code_negative c : c <> Success -> -32768 <= error_code c < 0.
Proof. by destruct c. Qed.

(** *** Status codes carried by exceptions *)

(** A code inside an exception is one of the library's failures. *)
Definition failure (z : Z) : Prop := exists c, c <> Success /\ z = error_code c.
Definition coded (e : exn) : Prop :=
  match e with
  | TpmErr _ _ l | JwtErr _ l | BcryptErr _ _ l | WinCryptErr _ _ l => failure l
  | _ => True
  end.

Lemma failure_code c : c <> Success -> failure (error_code c).
Proof. by exists c. Qed.
Lemma failure_negative z : failure z -> z < 0.
Proof. intros (c & Hc & ->). pose proof (error_code_negative c Hc). lia. Qed.

(** The goals [throws coded m], by the shape of [m]. *)
Ltac coded_leaf :=
  match goal with
  | |- coded _ => unfold coded; cbv beta iota; first [exact I | by apply failure_code]
  | |- failure _ => by apply failure_code
  end.
Ltac coded_go := repeat throws_step; try coded_leaf; eauto with throws.

(** Status codes and secret lengths cannot be confused: every code but
    [Success] is negative, distinct enumerators have distinct values, and the text
    [get_error_message] answers for a code is that code's own name. *)
Theorem error_codes_distinct :
  (forall c, c <> Success -> error_code c < 0) /\
  (forall c1 c2, error_code c1 = error_code c2 -> c1 = c2) /\
  (forall c, get_error_message (error_code c) = error_code_name c) /\
  (forall c1 c2, get_error_message (error_code c1) = get_error_message (error_code c2) -> c1 = c2).
Proof.
  assert (Hmsg : forall c, get_error_message (error_code c) = error_code_name c) by by intros [].
  split_and!.
  - intros c Hc. apply error_code_negative in Hc. lia.
  - apply error_code_inj.
  - done.
  - intros c1 c2. rewrite !Hmsg. destruct c1, c2; (reflexivity || discriminate).
Qed.

