(* ===== verification/Json.v ===== *)
(** * The interface to nlohmann::json

    The JSON library is third-party: [NlohmannJson] lists the operations the
    secrets library and the secure-key-release app call, [NlohmannLaws] what they
    rely on of its documentation. [json_tree] is a concrete instance (objects
    as lists sorted by key, like the [std::map] the library uses; numbers limited
    to integers), on which concrete inputs are evaluated. *)

From S2P Require Import Prelude.

Class NlohmannJson := {
  json : Type;
  json_null : json;
  json_str : bytes -> json;
  json_int : Z -> json;
  json_parse : bytes -> outcome json;
  json_dump : json -> outcome bytes;
  json_contains : json -> bytes -> bool;
  (* [at(key)]; [operator[](key)] of a const value, and of a non-const one, which
     inserts null: the container afterwards and the element *)
  json_at : json -> bytes -> outcome json;
  json_const_index : json -> bytes -> outcome json;
  json_index : json -> bytes -> outcome (json * json);
  (* [j[key] = v] *)
  json_set : json -> bytes -> json -> outcome json;
  json_is_string : json -> bool;
  json_is_array : json -> bool;
  (* the elements of an array, as [size] and [operator[](n)] read them *)
  json_elements : json -> list json;
  json_get_string : json -> outcome bytes;
  json_get_int : json -> outcome Z;
  json_eq_string : json -> bytes -> bool }.

(** [j[k1]...[kn]] of a non-const [j], the last one converted to a string *)
Fixpoint string_at `{NlohmannJson} (j : json) (path : list string) : outcome bytes :=
  match path with
  | [] => json_get_string j
  | k :: path' => x ← json_index j (str k); string_at x.2 path'
  end.

Definition json_throws_json {A} (m : outcome A) : Prop :=
  match m with Ret _ => True | Throw (JsonError _ _) => True | _ => False end.

Class NlohmannLaws `{NlohmannJson} : Prop := {
  contains_null k : json_contains json_null k = false;
  set_null k v : returns (json_set json_null k v);
  set_index j k v j' : json_set j k v = Ret j' -> json_index j' k = Ret (j', v);
  set_contains j k v j' : json_set j k v = Ret j' -> json_contains j' k = true;
  get_string_str s : json_get_string (json_str s) = Ret s;
  is_string_str s : json_is_string (json_str s) = true;
  eq_string_str s t : json_eq_string (json_str s) t = bool_decide (s = t);
  parse_errors s : json_throws_json (json_parse s);
  dump_errors j : json_throws_json (json_dump j);
  dump_nonempty j s : json_dump j = Ret s -> s <> [];
  set_errors j k v : json_throws_json (json_set j k v);
  index_errors j k : json_throws_json (json_index j k);
  at_errors j k : json_throws_json (json_at j k);
  get_string_errors j : json_throws_json (json_get_string j) }.

(** ** A concrete instance *)

Inductive jtree :=
| JNull | JBool (b : bool) | JInt (z : Z) | JStr (s : bytes)
| JArr (l : list jtree) | JObj (l : list (bytes * jtree)).

Definition type_error {A} (w : string) : outcome A := Throw (JsonError TypeErr (str w)).

Fixpoint bytes_ltb (a b : bytes) : bool :=
  match a, b with
  | [], _ :: _ => true
  | x :: a', y :: b' =>
      if (z_of_byte x <? z_of_byte y)%Z then true
      else if decide (x = y) then bytes_ltb a' b' else false
  | _, [] => false
  end.
Fixpoint obj_lookup {V} (k : bytes) (l : list (bytes * V)) : option V :=
  match l with
  | (k', v) :: l' => if decide (k = k') then Some v else obj_lookup k l'
  | [] => None
  end.
Fixpoint obj_insert {V} (k : bytes) (v : V) (l : list (bytes * V)) : list (bytes * V) :=
  match l with
  | (k', v') :: l' =>
      if decide (k = k') then (k, v) :: l'
      else if bytes_ltb k k' then (k, v) :: l
      else (k', v') :: obj_insert k v l'
  | [] => [(k, v)]
  end.
Lemma obj_lookup_insert {V} k (v : V) l : obj_lookup k (obj_insert k v l) = Some v.
Proof.
  induction l as [|[k' v'] l IH]; simpl; [by rewrite decide_True|].
  case_decide as Hk; simpl; [by rewrite decide_True|].
  destruct (bytes_ltb k k'); simpl; [by rewrite decide_True|]. by rewrite decide_False.
Qed.

Definition is_digit (c : byte) : bool := (48 <=? z_of_byte c)%Z && (z_of_byte c <=? 57)%Z.
Fixpoint read_digits (acc : Z) (s : bytes) : Z * bytes :=
  match s with
  | c :: s' => if is_digit c then read_digits (acc * 10 + (z_of_byte c - 48)) s' else (acc, s)
  | [] => (acc, [])
  end.

Definition escape (c : byte) : bytes :=
  if decide (c = x22) then [x5c; x22]
  else if decide (c = x5c) then [x5c; x5c]
  else [c].
Definition quote (s : bytes) : bytes := x22 :: flat_map escape s ++ [x22].
Fixpoint join (sep : bytes) (l : list bytes) : bytes :=
  match l with [] => [] | [x] => x | x :: l' => x ++ sep ++ join sep l' end.
Fixpoint dump_tree (j : jtree) : bytes :=
  match j with
  | JNull => str "null"
  | JBool b => if b then str "true" else str "false"
  | JInt z => z_text z
  | JStr s => quote s
  | JArr l => str "[" ++ join (str ",") (map dump_tree l) ++ str "]"
  | JObj l =>
      str "{" ++ join (str ",") (map (fun '(k, v) => quote k ++ str ":" ++ dump_tree v) l)
      ++ str "}"
  end.

Fixpoint skip_ws (s : bytes) : bytes :=
  match s with
  | c :: s' => if bool_decide (c = " "%byte \/ c = x09 \/ c = x0a \/ c = x0d) then skip_ws s' else s
  | [] => []
  end.
Fixpoint read_string (s : bytes) : option (bytes * bytes) :=
  match s with
  | c :: s' =>
      if decide (c = x22) then Some ([], s')
      else if decide (c = x5c) then
        match s' with
        | d :: s'' =>
            if bool_decide (d = x22 \/ d = x5c \/ d = "/"%byte) then
              match read_string s'' with Some (t, r) => Some (d :: t, r) | None => None end
            else None
        | [] => None
        end
      else match read_string s' with Some (t, r) => Some (c :: t, r) | None => None end
  | [] => None
  end.
Fixpoint strip_prefix (p s : bytes) : option bytes :=
  match p, s with
  | [], _ => Some s
  | a :: p', b :: s' => if decide (a = b) then strip_prefix p' s' else None
  | _, [] => None
  end.

(** Of two members with the same key, the later one counts. *)
Definition of_members (l : list (bytes * jtree)) : list (bytes * jtree) :=
  fold_left (fun acc kv => obj_insert (fst kv) (snd kv) acc) l [].

Fixpoint read_value (fuel : nat) (s : bytes) : option (jtree * bytes) :=
  match fuel with
  | 0 => None
  | S n =>
    match skip_ws s with
    | [] => None
    | c :: s' =>
      if decide (c = x22) then
        match read_string s' with Some (t, r) => Some (JStr t, r) | None => None end
      else if decide (c = "["%byte) then
        match skip_ws s' with
        | d :: r => if decide (d = "]"%byte) then Some (JArr [], r)
                    else match read_list n s' with
                         | Some (l, r') => Some (JArr l, r') | None => None end
        | [] => None
        end
      else if decide (c = "{"%byte) then
        match skip_ws s' with
        | d :: r => if decide (d = "}"%byte) then Some (JObj [], r)
                    else match read_members n s' with
                         | Some (l, r') => Some (JObj (of_members l), r') | None => None end
        | [] => None
        end
      else if is_digit c then let '(z, r) := read_digits 0 (c :: s') in Some (JInt z, r)
      else if decide (c = "-"%byte) then
        match s' with
        | d :: _ => if is_digit d then let '(z, r) := read_digits 0 s' in Some (JInt (- z), r)
                    else None
        | [] => None
        end
      else match strip_prefix (str "true") (c :: s') with
      | Some r => Some (JBool true, r)
      | None => match strip_prefix (str "false") (c :: s') with
      | Some r => Some (JBool false, r)
      | None => match strip_prefix (str "null") (c :: s') with
      | Some r => Some (JNull, r)
      | None => None
      end end end
    end
  end
with read_list (fuel : nat) (s : bytes) : option (list jtree * bytes) :=
  match fuel with
  | 0 => None
  | S n =>
    match read_value n s with
    | Some (v, r) =>
        match skip_ws r with
        | d :: r' =>
            if decide (d = ","%byte) then
              match read_list n r' with Some (l, t) => Some (v :: l, t) | None => None end
            else if decide (d = "]"%byte) then Some ([v], r') else None
        | [] => None
        end
    | None => None
    end
  end
with read_members (fuel : nat) (s : bytes) : option (list (bytes * jtree) * bytes) :=
  match fuel with
  | 0 => None
  | S n =>
    match skip_ws s with
    | q :: s' =>
      if decide (q = x22) then
        match read_string s' with
        | Some (k, r) =>
          match skip_ws r with
          | col :: r1 =>
            if decide (col = ":"%byte) then
              match read_value n r1 with
              | Some (v, r2) =>
                match skip_ws r2 with
                | d :: r3 =>
                  if decide (d = ","%byte) then
                    match read_members n r3 with
                    | Some (l, t) => Some ((k, v) :: l, t) | None => None end
                  else if decide (d = "}"%byte) then Some ([(k, v)], r3) else None
                | [] => None
                end
              | None => None
              end
            else None
          | [] => None
          end
        | None => None
        end
      else None
    | [] => None
    end
  end.

Definition parse_tree (s : bytes) : outcome jtree :=
  match read_value (S (2 * length s)) s with
  | Some (j, r) => match skip_ws r with
                   | [] => Ret j
                   | _ => Throw (JsonError ParseErr (str "parse error"))
                   end
  | None => Throw (JsonError ParseErr (str "parse error"))
  end.

(** Invalid UTF-8 is refused by [dump]; only bytes of ASCII are accepted here. *)
Fixpoint ascii_tree (j : jtree) : bool :=
  match j with
  | JStr s => forallb (fun c => z_of_byte c <? 128)%Z s
  | JArr l => forallb ascii_tree l
  | JObj l => forallb (fun '(k, v) => forallb (fun c => z_of_byte c <? 128)%Z k && ascii_tree v) l
  | _ => true
  end.

#[export] Instance json_tree : NlohmannJson := {|
  json := jtree;
  json_null := JNull;
  json_str := JStr;
  json_int := JInt;
  json_parse := parse_tree;
  json_dump j := if ascii_tree j then Ret (dump_tree j) else type_error "316";
  json_contains j k :=
    match j with JObj l => bool_decide (is_Some (obj_lookup k l)) | _ => false end;
  json_at j k :=
    match j with
    | JObj l => match obj_lookup k l with
                | Some v => Ret v
                | None => Throw (JsonError OutOfRangeErr (str "403"))
                end
    | _ => type_error "304"
    end;
  json_const_index j k :=
    match j with
    | JObj l => match obj_lookup k l with Some v => Ret v | None => Ret JNull end
    | _ => type_error "305"
    end;
  json_index j k :=
    match j with
    | JObj l => match obj_lookup k l with
                | Some v => Ret (j, v)
                | None => Ret (JObj (obj_insert k JNull l), JNull)
                end
    | JNull => Ret (JObj [(k, JNull)], JNull)
    | _ => type_error "305"
    end;
  json_set j k v :=
    match j with
    | JObj l => Ret (JObj (obj_insert k v l))
    | JNull => Ret (JObj [(k, v)])
    | _ => type_error "305"
    end;
  json_is_string j := match j with JStr _ => true | _ => false end;
  json_is_array j := match j with JArr _ => true | _ => false end;
  json_elements j := match j with JArr l => l | _ => [] end;
  json_get_string j := match j with JStr s => Ret s | _ => type_error "302" end;
  json_get_int j :=
    match j with
    | JInt z => Ret z
    | JBool b => Ret (if b then 1 else 0)%Z
    | _ => type_error "302"
    end;
  json_eq_string j s := match j with JStr t => bool_decide (t = s) | _ => false end |}.

Lemma dump_tree_nonempty j : dump_tree j <> [].
Proof.
  destruct j as [|[]|z| | |]; simpl; try discriminate.
  unfold z_text, digits. destruct (z <? 0)%Z; [discriminate|].
  simpl. intros []%app_nil. discriminate.
Qed.

#[export] Instance json_tree_laws : NlohmannLaws.
Proof.
  split; cbn [json json_null json_str json_contains json_set json_index json_get_string
    json_is_string json_eq_string json_parse json_dump json_at json_tree].
  - done.
  - intros k v. by eexists.
  - intros [] k v j' E; simplify_eq/=.
    + by rewrite decide_True.
    + by rewrite obj_lookup_insert.
  - intros [] k v j' E; simplify_eq/=.
    + by rewrite decide_True.
    + by rewrite obj_lookup_insert.
  - done.
  - done.
  - done.
  - intros s. unfold parse_tree. destruct (read_value _ s) as [[j r]|]; [|done].
    by destruct (skip_ws r).
  - intros j. by destruct (ascii_tree j).
  - intros j s. destruct (ascii_tree j); [|done]. intros [= <-]. apply dump_tree_nonempty.
  - by intros [] k v.
  - intros [] k; try done. by destruct (obj_lookup k l).
  - intros [] k; try done. by destruct (obj_lookup k l).
  - by intros [].
Qed.

(** ** Decimal numbers *)

Section Decimal.
#[local] Open Scope Z_scope.

Definition no_digit_first (s : bytes) : Prop := match s with c :: _ => is_digit c = false | [] => True end.
Lemma read_digits_stop acc s : no_digit_first s -> read_digits acc s = (acc, s).
Proof. destruct s as [|c s]; simpl; [done|]. by intros ->. Qed.
Lemma digit_byte d : 0 <= d < 10 -> is_digit (byte_of_z (48 + d)) = true /\ z_of_byte (byte_of_z (48 + d)) = 48 + d.
Proof. intros Hd. unfold is_digit. rewrite z_of_byte_of_z by lia. split; [lia|done]. Qed.
Lemma read_digits_digits n z acc rest :
  0 <= z < 2 ^ Z.of_nat n ->
  read_digits acc (digits_fuel n z ++ rest)
  = read_digits (acc * 10 ^ Z.of_nat (length (digits_fuel n z)) + z) rest.
Proof.
  revert z acc rest. induction n as [|n IH]; intros z acc rest Hz.
  { simpl in *. f_equal. lia. }
  cbn [digits_fuel]. rewrite <- app_assoc, length_app. cbn [app length].
  destruct (digit_byte (z mod 10)) as [Hd Hv]; [apply Z.mod_pos_bound; lia|].
  assert (Hdiv := Z.div_mod z 10 ltac:(lia)). destruct (z <? 10) eqn:E.
  - cbn [app length]. cbn [read_digits]. rewrite Hd, Hv. f_equal.
    rewrite Z.mod_small by lia. change (Z.of_nat (0 + 1)) with 1. lia.
  - assert (Hm := Z.mod_pos_bound z 10 ltac:(lia)). rewrite Nat2Z.inj_succ, Z.pow_succ_r in Hz by lia.
    rewrite IH by (split; lia). cbn [read_digits]. rewrite Hd, Hv. f_equal.
    rewrite Nat2Z.inj_add, Z.pow_add_r by lia. change (10 ^ Z.of_nat 1) with 10. lia.
Qed.
Lemma read_digits_text z rest :
  0 <= z -> no_digit_first rest -> read_digits 0 (digits z ++ rest) = (z, rest).
Proof.
  intros Hz Hr. unfold digits. rewrite read_digits_digits, Z.mul_0_l, Z.add_0_l.
  - by apply read_digits_stop.
  - split; [done|]. rewrite Nat2Z.inj_succ, Z2Nat.id by apply Z.log2_nonneg.
    destruct (decide (z = 0)) as [->|]; [done|]. apply Z.log2_spec. lia.
Qed.
Lemma digits_fuel_digit n z : 0 <= z -> Forall (fun c => is_digit c = true) (digits_fuel n z).
Proof.
  revert z. induction n as [|n IH]; intros z Hz; simpl; [constructor|]. apply Forall_app. split.
  - destruct (z <? 10); [constructor|]. apply IH, Z.div_pos; lia.
  - repeat constructor. apply digit_byte, Z.mod_pos_bound. lia.
Qed.
Lemma digits_first z : 0 <= z -> exists c l, digits z = c :: l /\ is_digit c = true.
Proof.
  intros Hz. assert (Hd := digits_fuel_digit (Datatypes.S (Z.to_nat (Z.log2 z))) z Hz). fold (digits z) in Hd.
  destruct (digits z) as [|c l] eqn:E; [|inversion Hd; eauto].
  unfold digits in E. simpl in E. by apply app_nil in E as [_ ?].
Qed.
End Decimal.
