(* ===== verification/JsonObjects.v ===== *)
(** * Objects of strings and numbers

    What the library's own tokens contain: [PlainLaws] states that a JSON library keeps the members
    of such an object, prints it within a known size and reads back the same. [json_tree_plain]:
    the concrete library of Json.v does. *)

From S2P Require Import Prelude Json.
#[local] Open Scope Z_scope.

(** Printable ASCII without the quote and the backslash: it prints as it is. *)
Definition plain_char (c : byte) : bool :=
  (0x20 <=? z_of_byte c) && (z_of_byte c <? 0x7f) && negb (bool_decide (c = x22)) && negb (bool_decide (c = x5c)).
Definition plain_text (s : bytes) : Prop := Forall (fun c => plain_char c = true) s.

Section Laws.
Context `{NlohmannJson}.
(** A member's value and how much it prints: a string, or a number of at most 19 digits. *)
Inductive plain_value : json -> Z -> Prop :=
| plain_str s : plain_text s -> plain_value (json_str s) (size s + 2)
| plain_int z : 0 <= z < 2 ^ 63 -> plain_value (json_int z) 19.

(** [plain j m n]: [j] is an object of the members [m], which prints within [n] bytes. *)
Class PlainLaws := {
  plain : json -> gmap bytes json -> Z -> Prop;
  plain_new k v c : plain_text k -> plain_value v c ->
    exists j, json_set json_null k v = Ret j /\ plain j {[k := v]} (size k + c + 6);
  plain_set j m n k v c : plain j m n -> plain_text k -> plain_value v c ->
    exists j', json_set j k v = Ret j' /\ plain j' (<[k := v]> m) (n + size k + c + 4);
  plain_member j m n k v : plain j m n -> m !! k = Some v ->
    json_contains j k = true /\ json_at j k = Ret v /\ json_index j k = Ret (j, v);
  plain_printed j m n : plain j m n ->
    exists t, json_dump j = Ret t /\ json_parse t = Ret j /\ t <> [] /\ size t <= n }.
End Laws.

(** ** The order of keys *)

Lemma bytes_ltb_trans a : forall b c, bytes_ltb a b = true -> bytes_ltb b c = true -> bytes_ltb a c = true.
Proof.
  induction a as [|x a IH]; intros [|y b] [|z c]; simpl; try done.
  destruct (z_of_byte x <? z_of_byte y) eqn:E1.
  - intros _. apply Z.ltb_lt in E1. destruct (z_of_byte y <? z_of_byte z) eqn:E2.
    + apply Z.ltb_lt in E2. by rewrite (proj2 (Z.ltb_lt _ _)) by lia.
    + case_decide; [|done]. subst. by rewrite (proj2 (Z.ltb_lt _ _)).
  - case_decide; [subst|done]. intros Hab. destruct (z_of_byte y <? z_of_byte z); [done|].
    case_decide; [|done]. by apply IH.
Qed.
Lemma bytes_ltb_irrefl a : bytes_ltb a a = false.
Proof. induction a as [|x a IH]; simpl; [done|]. by rewrite Z.ltb_irrefl, decide_True. Qed.
Lemma bytes_ltb_total a : forall b, a <> b -> bytes_ltb a b = false -> bytes_ltb b a = true.
Proof.
  induction a as [|x a IH]; intros [|y b]; simpl; try done. intros Hne.
  destruct (z_of_byte x <? z_of_byte y) eqn:E1; [done|]. apply Z.ltb_ge in E1. case_decide as Hd.
  - subst. intros. rewrite Z.ltb_irrefl, decide_True by done. apply IH; [congruence|done].
  - intros _. rewrite (proj2 (Z.ltb_lt _ _)); [done|].
    destruct (decide (z_of_byte x = z_of_byte y)) as [E%z_of_byte_inj|]; [done|lia].
Qed.

(** Keys ascend strictly, and all lie above a bound. *)
Definition above {V} (k : bytes) (l : list (bytes * V)) : Prop := Forall (fun m => bytes_ltb k (fst m) = true) l.
Fixpoint ascending {V} (l : list (bytes * V)) : Prop :=
  match l with [] => True | (k, _) :: l' => above k l' /\ ascending l' end.

Lemma above_insert {V} a k (v : V) l : bytes_ltb a k = true -> above a l -> above a (obj_insert k v l).
Proof.
  intros Hk. induction 1 as [|[k' v'] l Hh Hl IH]; simpl; [by constructor|].
  case_decide; [by constructor|]. destruct (bytes_ltb k k'); constructor; try done. by constructor.
Qed.
Lemma ascending_insert {V} k (v : V) l : ascending l -> ascending (obj_insert k v l).
Proof.
  induction l as [|[k' v'] l IH]; simpl; [by repeat constructor|]. intros [Ha Hl].
  destruct (decide (k = k')) as [->|Hd]; [done|]. destruct (bytes_ltb k k') eqn:E; simpl.
  - split; [|done]. constructor; [done|]. eapply Forall_impl; [exact Ha|]. intros m. by apply bytes_ltb_trans.
  - split; [|by apply IH]. apply above_insert; [|done]. by apply bytes_ltb_total.
Qed.
Lemma insert_greatest {V} k (v : V) l :
  Forall (fun m => bytes_ltb (fst m) k = true) l -> obj_insert k v l = l ++ [(k, v)].
Proof.
  induction 1 as [|[k' v'] l Hh Hl IH]; simpl in *; [done|]. rewrite decide_False.
  2: { intros ->. by rewrite bytes_ltb_irrefl in Hh. }
  destruct (bytes_ltb k k') eqn:E; [|by rewrite IH].
  pose proof (bytes_ltb_trans _ _ _ E Hh) as Hc. by rewrite bytes_ltb_irrefl in Hc.
Qed.
(** Reading the members in their order makes the same object. *)
Lemma of_members_ascending l : ascending l -> of_members l = l.
Proof.
  intros Hl. unfold of_members.
  assert (Hgen : forall acc, ascending l -> Forall (fun m => above (V := jtree) (fst m) l) acc ->
    fold_left (fun acc kv => obj_insert (fst kv) (snd kv) acc) l acc = acc ++ l); [|by apply (Hgen [])].
  clear Hl. induction l as [|[k v] l IH]; intros acc Hl Hacc; simpl; [by rewrite app_nil_r|].
  destruct Hl as [Ha Hl]. rewrite insert_greatest, IH; [by rewrite <- app_assoc|done| |].
  - apply Forall_app. split; [|by repeat constructor]. eapply Forall_impl; [exact Hacc|]. intros m Hm. by inversion Hm.
  - eapply Forall_impl; [exact Hacc|]. intros m Hm. by inversion Hm.
Qed.
Lemma lookup_above {V} k (l : list (bytes * V)) : above k l -> obj_lookup k l = None.
Proof.
  induction 1 as [|[k' v'] l Hh Hl IH]; simpl in *; [done|]. rewrite decide_False; [done|].
  intros ->. by rewrite bytes_ltb_irrefl in Hh.
Qed.
Lemma obj_lookup_other {V} k k' (v : V) l : k <> k' -> obj_lookup k' (obj_insert k v l) = obj_lookup k' l.
Proof.
  intros Hne. induction l as [|[k1 v1] l IH]; simpl; [by rewrite decide_False by congruence|].
  destruct (decide (k = k1)) as [->|]; simpl.
  - by rewrite !(decide_False (P := k' = k1)) by congruence.
  - destruct (bytes_ltb k k1); simpl; [by rewrite decide_False by congruence|]. case_decide; [done|apply IH].
Qed.

(** ** Printing and reading *)

Definition plain_tree (v : jtree) : Prop :=
  match v with JStr s => plain_text s | JInt z => 0 <= z < 2 ^ 63 | _ => False end.
Definition plain_members (l : list (bytes * jtree)) : Prop :=
  Forall (fun m => plain_text (fst m) /\ plain_tree (snd m)) l.
Definition member_text (m : bytes * jtree) : bytes := quote (fst m) ++ str ":" ++ dump_tree (snd m).

Lemma plain_chars c : plain_char c = true -> c <> x22 /\ c <> x5c /\ z_of_byte c < 128.
Proof. unfold plain_char. rewrite !andb_true_iff, !negb_true_iff, !bool_decide_eq_false, Z.ltb_lt.
  intros [[[_ ?] ?] ?]. split_and!; [done|done|lia].
Qed.
Lemma escape_plain s : plain_text s -> flat_map escape s = s.
Proof.
  induction 1 as [|c s Hc Hs IH]; simpl; [done|]. destruct (plain_chars c Hc) as (H1 & H2 & _).
  unfold escape at 1. rewrite !decide_False by done. simpl. by rewrite IH.
Qed.
Lemma quote_size s : plain_text s -> size (quote s) = size s + 2.
Proof. intros Hs. unfold quote, size. rewrite escape_plain by done. cbn [length]. rewrite length_app. cbn [length]. lia. Qed.
Lemma read_string_plain s r : plain_text s -> read_string (s ++ x22 :: r) = Some (s, r).
Proof.
  induction 1 as [|c s Hc Hs IH]; simpl; [done|]. destruct (plain_chars c Hc) as (H1 & H2 & _).
  rewrite decide_False by done. rewrite decide_False by done. by rewrite IH.
Qed.
Lemma digit_starts c : is_digit c = true ->
  c <> x22 /\ c <> "["%byte /\ c <> "{"%byte /\ forall s, skip_ws (c :: s) = c :: s.
Proof. intros Hc. destruct c; (discriminate || by split_and!). Qed.

Ltac no_space := rewrite bool_decide_eq_false_2 by (intros [?|[?|[?|?]]]; done).
(** Numbers end where the object goes on. *)
Lemma value_read v r n : plain_tree v -> no_digit_first r -> read_value (Datatypes.S n) (dump_tree v ++ r) = Some (v, r).
Proof.
  destruct v as [|b|z|s|l|l]; try done; intros Hv Hr; cbn in Hv; cbn [dump_tree].
  - unfold z_text. rewrite (proj2 (Z.ltb_ge _ _)) by lia.
    destruct (digits_first z ltac:(lia)) as (c & t & E & Hc). pose proof (read_digits_text z r ltac:(lia) Hr) as Hd.
    rewrite E in *. cbn [app read_value] in *. destruct (digit_starts c Hc) as (H1 & H2 & H3 & ->).
    rewrite !decide_False by done. by rewrite Hc, Hd.
  - unfold quote. rewrite escape_plain by done. cbn [app read_value skip_ws].
    no_space. rewrite decide_True by done.
    rewrite <- app_assoc. simpl app. by rewrite read_string_plain.
Qed.
Lemma members_read l : forall n r, l <> [] -> (length l < n)%nat -> plain_members l ->
  read_members n (join (str ",") (map member_text l) ++ "}"%byte :: r) = Some (l, r).
Proof.
  induction l as [|[k v] l IH]; intros [|n] r Hl Hn Hp; try done; [simpl in Hn; lia|].
  apply Forall_cons in Hp as [[Hk Hv] Hp]. cbn [fst snd] in *.
  assert (Hkey : forall t, read_string (k ++ x22 :: t) = Some (k, t)) by (intros; by apply read_string_plain).
  destruct n as [|n]; [simpl in Hn; lia|].
  assert (Hmem : forall t, member_text (k, v) ++ t = x22 :: k ++ x22 :: ":"%byte :: dump_tree v ++ t).
  { intros t. unfold member_text, quote. cbn [fst snd]. rewrite escape_plain by done. cbn [app]. by rewrite <- !app_assoc. }
  cbn [map join]. destruct (map member_text l) as [|m ms] eqn:El.
  - apply map_eq_nil in El as ->. rewrite Hmem. cbn [read_members skip_ws].
    no_space. rewrite decide_True by done.
    rewrite Hkey. cbn [skip_ws]. no_space.
    rewrite decide_True by done. rewrite value_read by done. cbn [skip_ws].
    no_space. done.
  - rewrite <- !app_assoc, Hmem. remember (Datatypes.S n) as fuel eqn:Ef. cbn [read_members skip_ws].
    no_space. rewrite decide_True by done.
    rewrite Hkey. cbn [skip_ws]. no_space.
    rewrite decide_True by done. rewrite Ef at 1. rewrite value_read by done.
    set (rest := join _ _ ++ _) in *. change (str "," ++ rest) with (","%byte :: rest). cbn [skip_ws]. subst rest.
    no_space. rewrite decide_True by done.
    rewrite IH; [done| |simpl in Hn; lia|done]. by destruct l.
Qed.

Lemma ascii_plain s : plain_text s -> forallb (fun c => z_of_byte c <? 128)%Z s = true.
Proof.
  induction 1 as [|c s Hc _ IH]; simpl; [done|]. rewrite IH, andb_true_r.
  apply Z.ltb_lt. by apply plain_chars.
Qed.
Lemma ascii_members l : plain_members l -> ascii_tree (JObj l) = true.
Proof.
  cbn [ascii_tree]. induction 1 as [|[k v] l [Hk Hv] _ IH]; simpl in *; [done|].
  rewrite IH, andb_true_r, ascii_plain by done. destruct v; try done. by apply ascii_plain.
Qed.
Lemma object_dump l : dump_tree (JObj l) = "{"%byte :: join (str ",") (map member_text l) ++ str "}".
Proof. cbn [dump_tree app]. f_equal. f_equal. f_equal. apply map_ext. by intros []. Qed.

(** What the members print, each with a separator. *)
Fixpoint weight (l : list (bytes * jtree)) : Z :=
  match l with [] => 0 | m :: l' => size (member_text m) + 1 + weight l' end.
Lemma member_size k v : size (member_text (k, v)) = size (quote k) + 1 + size (dump_tree v).
Proof. unfold member_text, size. rewrite !length_app. cbn [fst snd]. change (length (str ":")) with 1%nat. lia. Qed.
Lemma weight_bounds l :
  Z.of_nat (length l) <= size (join (str ",") (map member_text l)) <= weight l.
Proof.
  induction l as [|[k v] l IH]; [done|]. cbn [weight length map join].
  assert (2 <= size (member_text (k, v))).
  { rewrite member_size. unfold quote, size. cbn [length]. rewrite length_app. cbn [length]. lia. }
  destruct (map member_text l) eqn:E.
  - apply map_eq_nil in E as ->. cbn [weight length]. lia.
  - unfold size in *. rewrite !length_app. change (length (str ",")) with 1%nat. lia.
Qed.
Lemma weight_insert k v l : weight (obj_insert k v l) <= weight l + size (member_text (k, v)) + 1.
Proof.
  induction l as [|[k' v'] l IH]; cbn [obj_insert weight]; [lia|].
  assert (0 <= size (member_text (k', v'))) by (unfold size; lia).
  case_decide; [subst; cbn [weight]; lia|]. destruct (bytes_ltb k k'); cbn [weight]; lia.
Qed.

Lemma object_read l : l <> [] -> plain_members l -> ascending l -> parse_tree (dump_tree (JObj l)) = Ret (JObj l).
Proof.
  intros Hl Hp Ha. unfold parse_tree. rewrite object_dump. set (body := join _ _) in *.
  pose proof (weight_bounds l) as [Hw _]. fold body in Hw.
  remember (2 * length ("{"%byte :: body ++ str "}"))%nat as fuel eqn:Ef.
  assert (length l < fuel)%nat.
  { subst fuel. cbn [length]. rewrite length_app. unfold size in Hw. lia. }
  pose proof (members_read l fuel [] Hl H Hp) as Hr. fold body in Hr. change ("}"%byte :: []) with (str "}") in Hr.
  cbn [read_value skip_ws]. no_space. rewrite !decide_False by done. rewrite decide_True by done.
  assert (Hb : exists t, body ++ str "}" = x22 :: t).
  { unfold body. destruct l as [|[k v] l]; [done|]. cbn [map join].
    assert (Hm : exists t, member_text (k, v) = x22 :: t) by (by eexists). destruct Hm as [t ->].
    destruct (map member_text l); cbn [app]; eauto. }
  destruct Hb as [t Hb]. rewrite Hb in Ef, Hr |- *. cbn [skip_ws]. no_space. rewrite decide_False by done.
  rewrite Hr. by rewrite of_members_ascending.
Qed.

Lemma plain_members_insert k v l : plain_text k -> plain_tree v -> plain_members l -> plain_members (obj_insert k v l).
Proof.
  intros Hk Hv. induction 1 as [|[k' v'] l Hm Hl IH]; simpl; [by repeat constructor|].
  case_decide; [by constructor|]. destruct (bytes_ltb k k'); constructor; try done. by constructor.
Qed.
Lemma digits_fuel_size k : forall n z, (0 < k)%nat -> 0 <= z < 10 ^ Z.of_nat k -> (length (digits_fuel n z) <= k)%nat.
Proof.
  induction k as [|k IH]; intros [|n] z Hk Hz; cbn [digits_fuel length]; try lia. rewrite length_app. cbn [length].
  destruct (z <? 10) eqn:E; [cbn [length]; lia|]. apply Z.ltb_ge in E. destruct k as [|k]; [simpl in Hz; lia|].
  rewrite Nat2Z.inj_succ, Z.pow_succ_r in Hz by lia.
  assert (length (digits_fuel n (z / 10)) <= Datatypes.S k)%nat; [|lia].
  apply IH; [lia|]. split; [apply Z.div_pos; lia|]. apply Z.div_lt_upper_bound; lia.
Qed.
Lemma plain_value_tree v c : plain_value v c -> plain_tree v /\ size (dump_tree v) <= c.
Proof.
  destruct 1 as [s Hs|z Hz].
  - split; [done|]. cbn [json_str json_tree dump_tree]. by rewrite quote_size.
  - split; [done|]. cbn [json_int json_tree dump_tree]. unfold z_text. rewrite (proj2 (Z.ltb_ge _ _)) by lia.
    unfold digits, size. pose proof (digits_fuel_size 19 (Datatypes.S (Z.to_nat (Z.log2 z))) z ltac:(lia) ltac:(lia)). lia.
Qed.

#[refine, export]
Instance json_tree_plain : PlainLaws := {|
  plain j m n := exists l, j = JObj l /\ l <> [] /\ ascending l /\ plain_members l /\
    (forall k, m !! k = obj_lookup k l) /\ weight l + 2 <= n |}.
Proof.
  - intros k v c Hk Hv. destruct (plain_value_tree v c Hv) as [Ht Hs]. exists (JObj [(k, v)]). split; [done|].
    exists [(k, v)]. split_and!; try done; [by repeat constructor..| |].
    + intros k'. simpl. case_decide; [subst; by rewrite lookup_singleton_eq|by rewrite lookup_singleton_ne by congruence].
    + cbn [weight]. rewrite member_size, quote_size by done. lia.
  - intros j m n k v c (l & -> & Hl & Ha & Hp & Hm & Hn) Hk Hv. destruct (plain_value_tree v c Hv) as [Ht Hs].
    exists (JObj (obj_insert k v l)). split; [done|]. exists (obj_insert k v l). split_and!; [done| | | | |].
    + destruct l as [|[k' v'] l]; [done|]. simpl. case_decide; [done|]. by destruct (bytes_ltb k k').
    + by apply ascending_insert.
    + by apply plain_members_insert.
    + intros k'. destruct (decide (k = k')) as [->|].
      * by rewrite lookup_insert_eq, obj_lookup_insert.
      * rewrite lookup_insert_ne, obj_lookup_other by done. apply Hm.
    + pose proof (weight_insert k v l) as Hw. rewrite member_size, quote_size in Hw by done. change (@json json_tree) with jtree in *. lia.
  - intros j m n k v (l & -> & _ & _ & _ & Hm & _) Hk. rewrite Hm in Hk.
    cbn [json_contains json_at json_index json_tree]. rewrite Hk. by split_and!.
  - intros j m n (l & -> & Hl & Ha & Hp & _ & Hn). exists (dump_tree (JObj l)).
    pose proof (weight_bounds l) as [_ Hw]. split_and!.
    + cbn [json_dump json_tree]. by rewrite ascii_members.
    + by apply object_read.
    + by rewrite object_dump.
    + rewrite object_dump. unfold size in *. cbn [length]. rewrite length_app. change (length (str "}")) with 1%nat. lia.
Defined.
