(* ===== verification/Ossl.v ===== *)
(** * The OpenSSL wrappers of azure-protected-vm-secrets (Linux/)

    [OsslCall] lists the OpenSSL functions the wrappers call, with their answers
    (a pointer is an [N], null is 0; an out-parameter is part of the answer; frees
    made by smart pointers are not recorded). [X509] models Linux/OsslX509.cpp,
    [Aes] Linux/OsslAesWrapper.cpp, [Hkdf] Linux/OsslHKDF.cpp and [Ecdh]
    Linux/OsslECDiffieHellman.cpp. *)

From S2P Require Import Prelude Base64 ReturnCodes.

Notation ptr := N (only parsing).
Definition null : ptr := 0%N.
Definition is_null (p : ptr) : bool := (p =? 0)%N.

Inductive md := SHA1 | SHA256 | SHA384 | SHA512.

Inductive OsslCall : Type -> Type :=
| ERR_get_error : OsslCall Z
| ERR_error_string (code : Z) : OsslCall bytes
| X509_STORE_new : OsslCall ptr
| X509_STORE_add_cert (store cert : ptr) : OsslCall Z
| X509_STORE_set_flags (store : ptr) (flags : Z) : OsslCall unit
| X509_dup (cert : ptr) : OsslCall ptr
| sk_X509_new_null : OsslCall ptr
| sk_X509_push (stack cert : ptr) : OsslCall Z
| d2i_X509 (der : bytes) : OsslCall ptr
| X509_STORE_CTX_new : OsslCall ptr
| X509_STORE_CTX_init (ctx store leaf : ptr) (intermediates : list ptr) : OsslCall Z
| X509_STORE_CTX_set_flags (ctx : ptr) (flags : Z) : OsslCall unit
| X509_verify_cert (ctx : ptr) : OsslCall Z
| X509_STORE_CTX_get0_chain (ctx : ptr) : OsslCall (option (list ptr))
| X509_get_subject_name (cert : ptr) : OsslCall ptr
| X509_get_issuer_name (cert : ptr) : OsslCall ptr
| X509_NAME_cmp (a b : ptr) : OsslCall Z
| X509_cmp (a b : ptr) : OsslCall Z
| X509_NAME_get_index_by_NID (name : ptr) (nid lastpos : Z) : OsslCall Z
| X509_NAME_get_entry (name : ptr) (pos : Z) : OsslCall ptr
| X509_NAME_ENTRY_get_data (entry : ptr) : OsslCall (option bytes)
| X509_get_pubkey (cert : ptr) : OsslCall ptr
| EVP_MD_CTX_new : OsslCall ptr
| EVP_DigestVerifyInit (ctx : ptr) (m : md) (key : ptr) : OsslCall Z
| EVP_DigestVerifyUpdate (ctx : ptr) (data : bytes) : OsslCall Z
| EVP_DigestVerifyFinal (ctx : ptr) (signature : bytes) : OsslCall Z
| EVP_DigestInit_ex (ctx : ptr) (m : md) : OsslCall Z
| EVP_DigestUpdate (ctx : ptr) (data : bytes) : OsslCall Z
| EVP_DigestFinal_ex (ctx : ptr) : OsslCall (Z * bytes)
| EVP_CIPHER_CTX_new : OsslCall ptr
| EVP_EncryptInit_gcm (ctx : ptr) : OsslCall Z
| EVP_EncryptInit_key (ctx : ptr) (key iv : bytes) : OsslCall Z
| EVP_EncryptUpdate (ctx : ptr) (data : bytes) : OsslCall (Z * bytes)
| EVP_EncryptFinal_ex (ctx : ptr) : OsslCall (Z * bytes)
| EVP_DecryptInit_gcm (ctx : ptr) : OsslCall Z
| EVP_DecryptInit_key (ctx : ptr) (key iv : bytes) : OsslCall Z
| EVP_DecryptUpdate (ctx : ptr) (data : bytes) : OsslCall (Z * bytes)
| EVP_DecryptFinal_ex (ctx : ptr) : OsslCall (Z * bytes)
| EVP_CTRL_GCM_SET_IVLEN (ctx : ptr) (n : Z) : OsslCall Z
| EVP_CTRL_GCM_GET_TAG (ctx : ptr) (n : Z) : OsslCall (Z * bytes)
| EVP_CTRL_GCM_SET_TAG (ctx : ptr) (tag : bytes) : OsslCall Z
| EVP_PKEY_CTX_new_id_HKDF : OsslCall ptr
| EVP_PKEY_CTX_new_id_EC : OsslCall ptr
| EVP_PKEY_CTX_new (key : ptr) : OsslCall ptr
| EVP_PKEY_derive_init (ctx : ptr) : OsslCall Z
| EVP_PKEY_CTX_hkdf_mode (ctx : ptr) : OsslCall Z
| EVP_PKEY_CTX_set_hkdf_md (ctx : ptr) (m : md) : OsslCall Z
| EVP_PKEY_CTX_set1_hkdf_key (ctx : ptr) (key : bytes) : OsslCall Z
| EVP_PKEY_CTX_set1_hkdf_salt (ctx : ptr) (salt : bytes) : OsslCall Z
| EVP_PKEY_CTX_add1_hkdf_info (ctx : ptr) (info : bytes) : OsslCall Z
| EVP_PKEY_derive_len (ctx : ptr) : OsslCall (Z * Z)
| EVP_PKEY_derive (ctx : ptr) (keylen : Z) : OsslCall (Z * bytes)
| EVP_PKEY_derive_set_peer (ctx peer : ptr) : OsslCall Z
| d2i_PrivateKey (der : bytes) : OsslCall ptr
| d2i_PUBKEY (der : bytes) : OsslCall ptr
| i2d_PrivateKey (key : ptr) : OsslCall (Z * bytes)
| i2d_PUBKEY (key : ptr) : OsslCall (Z * bytes)
| EVP_PKEY_paramgen_init (ctx : ptr) : OsslCall Z
| EVP_PKEY_CTX_set_ec_paramgen_curve_nid (ctx : ptr) (nid : Z) : OsslCall Z
| EVP_PKEY_paramgen (ctx : ptr) : OsslCall (Z * ptr)
| EVP_PKEY_keygen_init (ctx : ptr) : OsslCall Z
| EVP_PKEY_keygen (ctx key : ptr) : OsslCall (Z * ptr).

(** [throw OsslError(ERR_get_error(), w)] *)
Definition throw_ossl {F S A} `{Handler F S} `{OsslCall -< F} (w : string) : M F S A :=
  code ← trig ERR_get_error; throw (OsslErr code (str w)).
(** [if (rc != 1) throw OsslError(...)] and [if (rc <= 0) throw OsslError(...)] *)
Definition must_be_one {F S} `{Handler F S} `{OsslCall -< F} (rc : Z) (w : string) : M F S unit :=
  if (rc =? 1)%Z then mret tt else throw_ossl w.
Definition must_be_pos {F S} `{Handler F S} `{OsslCall -< F} (rc : Z) (w : string) : M F S unit :=
  if (rc <=? 0)%Z then throw_ossl w else mret tt.
Definition runtime_error (w : string) : exn := RuntimeError (str w).

(** ** Certificates *)
Module X509.

Definition X509_V_FLAG_X509_STRICT : Z := 0x20.
Definition X509_V_FLAG_CHECK_SS_SIGNATURE : Z := 0x4000.
Definition NID_commonName : Z := 13.

Record OsslX509 := {
  store : ptr;
  rootCertContexts : list ptr;
  intermediate_stack : ptr;
  intermediate_certs : list ptr;
  leaf_cert : ptr;
  leaf_key : ptr }.

Section Ops.
Context {F : Type -> Type} {S : Type} `{Handler F S} `{OsslCall -< F}.
Context `{BoostBase64, BoostString}.

Definition LoadCertificate (cert_buffer : bytes) : M F S ptr :=
  cert ← trig (d2i_X509 cert_buffer);
  _ ← require (negb (is_null cert)) (runtime_error "Failed to load certificate from buffer");
  mret cert.

Fixpoint load_roots (st : ptr) (rootCerts : list bytes) : M F S (list ptr) :=
  match rootCerts with
  | [] => mret []
  | rootCert :: rest =>
      der ← lift (Encoders.base64_decode (c_str rootCert));
      root_cert ← LoadCertificate der;
      rc ← trig (X509_STORE_add_cert st root_cert);
      _ ← require (rc =? 1)%Z (runtime_error "Failed to add root certificate to store");
      rootDup ← trig (X509_dup root_cert);
      _ ← require (negb (is_null rootDup)) (runtime_error "Failed to duplicate root certificate");
      more ← load_roots st rest;
      mret (rootDup :: more)
  end.

Definition new_OsslX509 (rootCerts : list bytes) : M F S OsslX509 :=
  stack ← trig sk_X509_new_null;
  st ← trig X509_STORE_new;
  _ ← require (negb (is_null st)) (runtime_error "Failed to create X509_STORE");
  _ ← require (negb (is_null stack))
        (runtime_error "Failed to create stack of X509 certificates");
  roots ← load_roots st rootCerts;
  _ ← trig (X509_STORE_set_flags st X509_V_FLAG_X509_STRICT);
  mret {| store := st; rootCertContexts := roots; intermediate_stack := stack;
          intermediate_certs := []; leaf_cert := null; leaf_key := null |}.

Definition LoadLeafCertificate (x : OsslX509) (cert : bytes) : M F S OsslX509 :=
  leaf_cert_buffer ← lift (Encoders.base64_decode (c_str cert));
  leaf ← LoadCertificate leaf_cert_buffer;
  mret {| store := store x; rootCertContexts := rootCertContexts x;
          intermediate_stack := intermediate_stack x;
          intermediate_certs := intermediate_certs x; leaf_cert := leaf;
          leaf_key := leaf_key x |}.

Definition SetLeafKey (x : OsslX509) (key : ptr) : OsslX509 :=
  {| store := store x; rootCertContexts := rootCertContexts x;
     intermediate_stack := intermediate_stack x;
     intermediate_certs := intermediate_certs x; leaf_cert := leaf_cert x; leaf_key := key |}.

Definition LoadIntermediateCertificate (x : OsslX509) (cert : bytes) : M F S OsslX509 :=
  der ← lift (Encoders.base64_decode (c_str cert));
  inter_cert ← LoadCertificate der;
  rc ← trig (sk_X509_push (intermediate_stack x) inter_cert);
  _ ← require (negb (rc =? 0)%Z)
        (runtime_error "Failed to push intermediate certificate onto stack");
  mret {| store := store x; rootCertContexts := rootCertContexts x;
          intermediate_stack := intermediate_stack x;
          intermediate_certs := intermediate_certs x ++ [inter_cert];
          leaf_cert := leaf_cert x; leaf_key := leaf_key x |}.

(** An empty string stands for every failure. *)
Definition GetCommonName (x : OsslX509) : M F S bytes :=
  if is_null (leaf_cert x) then mret []
  else
    subject ← trig (X509_get_subject_name (leaf_cert x));
    if is_null subject then mret []
    else
      pos ← trig (X509_NAME_get_index_by_NID subject NID_commonName (-1));
      if (pos <? 0)%Z then mret []
      else
        entry ← trig (X509_NAME_get_entry subject pos);
        if is_null entry then mret []
        else
          asn1_str ← trig (X509_NAME_ENTRY_get_data entry);
          mret (match asn1_str with Some commonName => commonName | None => [] end).

Definition tolower (c : byte) : byte :=
  if in_range "A" "Z" c then byte_of_z (z_of_byte c + 32) else c.

Definition suffix_matches (commonName expectedSuffix : bytes) : bool :=
  let lowerCommonName := map tolower commonName in
  let lowerSuffix := map tolower expectedSuffix in
  (length lowerSuffix <=? length lowerCommonName)%nat &&
  bool_decide (drop (length lowerCommonName - length lowerSuffix) lowerCommonName = lowerSuffix).

Definition VerifySubjectSuffix (x : OsslX509) (expectedSuffix : bytes) : M F S bool :=
  if bool_decide (expectedSuffix = []) then mret false
  else
    commonName ← GetCommonName x;
    if bool_decide (commonName = []) then mret false
    else mret (suffix_matches commonName expectedSuffix).

Fixpoint root_matches (actualRoot : ptr) (roots : list ptr) : M F S bool :=
  match roots with
  | [] => mret false
  | r :: rest =>
      c ← trig (X509_cmp actualRoot r);
      if (c =? 0)%Z then mret true else root_matches actualRoot rest
  end.

Definition VerifyChainTerminatesAtRoot (x : OsslX509) (ctx : ptr) : M F S bool :=
  chain ← trig (X509_STORE_CTX_get0_chain ctx);
  match chain with
  | None | Some [] => mret false
  | Some (c :: cs) =>
      let actualRoot := default c (last (c :: cs)) in
      if is_null actualRoot then mret false
      else
        subject ← trig (X509_get_subject_name actualRoot);
        issuer ← trig (X509_get_issuer_name actualRoot);
        if is_null subject || is_null issuer then mret false
        else
          cmp ← trig (X509_NAME_cmp subject issuer);
          if negb (cmp =? 0)%Z then mret false
          else root_matches actualRoot (rootCertContexts x)
  end.

Definition VerifyCertChain (x : OsslX509) (expectedSubjectSuffix : bytes) : M F S bool :=
  ctx ← trig X509_STORE_CTX_new;
  _ ← require (negb (is_null ctx)) (runtime_error "Failed to create X509_STORE_CTX");
  rc ← trig (X509_STORE_CTX_init ctx (store x) (leaf_cert x) (intermediate_certs x));
  _ ← require (rc =? 1)%Z (runtime_error "Failed to initialize X509_STORE_CTX");
  _ ← trig (X509_STORE_CTX_set_flags ctx X509_V_FLAG_CHECK_SS_SIGNATURE);
  result ← trig (X509_verify_cert ctx);
  if (result =? 1)%Z then
    suffix_ok ← VerifySubjectSuffix x expectedSubjectSuffix;
    if negb suffix_ok then mret false
    else
      root_ok ← VerifyChainTerminatesAtRoot x ctx;
      if negb root_ok then mret false else mret true
  else mret false.

Definition VerifySignature (x : OsslX509) (signedData signature : bytes) : M F S bool :=
  pubkey ← trig (X509_get_pubkey (leaf_cert x));
  if is_null pubkey then throw_ossl "Failed to get public key from leaf certificate"
  else
    ctx ← trig EVP_MD_CTX_new;
    if is_null ctx then throw_ossl "Failed to create EVP_MD_CTX"
    else
      rc ← trig (EVP_DigestVerifyInit ctx SHA256 pubkey);
      _ ← must_be_one rc "Failed to initialize digest verify";
      rc ← trig (EVP_DigestVerifyUpdate ctx signedData);
      _ ← must_be_one rc "Failed to update digest verify";
      result ← trig (EVP_DigestVerifyFinal ctx signature);
      mret (result =? 1)%Z.

End Ops.
End X509.

(** ** AES-256-GCM: ciphertexts carry their 16-byte tag at the end *)
Module Aes.
Section Ops.
Context {F : Type -> Type} {S : Type} `{Handler F S} `{OsslCall -< F}.

Definition EVP_MAX_BLOCK_LENGTH : Z := 32.
Definition KEY_SIZE : Z := 32.

Record OsslGcmWrapper := { ctx : ptr; key : bytes }.
Record AesChainingInfo := { nonce : bytes; initVector : bytes }.

Definition new_OsslGcmWrapper : M F S OsslGcmWrapper :=
  c ← trig EVP_CIPHER_CTX_new;
  _ ← require (negb (is_null c)) (runtime_error "Failed to create cipher context");
  mret {| ctx := c; key := [] |}.

Definition SetKey (w : OsslGcmWrapper) (k : bytes) : OsslGcmWrapper :=
  {| ctx := ctx w; key := k |}.
(** The nonce of the caller is the initialisation vector. *)
Definition SetChainingInfo (n : bytes) : AesChainingInfo :=
  {| nonce := []; initVector := n |}.

(** [std::vector<unsigned char> v(n)] *)
Definition new_vector (n : Z) : M F S unit :=
  require (n <=? vector_max_size)%Z
    (LengthError (str "cannot create std::vector larger than max_size()")).

(** OpenSSL reads [KEY_SIZE] bytes from [key.data()]. *)
Definition with_key (w : OsslGcmWrapper) (m : bytes -> M F S Z) : M F S Z :=
  if (size (key w) <? KEY_SIZE)%Z then fault_with UndefinedBehaviour
  else m (take (Z.to_nat KEY_SIZE) (key w)).

(** The two pieces OpenSSL writes at [buf.data()] and [buf.data() + len]. *)
Definition written (capacity : Z) (out1 out2 : bytes) : M F S bytes :=
  if (capacity <? size out1 + size out2)%Z then fault_with UndefinedBehaviour
  else mret (out1 ++ out2).

Definition Encrypt (w : OsslGcmWrapper) (data : bytes) (chainingInfo : option AesChainingInfo)
  : M F S bytes :=
  match chainingInfo with
  | None => throw (runtime_error "Chaining info must be set before calling Encrypt")
  | Some ci =>
      rc ← trig (EVP_EncryptInit_gcm (ctx w));
      _ ← must_be_one rc "Failed to initialize encryption";
      rc ← trig (EVP_CTRL_GCM_SET_IVLEN (ctx w) (size (initVector ci)));
      _ ← must_be_one rc "Failed to set IV length";
      rc ← with_key w (fun k => trig (EVP_EncryptInit_key (ctx w) k (initVector ci)));
      _ ← must_be_one rc "Failed to set key and IV";
      let capacity := u64 (size data + EVP_MAX_BLOCK_LENGTH) in
      _ ← new_vector capacity;
      '(rc, out1) ← trig (EVP_EncryptUpdate (ctx w) data);
      _ ← must_be_one rc "Failed to encrypt";
      '(rc, out2) ← trig (EVP_EncryptFinal_ex (ctx w));
      _ ← must_be_one rc "Failed to finalize encryption";
      '(rc, tag) ← trig (EVP_CTRL_GCM_GET_TAG (ctx w) 16);
      _ ← must_be_one rc "Failed to get tag";
      ciphertext ← written capacity out1 out2;
      mret (ciphertext ++ tag)
  end.

Definition Decrypt (w : OsslGcmWrapper) (ciphertext : bytes)
  (chainingInfo : option AesChainingInfo) : M F S bytes :=
  match chainingInfo with
  | None => throw (runtime_error "Chaining info must be set before calling Decrypt")
  | Some ci =>
      rc ← trig (EVP_DecryptInit_gcm (ctx w));
      _ ← must_be_one rc "Failed to initialize decryption";
      rc ← trig (EVP_CTRL_GCM_SET_IVLEN (ctx w) (size (initVector ci)));
      _ ← must_be_one rc "Failed to set IV length";
      rc ← with_key w (fun k => trig (EVP_DecryptInit_key (ctx w) k (initVector ci)));
      _ ← must_be_one rc "Failed to set key and IV";
      let capacity := u64 (size ciphertext - 16) in
      _ ← new_vector capacity;
      let n := length ciphertext - 16 in
      '(rc, out1) ← trig (EVP_DecryptUpdate (ctx w) (take n ciphertext));
      _ ← must_be_one rc "Failed to decrypt";
      rc ← trig (EVP_CTRL_GCM_SET_TAG (ctx w) (drop n ciphertext));
      _ ← must_be_one rc "Failed to set tag";
      '(rc, out2) ← trig (EVP_DecryptFinal_ex (ctx w));
      _ ← must_be_one rc "Failed to finalize decryption (tag mismatch?)";
      written capacity out1 out2
  end.

End Ops.
End Aes.

(** ** SHA and HKDF *)
Module Hkdf.
Section Ops.
Context {F : Type -> Type} {S : Type} `{Handler F S} `{OsslCall -< F}.

Definition SHA256_HASH_SIZE : Z := 32.
Definition SHA384_HASH_SIZE : Z := 48.
Definition SHA512_HASH_SIZE : Z := 64.

Definition hash_md (hashSize : Z) : option md :=
  if (hashSize =? SHA256_HASH_SIZE)%Z then Some SHA256
  else if (hashSize =? SHA384_HASH_SIZE)%Z then Some SHA384
  else if (hashSize =? SHA512_HASH_SIZE)%Z then Some SHA512
  else None.

Definition OsslSha (data : bytes) (hashSize : Z) : M F S bytes :=
  match hash_md hashSize with
  | None => throw (InvalidArgument (str "Unsupported hash size"))
  | Some m =>
      c ← trig EVP_MD_CTX_new;
      rc ← trig (EVP_DigestInit_ex c m);
      _ ← require (rc =? 1)%Z (runtime_error "Failed to initialize hash context");
      rc ← trig (EVP_DigestUpdate c data);
      _ ← require (rc =? 1)%Z (runtime_error "Failed to update hash");
      '(rc, hashValue) ← trig (EVP_DigestFinal_ex c);
      _ ← require (rc =? 1)%Z (runtime_error "Failed to finalize hash");
      mret hashValue
  end.

(** The object is its [pctx]. The key of the HKDF is the hash of the secret. *)
Definition new_OsslHKDF (secret : bytes) : M F S ptr :=
  hash ← OsslSha secret SHA256_HASH_SIZE;
  pctx ← trig EVP_PKEY_CTX_new_id_HKDF;
  _ ← require (negb (is_null pctx)) (runtime_error "Failed to create HKDF context");
  rc ← trig (EVP_PKEY_derive_init pctx);
  _ ← require (negb (rc <=? 0)%Z) (runtime_error "Failed to initialize HKDF context");
  rc ← trig (EVP_PKEY_CTX_hkdf_mode pctx);
  _ ← require (negb (rc <=? 0)%Z) (runtime_error "Failed to set HKDF mode");
  rc ← trig (EVP_PKEY_CTX_set_hkdf_md pctx SHA256);
  _ ← require (negb (rc <=? 0)%Z) (runtime_error "Failed to set HKDF hash function");
  rc ← trig (EVP_PKEY_CTX_set1_hkdf_key pctx hash);
  _ ← require (negb (rc <=? 0)%Z) (runtime_error "Failed to set HKDF key");
  mret pctx.

(** [Extract] only sets the salt: its result is a buffer of zero bytes. *)
Definition Extract (pctx : ptr) (salt : bytes) : M F S bytes :=
  rc ← trig (EVP_PKEY_CTX_set1_hkdf_salt pctx salt);
  _ ← require (negb (rc <=? 0)%Z) (runtime_error "Failed to set HKDF salt");
  mret (replicate (Z.to_nat SHA256_HASH_SIZE) x00).

Definition Expand (pctx : ptr) (prk info : bytes) (keySize : Z) : M F S bytes :=
  rc ← trig (EVP_PKEY_CTX_add1_hkdf_info pctx info);
  _ ← require (negb (rc <=? 0)%Z) (runtime_error "Failed to set HKDF info");
  '(rc, okm) ← trig (EVP_PKEY_derive pctx keySize);
  _ ← require (negb (rc <=? 0)%Z) (runtime_error "Failed to derive HKDF output key material");
  mret (take (Z.to_nat keySize) (okm ++ replicate (Z.to_nat keySize) x00)).

Definition DeriveKey (pctx : ptr) (salt info : bytes) (keySize : Z) : M F S bytes :=
  prk ← Extract pctx salt;
  Expand pctx prk info keySize.

End Ops.
End Hkdf.

(** ** Elliptic-curve Diffie-Hellman; the object is its [pctx] and [keyPair] *)
Module Ecdh.
Section Ops.
Context {F : Type -> Type} {S : Type} `{Handler F S} `{OsslCall -< F}.

Definition NID_X9_62_prime256v1 : Z := 415.

Record OsslECDiffieHellman := { keyPair : ptr; pctx : ptr }.

Definition new_OsslECDiffieHellman : M F S OsslECDiffieHellman :=
  c ← trig EVP_PKEY_CTX_new_id_EC;
  _ ← require (negb (is_null c)) (runtime_error "Failed to create ECDH context");
  mret {| keyPair := null; pctx := c |}.

Definition GenerateKeyPair (d : OsslECDiffieHellman) : M F S OsslECDiffieHellman :=
  rc ← trig (EVP_PKEY_paramgen_init (pctx d));
  _ ← must_be_pos rc "Failed to initialize ECDH parameters";
  rc ← trig (EVP_PKEY_CTX_set_ec_paramgen_curve_nid (pctx d) NID_X9_62_prime256v1);
  _ ← must_be_pos rc "Failed to set ECDH curve";
  '(rc, params) ← trig (EVP_PKEY_paramgen (pctx d));
  _ ← must_be_pos rc "Failed to generate parameters";
  kctx ← trig (EVP_PKEY_CTX_new params);
  _ ← (if is_null kctx then throw_ossl "Failed to create context for key generation"
       else mret tt);
  rc ← trig (EVP_PKEY_keygen_init kctx);
  _ ← must_be_pos rc "Failed to initialize key generation";
  '(rc, kp) ← trig (EVP_PKEY_keygen kctx (keyPair d));
  _ ← must_be_pos rc "Failed to generate key pair";
  mret {| keyPair := kp; pctx := pctx d |}.

Definition ImportPkcs8PrivateKey (d : OsslECDiffieHellman) (derPrivateKey : bytes)
  : M F S OsslECDiffieHellman :=
  privateKey ← trig (d2i_PrivateKey derPrivateKey);
  if is_null privateKey then throw_ossl "Failed to import PKCS#8 private key"
  else mret {| keyPair := privateKey; pctx := pctx d |}.

Definition ImportSubjectPublicKeyInfo (d : OsslECDiffieHellman) (derPublicKey : bytes)
  : M F S OsslECDiffieHellman :=
  publicKey ← trig (d2i_PUBKEY derPublicKey);
  if is_null publicKey then throw_ossl "Failed to import SubjectPublicKeyInfo"
  else mret {| keyPair := publicKey; pctx := pctx d |}.

Definition ExportPkcs8PrivateKey (d : OsslECDiffieHellman) : M F S bytes :=
  '(len, keyData) ← trig (i2d_PrivateKey (keyPair d));
  _ ← must_be_pos len "Failed to export PKCS#8 private key";
  mret (take (Z.to_nat len) keyData).

Definition ExportSubjectPublicKeyInfo (d : OsslECDiffieHellman) : M F S bytes :=
  '(len, keyData) ← trig (i2d_PUBKEY (keyPair d));
  _ ← must_be_pos len "Failed to export SubjectPublicKeyInfo";
  mret (take (Z.to_nat len) keyData).

Definition DeriveSecret (d key2 : OsslECDiffieHellman) : M F S bytes :=
  let peerKey := keyPair key2 in
  derivationCtx ← trig (EVP_PKEY_CTX_new (keyPair d));
  if is_null derivationCtx then throw_ossl "Failed to create derivation context"
  else
    rc ← trig (EVP_PKEY_derive_init derivationCtx);
    _ ← must_be_pos rc "Failed to initialize derivation context";
    rc ← trig (EVP_PKEY_derive_set_peer derivationCtx peerKey);
    _ ← must_be_pos rc "Failed to set peer public key";
    '(rc, secretLen) ← trig (EVP_PKEY_derive_len derivationCtx);
    _ ← must_be_pos rc "Failed to determine secret length";
    '(rc, sharedSecret) ← trig (EVP_PKEY_derive derivationCtx secretLen);
    _ ← must_be_pos rc "Failed to derive shared secret";
    mret (take (Z.to_nat secretLen) (sharedSecret ++ replicate (Z.to_nat secretLen) x00)).

End Ops.
End Ecdh.

(** ** Properties *)

Section Verified.
Context {F : Type -> Type} {S : Type} `{HF : Handler F S} `{HO : OsslCall -< F}.
Import X509.

(** What a trace must hold for the certificate of [x] to be trusted for
    [suffix]: OpenSSL verified the chain built from [x]'s store, leaf and
    intermediates, and that chain ends at a self-issued certificate equal to one
    of [x]'s roots. *)
Definition chain_verified (x : OsslX509) (t : list (event F)) : Prop :=
  exists ctx chain root r subject issuer,
    Ev (inj (X509_STORE_CTX_init ctx (store x) (leaf_cert x) (intermediate_certs x))) 1%Z ∈ t /\
    Ev (inj (X509_verify_cert ctx)) 1%Z ∈ t /\
    Ev (inj (X509_STORE_CTX_get0_chain ctx)) (Some chain) ∈ t /\
    last chain = Some root /\
    Ev (inj (X509_get_subject_name root)) subject ∈ t /\
    Ev (inj (X509_get_issuer_name root)) issuer ∈ t /\
    Ev (inj (X509_NAME_cmp subject issuer)) 0%Z ∈ t /\
    r ∈ rootCertContexts x /\ Ev (inj (X509_cmp root r)) 0%Z ∈ t.

(** The common name of [x]'s leaf, as the trace shows it read, ends in [suffix]
    up to the case of letters. *)
Definition subject_verified (x : OsslX509) (suffix : bytes) (t : list (event F)) : Prop :=
  exists name pos entry cn,
    Ev (inj (X509_get_subject_name (leaf_cert x))) name ∈ t /\
    Ev (inj (X509_NAME_get_index_by_NID name NID_commonName (-1))) pos ∈ t /\
    Ev (inj (X509_NAME_get_entry name pos)) entry ∈ t /\
    Ev (inj (X509_NAME_ENTRY_get_data entry)) (Some cn) ∈ t /\
    suffix <> [] /\ exists pre tail, cn = pre ++ tail /\ map tolower tail = map tolower suffix.

Definition signature_verified (x : OsslX509) (data sig : bytes) (t : list (event F)) : Prop :=
  exists key ctx,
    Ev (inj (X509_get_pubkey (leaf_cert x))) key ∈ t /\
    Ev (inj (EVP_DigestVerifyInit ctx SHA256 key)) 1%Z ∈ t /\
    Ev (inj (EVP_DigestVerifyUpdate ctx data)) 1%Z ∈ t /\
    Ev (inj (EVP_DigestVerifyFinal ctx sig)) 1%Z ∈ t.

Lemma suffix_matches_spec cn suffix :
  suffix_matches cn suffix = true <->
  exists pre tail, cn = pre ++ tail /\ map tolower tail = map tolower suffix.
Proof.
  unfold suffix_matches. rewrite andb_true_iff, bool_decide_eq_true, Nat.leb_le, !length_map.
  split.
  - intros [Hl E]. exists (take (length cn - length suffix) cn), (drop (length cn - length suffix) cn).
    rewrite take_drop. split; [done|]. by rewrite <- E, <- skipn_map.
  - intros (pre & tail & -> & E). pose proof (f_equal length E) as El. rewrite !length_map in El.
    rewrite length_app, El. split; [lia|].
    replace (length pre + length suffix - length suffix) with (length pre) by lia.
    rewrite map_app, <- E. rewrite <- (length_map tolower pre). apply drop_app_length.
Qed.

Lemma throw_ossl_wp {A} w s (Q : post_cond F S A) :
  (forall e s' t, Q (Throw e) s' t) -> wp (throw_ossl w) s Q.
Proof. intros HQ. unfold throw_ossl. wp_go. apply HQ. Qed.
Lemma must_be_one_wp rc w s (Q : post_cond F S unit) :
  (rc = 1%Z -> Q (Ret tt) s []) -> (forall e s' t, Q (Throw e) s' t) -> wp (must_be_one rc w) s Q.
Proof.
  intros H1 H2. unfold must_be_one. destruct (rc =? 1)%Z eqn:E.
  - apply H1. by apply Z.eqb_eq.
  - by apply throw_ossl_wp.
Qed.

Lemma GetCommonName_spec x s :
  wp (GetCommonName x) s (fun o _ t => forall cn, o = Ret cn -> cn <> [] ->
    exists name pos entry,
      Ev (inj (X509_get_subject_name (leaf_cert x))) name ∈ t /\
      Ev (inj (X509_NAME_get_index_by_NID name NID_commonName (-1))) pos ∈ t /\
      Ev (inj (X509_NAME_get_entry name pos)) entry ∈ t /\
      Ev (inj (X509_NAME_ENTRY_get_data entry)) (Some cn) ∈ t).
Proof.
  unfold GetCommonName. wp_go; intros cn E Hcn; simplify_eq.
  destruct r2; simplify_eq. do 3 eexists. split_and!; eauto 8 with trace.
Qed.

Lemma VerifySubjectSuffix_spec x suffix s :
  wp (VerifySubjectSuffix x suffix) s (fun o _ t =>
    o = Ret true -> subject_verified x suffix t).
Proof.
  unfold VerifySubjectSuffix. wp_step; [by wp_step|]. wp_step.
  eapply wp_mono; [apply GetCommonName_spec|]. intros [cn|e|f] s' t Hcn; try done.
  wp_step; [by wp_step|]. wp_step. intros [= Hm]. rewrite app_nil_r.
  destruct (Hcn cn eq_refl) as (name & pos & entry & H1 & H2 & H3 & H4).
  { by apply bool_decide_eq_false in Hif0. }
  exists name, pos, entry, cn. apply bool_decide_eq_false in Hif.
  split_and!; try done. by apply suffix_matches_spec.
Qed.

Lemma root_matches_spec root roots s :
  wp (root_matches root roots) s (fun o _ t =>
    o = Ret true -> exists r, r ∈ roots /\ Ev (inj (X509_cmp root r)) 0%Z ∈ t).
Proof.
  revert s. induction roots as [|r roots IH]; intros s; simpl; [by wp_step|].
  wp_go.
  - intros _. apply Z.eqb_eq in Hif. subst. exists r. eauto with trace.
  - eapply wp_mono; [apply IH|]. intros o s' t Ho Ht. destruct (Ho Ht) as (r' & Hr & Hev).
    exists r'. eauto with trace.
Qed.

Lemma VerifyChainTerminatesAtRoot_spec x ctx s :
  wp (VerifyChainTerminatesAtRoot x ctx) s (fun o _ t => o = Ret true ->
    exists chain root r subject issuer,
      Ev (inj (X509_STORE_CTX_get0_chain ctx)) (Some chain) ∈ t /\
      last chain = Some root /\
      Ev (inj (X509_get_subject_name root)) subject ∈ t /\
      Ev (inj (X509_get_issuer_name root)) issuer ∈ t /\
      Ev (inj (X509_NAME_cmp subject issuer)) 0%Z ∈ t /\
      r ∈ rootCertContexts x /\ Ev (inj (X509_cmp root r)) 0%Z ∈ t).
Proof.
  unfold VerifyChainTerminatesAtRoot. wp_go; try done.
  eapply wp_mono; [apply root_matches_spec|]. intros o s' t Ho Ht.
  destruct (Ho Ht) as (r' & Hr & Hev). apply negb_false_iff, Z.eqb_eq in Hif1. subst.
  exists (n :: l0), (default n (last (n :: l0))), r', r0, r1.
  split_and!; eauto 9 with trace.
  destruct (last (n :: l0)) eqn:El; [done|]. by apply last_None in El.
Qed.

Lemma VerifyCertChain_spec x suffix s :
  wp (VerifyCertChain x suffix) s (fun o _ t => o = Ret true ->
    chain_verified x t /\ subject_verified x suffix t).
Proof.
  unfold VerifyCertChain. wp_go; try done.
  eapply wp_mono; [apply VerifySubjectSuffix_spec|]. intros [b|e|f] s' t Hs; try done.
  wp_go; [done|]. eapply wp_mono; [apply VerifyChainTerminatesAtRoot_spec|].
  intros [b'|e|f] s'' t' Hr; try done. wp_go; [done|]. intros _.
  apply negb_false_iff in Hif0, Hif1. subst. apply Z.eqb_eq in Hif, H2. subst.
  destruct (Hr eq_refl) as (chain & root & r' & sub & iss & ? & ? & ? & ? & ? & ? & ?).
  destruct (Hs eq_refl) as (name & pos & entry & cn & ? & ? & ? & ? & ? & ?).
  split.
  - exists r, chain, root, r', sub, iss. split_and!; eauto 12 with trace.
  - exists name, pos, entry, cn. split_and!; eauto 12 with trace.
Qed.

Lemma VerifySignature_spec x data sig s :
  wp (VerifySignature x data sig) s (fun o _ t => o = Ret true ->
    signature_verified x data sig t).
Proof.
  unfold VerifySignature. wp_step. wp_step. wp_step; [by apply throw_ossl_wp|].
  wp_step. wp_step. wp_step; [by apply throw_ossl_wp|].
  wp_go. apply must_be_one_wp; [|done]. intros ->. wp_go.
  apply must_be_one_wp; [|done]. intros ->. wp_go.
  intros [= ->%Z.eqb_eq]. exists r, r0. split_and!; eauto 12 with trace.
Qed.

(** The facts of a trace hold of every longer trace. *)
Lemma chain_verified_mono x (t t' : list (event F)) :
  t ⊆ t' -> chain_verified x t -> chain_verified x t'.
Proof.
  intros Ht (ctx & chain & root & r & sub & iss & ? & ? & ? & ? & ? & ? & ? & ? & ?).
  exists ctx, chain, root, r, sub, iss. split_and!; auto.
Qed.
Lemma subject_verified_mono x sf (t t' : list (event F)) :
  t ⊆ t' -> subject_verified x sf t -> subject_verified x sf t'.
Proof.
  intros Ht (name & pos & entry & cn & ? & ? & ? & ? & ?). exists name, pos, entry, cn.
  split_and!; auto; tauto.
Qed.
Lemma signature_verified_mono x d sg (t t' : list (event F)) :
  t ⊆ t' -> signature_verified x d sg t -> signature_verified x d sg t'.
Proof. intros Ht (key & ctx & ? & ? & ? & ?). exists key, ctx. split_and!; auto. Qed.

End Verified.
