(* ===== verification/Bcrypt.v ===== *)
(** * The Windows wrappers of azure-protected-vm-secrets

    Windows/BcryptAesWrapper.cpp (AES-GCM, a block per call to bcrypt) and
    Windows/BcryptHKDF.cpp (HKDF over bcrypt's HMAC). [BcryptCall] lists the calls with their
    answers: a status, 0 for success, and the out-parameters; a structure that bcrypt updates is
    part of the answer. *)

From S2P Require Import Prelude ReturnCodes Ossl.
#[local] Open Scope Z_scope.

(** [BCRYPT_AUTHENTICATED_CIPHER_MODE_INFO]: nonce, tag, MAC context, and whether
    [BCRYPT_AUTH_MODE_CHAIN_CALLS_FLAG] is set. *)
Record AuthInfo := { pbNonce : bytes; pbTag : bytes; pbMacContext : bytes; chain_calls : bool }.

Inductive BcryptCall : Type -> Type :=
| BCryptOpenAlgorithmProvider (alg : bytes) (hmac : bool) : BcryptCall (Z * ptr)
| BCryptCloseAlgorithmProvider (alg : ptr) : BcryptCall Z
| BCryptSetProperty_GCM (alg : ptr) : BcryptCall Z
| BCryptGetProperty_tag_length (alg : ptr) : BcryptCall (Z * Z)
| BCryptGetProperty_block_length (alg : ptr) : BcryptCall (Z * Z)
| BCryptGetProperty_object_length (alg : ptr) : BcryptCall (Z * Z)
| BCryptGenerateSymmetricKey (alg : ptr) (objectLength : Z) (key : bytes) : BcryptCall (Z * ptr)
| BCryptEncrypt (key : ptr) (input : bytes) (info : AuthInfo) (iv : bytes)
    : BcryptCall (Z * (bytes * AuthInfo * bytes))
| BCryptDecrypt (key : ptr) (input : bytes) (info : AuthInfo) (iv : bytes)
    : BcryptCall (Z * (bytes * AuthInfo * bytes))
(* without an output buffer: the size *)
| BCryptDeriveKey_size (secret : ptr) : BcryptCall Z
| BCryptDeriveKey (secret : ptr) (room : Z) : BcryptCall (Z * bytes)
| BCryptHash (alg : ptr) (key data : bytes) (room : Z) : BcryptCall (Z * bytes)
| BCryptCreateHash (alg : ptr) (key : bytes) : BcryptCall (Z * ptr)
| BCryptHashData (hash : ptr) (data : bytes) : BcryptCall Z
| BCryptFinishHash (hash : ptr) (room : Z) : BcryptCall (Z * bytes)
| BCryptDestroyHash (hash : ptr) : BcryptCall Z.

Module Bcrypt.
Section Ops.
Context {F : Type -> Type} {S : Type} `{Handler F S} `{BcryptCall -< F}.

(** [if (STATUS_SUCCESS != status) throw BcryptError(status, w, code);] and the checks with
    [BCRYPT_SUCCESS], which accepts every status that is not negative. *)
Definition success (status : Z) (w : string) (code : ErrorCode) : M F S unit :=
  require (status =? 0) (BcryptErr status (str w) (error_code code)).
Definition bcrypt_success (status : Z) (w : string) (code : ErrorCode) : M F S unit :=
  require (0 <=? s32 status) (BcryptErr status (str w) (error_code code)).

(** ** AES-GCM *)

Record GcmChainingInfo := { nonce : bytes; initVector : bytes; authInfo : AuthInfo }.
Record GcmWrapper := { hAesHandle : ptr; hAesKey : ptr; blockLength : Z; objectLength : Z; dwMaxLength : Z }.

Definition round_up (numToRound multiple : Z) : Z := (numToRound + multiple - 1) / multiple * multiple.
(** [long] has 32 bits on Windows. *)
Definition blocks_of (length block : Z) : Z := s32 (round_up length block / block).

Definition new_GcmWrapper : M F S GcmWrapper :=
  '(st, h) ← trig (BCryptOpenAlgorithmProvider (str "AES") false);
  _ ← success st "BCryptOpenAlgorithmProvider failed" LibraryError_Bcrypt_providerError;
  st ← trig (BCryptSetProperty_GCM h);
  _ ← bcrypt_success st "BCryptSetProperty(BCRYPT_CHAINING_MODE) failed" LibraryError_Bcrypt_propertyError;
  '(st, tagLength) ← trig (BCryptGetProperty_tag_length h);
  _ ← bcrypt_success st "BCryptGetProperty(BCRYPT_AUTH_TAG_LENGTH) failed" LibraryError_Bcrypt_propertyError;
  '(st, block) ← trig (BCryptGetProperty_block_length h);
  _ ← bcrypt_success st "BCryptGetProperty(BCRYPT_BLOCK_LENGTH) failed" LibraryError_Bcrypt_propertyError;
  '(st, object) ← trig (BCryptGetProperty_object_length h);
  _ ← bcrypt_success st "BCryptGetProperty(BCRYPT_OBJECT_LENGTH) failed" LibraryError_Bcrypt_propertyError;
  mret {| hAesHandle := h; hAesKey := null; blockLength := block; objectLength := object; dwMaxLength := tagLength |}.

Definition SetKey (w : GcmWrapper) (key : bytes) : M F S GcmWrapper :=
  '(st, h) ← trig (BCryptGenerateSymmetricKey (hAesHandle w) (objectLength w) key);
  _ ← success st "BCryptGetProperty(BCRYPT_AUTH_TAG_LENGTH) failed" LibraryError_Bcrypt_keyError;
  mret {| hAesHandle := hAesHandle w; hAesKey := h; blockLength := blockLength w;
          objectLength := objectLength w; dwMaxLength := dwMaxLength w |}.

Definition zeros (n : Z) : bytes := replicate (Z.to_nat n) x00.
(** The size of a [std::vector] is unsigned. *)
Definition vector_of_size (n : Z) : outcome bytes :=
  if vector_max_size <? u64 n then Throw (LengthError (str "vector too long")) else Ret (zeros (u64 n)).

Definition new_GcmChainingInfo (alg : ptr) : M F S GcmChainingInfo :=
  '(st, tagLength) ← trig (BCryptGetProperty_tag_length alg);
  _ ← bcrypt_success st "BCryptGetProperty(BCRYPT_AUTH_TAG_LENGTH) failed" LibraryError_Bcrypt_propertyError;
  '(st, block) ← trig (BCryptGetProperty_block_length alg);
  _ ← bcrypt_success st "BCryptGetProperty(BCRYPT_BLOCK_LENGTH) failed" LibraryError_Bcrypt_propertyError;
  mret {| nonce := []; initVector := zeros block;
          authInfo := {| pbNonce := []; pbTag := zeros tagLength; pbMacContext := zeros tagLength;
                         chain_calls := true |} |}.
Definition SetNonce (c : GcmChainingInfo) (n : bytes) : GcmChainingInfo :=
  {| nonce := n; initVector := initVector c;
     authInfo := {| pbNonce := n; pbTag := pbTag (authInfo c); pbMacContext := pbMacContext (authInfo c);
                    chain_calls := chain_calls (authInfo c) |} |}.
Definition SetInitVector (c : GcmChainingInfo) (iv : bytes) : GcmChainingInfo :=
  {| nonce := nonce c; initVector := iv; authInfo := authInfo c |}.
Definition SetChainingInfo (w : GcmWrapper) (n : bytes) : M F S GcmChainingInfo :=
  c ← new_GcmChainingInfo (hAesHandle w); mret (SetNonce c n).

(** The last call of a chain has the flag cleared; the tag to compare with is that of the text. *)
Definition last_call (i : AuthInfo) : AuthInfo :=
  {| pbNonce := pbNonce i; pbTag := pbTag i; pbMacContext := pbMacContext i; chain_calls := false |}.
Definition with_tag (i : AuthInfo) (tag : bytes) : AuthInfo :=
  {| pbNonce := pbNonce i; pbTag := tag; pbMacContext := pbMacContext i; chain_calls := chain_calls i |}.

(** [data() + offset], [n] bytes of it *)
Definition slice (data : bytes) (off n : Z) : bytes := take (Z.to_nat n) (drop (Z.to_nat off) data).

(** One block per call; [ciphertextSize] counts the blocks, what is left of the
    input starts at [ptxOffset]. *)
Fixpoint encrypt_blocks (n : nat) (w : GcmWrapper) (data result : bytes) (i : AuthInfo) (iv : bytes)
    (ciphertextSize ptxOffset : Z) : M F S (bytes * AuthInfo * bytes * Z * Z) :=
  match n with
  | O => mret (result, i, iv, ciphertextSize, ptxOffset)
  | Datatypes.S n' =>
      '(st, (out, i, iv)) ← trig (BCryptEncrypt (hAesKey w) (slice data ptxOffset (blockLength w)) i iv);
      _ ← success st "BCryptEncrypt failed" CryptographyError_AES_encryptError;
      result ← lift (overwrite result ciphertextSize out);
      encrypt_blocks n' w data result i iv (ciphertextSize + blockLength w) (ptxOffset + size out)
  end.

(** The chaining info is one that [SetChainingInfo] returned; it serves one call, and what
    the call leaves in it is dropped. *)
Definition Encrypt (w : GcmWrapper) (data : bytes) (c : GcmChainingInfo) : M F S bytes :=
  if blockLength w =? 0 then fault_with UndefinedBehaviour
  else
    let numBlocks := blocks_of (size data) (blockLength w) in
    let i := authInfo c in
    result ← lift (vector_of_size (round_up (size data) (blockLength w) + size (pbTag i)));
    '(st, (_, i, iv)) ← trig (BCryptEncrypt (hAesKey w) [] i (initVector c));
    _ ← success st "BCryptEncrypt failed" CryptographyError_AES_encryptError;
    '(result, i, iv, ciphertextSize, ptxOffset) ←
       encrypt_blocks (Z.to_nat (numBlocks - 1)) w data result i iv 0 0;
    '(st, (out, i, iv)) ← trig (BCryptEncrypt (hAesKey w) (slice data ptxOffset (size data - ptxOffset))
                                  (last_call i) iv);
    _ ← success st "BCryptEncrypt failed" CryptographyError_AES_encryptError;
    result ← lift (overwrite result ciphertextSize out);
    let ciphertextSize := ciphertextSize + size out in
    result ← lift (resize result (ciphertextSize + size (pbTag i)));
    lift (overwrite result ciphertextSize (pbTag i)).

Fixpoint decrypt_blocks (n k : nat) (w : GcmWrapper) (ciphertext result : bytes) (i : AuthInfo) (iv : bytes)
    (returnDataLength ctxOffset : Z) : M F S (bytes * AuthInfo * bytes * Z * Z) :=
  match n with
  | O => mret (result, i, iv, returnDataLength, ctxOffset)
  | Datatypes.S n' =>
      let ctxOffset := u32 (Z.of_nat k * blockLength w) in
      '(st, (out, i, iv)) ← trig (BCryptDecrypt (hAesKey w) (slice ciphertext ctxOffset (blockLength w)) i iv);
      _ ← success st "BCryptDecrypt failed" CryptographyError_AES_decryptError;
      result ← lift (overwrite result returnDataLength out);
      decrypt_blocks n' (Datatypes.S k) w ciphertext result i iv (returnDataLength + size out)
        (ctxOffset + blockLength w)
  end.

Definition Decrypt (w : GcmWrapper) (ciphertext : bytes) (c : GcmChainingInfo) : M F S bytes :=
  let encryptedDataLength := size ciphertext - dwMaxLength w in
  result ← lift (vector_of_size encryptedDataLength);
  if blockLength w =? 0 then fault_with UndefinedBehaviour
  else
    let numBlocks := blocks_of encryptedDataLength (blockLength w) in
    let authTag := slice ciphertext encryptedDataLength (dwMaxLength w) in
    '(st, (_, i, iv)) ← trig (BCryptDecrypt (hAesKey w) [] (authInfo c) (initVector c));
    _ ← success st "BCryptDecrypt failed" CryptographyError_AES_decryptError;
    '(result, i, iv, returnDataLength, ctxOffset) ←
       decrypt_blocks (Z.to_nat (numBlocks - 1)) 0 w ciphertext result i iv 0 0;
    '(st, (out, i, iv)) ← trig (BCryptDecrypt (hAesKey w)
                                  (slice ciphertext ctxOffset (encryptedDataLength - ctxOffset))
                                  (with_tag (last_call i) authTag) iv);
    _ ← success st "BCryptDecrypt failed" CryptographyError_AES_decryptError;
    lift (overwrite result returnDataLength out).

(** ** HKDF *)

Record BcryptHKDF := { secret : ptr; hAlg : ptr }.
Definition SHA256_HASH_SIZE : Z := 32.
Definition SHA256_ALG : bytes := str "SHA256".

Definition new_BcryptHKDF (secret : ptr) : M F S BcryptHKDF :=
  if is_null secret then throw (InvalidArgument (str "Secret cannot be null." ++ [x0a]))
  else
    '(st, h) ← trig (BCryptOpenAlgorithmProvider SHA256_ALG true);
    _ ← require (st =? 0) (BcryptErr st (str "BCryptHash for OpenAlgorithmProvider Failed." ++ [x0a])
                             (error_code LibraryError_Bcrypt_providerError));
    mret {| secret := secret; hAlg := h |}.

(** The message of an error ends with a newline here. *)
Definition hashed (status : Z) (w : string) (code : ErrorCode) : M F S unit :=
  require (status =? 0) (BcryptErr status (str w ++ [x0a]) (error_code code)).

(** The secret is hashed first, then the HMAC under the salt is taken. *)
Definition Extract (k : BcryptHKDF) (salt : bytes) : M F S bytes :=
  st ← trig (BCryptDeriveKey_size (secret k));
  _ ← hashed st "BCryptDeriveKey Derive failed." CryptographyError_HKDF_extractError;
  '(st, interimPrk) ← trig (BCryptDeriveKey (secret k) SHA256_HASH_SIZE);
  _ ← hashed st "BCryptDeriveKey Derive failed." CryptographyError_HKDF_extractError;
  '(st, prk) ← trig (BCryptHash (hAlg k) salt interimPrk SHA256_HASH_SIZE);
  _ ← hashed st "BCryptHash for HMAC failed." CryptographyError_HKDF_extractError;
  mret prk.

Definition rounds (keySize : Z) : Z := u32 ((keySize + SHA256_HASH_SIZE - 1) / SHA256_HASH_SIZE).
(** Round [i] puts T(i+1) after what the buffer of [room] bytes holds; the counter is a byte. *)
Fixpoint expand_rounds (n i : nat) (k : BcryptHKDF) (prk info : bytes) (room : Z) (tBuffer : bytes) (counter : Z)
    : M F S bytes :=
  match n with
  | O => mret tBuffer
  | Datatypes.S n' =>
      '(st, hHash) ← trig (BCryptCreateHash (hAlg k) prk);
      _ ← hashed st "BCryptCreateHash for HMAC failed." CryptographyError_HKDF_expandError;
      _ ← match i with
          | O => mret tt
          | Datatypes.S i' =>
              st ← trig (BCryptHashData hHash (slice tBuffer (Z.of_nat i' * SHA256_HASH_SIZE) SHA256_HASH_SIZE));
              hashed st "BCryptCreateHash for HMAC failed." CryptographyError_HKDF_expandError
          end;
      st ← trig (BCryptHashData hHash info);
      _ ← hashed st "BCryptHash for HMAC failed." CryptographyError_HKDF_expandError;
      st ← trig (BCryptHashData hHash [byte_of_z counter]);
      _ ← hashed st "BCryptHash for HMAC failed." CryptographyError_HKDF_expandError;
      _ ← if room <? size tBuffer + SHA256_HASH_SIZE then fault_with UndefinedBehaviour else mret tt;
      '(st, t) ← trig (BCryptFinishHash hHash SHA256_HASH_SIZE);
      _ ← hashed st "BCryptHash for HMAC failed." CryptographyError_HKDF_expandError;
      st ← trig (BCryptDestroyHash hHash);
      _ ← hashed st "BCryptHash for HMAC failed." LibraryError_Bcrypt_handleError;
      expand_rounds n' (Datatypes.S i) k prk info room (tBuffer ++ t) ((counter + 1) mod 256)
  end.
Definition Expand (k : BcryptHKDF) (prk info : bytes) (keySize : Z) : M F S bytes :=
  _ ← lift (vector_of_size keySize);
  let numRounds := rounds keySize in
  tBuffer ← expand_rounds (Z.to_nat numRounds) 0 k prk info (u32 (numRounds * SHA256_HASH_SIZE)) [] 1;
  if size tBuffer <? keySize then fault_with UndefinedBehaviour else mret (take (Z.to_nat keySize) tBuffer).

Definition DeriveKey (k : BcryptHKDF) (salt info : bytes) (keySize : Z) : M F S bytes :=
  prk ← Extract k salt; Expand k prk info keySize.

(** [BcryptSha]; the status of opening the provider is not looked at. *)
Definition hash_alg (hashSize : Z) : option bytes :=
  if hashSize =? 32 then Some SHA256_ALG
  else if hashSize =? 48 then Some (str "SHA384")
  else if hashSize =? 64 then Some (str "SHA512") else None.
Definition BcryptSha (data : bytes) (hashSize : Z) : M F S bytes :=
  match hash_alg hashSize with
  | None => throw (InvalidArgument (str "Unsupported hash size"))
  | Some alg =>
      '(_, h) ← trig (BCryptOpenAlgorithmProvider alg false);
      '(st, hash) ← trig (BCryptHash h [] data hashSize);
      _ ← trig (BCryptCloseAlgorithmProvider h);
      _ ← hashed st "BCryptHash for HMAC failed." CryptographyError_HKDF_extractError;
      mret hash
  end.
End Ops.
End Bcrypt.
