(* ===== verification/BcryptFacts.v ===== *)
(** * What the Windows wrappers compute

    The documented behaviour of bcrypt's HMAC objects ([HmacLaws]) and chained GCM calls
    ([GcmLaws]), and against them: [DeriveKey] is HKDF of RFC 5869, and the blockwise [Encrypt]
    and [Decrypt] are one-shot AES-GCM with the tag appended. *)

From S2P Require Import Prelude ReturnCodes Ossl Bcrypt.
#[local] Open Scope Z_scope.

(** ** HKDF *)

(** [hmac] is HMAC-SHA256, [kdf] the SHA-256 of what a secret handle stands for; [acc] is the key
    and the data of a hash object. *)
Class HmacLaws (F : Type -> Type) (S : Type) `{Handler F S} `{BcryptCall -< F} := {
  hmac : bytes -> bytes -> bytes;
  kdf : ptr -> bytes;
  hmac_size k d : size (hmac k d) = 32;
  acc : S -> ptr -> option (bytes * bytes);
  kdf_size s p : fst (handle (inj (BCryptDeriveKey_size p)) s) = 0;
  kdf_run s p : fst (handle (inj (BCryptDeriveKey p 32)) s) = (0, kdf p);
  hash_run s h k d : fst (handle (inj (BCryptHash h k d 32)) s) = (0, hmac k d);
  hash_create s a k : exists h s', handle (inj (BCryptCreateHash a k)) s = ((0, h), s') /\
    acc s' h = Some (k, []);
  hash_data s h k d x : acc s h = Some (k, d) ->
    exists s', handle (inj (BCryptHashData h x)) s = (0, s') /\ acc s' h = Some (k, d ++ x);
  hash_finish s h k d : acc s h = Some (k, d) ->
    exists s', handle (inj (BCryptFinishHash h 32)) s = ((0, hmac k d), s');
  hash_destroy s h : fst (handle (inj (BCryptDestroyHash h)) s) = 0 }.

(** RFC 5869: T(1), ..., T(n), where T(i) = HMAC(PRK, T(i-1) | info | i), starting after [prev] =
    T(i-1). *)
Fixpoint rfc_blocks (mac : bytes -> bytes -> bytes) (prk info prev : bytes) (i : Z) (n : nat) : bytes :=
  match n with
  | O => []
  | Datatypes.S n' =>
      let t := mac prk (prev ++ info ++ [byte_of_z i]) in t ++ rfc_blocks mac prk info t (i + 1) n'
  end.
Definition rfc_expand (mac : bytes -> bytes -> bytes) (prk info : bytes) (L : Z) : bytes :=
  take (Z.to_nat L) (rfc_blocks mac prk info [] 1 (Z.to_nat ((L + 31) / 32))).
Definition rfc_hkdf (mac : bytes -> bytes -> bytes) (salt ikm info : bytes) (L : Z) : bytes :=
  rfc_expand mac (mac salt ikm) info L.

Lemma rfc_blocks_size mac (Hm : forall k d, size (mac k d) = 32) prk info n : forall prev i,
  size (rfc_blocks mac prk info prev i n) = 32 * Z.of_nat n.
Proof.
  induction n as [|n IH]; intros prev i; [done|]. cbn [rfc_blocks].
  set (t := mac prk _). assert (Ht : size t = 32) by apply Hm.
  specialize (IH t (i + 1)). unfold size in *. rewrite length_app. lia.
Qed.
Lemma rfc_hkdf_size mac (Hm : forall k d, size (mac k d) = 32) salt ikm info L :
  0 <= L -> size (rfc_hkdf mac salt ikm info L) = L.
Proof.
  intros HL. unfold rfc_hkdf, rfc_expand. set (n := Z.to_nat ((L + 31) / 32)).
  assert (Hn := rfc_blocks_size mac Hm (mac salt ikm) info n [] 1).
  assert (L <= 32 * Z.of_nat n) by (subst n; Z.to_euclidean_division_equations; lia).
  unfold size in *. rewrite length_take. lia.
Qed.

Section Hkdf.
Context {F : Type -> Type} {S : Type} `{Handler F S} `{BcryptCall -< F} `{!HmacLaws F S}.
Import Bcrypt.

(** A status of success lets the program go on. *)
Lemma delivers_ok {A} e s (k : unit -> M F S A) (P : A -> S -> Prop) :
  delivers (k tt) s P -> delivers (require (0 =? 0) e ≫= k) s P.
Proof. intros Hk. apply delivers_bind. by apply delivers_require. Qed.

Lemma delivers_hashed h k d x s (Q : unit -> S -> Prop) w c :
  acc s h = Some (k, d) -> (forall s', acc s' h = Some (k, d ++ x) -> Q tt s') ->
  delivers (st ← trig (BCryptHashData h x); hashed st w c) s Q.
Proof.
  intros Ha HQ. apply delivers_bind. destruct (hash_data s h k d x Ha) as (s' & E & A).
  eapply delivers_trig; [exact E|]. by apply delivers_require; auto.
Qed.
Lemma slice_app_r (l k : bytes) n : n = size k -> slice (l ++ k) (size l) n = k.
Proof. intros ->. unfold slice, size. by rewrite !Nat2Z.id, drop_app_length, firstn_all. Qed.

(** Round [i] finds T(i-1), [prev], at the end of the buffer. *)
Lemma delivers_rounds k prk info room n : forall i s done prev,
  32 * Z.of_nat (i + n) <= room -> size (done ++ prev) = 32 * Z.of_nat i -> size prev = match i with O => 0 | _ => 32 end ->
  delivers (expand_rounds n i k prk info room (done ++ prev) ((Z.of_nat i + 1) mod 256)) s
    (fun b _ => b = done ++ prev ++ rfc_blocks hmac prk info prev (Z.of_nat i + 1) n).
Proof.
  induction n as [|n IH]; intros i s done prev Hr Hd Hp; simpl.
  { apply delivers_ret. by rewrite app_nil_r. }
  apply delivers_bind. destruct (hash_create s (hAlg k) prk) as (h & s1 & E1 & A1).
  eapply delivers_trig; [exact E1|]. cbn beta iota. apply delivers_ok.
  apply delivers_bind. eapply delivers_mono with (P := fun _ s2 => acc s2 h = Some (prk, prev)).
  { destruct i as [|i']; [apply delivers_ret; destruct prev; [done|by unfold size in Hp]|].
    replace (slice _ _ _) with prev.
    - by eapply delivers_hashed; [exact A1|].
    - symmetry. unfold SHA256_HASH_SIZE. replace (Z.of_nat i' * 32) with (size done).
      + by apply slice_app_r.
      + unfold size in *. rewrite length_app in Hd. lia. }
  intros [] s2 A2. apply delivers_bind. destruct (hash_data s2 h prk prev info A2) as (s3 & E3 & A3).
  eapply delivers_trig; [exact E3|]. cbn beta iota. apply delivers_ok. apply delivers_bind.
  destruct (hash_data s3 h prk _ [byte_of_z ((Z.of_nat i + 1) mod 256)] A3) as (s4 & E4 & A4).
  eapply delivers_trig; [exact E4|]. cbn beta iota. apply delivers_ok.
  rewrite (proj2 (Z.ltb_ge room _)) by (rewrite Hd; unfold SHA256_HASH_SIZE; lia).
  apply delivers_bind, delivers_ret, delivers_bind. destruct (hash_finish s4 h prk _ A4) as (s5 & E5). eapply delivers_trig; [exact E5|].
  cbn beta iota. apply delivers_ok. apply delivers_bind. eapply delivers_answer; [apply hash_destroy|].
  intros s6. apply delivers_ok.
  replace (byte_of_z ((Z.of_nat i + 1) mod 256)) with (byte_of_z (Z.of_nat i + 1))
    by (unfold byte_of_z; by rewrite Z.mod_mod).
  rewrite <- (app_assoc prev info). set (t := hmac prk _).
  assert (Ht : size t = 32) by apply hmac_size.
  replace (((Z.of_nat i + 1) mod 256 + 1) mod 256) with ((Z.of_nat (Datatypes.S i) + 1) mod 256)
    by (rewrite Z.add_mod_idemp_l by done; f_equal; lia).
  rewrite app_assoc. eapply delivers_mono; [apply IH|].
  - lia.
  - unfold size in *. rewrite length_app, Nat2Z.inj_add, Hd. lia.
  - done.
  - intros b _ ->. rewrite <- !app_assoc. do 4 f_equal. lia.
Qed.

Lemma vector_of_size_ok n : 0 <= n <= vector_max_size -> vector_of_size n = Ret (zeros n).
Proof.
  intros Hn. unfold vector_of_size. assert (Hu : u64 n = n) by (apply Z.mod_small; unfold vector_max_size in *; lia).
  rewrite Hu. by rewrite (proj2 (Z.ltb_ge _ _)) by lia.
Qed.
Lemma rounds_spec L : 0 <= L <= 255 * 32 -> rounds L = (L + 31) / 32.
Proof.
  intros HL. unfold rounds, u32, SHA256_HASH_SIZE. replace (L + 32 - 1) with (L + 31) by lia.
  apply Z.mod_small. Z.to_euclidean_division_equations; lia.
Qed.
Lemma delivers_Expand k prk info L s :
  0 <= L <= 255 * 32 -> delivers (Expand k prk info L) s (fun b _ => b = rfc_expand hmac prk info L).
Proof.
  intros HL. unfold Expand. apply delivers_bind. rewrite rounds_spec by done.
  eapply delivers_lift; [apply vector_of_size_ok; unfold vector_max_size; lia|]. cbn beta. apply delivers_bind.
  eapply delivers_mono; [apply (delivers_rounds k prk info _ _ 0 s [] []); [|done..]|].
  { unfold u32, SHA256_HASH_SIZE. rewrite Z.mod_small by (Z.to_euclidean_division_equations; lia).
    Z.to_euclidean_division_equations; lia. }
  intros b s' ->. cbn beta iota. rewrite !app_nil_l. unfold rfc_expand.
  set (n := Z.to_nat _). assert (Hn := rfc_blocks_size hmac hmac_size prk info n [] 1).
  change (Z.of_nat 0 + 1) with 1. destruct (_ <? _) eqn:E; [|by apply delivers_ret].
  subst n. Z.to_euclidean_division_equations; lia.
Qed.
Lemma delivers_DeriveKey k salt info L s :
  0 <= L <= 255 * 32 ->
  delivers (DeriveKey k salt info L) s (fun b _ => b = rfc_hkdf hmac salt (kdf (secret k)) info L).
Proof.
  intros HL. unfold DeriveKey, Extract. apply delivers_bind, delivers_bind.
  eapply delivers_answer; [apply kdf_size|]. intros s1. apply delivers_ok, delivers_bind.
  eapply delivers_answer; [apply kdf_run|]. intros s2. cbn beta iota. apply delivers_ok, delivers_bind.
  eapply delivers_answer; [apply hash_run|]. intros s3. cbn beta iota. apply delivers_ok, delivers_ret.
  by apply delivers_Expand.
Qed.

(** C19: The hand-written HKDF is HKDF. With a bcrypt that computes HMAC-SHA256, [DeriveKey] always
    returns, for any size RFC 5869 allows (up to 255 blocks), and the key is the one of RFC 5869
    for the salt and the SHA-256 of the agreed secret: its blocks, their chaining, the counter
    and the final cut. *)
Theorem hkdf_rfc5869 k salt info L s :
  0 <= L <= 255 * 32 ->
  res (DeriveKey k salt info L s) = Ret (rfc_hkdf hmac salt (kdf (secret k)) info L).
Proof.
  intros HL. destruct (delivers_res _ _ _ (delivers_DeriveKey k salt info L s HL)) as (b & Hb & _ & ->). done.
Qed.
End Hkdf.

(** ** AES-GCM *)

Definition with_mac (i : AuthInfo) (mac : bytes) : AuthInfo :=
  {| pbNonce := pbNonce i; pbTag := pbTag i; pbMacContext := mac; chain_calls := chain_calls i |}.
Definition STATUS_AUTH_TAG_MISMATCH : Z := 0xC000A002.

(** [ctr k n o d] is [d] under the key stream of key [k] and nonce [n] from offset [o],
    [gcm_tag k n c] the tag of a ciphertext. [progress k n mac iv c] says that a chain of calls has
    come to the ciphertext [c]; all calls of a chain but the last take whole blocks. *)
Class GcmLaws (F : Type -> Type) (S : Type) `{Handler F S} `{BcryptCall -< F} := {
  gcm_block : Z;
  gcm_tag_size : Z;
  ctr : ptr -> bytes -> Z -> bytes -> bytes;
  gcm_tag : ptr -> bytes -> bytes -> bytes;
  progress : ptr -> bytes -> bytes -> bytes -> bytes -> Prop;
  gcm_block_pos : 0 < gcm_block;
  ctr_size k n o d : size (ctr k n o d) = size d;
  ctr_app k n o a b : ctr k n o (a ++ b) = ctr k n o a ++ ctr k n (o + size a) b;
  ctr_ctr k n o d : ctr k n o (ctr k n o d) = d;
  tag_size k n c : size (gcm_tag k n c) = gcm_tag_size;
  tag_length s h : fst (handle (inj (BCryptGetProperty_tag_length h)) s) = (0, gcm_tag_size);
  block_length s h : fst (handle (inj (BCryptGetProperty_block_length h)) s) = (0, gcm_block);
  progress_fresh k n : progress k n (Bcrypt.zeros gcm_tag_size) (Bcrypt.zeros gcm_block) [];
  encrypt_step s k i iv c d :
    progress k (pbNonce i) (pbMacContext i) iv c -> chain_calls i = true -> (gcm_block | size d) ->
    exists mac iv' s', let out := ctr k (pbNonce i) (size c) d in
      handle (inj (BCryptEncrypt k d i iv)) s = ((0, (out, with_mac i mac, iv')), s') /\
      progress k (pbNonce i) mac iv' (c ++ out);
  encrypt_last s k i iv c d :
    progress k (pbNonce i) (pbMacContext i) iv c -> chain_calls i = false ->
    exists mac iv' s', let out := ctr k (pbNonce i) (size c) d in
      handle (inj (BCryptEncrypt k d i iv)) s
      = ((0, (out, Bcrypt.with_tag (with_mac i mac) (gcm_tag k (pbNonce i) (c ++ out)), iv')), s');
  decrypt_step s k i iv c d :
    progress k (pbNonce i) (pbMacContext i) iv c -> chain_calls i = true -> (gcm_block | size d) ->
    exists mac iv' s',
      handle (inj (BCryptDecrypt k d i iv)) s
      = ((0, (ctr k (pbNonce i) (size c) d, with_mac i mac, iv')), s') /\
      progress k (pbNonce i) mac iv' (c ++ d);
  decrypt_last s k i iv c d :
    progress k (pbNonce i) (pbMacContext i) iv c -> chain_calls i = false ->
    exists i' iv' s',
      handle (inj (BCryptDecrypt k d i iv)) s
      = ((if bool_decide (pbTag i = gcm_tag k (pbNonce i) (c ++ d)) then 0 else STATUS_AUTH_TAG_MISMATCH,
          (ctr k (pbNonce i) (size c) d, i', iv')), s') }.

Section Gcm.
Context {F : Type -> Type} {S : Type} `{Handler F S} `{BcryptCall -< F} `{!GcmLaws F S}.
Import Bcrypt.

Lemma slice_middle a b c : slice (a ++ b ++ c) (size a) (size b) = b.
Proof. unfold slice, size. by rewrite !Nat2Z.id, drop_app_length, take_app_length. Qed.

Lemma split_block n blk : size blk = Z.of_nat (Datatypes.S n) * gcm_block ->
  exists d blk', blk = d ++ blk' /\ size d = gcm_block /\ size blk' = Z.of_nat n * gcm_block.
Proof.
  intros Hs. assert (Hpos := gcm_block_pos). exists (take (Z.to_nat gcm_block) blk), (drop (Z.to_nat gcm_block) blk).
  rewrite take_drop. unfold size in *. rewrite length_take, length_drop. split_and!; [done|lia|].
  replace (Z.of_nat (length blk - Z.to_nat gcm_block)) with (Z.of_nat (length blk) - gcm_block) by lia. lia.
Qed.
Lemma length_ctr k n o d : length (ctr k n o d) = length d.
Proof. assert (Hs := ctr_size k n o d). unfold size in Hs. lia. Qed.

(** [n] whole blocks [blk] of the input, encrypted into the buffer after [c]. *)
Lemma delivers_encrypt_blocks w rest n : forall s don blk c z i iv,
  blockLength w = gcm_block -> size blk = Z.of_nat n * gcm_block -> size blk <= size z -> size c = size don ->
  progress (hAesKey w) (pbNonce i) (pbMacContext i) iv c -> chain_calls i = true ->
  delivers (encrypt_blocks n w (don ++ blk ++ rest) (c ++ z) i iv (size don) (size don)) s
    (fun x _ => exists mac iv', let o := ctr (hAesKey w) (pbNonce i) (size don) blk in
      x = (c ++ o ++ drop (length blk) z, with_mac i mac, iv', size (don ++ blk), size (don ++ blk)) /\
      progress (hAesKey w) (pbNonce i) mac iv' (c ++ o)).
Proof.
  induction n as [|n IH]; intros s don blk c z i iv Hb Hblk Hz Hs Hp Hc; simpl.
  - assert (blk = []) as -> by (destruct blk; [done|unfold size in Hblk; simpl in Hblk; lia]).
    assert (Hn : ctr (hAesKey w) (pbNonce i) (size don) [] = []) by (apply length_zero_iff_nil, length_ctr).
    apply delivers_ret. rewrite Hn, !app_nil_r. exists (pbMacContext i), iv. split; [by destruct i|done].
  - destruct (split_block n blk Hblk) as (d & blk' & -> & Hd & Hb'). rewrite Hb. rewrite <- (app_assoc d).
    rewrite <- Hd at 1. rewrite slice_middle. rewrite size_app in Hz. apply delivers_bind.
    destruct (encrypt_step s (hAesKey w) i iv c d Hp Hc) as (mac & iv' & s' & E & Hp'); [by rewrite Hd|].
    eapply delivers_trig; [exact E|]. cbn beta iota. apply delivers_ok, delivers_bind. rewrite Hs in *.
    set (o := ctr _ _ (size don) d) in *. assert (Ho : size o = size d) by apply ctr_size.
    rewrite <- Hs. eapply delivers_lift; [apply overwrite_at; unfold size in *; lia|]. cbn beta.
    rewrite Hs, Ho. rewrite (app_assoc don d), (app_assoc c o). rewrite Hd, <- Hd, <- size_app.
    eapply delivers_mono; [apply (IH s' (don ++ d) blk' (c ++ o) (drop (length o) z) (with_mac i mac) iv')|].
    + done.
    + done.
    + unfold size in *. rewrite length_drop. lia.
    + rewrite !size_app. lia.
    + done.
    + done.
    + intros x s2 (mac2 & iv2 & -> & Hp2). cbn zeta in *. cbn [pbNonce with_mac] in *. exists mac2, iv2.
      replace (ctr _ _ (size don) (d ++ blk')) with (o ++ ctr (hAesKey w) (pbNonce i) (size (don ++ d)) blk')
        by (rewrite ctr_app, size_app; done).
      split; [|by rewrite app_assoc]. rewrite drop_drop, length_app, <- !app_assoc.
      assert (length o = length d) as -> by apply length_ctr. done.
Qed.

(** The blocks before the last one, which may be shorter. *)
Lemma split_text d : exists blk rest,
  d = blk ++ rest /\ size rest <= gcm_block /\
  size blk = Z.of_nat (Z.to_nat (round_up (size d) gcm_block / gcm_block - 1)) * gcm_block /\
  size d <= round_up (size d) gcm_block <= size d + gcm_block.
Proof.
  assert (Hpos := gcm_block_pos). unfold round_up. rewrite Z.div_mul by lia.
  set (q := (size d + gcm_block - 1) / gcm_block).
  assert (Hq : gcm_block * q <= size d + gcm_block - 1 < gcm_block * q + gcm_block).
  { unfold q. pose proof (Z.mod_pos_bound (size d + gcm_block - 1) gcm_block).
    pose proof (Z.div_mod (size d + gcm_block - 1) gcm_block). lia. }
  assert (Hd0 : 0 <= size d) by (unfold size; lia).
  exists (take (Z.to_nat ((q - 1) * gcm_block)) d), (drop (Z.to_nat ((q - 1) * gcm_block)) d).
  assert (Hq0 : 0 <= q) by (apply Z.div_pos; lia).
  rewrite take_drop. unfold size in *. rewrite length_take, length_drop.
  destruct (decide (q = 0)) as [E|E].
  - rewrite E in *. change (Z.to_nat (0 - 1)) with 0%nat. replace (Z.to_nat ((0 - 1) * gcm_block)) with 0%nat by lia.
    split_and!; [done|lia..].
  - rewrite (Z2Nat.id (q - 1)) by lia. split_and!; [done|nia..].
Qed.

(** The number of blocks fits its type below 2 GiB, and so does the offset of a block. *)
Lemma blocks_of_spec n :
  0 <= n -> n + gcm_block < 2 ^ 31 -> blocks_of n gcm_block = round_up n gcm_block / gcm_block.
Proof.
  intros Hn Hm. assert (Hpos := gcm_block_pos). unfold blocks_of, round_up. rewrite Z.div_mul by lia.
  apply s32_small. split.
  - etrans; [|apply Z.div_pos; lia]. lia.
  - apply Z.div_lt_upper_bound; [lia|]. nia.
Qed.

Definition one_shot (k : ptr) (n d : bytes) : bytes := ctr k n 0 d ++ gcm_tag k n (ctr k n 0 d).

Lemma overwrite_end a z o : size z = size o -> overwrite (a ++ z) (size a) o = Ret (a ++ o).
Proof.
  intros Hz. rewrite overwrite_at by lia. rewrite drop_ge, app_nil_r; [done|]. unfold size in Hz. lia.
Qed.
Lemma zeros_split a b : 0 <= a -> 0 <= b -> zeros (a + b) = zeros a ++ zeros b.
Proof. intros Ha Hb. unfold zeros. by rewrite Z2Nat.inj_add, replicate_add. Qed.
Lemma size_zeros n : 0 <= n -> size (zeros n) = n.
Proof. intros Hn. unfold size, zeros. rewrite length_replicate. lia. Qed.

(** The end of [Encrypt]: the last block, and the tag in place of what follows it. *)
Lemma delivers_finish a o tag z s (P : bytes -> S -> Prop) :
  size o + size tag <= size z -> size (a ++ z) <= vector_max_size -> P (a ++ o ++ tag) s ->
  delivers (result ← lift (overwrite (a ++ z) (size a) o);
            result ← lift (resize result (size a + size o + size tag));
            lift (E := F) (overwrite result (size a + size o) tag)) s P.
Proof.
  intros Hz Hm HP. apply delivers_bind. eapply delivers_lift; [apply overwrite_at; unfold size in *; lia|].
  cbn beta. apply delivers_bind. set (z' := drop (length o) z).
  assert (Hz' : size z' = size z - size o) by (unfold z', size in *; rewrite length_drop; lia).
  replace (a ++ o ++ z') with ((a ++ o ++ take (length tag) z') ++ drop (length tag) z')
    by (by rewrite <- !app_assoc, take_drop).
  assert (Htk : size (take (length tag) z') = size tag) by (unfold size in *; rewrite length_take; lia).
  replace (size a + size o + size tag) with (size (a ++ o ++ take (length tag) z')) by (rewrite !size_app; lia).
  eapply delivers_lift.
  { apply resize_shrink. rewrite <- !app_assoc, take_drop, !size_app in *. lia. }
  cbn beta. replace (size a + size o) with (size (a ++ o)) by apply size_app. rewrite app_assoc.
  eapply delivers_lift; [by apply overwrite_end|]. by rewrite <- app_assoc.
Qed.

(** A chain that has not begun. *)
Definition fresh (w : GcmWrapper) (c : GcmChainingInfo) : Prop :=
  blockLength w = gcm_block /\ size (pbTag (authInfo c)) = gcm_tag_size /\ chain_calls (authInfo c) = true /\
  progress (hAesKey w) (pbNonce (authInfo c)) (pbMacContext (authInfo c)) (initVector c) [].

Lemma ctr_nil k n o : ctr k n o [] = [].
Proof. apply length_zero_iff_nil, length_ctr. Qed.
Lemma divide_nil : (gcm_block | size []).
Proof. exists 0. done. Qed.

Lemma delivers_Encrypt w d c s :
  fresh w c -> size d + gcm_block + gcm_tag_size < 2 ^ 31 ->
  delivers (Encrypt w d c) s (fun r _ => r = one_shot (hAesKey w) (pbNonce (authInfo c)) d).
Proof.
  intros (Hb & Ht & Hc & Hp) Hmax. assert (Hpos := gcm_block_pos). unfold Encrypt. rewrite Hb.
  rewrite (proj2 (Z.eqb_neq gcm_block 0)) by lia. set (i := authInfo c) in *. set (k := hAesKey w) in *.
  destruct (split_text d) as (blk & rest & Hd & Hr & Hblk & Hup). set (p := round_up (size d) gcm_block) in *.
  assert (Htag : 0 <= gcm_tag_size) by (rewrite <- Ht; unfold size; lia).
  assert (Hs : size d = size blk + size rest) by (by rewrite Hd, size_app).
  rewrite blocks_of_spec by (unfold size in *; lia). fold p. rewrite Ht. apply delivers_bind.
  eapply delivers_lift; [apply vector_of_size_ok; unfold vector_max_size, size in *; lia|]. cbn beta.
  apply delivers_bind.
  destruct (encrypt_step s k i (initVector c) [] [] Hp Hc divide_nil) as (mac & iv & s1 & E & Hp1).
  eapply delivers_trig; [exact E|]. cbn beta iota. rewrite ctr_nil in Hp1. apply delivers_ok, delivers_bind.
  eapply delivers_mono.
  { rewrite Hd at 1.
    apply (delivers_encrypt_blocks w rest (Z.to_nat (p / gcm_block - 1)) s1 [] blk [] (zeros (p + gcm_tag_size))
             (with_mac i mac) iv); try done.
    rewrite size_zeros by (unfold size in *; lia). unfold size in *. lia. }
  intros x s2 (mac2 & iv2 & -> & Hp2). cbn beta iota zeta in *. cbn [app pbNonce with_mac] in *.
  change (size []) with 0 in *. apply delivers_bind.
  replace (slice d (size blk) (size d - size blk)) with rest.
  2: { rewrite Hd, size_app. replace (size blk + size rest - size blk) with (size rest) by lia.
       rewrite <- (app_nil_r rest) at 2. symmetry. apply slice_middle. }
  destruct (encrypt_last s2 k (last_call (with_mac (with_mac i mac) mac2)) iv2 (ctr k (pbNonce i) 0 blk) rest Hp2 eq_refl)
    as (mac3 & iv3 & s3 & E3).
  eapply delivers_trig; [exact E3|]. cbn beta iota. apply delivers_ok.
  cbn [pbNonce pbTag with_mac with_tag last_call]. rewrite ctr_size.
  replace (ctr k (pbNonce i) 0 blk ++ ctr k (pbNonce i) (size blk) rest) with (ctr k (pbNonce i) 0 d)
    by (by rewrite Hd, ctr_app).
  fold k. set (a := ctr k (pbNonce i) 0 blk) in *. assert (Ha : size a = size blk) by apply ctr_size.
  rewrite Ha. set (o := ctr k (pbNonce i) (size blk) rest) in *. assert (Ho : size o = size rest) by apply ctr_size.
  assert (Hcd : a ++ o = ctr k (pbNonce i) 0 d) by (unfold a, o; by rewrite Hd, ctr_app).
  rewrite Hcd. set (tag := gcm_tag k (pbNonce i) (ctr k (pbNonce i) 0 d)).
  assert (Hst : size tag = gcm_tag_size) by apply tag_size.
  assert (Hz : size (drop (length blk) (zeros (p + gcm_tag_size))) = p + gcm_tag_size - size blk).
  { unfold size. rewrite length_drop. pose proof (size_zeros (p + gcm_tag_size)). unfold size in *. lia. }
  rewrite <- Ha, <- Ho. apply delivers_finish; [lia| |].
  - rewrite size_app. unfold vector_max_size. lia.
  - by rewrite app_assoc, Hcd.
Qed.

(** [n] whole blocks [blk] of the ciphertext, decrypted into the buffer after [p]. *)
Lemma delivers_decrypt_blocks w rest n : forall j s don blk p z i iv,
  size don + size blk < 2 ^ 32 ->
  blockLength w = gcm_block -> size don = Z.of_nat j * gcm_block -> size blk = Z.of_nat n * gcm_block ->
  size blk <= size z -> size p = size don ->
  progress (hAesKey w) (pbNonce i) (pbMacContext i) iv don -> chain_calls i = true ->
  delivers (decrypt_blocks n j w (don ++ blk ++ rest) (p ++ z) i iv (size don) (size don)) s
    (fun x _ => exists mac iv',
      x = (p ++ ctr (hAesKey w) (pbNonce i) (size don) blk ++ drop (length blk) z, with_mac i mac, iv',
           size (don ++ blk), size (don ++ blk)) /\
      progress (hAesKey w) (pbNonce i) mac iv' (don ++ blk)).
Proof.
  induction n as [|n IH]; intros j s don blk p z i iv H32 Hb Hj Hblk Hz Hs Hp Hc; simpl.
  - assert (blk = []) as -> by (destruct blk; [done|unfold size in Hblk; simpl in Hblk; lia]).
    apply delivers_ret. rewrite ctr_nil, !app_nil_r. exists (pbMacContext i), iv. split; [by destruct i|done].
  - destruct (split_block n blk Hblk) as (d & blk' & -> & Hd & Hb'). rewrite Hb. rewrite <- (app_assoc d).
    rewrite size_app in Hz, H32. assert (Ho32 : u32 (Z.of_nat j * gcm_block) = size don).
    { rewrite Hj. apply Z.mod_small. rewrite <- Hj. unfold size in *. lia. }
    rewrite Ho32. rewrite <- Hd at 1. rewrite slice_middle. apply delivers_bind.
    destruct (decrypt_step s (hAesKey w) i iv don d Hp Hc) as (mac & iv' & s' & E & Hp'); [by rewrite Hd|].
    eapply delivers_trig; [exact E|]. cbn beta iota. apply delivers_ok, delivers_bind.
    set (o := ctr _ _ (size don) d) in *. assert (Ho : size o = size d) by apply ctr_size.
    rewrite <- Hs. eapply delivers_lift; [apply overwrite_at; unfold size in *; lia|]. cbn beta.
    rewrite Hs, Ho. rewrite (app_assoc don d), (app_assoc p o). rewrite <- Hd, <- size_app.
    eapply delivers_mono; [apply (IH (Datatypes.S j) s' (don ++ d) blk' (p ++ o) (drop (length o) z) (with_mac i mac) iv')|];
      try done.
    + rewrite size_app. lia.
    + rewrite size_app, Hj, Hd. lia.
    + unfold size in *. rewrite length_drop. lia.
    + rewrite !size_app. lia.
    + intros x s2 (mac2 & iv2 & -> & Hp2). cbn [pbNonce with_mac] in *. exists mac2, iv2.
      rewrite (ctr_app _ _ _ d), <- size_app. fold o. split; [|by rewrite app_assoc].
      rewrite drop_drop, length_app, <- !app_assoc.
      assert (length o = length d) as -> by apply length_ctr. done.
Qed.

(** The tag decides; the text is returned only after it. *)
Lemma decrypt_result w ct tag c s :
  fresh w c -> dwMaxLength w = gcm_tag_size -> size tag = gcm_tag_size -> size ct + gcm_block < 2 ^ 31 ->
  let k := hAesKey w in let n := pbNonce (authInfo c) in
  res (Decrypt w (ct ++ tag) c s) =
    if bool_decide (tag = gcm_tag k n ct) then Ret (ctr k n 0 ct)
    else Throw (BcryptErr STATUS_AUTH_TAG_MISMATCH (str "BCryptDecrypt failed")
                  (error_code CryptographyError_AES_decryptError)).
Proof.
  intros (Hb & Ht & Hc & Hp) Hw Htag Hmax k n. assert (Hpos := gcm_block_pos). unfold Decrypt. rewrite Hb, Hw.
  rewrite size_app, Htag. replace (size ct + gcm_tag_size - gcm_tag_size) with (size ct) by lia.
  apply delivers_after. eapply delivers_lift.
  { apply vector_of_size_ok. unfold vector_max_size, size in *. lia. }
  cbn beta. rewrite blocks_of_spec by (unfold size in *; lia).
  rewrite (proj2 (Z.eqb_neq gcm_block 0)) by lia. set (i := authInfo c) in *. fold k n.
  destruct (split_text ct) as (blk & rest & Hd & Hr & Hblk & Hup & _).
  set (q := round_up (size ct) gcm_block / gcm_block) in *.
  assert (Hs : size ct = size blk + size rest) by (by rewrite Hd, size_app). apply delivers_after.
  destruct (decrypt_step s k i (initVector c) [] [] Hp Hc divide_nil) as (mac & iv & s1 & E & Hp1).
  eapply delivers_trig; [exact E|]. cbn beta iota. apply delivers_after, delivers_require; [done|].
  apply delivers_after. eapply delivers_mono.
  { rewrite Hd at 1. rewrite <- app_assoc.
    apply (delivers_decrypt_blocks w (rest ++ tag) (Z.to_nat (q - 1)) 0 s1 [] blk [] (zeros (size ct))
             (with_mac i mac) iv); try done.
    all: rewrite ?size_zeros; unfold size in *; simpl; lia. }
  intros x s2 (mac2 & iv2 & -> & Hp2). cbn beta iota in *. cbn [app pbNonce with_mac] in *.
  change (size []) with 0 in *.
  replace (slice (ct ++ tag) (size blk) (size ct - size blk)) with rest.
  2: { rewrite Hd, <- app_assoc, size_app. replace (size blk + size rest - size blk) with (size rest) by lia.
       symmetry. apply slice_middle. }
  replace (slice (ct ++ tag) (size ct) gcm_tag_size) with tag by (rewrite <- Htag; symmetry; by apply slice_app_r).
  apply delivers_after.
  set (last := with_tag (last_call (with_mac (with_mac i mac) mac2)) tag).
  destruct (decrypt_last s2 k last iv2 blk rest Hp2 eq_refl) as (i3 & iv3 & s3 & E3).
  eapply delivers_trig; [exact E3|]. cbn beta iota. cbn [pbTag pbNonce last with_tag].
  change (pbNonce (last_call (with_mac (with_mac i mac) mac2))) with n. rewrite <- Hd. destruct (bool_decide (tag = gcm_tag k n ct)); [|done].
  apply delivers_after, delivers_require; [done|]. fold k n.
  set (p := ctr k n 0 blk). assert (size p = size blk) as <- by apply ctr_size.
  replace (res _) with (overwrite (p ++ drop (length blk) (zeros (size ct))) (size p) (ctr k n (size p) rest)) by done.
  rewrite overwrite_end.
  - unfold p. rewrite ctr_size. by rewrite Hd, ctr_app.
  - rewrite ctr_size. unfold size in *. rewrite length_drop.
    pose proof (size_zeros (Z.of_nat (length ct))). unfold size in *. lia.
Qed.

Lemma tag_size_nonneg : 0 <= gcm_tag_size.
Proof. rewrite <- (tag_size null [] []). unfold size. lia. Qed.
Lemma delivers_SetChainingInfo w n s :
  blockLength w = gcm_block ->
  delivers (SetChainingInfo w n) s (fun c _ => fresh w c /\ pbNonce (authInfo c) = n).
Proof.
  intros Hb. unfold SetChainingInfo, new_GcmChainingInfo. apply delivers_bind, delivers_bind.
  eapply delivers_answer; [apply tag_length|]. intros s1. cbn beta iota.
  apply delivers_bind, delivers_require; [done|]. apply delivers_bind.
  eapply delivers_answer; [apply block_length|]. intros s2. cbn beta iota.
  apply delivers_bind, delivers_require; [done|]. apply delivers_ret, delivers_ret. split; [|done].
  split_and!; [done| |done|apply progress_fresh]. cbn. apply size_zeros, tag_size_nonneg.
Qed.

(** C16: Feeding AES-GCM block by block changes nothing. On a bcrypt that keeps a chain of calls as
    documented, [Encrypt] returns the one-shot ciphertext with its tag appended, for a text of any
    length below 2 GiB, partial and empty last blocks included; [Decrypt] returns the text exactly when the
    tag is the ciphertext's, throws [STATUS_AUTH_TAG_MISMATCH] otherwise, and so inverts
    [Encrypt]; a ciphertext shorter than a tag throws [std::length_error]. *)
Theorem win_gcm_one_shot w n d ct tag e s :
  let k := hAesKey w in
  blockLength w = gcm_block -> dwMaxLength w = gcm_tag_size -> size tag = gcm_tag_size ->
  size d + gcm_block + gcm_tag_size < 2 ^ 31 -> size ct + gcm_block < 2 ^ 31 -> size e < gcm_tag_size ->
  res ((c ← SetChainingInfo w n; Encrypt w d c) s) = Ret (one_shot k n d) /\
  res ((c ← SetChainingInfo w n; Decrypt w (ct ++ tag) c) s) =
    (if bool_decide (tag = gcm_tag k n ct) then Ret (ctr k n 0 ct)
     else Throw (BcryptErr STATUS_AUTH_TAG_MISMATCH (str "BCryptDecrypt failed")
                   (error_code CryptographyError_AES_decryptError))) /\
  res ((c ← SetChainingInfo w n; Decrypt w (one_shot k n d) c) s) = Ret d /\
  res ((c ← SetChainingInfo w n; Decrypt w e c) s) = Throw (LengthError (str "vector too long")).
Proof.
  intros k Hb Hw Ht Hd Hct He. assert (Hc := delivers_SetChainingInfo w n s Hb). assert (Hpos := gcm_block_pos).
  assert (Ht0 := tag_size_nonneg).
  split_and!; apply delivers_after; (eapply delivers_mono; [exact Hc|]); intros c s1 [Hf <-]; cbn beta.
  - destruct (delivers_res _ _ _ (delivers_Encrypt w d c s1 Hf Hd)) as (r & Hr & _ & ->). exact Hr.
  - by apply decrypt_result.
  - unfold one_shot. rewrite decrypt_result; [|done|done|apply tag_size|rewrite ctr_size; lia].
    rewrite bool_decide_eq_true_2 by done. by rewrite ctr_ctr.
  - unfold Decrypt. rewrite Hw. unfold vector_of_size. set (x := size e - gcm_tag_size).
    assert (Hx : u64 x = x + 2 ^ 64).
    { unfold u64, x, size, vector_max_size in *. symmetry. apply (Z.mod_unique_pos _ _ (-1)); lia. }
    rewrite Hx, (proj2 (Z.ltb_lt _ _)); [done|]. unfold x, size, vector_max_size in *. lia.
Qed.
End Gcm.

(** ** A bcrypt: a toy HMAC, and GCM with the identity as key stream *)

Definition toy_hmac (k d : bytes) : bytes := take 32 (d ++ k ++ replicate 32 x2a).
Definition toy_tag (c : bytes) : bytes := take 16 (c ++ replicate 16 x00).
Definition toy_step (d : bytes) (i : AuthInfo) : bytes * AuthInfo * bytes :=
  (d, with_mac i (pbMacContext i ++ d), []).
(** The data of the hash object 1; the MAC context is the ciphertext so far after 16 bytes. *)
#[export] Instance toy_bcrypt : Handler BcryptCall (option (bytes * bytes)) := fun R e s =>
  match e in BcryptCall T return T * option (bytes * bytes) with
  | BCryptOpenAlgorithmProvider _ _ => ((0, 1%N), s)
  | BCryptCloseAlgorithmProvider _ | BCryptSetProperty_GCM _ | BCryptDeriveKey_size _
  | BCryptDestroyHash _ => (0, s)
  | BCryptGetProperty_tag_length _ | BCryptGetProperty_block_length _ => ((0, 16), s)
  | BCryptGetProperty_object_length _ => ((0, 0), s)
  | BCryptGenerateSymmetricKey _ _ _ => ((0, 1%N), s)
  | BCryptEncrypt _ d i _ =>
      let c := drop 16 (pbMacContext i) ++ d in
      let '(o, i', iv) := toy_step d i in
      ((0, (o, if chain_calls i then i' else Bcrypt.with_tag i' (toy_tag c), iv)), s)
  | BCryptDecrypt _ d i _ =>
      let c := drop 16 (pbMacContext i) ++ d in
      ((if chain_calls i then 0
        else if bool_decide (pbTag i = toy_tag c) then 0 else STATUS_AUTH_TAG_MISMATCH, toy_step d i), s)
  | BCryptDeriveKey _ _ => ((0, toy_hmac [] (str "secret")), s)
  | BCryptHash _ k d _ => ((0, toy_hmac k d), s)
  | BCryptCreateHash _ k => ((0, 1%N), Some (k, []))
  | BCryptHashData _ x => match s with Some (k, d) => (0, Some (k, d ++ x)) | None => (1, s) end
  | BCryptFinishHash _ _ => match s with Some (k, d) => ((0, toy_hmac k d), None) | None => ((1, []), s) end
  end.
Lemma toy_size n l k : size (take n (l ++ replicate n k)) = Z.of_nat n.
Proof. unfold size. rewrite length_take, length_app, length_replicate. lia. Qed.
#[refine, export]
Instance toy_hmac_laws : HmacLaws BcryptCall (option (bytes * bytes)) :=
  {| hmac := toy_hmac; kdf _ := toy_hmac [] (str "secret"); acc s _ := s |}.
Proof.
  2-7: intros; simpl in *; subst; eauto.
  - intros k d. unfold toy_hmac. rewrite app_assoc. apply (toy_size 32).
  - done.
Defined.
Lemma toy_grows (mac c d : bytes) : drop 16 mac = c /\ (16 <= length mac)%nat ->
  drop 16 (mac ++ d) = c ++ d /\ (16 <= length (mac ++ d))%nat.
Proof. intros [Hm Hl]. rewrite length_app, drop_app_le, Hm by lia. split; [done|lia]. Qed.
#[refine, export]
Instance toy_gcm_laws : GcmLaws BcryptCall (option (bytes * bytes)) :=
  {| gcm_block := 16; gcm_tag_size := 16; ctr _ _ _ d := d; gcm_tag _ _ c := toy_tag c;
     progress _ _ mac _ c := drop 16 mac = c /\ (16 <= length mac)%nat |}.
Proof.
  1-4,6-8: done.
  - intros k n c. apply (toy_size 16).
  - intros s k i iv c d Hp Hc _. exists (pbMacContext i ++ d), [], s. unfold handle; simpl. rewrite Hc.
    split; [done|by apply toy_grows].
  - intros s k i iv c d [Hm Hl] Hc. exists (pbMacContext i ++ d), [], s. unfold handle; simpl. by rewrite Hc, Hm.
  - intros s k i iv c d Hp Hc _. exists (pbMacContext i ++ d), [], s. unfold handle; simpl. rewrite Hc.
    split; [done|by apply toy_grows].
  - intros s k i iv c d [Hm Hl] Hc. exists (with_mac i (pbMacContext i ++ d)), [], s. unfold handle; simpl.
    by rewrite Hc, Hm.
Defined.

Theorem hkdf_rfc5869_witness :
  let k := Bcrypt.Build_BcryptHKDF 1%N 1%N in
  res (Bcrypt.DeriveKey (F := BcryptCall) (S := option (bytes * bytes)) k [x01] [x02] 40 None) = Ret (rfc_hkdf toy_hmac [x01] (toy_hmac [] (str "secret")) [x02] 40) /\
  size (rfc_hkdf toy_hmac [x01] (toy_hmac [] (str "secret")) [x02] 40) = 40.
Proof.
  split; [|vm_eq]. assert (HL : 0 <= 40 <= 255 * 32) by (split; discriminate).
  exact (hkdf_rfc5869 (F := BcryptCall) (Bcrypt.Build_BcryptHKDF 1%N 1%N) [x01] [x02] 40 None HL).
Defined.

Definition toy_wrapper : Bcrypt.GcmWrapper := Bcrypt.Build_GcmWrapper 1%N 1%N 16 0 16.
Definition toy_text : bytes := replicate 40 x07.
Theorem win_gcm_one_shot_witness :
  res ((c ← Bcrypt.SetChainingInfo toy_wrapper [x01]; Bcrypt.Encrypt toy_wrapper toy_text c) None)
    = Ret (toy_text ++ replicate 16 x07) /\
  res ((c ← Bcrypt.SetChainingInfo toy_wrapper [x01]; Bcrypt.Decrypt toy_wrapper (toy_text ++ replicate 16 x08) c) None)
    = Throw (BcryptErr STATUS_AUTH_TAG_MISMATCH (str "BCryptDecrypt failed")
               (error_code CryptographyError_AES_decryptError)) /\
  res ((c ← Bcrypt.SetChainingInfo toy_wrapper [x01]; Bcrypt.Decrypt toy_wrapper [] c) None)
    = Throw (LengthError (str "vector too long")).
Proof.
  assert (Hd : size toy_text + 16 + 16 < 2 ^ 31) by done.
  assert (Hc : size toy_text + 16 < 2 ^ 31) by done.
  destruct (win_gcm_one_shot (S := option (bytes * bytes)) (GcmLaws0 := toy_gcm_laws) toy_wrapper [x01] toy_text
              toy_text (replicate 16 x08) [] None eq_refl eq_refl eq_refl Hd Hc eq_refl) as (He & Hm & _ & Hl).
  split; [exact He|]. split; [exact Hm|exact Hl].
Defined.
