(* ===== verification/WinCrypt.v ===== *)
(** * The Windows key agreement and certificates of azure-protected-vm-secrets

    Windows/BcryptECDiffieHellman.cpp ([WinEcdh]) and Windows/WincryptX509.cpp ([WinX509]).
    [CryptCall] lists the calls beyond those of Bcrypt.v: a [BOOL] with its out-parameters is an
    option. The structures of a decoded object are the byte strings the program takes from them. *)

From S2P Require Import Prelude Base64 ReturnCodes Ossl Bcrypt.
#[local] Open Scope Z_scope.

(** An element of a chain, and the chains of a context; a pointer in them may be null. *)
Record chain_element := { pCertContext : ptr; dwErrorStatus : Z }.
Definition chain_context : Type := list (option (list (option chain_element))).

Inductive CryptCall : Type -> Type :=
| GetLastError : CryptCall Z
(* the key of a PKCS#8 structure, the private and public key of an EC key, and a public key *)
| CryptDecode_PrivateKeyInfo (der : bytes) : CryptCall (option bytes)
| CryptDecode_EccPrivateKey (der : bytes) : CryptCall (option (bytes * bytes))
| CryptDecode_PublicKeyInfo (der : bytes) : CryptCall (option bytes)
(* without an output buffer: the size *)
| CryptEncode_EccParameters_size (params : bytes) : CryptCall (option Z)
| CryptEncode_EccParameters (params : bytes) (room : Z) : CryptCall (option bytes)
| CryptEncode_EccPrivateKey_size (private public : bytes) : CryptCall (option Z)
| CryptEncode_EccPrivateKey (private public : bytes) (room : Z) : CryptCall (option bytes)
| CryptEncode_PrivateKeyInfo (oid params key : bytes) : CryptCall (option bytes)
| CryptEncode_PublicKeyInfo (oid params key : bytes) : CryptCall (option bytes)
| BCryptGenerateKeyPair (alg : ptr) (bits : Z) : CryptCall (Z * ptr)
| BCryptFinalizeKeyPair (key : ptr) : CryptCall Z
| BCryptImportKeyPair (alg : ptr) (private : bool) (blob : bytes) : CryptCall (Z * ptr)
| BCryptExportKey_size (key : ptr) (private : bool) : CryptCall (Z * Z)
| BCryptExportKey (key : ptr) (private : bool) (room : Z) : CryptCall (Z * bytes)
| BCryptGetProperty_ecc_size (key : ptr) : CryptCall (Z * Z)
| BCryptGetProperty_ecc (key : ptr) (room : Z) : CryptCall (Z * bytes)
| BCryptSecretAgreement (private public : ptr) : CryptCall (Z * ptr)
| CertOpenStore_memory : CryptCall ptr
| CertCreateCertificateContext (der : bytes) : CryptCall ptr
| CertAddCertificateContextToStore (store cert : ptr) : CryptCall bool
| CertGetCertificateChain (leaf store : ptr) (flags : Z) : CryptCall (option chain_context)
(* the error of the policy status *)
| CertVerifyCertificateChainPolicy_base (chain : chain_context) (flags : Z) : CryptCall (option Z)
(* the subject and the issuer of one certificate *)
| CertCompareCertificateName (cert : ptr) : CryptCall bool
| dwCertEncodingType (cert : ptr) : CryptCall Z
| CertComparePublicKeyInfo (a b : ptr) : CryptCall bool
| CertCompareCertificate (a b : ptr) : CryptCall bool
| CertNameToStr_size (cert : ptr) : CryptCall Z
| CertNameToStr (cert : ptr) (room : Z) : CryptCall bytes
| CryptImportPublicKeyInfo (cert : ptr) : CryptCall (option ptr)
| BCryptVerifySignature (key : ptr) (hash signature : bytes) : CryptCall Z
| BCryptSignHash_size (key : ptr) (hash : bytes) : CryptCall (Z * Z)
| BCryptSignHash (key : ptr) (hash : bytes) (room : Z) : CryptCall (Z * bytes)
| BCryptDestroyKey (key : ptr) : CryptCall Z
| BCryptDestroySecret (secret : ptr) : CryptCall Z.

Section Errors.
Context {F : Type -> Type} {S : Type} `{Handler F S} `{CryptCall -< F}.

(** [if (!call) throw WinCryptError(w, GetLastError(), code);] *)
Definition wincrypt_error {A} (w : string) (code : ErrorCode) : M F S A :=
  e ← trig GetLastError; throw (WinCryptErr (str w) e (error_code code)).
Definition checked {A} (r : option A) (w : string) (code : ErrorCode) : M F S A :=
  match r with Some a => mret a | None => wincrypt_error w code end.
Definition status_ok (status : Z) (w : bytes) (code : ErrorCode) : M F S unit :=
  require (status =? 0) (BcryptErr status w (error_code code)).
End Errors.

(** ** Elliptic-curve Diffie-Hellman *)

Module WinEcdh.
Record BcryptECDiffieHellman := { hEccKeyHandle : ptr; hSharedSecret : ptr; hEcHandle : ptr }.

Definition EC_UNCOMPRESSED_BLOB : byte := x04.
Definition EC_UNKNOWN_ASN_BYTE : byte := x06.
Definition EC_UNKNOWN_ASN_BYTE2 : byte := x07.
Definition EC_PUBLIC_NUM_COMPONENTS : Z := 2.
Definition EC_PRIVATE_NUM_COMPONENTS : Z := 3.
(** bcrypt.h: the magic numbers, and [sizeof(BCRYPT_ECCKEY_BLOB)] *)
Definition BCRYPT_ECDH_PUBLIC_P256_MAGIC : Z := 0x314B4345.
Definition BCRYPT_ECDH_PRIVATE_P256_MAGIC : Z := 0x324B4345.
Definition header_size : Z := 8.
Definition szOID_ECC_PUBLIC_KEY : bytes := str "1.2.840.10045.2.1".

Definition known_form (b : byte) : bool :=
  bool_decide (b = EC_UNCOMPRESSED_BLOB \/ b = EC_UNKNOWN_ASN_BYTE \/ b = EC_UNKNOWN_ASN_BYTE2).
(** The bytes of a coordinate: [(cbData - 1) / EC_PUBLIC_NUM_COMPONENTS], 0 without a public key *)
Definition coordinate (public : bytes) : Z :=
  match public with [] => 0 | _ => (size public - 1) / EC_PUBLIC_NUM_COMPONENTS end.

(** [malloc], [ZeroMemory] and the two fields of the header *)
Definition new_blob (magic cbKey components : Z) : outcome bytes :=
  overwrite (replicate (Z.to_nat (u32 (header_size + components * cbKey))) x00) 0 (u32_bytes magic ++ u32_bytes cbKey).
(** The public key into the blob: the coordinates fill their places, or go to their ends. *)
Definition copy_public (blob public : bytes) (cbKey cbPubKey : Z) : outcome bytes :=
  if 0 <? cbPubKey then
    if cbKey =? cbPubKey then
      xy ← read_bytes public 1 (u32 (EC_PUBLIC_NUM_COMPONENTS * cbKey)); overwrite blob header_size xy
    else
      let off := u32 (cbKey - cbPubKey) in
      x ← read_bytes public 1 cbPubKey;
      blob ← overwrite blob (header_size + off) x;
      y ← read_bytes public (1 + cbPubKey) cbPubKey;
      overwrite blob (header_size + cbKey + off) y
  else Ret blob.
(** The sizes at the end: the one allocated, and the one of the header. *)
Definition right_size (cbKey components : Z) : bool :=
  u32 (header_size + components * cbKey) =? header_size + u32 (cbKey * components).

Section Ops.
Context {F : Type -> Type} {S : Type} `{Handler F S} `{BcryptCall -< F} `{CryptCall -< F}.

Definition new_BcryptECDiffieHellman : M F S BcryptECDiffieHellman :=
  '(st, h) ← trig (BCryptOpenAlgorithmProvider (str "ECDH_P256") false);
  _ ← status_ok st (str "BCryptOpenAlgorithmProvider failed." ++ [x0a]) LibraryError_Bcrypt_providerError;
  mret {| hEccKeyHandle := null; hSharedSecret := null; hEcHandle := h |}.

Definition with_key (d : BcryptECDiffieHellman) (key : ptr) : BcryptECDiffieHellman :=
  {| hEccKeyHandle := key; hSharedSecret := hSharedSecret d; hEcHandle := hEcHandle d |}.
Definition GenerateKeyPair (d : BcryptECDiffieHellman) : M F S BcryptECDiffieHellman :=
  '(st, key) ← trig (BCryptGenerateKeyPair (hEcHandle d) 256);
  _ ← status_ok st (str "BCryptGenerateKeyPair failed." ++ [x0a]) CryptographyError_ECC_keyError;
  st ← trig (BCryptFinalizeKeyPair key);
  _ ← status_ok st (str "BCryptFinalizeKeyPair failed." ++ [x0a]) CryptographyError_ECC_keyError;
  mret (with_key d key).

Definition invalid_blob (code : ErrorCode) : exn := WinCryptErr (str "Invalid key blob") 0 (error_code code).
(** Filling the blob of a private key; that a coordinate is longer than the key is only logged. *)
Definition private_blob (private public : bytes) : outcome bytes :=
  cbPubKey ← match public with
             | [] => Ret 0
             | b :: _ => if known_form b then Ret (coordinate public)
                         else Throw (WinCryptErr (str "Error with public key info") 0
                                       (error_code ParsingError_Asn1_x509PrivKeyError))
             end;
  let cbKey := size private in
  blob ← new_blob BCRYPT_ECDH_PRIVATE_P256_MAGIC cbKey EC_PRIVATE_NUM_COMPONENTS;
  blob ← copy_public blob public cbKey cbPubKey;
  blob ← overwrite blob (header_size + u32 (EC_PUBLIC_NUM_COMPONENTS * cbKey)) private;
  if right_size cbKey EC_PRIVATE_NUM_COMPONENTS then Ret blob
  else Throw (invalid_blob ParsingError_Asn1_x509PrivKeyError).
Definition ImportPkcs8PrivateKey (d : BcryptECDiffieHellman) (derPrivateKey : bytes) : M F S BcryptECDiffieHellman :=
  r ← trig (CryptDecode_PrivateKeyInfo derPrivateKey);
  privateKeyInfo ← checked r "CryptDecodeObjectEx 1 failed." ParsingError_Asn1_x509PrivKeyError;
  r ← trig (CryptDecode_EccPrivateKey privateKeyInfo);
  '(private, public) ← checked r "CryptDecodeObjectEx 2 failed." ParsingError_Asn1_x509PrivKeyError;
  blob ← lift (private_blob private public);
  '(st, key) ← trig (BCryptImportKeyPair (hEcHandle d) true blob);
  _ ← status_ok st (str "BCryptImportKeyPair 1 failed." ++ [x0a]) LibraryError_Bcrypt_keyError;
  mret (with_key d key).

(** A first byte that is not known is only logged. *)
Definition public_blob (public : bytes) : outcome bytes :=
  let cbKey := coordinate public in
  blob ← new_blob BCRYPT_ECDH_PUBLIC_P256_MAGIC cbKey EC_PUBLIC_NUM_COMPONENTS;
  blob ← copy_public blob public cbKey cbKey;
  if right_size cbKey EC_PUBLIC_NUM_COMPONENTS then Ret blob
  else Throw (invalid_blob ParsingError_Asn1_x509PubKeyError).
Definition ImportSubjectPublicKeyInfo (d : BcryptECDiffieHellman) (derPublicKey : bytes) : M F S BcryptECDiffieHellman :=
  r ← trig (CryptDecode_PublicKeyInfo derPublicKey);
  public ← checked r "CryptDecodeObjectEx 1 failed." ParsingError_Asn1_x509PubKeyError;
  blob ← lift (public_blob public);
  '(st, key) ← trig (BCryptImportKeyPair (hEcHandle d) false blob);
  _ ← status_ok st (str "BCryptImportKeyPair 1 failed." ++ [x0a]) LibraryError_Bcrypt_keyError;
  mret (with_key d key).

(** The blob of the key, and the parameters of its curve. *)
Definition export_blob (d : BcryptECDiffieHellman) (private : bool) : M F S bytes :=
  '(st, room) ← trig (BCryptExportKey_size (hEccKeyHandle d) private);
  _ ← status_ok st (str "BCryptExportKey - Get Size - failed." ++ [x0a]) LibraryError_Bcrypt_keyError;
  '(st, blob) ← trig (BCryptExportKey (hEccKeyHandle d) private room);
  _ ← status_ok st (str "BCryptExportKey - Export Key - failed." ++ [x0a]) LibraryError_Bcrypt_keyError;
  mret blob.
Definition curve_parameters (d : BcryptECDiffieHellman) : M F S bytes :=
  '(st, room) ← trig (BCryptGetProperty_ecc_size (hEccKeyHandle d));
  _ ← status_ok st (str "BCryptGetProperty Size failed." ++ [x0a]) LibraryError_Bcrypt_propertyError;
  '(st, params) ← trig (BCryptGetProperty_ecc (hEccKeyHandle d) room);
  _ ← status_ok st (str "BCryptGetProperty Value failed." ++ [x0a]) LibraryError_Bcrypt_propertyError;
  mret params.

Definition ExportPkcs8PrivateKey (d : BcryptECDiffieHellman) : M F S bytes :=
  let code := ParsingError_Asn1_x509PrivKeyError in
  blob ← export_blob d true;
  params ← curve_parameters d;
  r ← trig (CryptEncode_EccParameters_size params);
  cbCurveInfo ← checked r "CryptEncodeObject 1 failed." code;
  cbKey ← lift (read_u32 blob 4);
  private ← lift (read_bytes blob (header_size + u32 (EC_PUBLIC_NUM_COMPONENTS * cbKey)) cbKey);
  x ← lift (read_bytes blob header_size cbKey);
  y ← lift (read_bytes blob (header_size + cbKey) cbKey);
  let public := EC_UNCOMPRESSED_BLOB :: x ++ y in
  r ← trig (CryptEncode_EccPrivateKey_size private public);
  cbEncodedKey ← checked r "CryptEncodeObjectEx 1 failed." code;
  r ← trig (CryptEncode_EccPrivateKey private public cbEncodedKey);
  encodedKey ← checked r "CryptEncodeObjectEx 3 failed." code;
  r ← trig (CryptEncode_EccParameters params cbCurveInfo);
  curveInfo ← checked r "CryptEncodeObjectEx 4 failed." code;
  r ← trig (CryptEncode_PrivateKeyInfo szOID_ECC_PUBLIC_KEY curveInfo encodedKey);
  checked r "CryptEncodeObjectEx 5 failed." code.

Definition ExportSubjectPublicKeyInfo (d : BcryptECDiffieHellman) : M F S bytes :=
  let code := ParsingError_Asn1_x509PubKeyError in
  blob ← export_blob d false;
  params ← curve_parameters d;
  r ← trig (CryptEncode_EccParameters_size params);
  cbCurveInfo ← checked r "CryptEncodeObject 1 failed." code;
  cbKey ← lift (read_u32 blob 4);
  xy ← lift (read_bytes blob header_size (u32 (cbKey * EC_PUBLIC_NUM_COMPONENTS)));
  r ← trig (CryptEncode_EccParameters params cbCurveInfo);
  curveInfo ← checked r "CryptEncodeObject 2 failed." code;
  r ← trig (CryptEncode_PublicKeyInfo szOID_ECC_PUBLIC_KEY curveInfo (EC_UNCOMPRESSED_BLOB :: xy));
  checked r "CryptEncodeObjectEx 1 failed." code.

Definition DeriveSecret (d otherParty : BcryptECDiffieHellman) : M F S (ptr * BcryptECDiffieHellman) :=
  '(st, secret) ← trig (BCryptSecretAgreement (hEccKeyHandle d) (hEccKeyHandle otherParty));
  _ ← status_ok st (str "BCryptSecretAgreement failed." ++ [x0a]) CryptographyError_ECC_keyGenError;
  mret (secret, {| hEccKeyHandle := hEccKeyHandle d; hSharedSecret := secret; hEcHandle := hEcHandle d |}).
End Ops.
End WinEcdh.

(** ** Certificates *)

Module WinX509.
(** wincrypt.h *)
Definition CERT_TRUST_IS_PARTIAL_CHAIN : Z := 0x10000.
Definition CERT_CHAIN_POLICY_ALLOW_UNKNOWN_CA_FLAG : Z := 0x10.
(** cache only for URLs and revocation, no AIA, no update of the roots *)
Definition chain_flags : Z := Z.lor 0x4 (Z.lor 0x2000 (Z.lor 0x100 0x80000000)).

(** A member the constructor leaves alone has no value before a leaf is loaded. *)
Inductive chain_member := Uninitialized | NoChain | Chain (c : chain_context).
Record WincryptX509 := {
  leafPrivateKey : ptr; hStore : ptr; rootCertContexts : list ptr;
  pLeafCertContext : option ptr; chainContext : chain_member }.

(** The value of a field of a distinguished name, up to the next comma. *)
Definition ExtractFieldFromDN (dn field : bytes) : bytes :=
  let searchField := field ++ str "=" in
  match find_str searchField dn with
  | None => []
  | Some fieldPos =>
      let rest := drop (fieldPos + length searchField) dn in
      match find_str (str ",") rest with Some n => take n rest | None => rest end
  end.

Section Ops.
Context {F : Type -> Type} {S : Type} `{Handler F S} `{BcryptCall -< F} `{CryptCall -< F}.
Context `{BoostBase64, BoostString}.

Definition LoadCertificate (cert : bytes) : M F S ptr :=
  pCertContext ← trig (CertCreateCertificateContext cert);
  if is_null pCertContext
  then wincrypt_error "CertCreateCertificateContext failed." LibraryError_WinCrypt_certLoadError
  else mret pCertContext.
Definition add_to_store (store cert : ptr) (w : string) : M F S unit :=
  added ← trig (CertAddCertificateContextToStore store cert);
  if added : bool then mret tt else wincrypt_error w LibraryError_WinCrypt_certStoreError.

Fixpoint load_roots (store : ptr) (rootCerts : list bytes) : M F S (list ptr) :=
  match rootCerts with
  | [] => mret []
  | rootCert :: rest =>
      der ← lift (Encoders.base64_decode (c_str rootCert));
      pRootCtx ← LoadCertificate der;
      _ ← add_to_store store pRootCtx "CertAddCertificateContextToStore - Root Cert - failed.";
      more ← load_roots store rest;
      mret (pRootCtx :: more)
  end.
Definition new_WincryptX509 (rootCerts : list bytes) : M F S WincryptX509 :=
  store ← trig CertOpenStore_memory;
  if is_null store then wincrypt_error "CertOpenStore failed." LibraryError_WinCrypt_certStoreError
  else
    roots ← load_roots store rootCerts;
    mret {| leafPrivateKey := null; hStore := store; rootCertContexts := roots;
            pLeafCertContext := None; chainContext := Uninitialized |}.

Definition LoadLeafCertificate (x : WincryptX509) (cert : bytes) : M F S WincryptX509 :=
  der ← lift (Encoders.base64_decode (c_str cert));
  leaf ← LoadCertificate der;
  r ← trig (CertGetCertificateChain leaf (hStore x) chain_flags);
  chain ← checked r "CertGetCertificateChain failed." LibraryError_WinCrypt_certChainError;
  mret {| leafPrivateKey := leafPrivateKey x; hStore := hStore x; rootCertContexts := rootCertContexts x;
          pLeafCertContext := Some leaf; chainContext := Chain chain |}.
Definition LoadIntermediateCertificate (x : WincryptX509) (cert : bytes) : M F S unit :=
  der ← lift (Encoders.base64_decode (c_str cert));
  pInterCertContext ← LoadCertificate der;
  add_to_store (hStore x) pInterCertContext "CertAddCertificateContextToStore - Intermediate - failed.".

Definition SetLeafKey (x : WincryptX509) (key : ptr) : WincryptX509 :=
  {| leafPrivateKey := key; hStore := hStore x; rootCertContexts := rootCertContexts x;
     pLeafCertContext := pLeafCertContext x; chainContext := chainContext x |}.

(** An empty string stands for every failure. *)
Definition GetSubjectName (x : WincryptX509) : M F S bytes :=
  match pLeafCertContext x with
  | None => fault_with UndefinedBehaviour
  | Some leaf =>
      if is_null leaf then mret []
      else
        dwSize ← trig (CertNameToStr_size leaf);
        if dwSize <=? 1 then mret []
        else
          name ← trig (CertNameToStr leaf dwSize);
          subjectBuffer ← lift (overwrite (replicate (Z.to_nat dwSize) x00) 0 name);
          mret (take (Z.to_nat (dwSize - 1)) subjectBuffer)
  end.
Definition GetCommonName (x : WincryptX509) : M F S bytes :=
  subjectName ← GetSubjectName x;
  mret (match subjectName with [] => [] | _ => ExtractFieldFromDN subjectName (str "CN") end).
Definition VerifySubjectSuffix (x : WincryptX509) (expectedSuffix : bytes) : M F S bool :=
  commonName ← GetCommonName x;
  mret (match commonName with [] => false | _ => X509.suffix_matches commonName expectedSuffix end).

Fixpoint root_matches (actualRoot : ptr) (roots : list ptr) : M F S bool :=
  match roots with
  | [] => mret false
  | r :: rest =>
      a ← trig (dwCertEncodingType actualRoot);
      b ← trig (dwCertEncodingType r);
      same_key ← (if a =? b then trig (CertComparePublicKeyInfo actualRoot r) else mret false);
      same ← (if same_key : bool then trig (CertCompareCertificate actualRoot r) else mret false);
      if same : bool then mret true else root_matches actualRoot rest
  end.
(** The last element of the first chain. *)
Definition root_element (c : chain_context) : option chain_element :=
  match c with Some elements :: _ => default None (last elements) | _ => None end.
Definition VerifyChainTerminatesAtRoot (x : WincryptX509) (c : chain_context) : M F S bool :=
  match root_element c with
  | None => mret false
  | Some pRootElement =>
      if negb (Z.land (dwErrorStatus pRootElement) CERT_TRUST_IS_PARTIAL_CHAIN =? 0) then mret false
      else
        self_signed ← trig (CertCompareCertificateName (pCertContext pRootElement));
        if negb self_signed then mret false
        else root_matches (pCertContext pRootElement) (rootCertContexts x)
  end.

Definition VerifyCertChain (x : WincryptX509) (expectedSubjectSuffix : bytes) : M F S bool :=
  match chainContext x with
  | Uninitialized => fault_with UndefinedBehaviour
  | NoChain => mret false
  | Chain c =>
      r ← trig (CertVerifyCertificateChainPolicy_base c CERT_CHAIN_POLICY_ALLOW_UNKNOWN_CA_FLAG);
      dwError ← checked r "CertVerifyCertificateChainPolicy failed." CryptographyError_Signing_certChainError;
      if negb (dwError =? 0) then mret false
      else
        ret ← VerifyChainTerminatesAtRoot x c;
        if ret : bool then VerifySubjectSuffix x expectedSubjectSuffix else mret false
  end.

(** [BCryptHash] with SHA-256; [close_late]: the provider is closed by the caller. *)
Definition sha256 (data : bytes) (w : string) (close_late : bool) : M F S (ptr * bytes) :=
  '(st, hHashAlg) ← trig (BCryptOpenAlgorithmProvider Bcrypt.SHA256_ALG false);
  _ ← status_ok st (str "BCryptOpenAlgorithmProvider - Hash Algorithm") LibraryError_Bcrypt_providerError;
  '(st, hash) ← trig (BCryptHash hHashAlg [] data 32);
  _ ← (if (st =? 0) && close_late then mret tt else _ ← trig (BCryptCloseAlgorithmProvider hHashAlg); mret tt);
  _ ← status_ok st (str w) CryptographyError_Hash_hashError;
  mret (hHashAlg, hash).

(** A failed import leaves the local handle without a value. *)
Definition VerifySignature (x : WincryptX509) (signedData signature : bytes) : M F S bool :=
  match pLeafCertContext x with
  | None => fault_with UndefinedBehaviour
  | Some leaf =>
      hKey ← trig (CryptImportPublicKeyInfo leaf);
      match hKey with
      | None => fault_with UndefinedBehaviour
      | Some hKey =>
          if is_null hKey
          then wincrypt_error "CryptImportPublicKeyInfoEx2 failed." LibraryError_Bcrypt_keyError
          else
            '(hHashAlg, pbHash) ← sha256 signedData "X509 Signature Verification Hash Calculation" true;
            st ← trig (BCryptVerifySignature hKey pbHash signature);
            _ ← trig (BCryptCloseAlgorithmProvider hHashAlg);
            _ ← status_ok st (str "X509 Signature Verification") CryptographyError_Signing_verifyError;
            _ ← trig (BCryptDestroyKey hKey);
            mret true
      end
  end.

Definition SignData (x : WincryptX509) (data : bytes) : M F S bytes :=
  if is_null (leafPrivateKey x)
  then throw (WinCryptErr (str "Leaf private key is not set.") 0 (error_code LibraryError_Bcrypt_keyError))
  else
    '(_, hash) ← sha256 data "BCryptHash" false;
    '(st, signatureSize) ← trig (BCryptSignHash_size (leafPrivateKey x) hash);
    _ ← status_ok st (str "BCryptSignHash - Get Size") CryptographyError_Signing_verifyError;
    '(st, signature) ← trig (BCryptSignHash (leafPrivateKey x) hash signatureSize);
    _ ← status_ok st (str "BCryptSignHash") CryptographyError_Signing_verifyError;
    overwritten ← lift (overwrite (replicate (Z.to_nat signatureSize) x00) 0 signature);
    mret overwritten.
End Ops.
End WinX509.
