(* ===== verification/WinFacts.v ===== *)
(** * What the Windows key agreement and certificates guarantee

    The layout of the key blobs, a key that survives export and import, the buffer overrun of
    the import, and what a verified chain is. *)

From S2P Require Import Prelude Base64 ReturnCodes Ossl Bcrypt BcryptFacts WinCrypt.
#[local] Open Scope Z_scope.

(** ** Key blobs *)

Section Blobs.
Import WinEcdh.

(** A blob: the header, the coordinates, and the private key if there is one. *)
Definition ec_blob (magic n : Z) (x y d : bytes) : bytes := u32_bytes magic ++ u32_bytes n ++ x ++ y ++ d.
(** A coordinate at the end of its place. *)
Definition padded (n : Z) (c : bytes) : bytes := Bcrypt.zeros (n - size c) ++ c.

Lemma header_of magic n : size (u32_bytes magic ++ u32_bytes n) = header_size.
Proof. done. Qed.
Lemma size_nonneg (l : bytes) : 0 <= size l.
Proof. unfold size. lia. Qed.
Lemma u32_small z : 0 <= z < 2 ^ 32 -> u32 z = z.
Proof. apply Z.mod_small. Qed.
Lemma drop_zeros (o : bytes) n : size o <= n -> drop (length o) (Bcrypt.zeros n) = Bcrypt.zeros (n - size o).
Proof. intros Hn. unfold Bcrypt.zeros, size in *. rewrite drop_replicate. f_equal. lia. Qed.
Lemma zeros_add a b : 0 <= a -> 0 <= b -> Bcrypt.zeros (a + b) = Bcrypt.zeros a ++ Bcrypt.zeros b.
Proof. apply zeros_split. Qed.

Lemma new_blob_ok magic n k : 0 <= n -> 0 <= k -> header_size + k * n < 2 ^ 32 ->
  new_blob magic n k = Ret ((u32_bytes magic ++ u32_bytes n) ++ Bcrypt.zeros (k * n)).
Proof.
  intros Hn Hk Hs. unfold new_blob. rewrite u32_small by (unfold header_size in *; nia).
  change (replicate (Z.to_nat (header_size + k * n)) x00) with (Bcrypt.zeros (header_size + k * n)).
  assert (Hh := header_of magic n). set (h := u32_bytes magic ++ u32_bytes n) in *.
  assert (Hz : size (Bcrypt.zeros (header_size + k * n)) = header_size + k * n)
    by (apply size_zeros; unfold header_size; nia).
  pose proof (overwrite_at [] (Bcrypt.zeros (header_size + k * n)) h) as Ho. cbn [app] in Ho. change (size []) with 0 in Ho.
  rewrite Ho, drop_zeros by (rewrite ?Hz, Hh; nia). rewrite Hh. do 3 f_equal. lia.
Qed.
Lemma right_size_ok n k : 0 <= n -> 0 <= k -> header_size + k * n < 2 ^ 32 -> right_size n k = true.
Proof.
  intros Hn Hk Hs. unfold right_size, header_size in *. rewrite !u32_small by nia. apply Z.eqb_eq. lia.
Qed.

(** Writing [o] where [a] ends, into zeros. *)
Lemma overwrite_zeros a o n z : size o <= n ->
  overwrite (a ++ Bcrypt.zeros n ++ z) (size a) o = Ret ((a ++ o) ++ Bcrypt.zeros (n - size o) ++ z).
Proof.
  intros Hn. rewrite overwrite_at.
  - rewrite drop_app_le, drop_zeros by (unfold size, Bcrypt.zeros in *; rewrite ?length_replicate; lia).
    by rewrite <- !app_assoc.
  - rewrite size_app, size_zeros; [|pose proof (size_nonneg o); lia]. pose proof (size_nonneg z). lia.
Qed.
Lemma read_middle a b c : read_bytes (a ++ b ++ c) (size a) (size b) = Ret b.
Proof.
  rewrite read_bytes_ok by (rewrite !size_app; pose proof (size_nonneg c); lia). f_equal. apply slice_middle.
Qed.

(** The blob of a public key, and both ways of filling the coordinates of a private one. *)
Lemma copy_public_ok magic n f x y z :
  size x = size y -> 0 < size x <= n -> n < 2 ^ 29 ->
  copy_public ((u32_bytes magic ++ u32_bytes n) ++ Bcrypt.zeros (2 * n) ++ z) (f :: x ++ y) n (size x)
  = Ret ((u32_bytes magic ++ u32_bytes n) ++ padded n x ++ padded n y ++ z).
Proof.
  intros Hxy Hn Hm. unfold copy_public. assert (Hh := header_of magic n).
  set (h := u32_bytes magic ++ u32_bytes n) in *. rewrite (proj2 (Z.ltb_lt _ _)) by lia.
  destruct (n =? size x) eqn:E.
  - apply Z.eqb_eq in E. unfold EC_PUBLIC_NUM_COMPONENTS. rewrite u32_small by lia.
    pose proof (read_middle [f] (x ++ y) []) as Hr. rewrite app_nil_r in Hr. change ([f] ++ x ++ y) with (f :: x ++ y) in Hr.
    assert (Hr' : read_bytes (f :: x ++ y) 1 (2 * n) = Ret (x ++ y))
      by (rewrite <- Hr; f_equal; rewrite size_app; lia).
    rewrite Hr'.
    cbn [mbind outcome_bind]. rewrite <- Hh, overwrite_zeros by (rewrite size_app; lia).
    replace (2 * n - size (x ++ y)) with 0 by (rewrite size_app; lia). unfold padded.
    rewrite E, Z.sub_diag, Hxy, Z.sub_diag. change (Bcrypt.zeros 0) with (@nil byte). by rewrite <- !app_assoc.
  - apply Z.eqb_neq in E. rewrite u32_small by lia. cbn zeta.
    pose proof (read_middle [f] x y) as Hr1. change ([f] ++ x ++ y) with (f :: x ++ y) in Hr1.
    change 1 with (size [f]). rewrite Hr1. cbn [mbind outcome_bind].
    pose proof (read_middle ([f] ++ x) y []) as Hr2. rewrite app_nil_r, <- app_assoc, size_app in Hr2.
    change ([f] ++ x ++ y) with (f :: x ++ y) in Hr2. rewrite <- Hxy in Hr2.
    replace (Bcrypt.zeros (2 * n) ++ z)
      with (Bcrypt.zeros (n - size x) ++ Bcrypt.zeros (size x) ++ Bcrypt.zeros (n - size x) ++ Bcrypt.zeros (size x) ++ z).
    2: { replace (2 * n) with ((n - size x) + (size x + ((n - size x) + size x))) by lia.
         rewrite !zeros_add by lia. by rewrite <- !app_assoc. }
    set (p := Bcrypt.zeros (n - size x)). assert (Hp : size p = n - size x) by (apply size_zeros; lia).
    replace (header_size + (n - size x)) with (size (h ++ p)) by (rewrite size_app; lia).
    rewrite app_assoc, overwrite_zeros by lia. cbn [mbind outcome_bind]. rewrite Hr2. cbn [mbind outcome_bind].
    rewrite Z.sub_diag. change (Bcrypt.zeros 0) with (@nil byte). cbn [app].
    replace (header_size + n + (n - size x)) with (size (((h ++ p) ++ x) ++ p)) by (rewrite !size_app; lia).
    rewrite app_assoc, overwrite_zeros by lia. rewrite <- Hxy, Z.sub_diag. change (Bcrypt.zeros 0) with (@nil byte).
    unfold padded. rewrite <- Hxy. fold p. by rewrite <- !app_assoc.
Qed.

Lemma coordinate_ok f x y : size x = size y -> coordinate (f :: x ++ y) = size x.
Proof.
  intros Hxy. unfold coordinate, EC_PUBLIC_NUM_COMPONENTS. change (f :: x ++ y) with ([f] ++ x ++ y).
  rewrite !size_app, <- Hxy. change (size [f]) with 1. replace (1 + (size x + size x) - 1) with (size x * 2) by lia.
  by apply Z.div_mul.
Qed.
Lemma size_padded n c : size c <= n -> size (padded n c) = n.
Proof. intros Hc. unfold padded. rewrite size_app, size_zeros by lia. lia. Qed.

Lemma private_blob_ok f x y d :
  known_form f = true -> size x = size y -> 0 < size x <= size d -> size d < 2 ^ 29 ->
  private_blob d (f :: x ++ y)
  = Ret (ec_blob BCRYPT_ECDH_PRIVATE_P256_MAGIC (size d) (padded (size d) x) (padded (size d) y) d).
Proof.
  intros Hf Hxy Hx Hd. unfold private_blob. rewrite Hf, coordinate_ok by done. cbn [mbind outcome_bind].
  unfold EC_PRIVATE_NUM_COMPONENTS. rewrite new_blob_ok by (unfold header_size; lia). cbn [mbind outcome_bind].
  replace (3 * size d) with (2 * size d + size d) at 1 by lia. rewrite zeros_add by lia.
  rewrite copy_public_ok by done. cbn [mbind outcome_bind]. unfold EC_PUBLIC_NUM_COMPONENTS.
  set (h := u32_bytes _ ++ u32_bytes _). assert (Hh : size h = header_size) by done.
  rewrite u32_small by lia. rewrite !app_assoc. set (a := (h ++ _) ++ _).
  assert (Ha : size a = header_size + 2 * size d) by (unfold a; rewrite !size_app, !size_padded by lia; lia).
  rewrite <- Ha. pose proof (overwrite_zeros a d (size d) []) as Ho. rewrite app_nil_r in Ho. rewrite Ho by lia.
  cbn [mbind outcome_bind]. rewrite right_size_ok by (unfold header_size; lia). rewrite Z.sub_diag.
  change (Bcrypt.zeros 0) with (@nil byte). rewrite !app_nil_r. unfold a, ec_blob, h. by rewrite <- !app_assoc.
Qed.
Lemma padded_full c : padded (size c) c = c.
Proof. unfold padded. by rewrite Z.sub_diag. Qed.
Lemma public_blob_ok f x y :
  size x = size y -> 0 < size x -> size x < 2 ^ 29 ->
  public_blob (f :: x ++ y) = Ret (ec_blob BCRYPT_ECDH_PUBLIC_P256_MAGIC (size x) x y []).
Proof.
  intros Hxy Hx Hd. unfold public_blob. rewrite coordinate_ok by done.
  unfold EC_PUBLIC_NUM_COMPONENTS. rewrite new_blob_ok by (unfold header_size; lia). cbn [mbind outcome_bind].
  pose proof (copy_public_ok BCRYPT_ECDH_PUBLIC_P256_MAGIC (size x) f x y []) as Hc. rewrite !app_nil_r in Hc.
  rewrite Hc by (done || lia). cbn [mbind outcome_bind]. rewrite right_size_ok by (unfold header_size; lia).
  rewrite padded_full. rewrite Hxy at 2. rewrite padded_full. unfold ec_blob. by rewrite app_nil_r, <- !app_assoc.
Qed.

(** Past its end, wherever the offset wraps to. *)
Lemma private_blob_overrun f x y d :
  known_form f = true -> size x = size y -> size d < size x -> size x < 2 ^ 29 ->
  private_blob d (f :: x ++ y) = Fault UndefinedBehaviour.
Proof.
  intros Hf Hxy Hd Hx. pose proof (size_nonneg d). unfold private_blob. rewrite Hf, coordinate_ok by done.
  cbn [mbind outcome_bind]. unfold EC_PRIVATE_NUM_COMPONENTS. rewrite new_blob_ok by (unfold header_size; lia).
  cbn [mbind outcome_bind]. unfold copy_public. rewrite (proj2 (Z.ltb_lt _ _)), (proj2 (Z.eqb_neq _ _)) by lia.
  pose proof (read_middle [f] x y) as Hr. change ([f] ++ x ++ y) with (f :: x ++ y) in Hr.
  change 1 with (size [f]). cbn zeta. rewrite Hr. cbn [mbind outcome_bind].
  assert (Hu : u32 (size d - size x) = size d - size x + 2 ^ 32).
  { unfold u32. symmetry. apply (Z.mod_unique_pos _ _ (-1)); lia. }
  match goal with |- (?m ≫= _) = _ => assert (Ho : m = Fault UndefinedBehaviour) end; [|by rewrite Ho].
  unfold overwrite. rewrite bool_decide_eq_false_2; [done|]. rewrite Hu, size_app, size_zeros by lia.
  rewrite header_of. lia.
Qed.
End Blobs.

(** ** Export and import *)

(** The keys of a provider: [ec_point k] and [ec_private k] are the numbers of the key [k],
    [der_pkcs8] and the like the encodings, [imported] the key made of a blob. *)
Class EcLaws (F : Type -> Type) (S : Type) `{Handler F S} `{CryptCall -< F} := {
  ec_point : ptr -> bytes * bytes;
  ec_private : ptr -> bytes;
  der_params : bytes -> bytes;
  der_ecc : bytes -> bytes -> bytes;
  der_pkcs8 : bytes -> bytes -> bytes -> bytes;
  der_spki : bytes -> bytes -> bytes -> bytes;
  curve : ptr -> bytes;
  imported : bytes -> ptr;
  ec_sizes k : 0 < size (ec_private k) < 2 ^ 29 /\ size (fst (ec_point k)) = size (ec_private k) /\
    size (snd (ec_point k)) = size (ec_private k);
  export_size s k p : exists n, fst (handle (inj (BCryptExportKey_size k p)) s) = (0, n);
  export_key s k (p : bool) n : fst (handle (inj (BCryptExportKey k p n)) s) =
    (0, ec_blob (if p then WinEcdh.BCRYPT_ECDH_PRIVATE_P256_MAGIC else WinEcdh.BCRYPT_ECDH_PUBLIC_P256_MAGIC)
          (size (ec_private k)) (fst (ec_point k)) (snd (ec_point k)) (if p then ec_private k else []));
  ecc_size s k : exists n, fst (handle (inj (BCryptGetProperty_ecc_size k)) s) = (0, n);
  ecc_params s k n : fst (handle (inj (BCryptGetProperty_ecc k n)) s) = (0, curve k);
  encode_params_size s c : exists n, fst (handle (inj (CryptEncode_EccParameters_size c)) s) = Some n;
  encode_params s c n : fst (handle (inj (CryptEncode_EccParameters c n)) s) = Some (der_params c);
  encode_ecc_size s d q : exists n, fst (handle (inj (CryptEncode_EccPrivateKey_size d q)) s) = Some n;
  encode_ecc s d q n : fst (handle (inj (CryptEncode_EccPrivateKey d q n)) s) = Some (der_ecc d q);
  encode_pkcs8 s o c e : fst (handle (inj (CryptEncode_PrivateKeyInfo o c e)) s) = Some (der_pkcs8 o c e);
  encode_spki s o c q : fst (handle (inj (CryptEncode_PublicKeyInfo o c q)) s) = Some (der_spki o c q);
  decode_pkcs8 s o c e : fst (handle (inj (CryptDecode_PrivateKeyInfo (der_pkcs8 o c e))) s) = Some e;
  decode_ecc s d q : fst (handle (inj (CryptDecode_EccPrivateKey (der_ecc d q))) s) = Some (d, q);
  decode_spki s o c q : fst (handle (inj (CryptDecode_PublicKeyInfo (der_spki o c q))) s) = Some q;
  import_key s h p b : fst (handle (inj (BCryptImportKeyPair h p b)) s) = (0, imported b) }.

Section RoundTrip.
Context {F : Type -> Type} {S : Type} `{Handler F S} `{CryptCall -< F} `{!EcLaws F S}.
Import WinEcdh.

Lemma le_u32 z : 0 <= z < 2 ^ 32 -> le (u32_bytes z) = z.
Proof.
  intros Hz. unfold u32_bytes, le, map. rewrite !Z.shiftr_div_pow2 by lia. rewrite !z_of_byte_of_z by (apply Z.mod_pos_bound; lia).
  change (8 * 0) with 0. change (8 * 1) with 8. change (8 * 2) with 16. change (8 * 3) with 24.
  Z.to_euclidean_division_equations. lia.
Qed.
Lemma blob_size magic n x y d : 0 <= n < 2 ^ 32 -> read_u32 (ec_blob magic n x y d) 4 = Ret n.
Proof.
  intros Hn. unfold read_u32, ec_blob. pose proof (read_middle (u32_bytes magic) (u32_bytes n) (x ++ y ++ d)) as Hr.
  change (size (u32_bytes magic)) with 4 in Hr. change (size (u32_bytes n)) with 4 in Hr. rewrite Hr.
  cbn [mbind outcome_bind]. by rewrite le_u32.
Qed.

(** A call that answers, in a computation of which the result matters. *)
Lemma delivers_next {R A} (e : CryptCall R) (k : R -> M F S A) s r (P : A -> S -> Prop) :
  fst (handle (inj e) s) = r -> (forall s', delivers (k r) s' P) -> delivers (trig e ≫= k) s P.
Proof. intros He Hk. apply delivers_bind. by eapply delivers_answer. Qed.
Lemma delivers_read {A B} (o : outcome A) (k : A -> M F S B) s a (P : B -> S -> Prop) :
  o = Ret a -> delivers (k a) s P -> delivers (lift o ≫= k) s P.
Proof. intros Ho Hk. apply delivers_bind. by eapply delivers_lift. Qed.
Lemma delivers_status {A} w c s (k : unit -> M F S A) (P : A -> S -> Prop) :
  delivers (k tt) s P -> delivers (status_ok 0 w c ≫= k) s P.
Proof. intros Hk. apply delivers_bind. by apply delivers_require. Qed.
Lemma delivers_checked {A B} (a : A) w c s (k : A -> M F S B) (P : B -> S -> Prop) :
  delivers (k a) s P -> delivers (checked (Some a) w c ≫= k) s P.
Proof. intros Hk. by apply delivers_bind, delivers_ret. Qed.

Lemma delivers_export_blob d p s :
  delivers (export_blob d p) s (fun b _ => b =
    ec_blob (if p then BCRYPT_ECDH_PRIVATE_P256_MAGIC else BCRYPT_ECDH_PUBLIC_P256_MAGIC)
      (size (ec_private (hEccKeyHandle d))) (fst (ec_point (hEccKeyHandle d))) (snd (ec_point (hEccKeyHandle d)))
      (if p then ec_private (hEccKeyHandle d) else [])).
Proof.
  unfold export_blob. destruct (export_size s (hEccKeyHandle d) p) as (n & Hn).
  eapply delivers_next; [exact Hn|]. intros s1. apply delivers_status.
  eapply delivers_next; [apply export_key|]. intros s2. apply delivers_status. by apply delivers_ret.
Qed.
Lemma delivers_curve d s : delivers (curve_parameters d) s (fun c _ => c = curve (hEccKeyHandle d)).
Proof.
  unfold curve_parameters. destruct (ecc_size s (hEccKeyHandle d)) as (n & Hn).
  eapply delivers_next; [exact Hn|]. intros s1. apply delivers_status.
  eapply delivers_next; [apply ecc_params|]. intros s2. apply delivers_status. by apply delivers_ret.
Qed.

Lemma delivers_ExportPkcs8 d s : let k := hEccKeyHandle d in
  delivers (ExportPkcs8PrivateKey d) s (fun der _ => der =
    der_pkcs8 szOID_ECC_PUBLIC_KEY (der_params (curve k))
      (der_ecc (ec_private k) (EC_UNCOMPRESSED_BLOB :: fst (ec_point k) ++ snd (ec_point k)))).
Proof.
  intros k. unfold ExportPkcs8PrivateKey. destruct (ec_sizes k) as (Hn & Hx & Hy).
  set (x := fst (ec_point k)) in *. set (y := snd (ec_point k)) in *. set (dd := ec_private k) in *.
  apply delivers_bind. eapply delivers_mono; [apply delivers_export_blob|]. intros b s1 ->. cbn beta iota. fold k.
  apply delivers_bind. eapply delivers_mono; [apply delivers_curve|]. intros c s2 ->. cbn beta. fold k.
  destruct (encode_params_size s2 (curve k)) as (n1 & Hn1). eapply delivers_next; [exact Hn1|]. intros s3.
  apply delivers_checked. fold x y dd. eapply delivers_read; [apply blob_size; lia|].
  set (h := u32_bytes BCRYPT_ECDH_PRIVATE_P256_MAGIC ++ u32_bytes (size dd)).
  assert (Hb : ec_blob BCRYPT_ECDH_PRIVATE_P256_MAGIC (size dd) x y dd = h ++ x ++ y ++ dd)
    by (unfold ec_blob, h; by rewrite <- app_assoc). rewrite Hb.
  assert (Hh : size h = header_size) by done. unfold EC_PUBLIC_NUM_COMPONENTS. rewrite u32_small by lia.
  eapply delivers_read; [|eapply delivers_read; [|eapply delivers_read; [|]]].
  - rewrite app_assoc, app_assoc, <- (app_nil_r dd) at 1.
    replace (header_size + 2 * size dd) with (size ((h ++ x) ++ y)) by (rewrite !size_app; lia). apply read_middle.
  - rewrite <- Hh, <- Hx. apply read_middle.
  - replace (header_size + size dd) with (size (h ++ x)) by (rewrite size_app; lia).
    rewrite app_assoc, <- Hy. apply read_middle.
  - set (q := EC_UNCOMPRESSED_BLOB :: x ++ y). destruct (encode_ecc_size s3 dd q) as (n2 & Hn2).
    eapply delivers_next; [exact Hn2|]. intros s4. apply delivers_checked.
    eapply delivers_next; [apply encode_ecc|]. intros s5. apply delivers_checked.
    eapply delivers_next; [apply encode_params|]. intros s6. apply delivers_checked.
    eapply delivers_next; [apply encode_pkcs8|]. intros s7. by apply delivers_ret.
Qed.
Lemma delivers_ExportSpki d s : let k := hEccKeyHandle d in
  delivers (ExportSubjectPublicKeyInfo d) s (fun der _ => der =
    der_spki szOID_ECC_PUBLIC_KEY (der_params (curve k)) (EC_UNCOMPRESSED_BLOB :: fst (ec_point k) ++ snd (ec_point k))).
Proof.
  intros k. unfold ExportSubjectPublicKeyInfo. destruct (ec_sizes k) as (Hn & Hx & Hy).
  set (x := fst (ec_point k)) in *. set (y := snd (ec_point k)) in *. set (dd := ec_private k) in *.
  apply delivers_bind. eapply delivers_mono; [apply delivers_export_blob|]. intros b s1 ->. cbn beta iota. fold k.
  apply delivers_bind. eapply delivers_mono; [apply delivers_curve|]. intros c s2 ->. cbn beta. fold k.
  destruct (encode_params_size s2 (curve k)) as (n1 & Hn1). eapply delivers_next; [exact Hn1|]. intros s3.
  apply delivers_checked. fold x y dd. eapply delivers_read; [apply blob_size; lia|].
  unfold EC_PUBLIC_NUM_COMPONENTS. rewrite u32_small by lia.
  eapply delivers_read.
  - unfold ec_blob. rewrite app_assoc. replace (size dd * 2) with (size (x ++ y)) by (rewrite size_app; lia).
    rewrite (app_nil_r y), <- (app_nil_r (x ++ y)) at 1.
    change header_size with (size (u32_bytes BCRYPT_ECDH_PUBLIC_P256_MAGIC ++ u32_bytes (size dd))). apply read_middle.
  - eapply delivers_next; [apply encode_params|]. intros s4. apply delivers_checked.
    eapply delivers_next; [apply encode_spki|]. intros s5. by apply delivers_ret.
Qed.

Lemma delivers_imported h p b (d : BcryptECDiffieHellman) s w :
  delivers ('(st, key) ← trig (BCryptImportKeyPair h p b); _ ← status_ok st w LibraryError_Bcrypt_keyError;
            mret (with_key d key)) s (fun x _ => x = with_key d (imported b)).
Proof.
  eapply delivers_next; [apply import_key|]. intros s1. apply delivers_status. by apply delivers_ret.
Qed.

(** C20: Keys survive the trip through PKCS#8 and SubjectPublicKeyInfo. What [ExportPkcs8PrivateKey]
    returns, [ImportPkcs8PrivateKey] turns back into the very blob of the key, and the same holds
    for public keys; all four functions return on a provider that exports, encodes and decodes as
    documented. *)
Theorem win_key_round_trip d d' s s' :
  let k := hEccKeyHandle d in let n := size (ec_private k) in
  let x := fst (ec_point k) in let y := snd (ec_point k) in
  (exists der, res (ExportPkcs8PrivateKey d s) = Ret der /\
     res (ImportPkcs8PrivateKey d' der s')
     = Ret (with_key d' (imported (ec_blob BCRYPT_ECDH_PRIVATE_P256_MAGIC n x y (ec_private k))))) /\
  (exists der, res (ExportSubjectPublicKeyInfo d s) = Ret der /\
     res (ImportSubjectPublicKeyInfo d' der s')
     = Ret (with_key d' (imported (ec_blob BCRYPT_ECDH_PUBLIC_P256_MAGIC n x y [])))).
Proof.
  intros k n x y. destruct (ec_sizes k) as (Hn & Hx & Hy). fold x in Hx. fold y in Hy. fold n in Hn, Hx, Hy.
  assert (Hxy : size x = size y) by lia. split.
  - destruct (delivers_res _ _ _ (delivers_ExportPkcs8 d s)) as (der & Hder & _ & Hd). exists der. split; [done|].
    subst der. unfold ImportPkcs8PrivateKey. apply delivers_after. eapply delivers_answer; [apply decode_pkcs8|].
    intros s1. apply delivers_after, delivers_ret. apply delivers_after. eapply delivers_answer; [apply decode_ecc|].
    intros s2. apply delivers_after, delivers_ret. cbn beta iota. fold k x y. apply delivers_after.
    eapply delivers_lift; [apply private_blob_ok; [done|done|fold n; lia|fold n; lia]|]. cbn beta. fold n.
    assert (Px : padded n x = x) by (rewrite <- Hx; apply padded_full).
    assert (Py : padded n y = y) by (rewrite <- Hy; apply padded_full). rewrite Px, Py.
    destruct (delivers_res _ _ _ (delivers_imported (hEcHandle d') true
      (ec_blob BCRYPT_ECDH_PRIVATE_P256_MAGIC n x y (ec_private k)) d' s2
      (str "BCryptImportKeyPair 1 failed." ++ [x0a]))) as (a & Ha & _ & ->). exact Ha.
  - destruct (delivers_res _ _ _ (delivers_ExportSpki d s)) as (der & Hder & _ & Hd). exists der. split; [done|].
    subst der. unfold ImportSubjectPublicKeyInfo. apply delivers_after. eapply delivers_answer; [apply decode_spki|].
    intros s1. apply delivers_after, delivers_ret. cbn beta iota. fold k x y. apply delivers_after.
    eapply delivers_lift; [apply public_blob_ok; [done|lia|lia]|]. cbn beta. rewrite Hx.
    destruct (delivers_res _ _ _ (delivers_imported (hEcHandle d') false
      (ec_blob BCRYPT_ECDH_PUBLIC_P256_MAGIC n x y []) d' s1
      (str "BCryptImportKeyPair 1 failed." ++ [x0a]))) as (a & Ha & _ & ->). exact Ha.
Qed.
End RoundTrip.

(** ** The import of any private key *)

Section ImportLayout.
Context {F : Type -> Type} {S : Type} `{Handler F S} `{CryptCall -< F}.
Import WinEcdh.

(** The import of a private key depends on lengths nobody checks. With coordinates no longer than
    the private number, the provider gets the blob with each coordinate at the end of its
    place, zeros before it; with longer coordinates - one leading zero dropped from the private
    number is enough - the program writes outside the buffer it allocated. *)
Theorem win_import_layout d der e dk f x y s s1 s2 :
  handle (inj (CryptDecode_PrivateKeyInfo der)) s = (Some e, s1) ->
  handle (inj (CryptDecode_EccPrivateKey e)) s1 = (Some (dk, f :: x ++ y), s2) ->
  known_form f = true -> size x = size y -> 0 < size x < 2 ^ 29 -> size dk < 2 ^ 29 ->
  (size x <= size dk -> exists r, Ev (inj (BCryptImportKeyPair (hEcHandle d) true
     (ec_blob BCRYPT_ECDH_PRIVATE_P256_MAGIC (size dk) (padded (size dk) x) (padded (size dk) y) dk))) r
     ∈ evs (ImportPkcs8PrivateKey d der s)) /\
  (size dk < size x -> res (ImportPkcs8PrivateKey d der s) = Fault UndefinedBehaviour).
Proof.
  intros H1 H2 Hf Hxy Hx Hd. set (blob := ec_blob _ _ _ _ _).
  enough (Hw : wp (ImportPkcs8PrivateKey d der) s (fun o _ t =>
    (size x <= size dk -> exists r, Ev (inj (BCryptImportKeyPair (hEcHandle d) true blob)) r ∈ t) /\
    (size dk < size x -> o = Fault UndefinedBehaviour))) by exact Hw.
  unfold ImportPkcs8PrivateKey. apply wp_bind, wp_trig. intros r1 t1 E1. rewrite H1 in E1. injection E1 as <- <-.
  cbn [checked]. cbn beta iota. wp_step. wp_step. apply wp_bind, wp_trig. intros r2 t2 E2. rewrite H2 in E2.
  injection E2 as <- <-. cbn [checked]. cbn beta iota. wp_step. wp_step. wp_step. wp_step.
  destruct (decide (size x <= size dk)) as [Hs|Hs].
  - rewrite private_blob_ok by lia || done. fold blob. cbn beta iota.
    wp_step. wp_step. unfold wp. split; [|lia]. intros _. eexists.
    cbn [app]. do 2 right. left.
  - rewrite private_blob_overrun by lia || done. done.
Qed.
End ImportLayout.

(** ** Certificates *)

Section Certificates.
Context {F : Type -> Type} {S : Type} `{HF : Handler F S} `{HC : CryptCall -< F}.
Import WinX509.

(** The provider found no error in the chain [c], and its last certificate [root] is its own issuer
    and is one of the roots the object was made with. *)
Definition chain_trusted (x : WincryptX509) (c : chain_context) (t : list (event F)) : Prop :=
  exists root r, root_element c = Some root /\ r ∈ rootCertContexts x /\
    Ev (inj (CertVerifyCertificateChainPolicy_base c CERT_CHAIN_POLICY_ALLOW_UNKNOWN_CA_FLAG)) (Some 0) ∈ t /\
    Z.land (dwErrorStatus root) CERT_TRUST_IS_PARTIAL_CHAIN = 0 /\
    Ev (inj (CertCompareCertificateName (pCertContext root))) true ∈ t /\
    Ev (inj (CertComparePublicKeyInfo (pCertContext root) r)) true ∈ t /\
    Ev (inj (CertCompareCertificate (pCertContext root) r)) true ∈ t.
(** The text of the leaf's subject has a field CN that ends in the suffix up to case. *)
Definition subject_matches (x : WincryptX509) (suffix : bytes) (t : list (event F)) : Prop :=
  exists leaf n name pre tail,
    pLeafCertContext x = Some leaf /\ Ev (inj (CertNameToStr leaf n)) name ∈ t /\ size name <= n /\
    ExtractFieldFromDN (take (Z.to_nat (n - 1)) (name ++ Bcrypt.zeros (n - size name))) (str "CN") = pre ++ tail /\
    map X509.tolower tail = map X509.tolower suffix.

Lemma ends_root_matches root roots :
  ends (fun b t => b = true -> exists r, r ∈ roots /\ Ev (inj (CertComparePublicKeyInfo root r)) true ∈ t /\
      Ev (inj (CertCompareCertificate root r)) true ∈ t) (root_matches (F := F) (S := S) root roots).
Proof.
  induction roots as [|r roots IH]; [by apply ends_ret|].
  assert (Hg : grows (fun b (t : list (event F)) => b = true -> exists r', r' ∈ r :: roots /\
    Ev (inj (CertComparePublicKeyInfo root r')) true ∈ t /\ Ev (inj (CertCompareCertificate root r')) true ∈ t)).
  { intros b t1 t t2 Hb E. destruct (Hb E) as (r' & ? & ? & ?). exists r'. split_and!; eauto with trace. }
  simpl. do 2 (apply ends_after; [done|]; intros ?).
  apply (ends_bind (fun same_key t => same_key = true -> Ev (inj (CertComparePublicKeyInfo root r)) true ∈ t)).
  { destruct (_ =? _); [|by apply ends_ret]. apply ends_trig. intros k ->. apply elem_single. }
  intros same_key t1 Hk.
  apply (ends_bind (fun same t => same = true -> same_key = true /\ Ev (inj (CertCompareCertificate root r)) true ∈ t)).
  { destruct same_key; [|by apply ends_ret]. apply ends_trig. intros k ->. split; [done|apply elem_single]. }
  intros same t2 Hs. destruct same.
  - apply ends_ret. intros _. destruct (Hs eq_refl) as [Hk' Hc]. exists r. split_and!; [left|eauto with trace..].
  - eapply ends_mono; [exact IH|]. intros b t Hb E. destruct (Hb E) as (r' & ? & ? & ?). exists r'.
    split_and!; [by right|eauto with trace..].
Qed.

Lemma ends_GetSubjectName x :
  ends (fun name t => name <> [] -> exists leaf n text, pLeafCertContext x = Some leaf /\
    Ev (inj (CertNameToStr leaf n)) text ∈ t /\ size text <= n /\
    name = take (Z.to_nat (n - 1)) (text ++ Bcrypt.zeros (n - size text))) (GetSubjectName (F := F) (S := S) x).
Proof.
  unfold GetSubjectName. destruct (pLeafCertContext x) as [leaf|]; [|by apply ends_lift].
  destruct (is_null leaf); [by apply ends_ret|].
  apply (ends_bind (fun _ _ => True)); [done|]. intros n t1 _. destruct (n <=? 1) eqn:En; [by apply ends_ret|].
  apply (ends_bind (fun text t => Ev (inj (CertNameToStr leaf n)) text ∈ t)); [apply ends_trig; intros r; apply elem_single|].
  intros text t2 Ht. eapply ends_bind.
  { apply ends_lift. intros buf Hb. instantiate (1 := fun buf t => t = [] /\ size text <= n /\
      buf = text ++ Bcrypt.zeros (n - size text)). split; [done|]. revert Hb. unfold overwrite.
    change (replicate (Z.to_nat n) x00) with (Bcrypt.zeros n). case_bool_decide as Hs; [|done].
    rewrite size_zeros in Hs by lia. intros [= <-]. split; [lia|]. simpl. f_equal.
    rewrite <- drop_zeros by lia. f_equal. unfold size. lia. }
  intros buf t3 (-> & Hs & ->). apply ends_ret. intros _. exists leaf, n, text. split_and!; try done. eauto with trace.
Qed.
Lemma ends_VerifySubjectSuffix x suffix :
  ends (fun b t => b = true -> subject_matches x suffix t) (VerifySubjectSuffix (F := F) (S := S) x suffix).
Proof.
  unfold VerifySubjectSuffix, GetCommonName. eapply ends_bind.
  - eapply ends_bind; [apply ends_GetSubjectName|]. intros name t1 Hn. apply ends_ret.
    instantiate (1 := fun cn t => cn <> [] -> exists leaf n text, pLeafCertContext x = Some leaf /\
      Ev (inj (CertNameToStr leaf n)) text ∈ t /\ size text <= n /\
      cn = ExtractFieldFromDN (take (Z.to_nat (n - 1)) (text ++ Bcrypt.zeros (n - size text))) (str "CN")).
    cbn beta. destruct name as [|c name]; [done|]. intros _. destruct Hn as (leaf & n & text & ? & ? & ? & ->); [done|].
    exists leaf, n, text. rewrite app_nil_r. done.
  - intros cn t Hcn. apply ends_ret. destruct cn as [|c cn]; [done|]. intros Hm.
    apply suffix_matches_spec in Hm. destruct Hm as (pre & tail & Hp & Ht).
    destruct Hcn as (leaf & n & text & ? & ? & ? & Hc); [done|]. exists leaf, n, text, pre, tail.
    rewrite app_nil_r, <- Hc. done.
Qed.

Lemma ends_terminates x c :
  ends (fun b t => b = true -> exists root r, root_element c = Some root /\ r ∈ rootCertContexts x /\
      Z.land (dwErrorStatus root) CERT_TRUST_IS_PARTIAL_CHAIN = 0 /\
      Ev (inj (CertCompareCertificateName (pCertContext root))) true ∈ t /\
      Ev (inj (CertComparePublicKeyInfo (pCertContext root) r)) true ∈ t /\
      Ev (inj (CertCompareCertificate (pCertContext root) r)) true ∈ t)
    (VerifyChainTerminatesAtRoot (F := F) (S := S) x c).
Proof.
  unfold VerifyChainTerminatesAtRoot. destruct (root_element c) as [root|]; [|by apply ends_ret].
  destruct (Z.land _ _ =? 0) eqn:Ep; cbn [negb]; [|by apply ends_ret].
  apply (ends_bind (fun b t => Ev (inj (CertCompareCertificateName (pCertContext root))) b ∈ t));
    [apply ends_trig; intros r; apply elem_single|].
  intros [] t1 Hs; cbn [negb]; [|by apply ends_ret]. eapply ends_mono; [apply ends_root_matches|].
  intros b t2 Hb E. destruct (Hb E) as (r & ? & ? & ?). exists root, r. apply Z.eqb_eq in Ep.
  split_and!; try done; eauto with trace.
Qed.

Lemma ends_VerifyCertChain x suffix :
  ends (fun b t => b = true -> exists c, chainContext x = Chain c /\ chain_trusted x c t /\ subject_matches x suffix t)
    (VerifyCertChain (F := F) (S := S) x suffix).
Proof.
  unfold VerifyCertChain. destruct (chainContext x) as [| |c]; [by apply ends_lift|by apply ends_ret|].
  set (call := CertVerifyCertificateChainPolicy_base c CERT_CHAIN_POLICY_ALLOW_UNKNOWN_CA_FLAG).
  apply (ends_bind (fun r t => Ev (inj call) r ∈ t)); [apply ends_trig; intros r; apply elem_single|]. intros r t1 Hr.
  apply (ends_bind (fun e t => r = Some e)).
  { destruct r; [by apply ends_ret|]. intros s1 a Ha. unfold checked, wincrypt_error, trig, call, mbind, M_bind in Ha.
    by destruct (Prelude.call _ s1) as [[]]. }
  intros e t2 ->. destruct (e =? 0) eqn:Ee; cbn [negb]; [|by apply ends_ret]. apply Z.eqb_eq in Ee as ->.
  eapply ends_bind; [apply ends_terminates|]. intros [] t3 Ht; [|by apply ends_ret].
  destruct (Ht eq_refl) as (root & r & ? & ? & ? & ? & ? & ?).
  eapply ends_mono; [apply ends_VerifySubjectSuffix|]. intros b t4 Hb E. exists c. split; [done|]. split.
  - exists root, r. split_and!; try done; eauto 8 with trace.
  - destruct (Hb E) as (leaf & n & name & pre & tail & ? & ? & ? & ? & ?). exists leaf, n, name, pre, tail.
    split_and!; try done; eauto 8 with trace.
Qed.

(** C15: A chain is accepted only if it ends at a configured root and the leaf is named for the service.
    [VerifyCertChain] returns [true] only after the provider has found no error in the
    chain of the leaf that was loaded, its first chain is complete and ends at a
    self-issued certificate whose key and content are those of a root the object was made
    with, and the CN of the leaf's subject ends in the expected suffix. *)
Theorem win_chain_trusted x suffix s :
  res (VerifyCertChain x suffix s) = Ret true ->
  exists c, chainContext x = Chain c /\ chain_trusted x c (evs (VerifyCertChain x suffix s)) /\
    subject_matches x suffix (evs (VerifyCertChain x suffix s)).
Proof. intros Hr. by apply (ends_VerifyCertChain x suffix s true). Qed.
End Certificates.

(** A comma in a quoted value ends the field: a subject whose organization contains a CN is taken
    for that name. *)
Lemma quoted_field_taken :
  WinX509.ExtractFieldFromDN
    (str "O=" ++ [x22] ++ str "CN=a.SecureCPSProvisioning.cloudapp.net, b" ++ [x22] ++ str ", CN=c") (str "CN")
  = str "a.SecureCPSProvisioning.cloudapp.net".
Proof. vm_eq. Qed.

(** ** Witnesses: a provider with one key and injective encodings *)

Definition toy_pair (a b : bytes) : bytes := replicate (length a) x01 ++ x00 :: a ++ b.
Fixpoint toy_count (l : bytes) : nat * bytes :=
  match l with x01 :: l' => let '(n, r) := toy_count l' in (Datatypes.S n, r) | _ :: r => (O, r) | [] => (O, []) end.
Definition toy_unpair (l : bytes) : bytes * bytes := let '(n, r) := toy_count l in (take n r, drop n r).
Lemma toy_unpair_pair a b : toy_unpair (toy_pair a b) = (a, b).
Proof.
  unfold toy_unpair, toy_pair. assert (Hc : forall n r, toy_count (replicate n x01 ++ x00 :: r) = (n, r)).
  { induction n as [|n IH]; intros r; [done|]. simpl. by rewrite IH. }
  by rewrite Hc, take_app_length, drop_app_length.
Qed.
Definition toy_point : bytes * bytes := ([x01; x02], [x03; x04]).
Definition toy_private : bytes := [x05; x06].
(** The root 5 and the leaf 6 of a chain of two. *)
Definition toy_chain : chain_context :=
  [Some [Some {| pCertContext := 6%N; dwErrorStatus := 0 |}; Some {| pCertContext := 5%N; dwErrorStatus := 0 |}]].
Definition toy_subject : bytes := str "CN=a.SecureCPSProvisioning.cloudapp.net" ++ [x00].
#[export] Instance toy_crypt : Handler CryptCall unit := fun R e s =>
  (match e in CryptCall T return T with
   | GetLastError => 0
   | CryptDecode_PrivateKeyInfo der | CryptDecode_PublicKeyInfo der => Some (snd (toy_unpair der))
   | CryptDecode_EccPrivateKey der => Some (toy_unpair der)
   | CryptEncode_EccParameters_size c => Some (size c)
   | CryptEncode_EccParameters c _ => Some c
   | CryptEncode_EccPrivateKey_size d q => Some (size (toy_pair d q))
   | CryptEncode_EccPrivateKey d q _ => Some (toy_pair d q)
   | CryptEncode_PrivateKeyInfo o c e => Some (toy_pair (o ++ c) e)
   | CryptEncode_PublicKeyInfo o c q => Some (toy_pair (o ++ c) q)
   | BCryptGenerateKeyPair _ _ | BCryptImportKeyPair _ _ _ | BCryptSecretAgreement _ _ => (0, 7%N)
   | BCryptFinalizeKeyPair _ | BCryptVerifySignature _ _ _ | BCryptDestroyKey _ | BCryptDestroySecret _ => 0
   | BCryptExportKey_size _ p => (0, if p : bool then 14 else 12)
   | BCryptExportKey _ p _ =>
       (0, ec_blob (if p then WinEcdh.BCRYPT_ECDH_PRIVATE_P256_MAGIC else WinEcdh.BCRYPT_ECDH_PUBLIC_P256_MAGIC)
             (size toy_private) (fst toy_point) (snd toy_point) (if p then toy_private else []))
   | BCryptGetProperty_ecc_size _ => (0, 1)
   | BCryptGetProperty_ecc _ _ => (0, [x2a])
   | CertOpenStore_memory => 4%N
   | CertCreateCertificateContext _ => 5%N
   | CertAddCertificateContextToStore _ _ | CertCompareCertificateName _ | CertComparePublicKeyInfo _ _
   | CertCompareCertificate _ _ => true
   | CertGetCertificateChain _ _ _ => Some toy_chain
   | CertVerifyCertificateChainPolicy_base _ _ => Some 0
   | dwCertEncodingType _ => 1
   | CertNameToStr_size _ => size toy_subject
   | CertNameToStr _ _ => toy_subject
   | CryptImportPublicKeyInfo _ => Some 8%N
   | BCryptSignHash_size _ _ => (0, 1)
   | BCryptSignHash _ _ _ => (0, [x01])
   end, s).
#[refine, export]
Instance toy_ec_laws : EcLaws CryptCall unit :=
  {| ec_point _ := toy_point; ec_private _ := toy_private; der_params c := c; der_ecc := toy_pair;
     der_pkcs8 o c e := toy_pair (o ++ c) e; der_spki o c q := toy_pair (o ++ c) q; curve _ := [x2a];
     imported _ := 7%N |}.
Proof.
  all: intros; unfold handle; simpl; rewrite ?toy_unpair_pair; eauto; split_and!; done.
Defined.

Definition toy_ecdh : WinEcdh.BcryptECDiffieHellman :=
  {| WinEcdh.hEccKeyHandle := 3%N; WinEcdh.hSharedSecret := 0%N; WinEcdh.hEcHandle := 2%N |}.
Theorem win_key_round_trip_witness :
  exists der, res (WinEcdh.ExportPkcs8PrivateKey (F := CryptCall) toy_ecdh tt) = Ret der /\
    res (WinEcdh.ImportPkcs8PrivateKey (F := CryptCall) toy_ecdh der tt) = Ret (WinEcdh.with_key toy_ecdh 7%N).
Proof. exact (proj1 (win_key_round_trip (F := CryptCall) (EcLaws0 := toy_ec_laws) toy_ecdh toy_ecdh tt tt)). Defined.

(** A private number of one byte with coordinates of two. *)
Definition short_key : bytes := toy_pair [] (toy_pair [x05] (x04 :: [x01; x02] ++ [x03; x04])).
Theorem win_import_layout_witness :
  res (WinEcdh.ImportPkcs8PrivateKey (F := CryptCall) toy_ecdh short_key tt) = Fault UndefinedBehaviour.
Proof.
  refine (proj2 (win_import_layout (F := CryptCall) toy_ecdh short_key (toy_pair [x05] (x04 :: [x01; x02] ++ [x03; x04]))
    [x05] x04 [x01; x02] [x03; x04] tt tt tt _ _ _ _ _ _) _); vm_compute; try reflexivity; split; reflexivity.
Defined.

Definition toy_x509 : WinX509.WincryptX509 :=
  {| WinX509.leafPrivateKey := 0%N; WinX509.hStore := 4%N; WinX509.rootCertContexts := [5%N];
     WinX509.pLeafCertContext := Some 6%N; WinX509.chainContext := WinX509.Chain toy_chain |}.
Theorem win_chain_trusted_witness :
  let run := WinX509.VerifyCertChain (F := CryptCall) toy_x509 (str ".SecureCPSProvisioning.cloudapp.net") tt in
  res run = Ret true /\ exists c, chain_trusted (F := CryptCall) toy_x509 c (evs run).
Proof.
  intros run. assert (Hr : res run = Ret true) by vm_eq. split; [exact Hr|].
  destruct (win_chain_trusted (F := CryptCall) toy_x509 (str ".SecureCPSProvisioning.cloudapp.net") tt Hr) as (c & _ & Hc & _).
  exists c. exact Hc.
Defined.
