(* ===== verification/BaseX509.v ===== *)
(** * The interface of a certificate verifier

    BaseX509.h: the trusted roots, and the abstract class of which [OsslX509] (LinuxX509.v) and
    [WincryptX509] (WindowsX509.v) are the implementations. The tokens of Jwt.v are verified through
    it. [X509Laws] is what an implementation promises to them: in the words of its own platform,
    what the calls of a run show when an operation succeeds. [X509Errors] says that the status codes
    in its exceptions are failures. *)

From S2P Require Import Prelude Base64 ReturnCodes.

Definition CCME_ROOTCERT_PEM : bytes :=
  str "MIIFhDCCA2ygAwIBAgIQTCbDKjrVHLNOviLgKTAe8DANBgkqhkiG9w0BAQwFADBT" ++
  str "MQswCQYDVQQGEwJVUzEeMBwGA1UEChMVTWljcm9zb2Z0IENvcnBvcmF0aW9uMSQw" ++
  str "IgYDVQQDExtDb21tZXJjaWFsIENsb3VkIFJvb3QgQ0EgUjEwHhcNMjQwMjAxMTk1" ++
  str "OTI1WhcNNDkwMjAxMjAwMzE2WjBTMQswCQYDVQQGEwJVUzEeMBwGA1UEChMVTWlj" ++
  str "cm9zb2Z0IENvcnBvcmF0aW9uMSQwIgYDVQQDExtDb21tZXJjaWFsIENsb3VkIFJv" ++
  str "b3QgQ0EgUjEwggIiMA0GCSqGSIb3DQEBAQUAA4ICDwAwggIKAoICAQDTwMFmax0Q" ++
  str "hSWxFgxn7YTeYgS9p/hyANNaEuEX389F6w4C3/ZPy4FsQcndVCoG9/auigXnXl6k" ++
  str "PJjN00ZBo6kdJsWuyMqahGw1NlK4Ls9W+yCGcpQ9Lma6xgVip3PCZqgylj6Flz2Q" ++
  str "BXb9MZkfHUKitbpNdDzc8HnDZtItuCOzHu0/G8iVUdwrHc9wrN6TleVjWz9ABtqe" ++
  str "uazmwNzkR+hXQTFL0A2QRlcTO2tNjROHQQoWOTuODxA/LsEKDOAG5WfRIrdYMxIg" ++
  str "+rb+xq5SBz8toxpYkbYbF0/kzqxOgxOPd2qZkCaL9XTW02X/dwW84eit+LKSoCId" ++
  str "X/rTka5/OJ4IUd2yeUSoqUeOCXyVUzcfDGQ3DJ78toPFicmrmJDex0Lk2IsMUXfS" ++
  str "knkjTSH9Tb8snQ4CrSNuvoa1oI8XeKaUhztbEoA8/iwSd52v94mCjKetJzBCKx7l" ++
  str "0GKdTvSJoQS84K87cmg/G9M2TvBSQCTELoU4291/fAUJnYw7IB5HXs2aPoAetanX" ++
  str "YlTJO+Q35tjbclteOQCb9bQEt9y2gBU13CZ8Jh2ziil5HecXl6REQGZx9wt4xWA/" ++
  str "OIIWUQj9VAgXz/f7j8egczMGU8lHhjTmbheEZvGj3iOflCc6Dp8hMuzcAP2AjwCI" ++
  str "Pq3ewmOB5qwr/p74pkig1cQzoEHNa2iGiwIDAQABo1QwUjAOBgNVHQ8BAf8EBAMC" ++
  str "AYYwDwYDVR0TAQH/BAUwAwEB/zAdBgNVHQ4EFgQUY9kBqf8QzJCzvCBUPb1GOfkS" ++
  str "Ca0wEAYJKwYBBAGCNxUBBAMCAQAwDQYJKoZIhvcNAQEMBQADggIBALuU6qG+BqzG" ++
  str "O86hcICm8U/Dv9r3k/XCm88oR8oerTeuhBxxNfFqz2hUmYjcWwYLguLZqY+jgH3I" ++
  str "VR5YCufvF+FLl1DEoh+6PWLpMImF+ib5VNHD+Dyaj+3joJu1913BcEQ/SkDkuJQ9" ++
  str "hY7Gpq2SO3lwHSdpc94pH+OZqy73mIpMuymDpHvrS1CnnC6c/yxP+80+XsF9bBGQ" ++
  str "2L4xhLIU7U+Tpi0uBIstJit2dcoEY9MsXJlBcf+RUlNFgHYdfbdXppad84/aDqed" ++
  str "z1djNeXnGVwxVWO/iH2sKa/ARNLfU/jokPNReiRSdgAStRlk+vI9W2j+vezuHP+1" ++
  str "OyY7nUAqiJhSq9LT/DAS5rqpJxB+XPQFCOAIkQT1t+oHCweBQbOCx4r8VS+XSSGV" ++
  str "CnEKihpi4bxVa9VXnyhHd7ObestJ2cAo8B27cMZ62WBQhL78l7pfzebmaJobWvPL" ++
  str "i4NQXGMwOpcsGebX2FrrjpvGeybYY5x+9eGoQXmDfIQmWCeBBAegHZCKUjwYUw8e" ++
  str "GtvKeyjIgX+cxLm6aLGFZnrwOpDaAANfkl4Zc50S+EAl4Lm81Cmp9vZOfTKjqS3z" ++
  str "o/8fr9+A4SYRYNKS+JZvsrChuJLtBa9ICCaCMN7ljXQ0yCm+RTICc2ENP4truMD1" ++
  str "fhnj9p0gY/wn0HhBJB8oSdSu29f0nP/Y".

Definition CPSROOT_CERT_PEM : bytes :=
  str "MIIFWDCCA0CgAwIBAgIQHJOSmEiKe55AxeRq7d4cGjANBgkqhkiG9w0BAQ0FADA9" ++
  str "MTswOQYDVQQDEzJBenVyZSBDb25maWRlbnRpYWwgQ2xvdWQgUHJvdmlzaW9uaW5n" ++
  str "IFJvb3QgQ0EgMjAyNjAeFw0yNjAzMzExOTQ2NTJaFw00MTAzMzExOTQ3MzJaMD0x" ++
  str "OzA5BgNVBAMTMkF6dXJlIENvbmZpZGVudGlhbCBDbG91ZCBQcm92aXNpb25pbmcg" ++
  str "Um9vdCBDQSAyMDI2MIICIjANBgkqhkiG9w0BAQEFAAOCAg8AMIICCgKCAgEAo/L5" ++
  str "KXPIF5DV5aims+EAZrf/5EdhAou5eVqAd7x07plgW8UWY8ebfD8rY9OdH+4OPHUf" ++
  str "9PLqjQ9Wjt6yg5u300s8JAlz8ceBb5eSIcVoexdsq6PMh9w0Us1cjGSn1LZe/Rdl" ++
  str "+rTq8dhknBRXP8zbnkdXFGPnQZeLJTO9J0Cy6PpNRg/7ZD6O38WIc1yoVRIZ8yLm" ++
  str "CJSmVC5NI1ZvKylPJkzMV+jV28YB//eVHUohU0HpYDn+gsUcNOSPvanFg1mns+aE" ++
  str "hSZQ55g95Wp4v2//nwQAh0NYJcb/PS4r6P023vZXbXrz+2idNkVaw9kGYzxValeH" ++
  str "3T7YAJ3wuzflwatXuz1LAg4/bwfN1kN20YP7fPlVPqv15mWDS0iI5RwgdULGT3u7" ++
  str "7tbhZSiTtKkIbxO4nmMN3DPotXC+WYxQsK0JSMqOMh9BFEAqzBNBiDatCwhq1a2u" ++
  str "j9YFSR9TIluziMRdsNWS+8MtPxc1YWmoERuE4EBA8NSxnBG4tpXLNFUx5XjaqQtC" ++
  str "HLikQJjSRnb5hpdHoWLySM5VPvi/kBaVNjQhrKIqsMuwbKci/1Yjm/EA1I5nn1u0" ++
  str "lQok0h2Cac5XTvjmHxoU6NYFcW5es7ScfvE0B0hmD0XsZZ0XXZPrsl1lCFnyd/xk" ++
  str "neWuXmetPjk3Y/CLQJnmM3x6Qnum8qUQl12XWwkCAwEAAaNUMFIwDgYDVR0PAQH/" ++
  str "BAQDAgGGMA8GA1UdEwEB/wQFMAMBAf8wHQYDVR0OBBYEFABAeLVKaAhxnOCYVb8o" ++
  str "ilYVsvvYMBAGCSsGAQQBgjcVAQQDAgEAMA0GCSqGSIb3DQEBDQUAA4ICAQBiTnDJ" ++
  str "mFIKHw2MaSX23ugTBj5p99HxqyFNgFEEjzNByftefxQjfM7dsOj4WHFTBB1yIUJH" ++
  str "mvP2my7lfyUwO+S/PXR7OXOgkS+u0MQG/EsyIk+LNOtXm/FPcYzWvMQX72Da+U3" ++
  str "jOYXvH0Bpvxdwj/KaFkreh7TTK3GCmnR0IrRQWEdVZN6kI0SaFYXtae8X+KCeI3Z" ++
  str "9wemuqk/QEPZbo2LXVFFpwlbLJupu3bImYeMyPnNFTPkqDdiSRKUrhEMS6l46ztJ" ++
  str "WRz8WryPhkh5puxpfuv8jnno52Q6gKCewn4sPzSfql8QeoAAII35ZPxFpCTjWPDD" ++
  str "7Nq26t22gfmQmN1Sh0JzdX/DU0/BIPXNgMnrOKPSpka2SrYy+4nndoRFtWw8Hox/" ++
  str "M2v7gVYZX7NYQD02wD/WJIymJ6QPdyMK10I6XXvZwzbcIxgfMl+OjaLr//IMCEnH" ++
  str "4+0Kl5dsc61jKO+geDxZT6S/3zNWHVRUJpt8nBij0PIXGMeBFN/3W4C98lNHcsMC" ++
  str "YzEIzwNEd/lyT38UIFTrXc+Jl2zTexj+5L1gyeEY10x5zanqr1PNS3puE0kHxSfi" ++
  str "oPYka4T+9uNfHLY+KfWDxCHLnpoxRNCpEVJ6wF5GQU1PJ6dCKCxLTgiMy2Rp9h1s" ++
  str "d3B4rQT/DECkXDwOzJRQrdgUJo/8YZ2E9OhGK3A==".

Definition GetTrustedRoots : list bytes := [CCME_ROOTCERT_PEM; CPSROOT_CERT_PEM].


(** The operations, the default constructor with the roots it takes, and the catch clause of
    [ParseToken] for the errors of the platform: the exception that is thrown instead. *)
Class BaseX509 (F : Type -> Type) (S : Type) := {
  X509Object : Type;
  default_roots : list bytes;
  x509_default : M F S X509Object;
  x509_load_leaf : X509Object -> bytes -> M F S X509Object;
  x509_load_intermediate : X509Object -> bytes -> M F S X509Object;
  x509_verify_chain : X509Object -> bytes -> M F S bool;
  x509_verify_signature : X509Object -> bytes -> bytes -> M F S bool;
  x509_catch : exn -> option exn }.

(** [holds_roots x t]: the roots of [x] were read from [default_roots]; [holds_leaf x der t]: its leaf
    was read from [der]; the other predicates are the checks. *)
Class X509Laws (F : Type -> Type) (S : Type) `{BaseX509 F S} `{BoostBase64, BoostString} := {
  holds_roots : X509Object -> list (event F) -> Prop;
  holds_leaf : X509Object -> bytes -> list (event F) -> Prop;
  chain_ok : X509Object -> list (event F) -> Prop;
  subject_ok : X509Object -> bytes -> list (event F) -> Prop;
  signature_ok : X509Object -> bytes -> bytes -> list (event F) -> Prop;
  x509_call : event F -> Prop;
  roots_mono x t t' : t ⊆ t' -> holds_roots x t -> holds_roots x t';
  leaf_mono x der t t' : t ⊆ t' -> holds_leaf x der t -> holds_leaf x der t';
  chain_mono x t t' : t ⊆ t' -> chain_ok x t -> chain_ok x t';
  subject_mono x suffix t t' : t ⊆ t' -> subject_ok x suffix t -> subject_ok x suffix t';
  signature_mono x data sig t t' : t ⊆ t' -> signature_ok x data sig t -> signature_ok x data sig t';
  default_ends : ends (fun x t => holds_roots x t) x509_default;
  intermediate_ends x text :
    ends (fun x' _ => forall t, holds_roots x t -> holds_roots x' t) (x509_load_intermediate x text);
  leaf_ends x text :
    ends (fun x' t => (forall t0, holds_roots x t0 -> holds_roots x' t0) /\
            exists der, Encoders.base64_decode (c_str text) = Ret der /\ holds_leaf x' der t)
         (x509_load_leaf x text);
  chain_ends x suffix :
    ends (fun b t => b = true -> chain_ok x t /\ subject_ok x suffix t) (x509_verify_chain x suffix);
  signature_ends x data sig :
    ends (fun b t => b = true -> signature_ok x data sig t) (x509_verify_signature x data sig);
  default_emits : emits x509_call x509_default;
  intermediate_emits x text : emits x509_call (x509_load_intermediate x text);
  leaf_emits x text : emits x509_call (x509_load_leaf x text);
  chain_emits x suffix : emits x509_call (x509_verify_chain x suffix);
  signature_emits x data sig : emits x509_call (x509_verify_signature x data sig) }.

Class X509Errors (F : Type -> Type) (S : Type) `{BaseX509 F S} : Prop := {
  default_coded : throws coded x509_default;
  intermediate_coded x text : throws coded (x509_load_intermediate x text);
  leaf_coded x text : throws coded (x509_load_leaf x text);
  chain_coded x suffix : throws coded (x509_verify_chain x suffix);
  signature_coded x data sig : throws coded (x509_verify_signature x data sig);
  catch_coded e e' : coded e -> x509_catch e = Some e' -> coded e' }.

#[export] Hint Resolve default_emits intermediate_emits leaf_emits chain_emits signature_emits : emits.
#[export] Hint Resolve default_coded intermediate_coded leaf_coded chain_coded signature_coded : throws.

Lemma coded_decode `{BoostBase64Laws} t : othrows coded (Encoders.base64_decode t).
Proof. by apply decode_throws. Qed.
