(* ===== verification/LinuxX509.v ===== *)
(** * Certificates on Linux: [OsslX509] implements [BaseX509]

    Linux/OsslX509.cpp is modelled in Ossl.v; this file gives it the interface of BaseX509.h. Its
    default constructor takes both trusted roots. *)

From S2P Require Import Prelude Base64 ReturnCodes Ossl BaseX509.

(** [catch (OsslError& e)] *)
Definition ossl_clause (e : exn) : option exn :=
  match e with OsslErr _ w => Some (JwtErr w (error_code GeneralError)) | _ => None end.

#[export] Instance OpensslX509 {F S} `{Handler F S} `{OsslCall -< F} `{BoostBase64, BoostString} : BaseX509 F S :=
  {| X509Object := X509.OsslX509;
     default_roots := GetTrustedRoots;
     x509_default := X509.new_OsslX509 GetTrustedRoots;
     x509_load_leaf := X509.LoadLeafCertificate;
     x509_load_intermediate := X509.LoadIntermediateCertificate;
     x509_verify_chain := X509.VerifyCertChain;
     x509_verify_signature := X509.VerifySignature;
     x509_catch := ossl_clause |}.

Section Facts.
Context {F : Type -> Type} {S : Type} `{HF : Handler F S} `{HO : OsslCall -< F}.
Context `{Bb : BoostBase64, Bs : BoostString}.

(** Each root of [x] is a copy of a certificate read from the text of a trusted root. *)
Definition trusted_roots (x : X509.OsslX509) (t : list (event F)) : Prop :=
  forall r, r ∈ X509.rootCertContexts x -> exists text der cert,
    text ∈ GetTrustedRoots /\ Encoders.base64_decode (c_str text) = Ret der /\
    Ev (inj (d2i_X509 der)) cert ∈ t /\ Ev (inj (X509_dup cert)) r ∈ t.

Lemma trusted_roots_mono x (t t' : list (event F)) :
  t ⊆ t' -> trusted_roots x t -> trusted_roots x t'.
Proof.
  intros Ht Hx r Hr. destruct (Hx r Hr) as (text & der & cert & ? & ? & ? & ?).
  exists text, der, cert. split_and!; auto.
Qed.

Lemma load_roots_spec st roots s :
  wp (X509.load_roots st roots) s (fun o _ t => forall rs, o = Ret rs ->
    forall r, r ∈ rs -> exists text der cert,
      text ∈ roots /\ Encoders.base64_decode (c_str text) = Ret der /\
      Ev (inj (d2i_X509 der)) cert ∈ t /\ Ev (inj (X509_dup cert)) r ∈ t).
Proof.
  revert s. induction roots as [|text roots IH]; intros s; simpl.
  { wp_step. intros rs [= <-] r Hr. by apply elem_of_nil in Hr. }
  unfold X509.LoadCertificate. wp_step. wp_step.
  destruct (Encoders.base64_decode _) as [der|e|f] eqn:Ed; [|done..].
  wp_go; try done. eapply wp_mono; [apply IH|]. intros [rs|e|f] s' t Hr; try done.
  wp_step. intros rs' [= <-] r' [->|Hin]%elem_of_cons.
  - exists text, der, r. split_and!; eauto 9 with trace.
  - destruct (Hr rs eq_refl r' Hin) as (tx & der' & cert & ? & ? & ? & ?).
    exists tx, der', cert. split_and!; eauto 9 with trace.
Qed.

Lemma new_OsslX509_spec s :
  wp (X509.new_OsslX509 GetTrustedRoots) s (fun o _ t => forall x, o = Ret x -> trusted_roots x t).
Proof.
  unfold X509.new_OsslX509. wp_go; try done.
  eapply wp_mono; [apply load_roots_spec|]. intros [rs|e|f] s' t Hr; try done.
  wp_go. intros x [= <-] r' Hin.
  destruct (Hr rs eq_refl r' Hin) as (tx & der' & cert & ? & ? & ? & ?).
  exists tx, der', cert. split_and!; eauto 9 with trace.
Qed.

Lemma LoadIntermediate_spec x text :
  yields (fun x' => X509.rootCertContexts x' = X509.rootCertContexts x)
    (X509.LoadIntermediateCertificate (F := F) (S := S) x text).
Proof. unfold X509.LoadIntermediateCertificate, X509.LoadCertificate. yields_go; done. Qed.

Lemma LoadLeaf_spec x text s :
  wp (X509.LoadLeafCertificate x text) s (fun o _ t => forall x', o = Ret x' ->
    X509.rootCertContexts x' = X509.rootCertContexts x /\
    exists der, Encoders.base64_decode (c_str text) = Ret der /\
      Ev (inj (d2i_X509 der)) (X509.leaf_cert x') ∈ t).
Proof.
  unfold X509.LoadLeafCertificate, X509.LoadCertificate. wp_step. wp_step.
  destruct (Encoders.base64_decode _) as [der|e|f] eqn:Ed; [|done..].
  wp_go; try done. intros x' [= <-]. split; [done|]. exists der. eauto with trace.
Qed.

(** A call to OpenSSL. *)
Definition is_ossl (ev : event F) : Prop :=
  exists (R : Type) (e : OsslCall R) (r : R), ev = Ev (inj e) r.
Lemma ossl_call {R} (e : OsslCall R) r : is_ossl (Ev (inj e) r).
Proof. by exists R, e, r. Qed.
Hint Resolve ossl_call : emits.

Lemma emits_roots st l : emits is_ossl (X509.load_roots (F := F) (S := S) st l).
Proof. induction l; simpl; unfold X509.LoadCertificate; emits_go. Qed.
Lemma emits_matches a l : emits is_ossl (X509.root_matches (F := F) (S := S) a l).
Proof. induction l; simpl; emits_go. Qed.
Hint Resolve emits_roots emits_matches : emits.

#[export] Instance openssl_laws : X509Laws F S.
Proof.
  refine {| holds_roots := trusted_roots;
            holds_leaf x der t := Ev (inj (d2i_X509 der)) (X509.leaf_cert x) ∈ t;
            chain_ok := chain_verified; subject_ok := subject_verified;
            signature_ok := signature_verified; x509_call := is_ossl |}; cbn [x509_default
    x509_load_leaf x509_load_intermediate x509_verify_chain x509_verify_signature OpensslX509].
  - apply trusted_roots_mono.
  - intros x der t t' Ht Hev. auto.
  - apply chain_verified_mono.
  - apply subject_verified_mono.
  - apply signature_verified_mono.
  - intros s a Ha. by apply (new_OsslX509_spec s).
  - intros x text s x' Hx t Ht r Hr. apply Ht. by rewrite <- (LoadIntermediate_spec x text s x' Hx).
  - intros x text s x' Hx. destruct (LoadLeaf_spec x text s x' Hx) as (Hr & der & Hd & Hev).
    split; [|by exists der]. intros t0 Ht r Hin. apply Ht. by rewrite <- Hr.
  - intros x suffix s b Hb ->. by apply (VerifyCertChain_spec x suffix s).
  - intros x data sig s b Hb ->. by apply (VerifySignature_spec x data sig s).
  - unfold X509.new_OsslX509. emits_go.
  - intros x text. unfold X509.LoadIntermediateCertificate, X509.LoadCertificate. emits_go.
  - intros x text. unfold X509.LoadLeafCertificate, X509.LoadCertificate. emits_go.
  - intros x suffix. unfold X509.VerifyCertChain, X509.VerifySubjectSuffix, X509.GetCommonName,
      X509.VerifyChainTerminatesAtRoot. emits_go.
  - intros x data sig. unfold X509.VerifySignature, must_be_one, throw_ossl. emits_go.
Defined.

Section Errors.
Context `{!BoostBase64Laws}.

Lemma coded_ossl {A} w : throws coded (throw_ossl (F := F) (S := S) (A := A) w).
Proof. unfold throw_ossl. coded_go. Qed.
Lemma coded_one rc w : throws coded (must_be_one (F := F) (S := S) rc w).
Proof. unfold must_be_one. coded_go. apply coded_ossl. Qed.
Hint Resolve coded_decode coded_ossl coded_one : throws.
Lemma coded_load_roots st r : throws coded (X509.load_roots (F := F) (S := S) st r).
Proof. induction r; simpl; unfold X509.LoadCertificate; coded_go. Qed.
Lemma coded_root_matches a r : throws coded (X509.root_matches (F := F) (S := S) a r).
Proof. induction r; simpl; coded_go. Qed.
Hint Resolve coded_load_roots coded_root_matches : throws.

#[export] Instance openssl_errors : X509Errors F S.
Proof.
  split; cbn [x509_default x509_load_leaf x509_load_intermediate x509_verify_chain
    x509_verify_signature x509_catch OpensslX509].
  - unfold X509.new_OsslX509. coded_go.
  - intros x text. unfold X509.LoadIntermediateCertificate, X509.LoadCertificate. coded_go.
  - intros x text. unfold X509.LoadLeafCertificate, X509.LoadCertificate. coded_go.
  - intros x suffix. unfold X509.VerifyCertChain, X509.VerifySubjectSuffix, X509.GetCommonName,
      X509.VerifyChainTerminatesAtRoot. coded_go.
  - intros x data sig. unfold X509.VerifySignature. coded_go.
  - intros e e' _ He. destruct e as [| | | | | | | |code w| | | | | | |]; try discriminate.
    assert (e' = JwtErr w (error_code GeneralError)) as -> by (unfold ossl_clause in He; congruence). coded_leaf.
Qed.
End Errors.
End Facts.
