(* ===== verification/Accepts.v ===== *)
(** * When certificates are accepted

    BaseX509.v says what follows when a platform accepts a certificate; [X509Accepts] is the converse: a
    readable chain to one of the default roots, with the right name, is accepted, and so are the
    signatures of its leaf. [openssl_accepts]: OsslX509.cpp does, when OpenSSL finds the path. *)

From S2P Require Import Prelude Base64 ReturnCodes Ossl BaseX509 LinuxX509.
#[local] Open Scope Z_scope.

(** [loaded s x l leaf]: [x] has the default roots, the intermediate certificates [l] and the leaf. *)
Class X509Accepts (F : Type -> Type) (S : Type) `{BaseX509 F S} := {
  readable : bytes -> Prop;
  trusted : bytes -> list bytes -> bytes -> Prop;
  signed_by : bytes -> bytes -> bytes -> Prop;
  loaded : S -> X509Object -> list bytes -> option bytes -> Prop;
  default_loads s : delivers x509_default s (fun x s' => loaded s' x [] None);
  intermediate_loads s x l text : loaded s x l None -> readable text ->
    delivers (x509_load_intermediate x text) s (fun x' s' => loaded s' x' (l ++ [text]) None);
  leaf_loads s x l text : loaded s x l None -> readable text ->
    delivers (x509_load_leaf x text) s (fun x' s' => loaded s' x' l (Some text));
  chain_accepts s x l leaf suffix : loaded s x l (Some leaf) -> trusted leaf l suffix ->
    delivers (x509_verify_chain x suffix) s (fun b _ => b = true);
  signature_accepts s0 s x l leaf data sig : loaded s0 x l (Some leaf) -> signed_by leaf data sig ->
    delivers (x509_verify_signature x data sig) s (fun b _ => b = true) }.

(** ** OpenSSL *)

(** How far a context has come: what was to be verified, the end of the path that was found, and the
    data of a signature. *)
Inductive verify_stage := NoVerify | Ready (store : ptr) (leaf : bytes) (inters : list bytes) | Verified (anchor : bytes).
(** [cert_of], [name_of], [entry_of]: what a handle stands for. [path t leaf l anchor]: [l] completes a path
    of certificates that is valid at time [t]. Certificates stay in the store. *)
Class OsslPaths (F : Type -> Type) (S : Type) `{Handler F S} `{OsslCall -< F} := {
  cert_of : ptr -> bytes;
  name_of : ptr -> bytes;
  well_formed_cert : bytes -> Prop;
  subject : bytes -> bytes;
  issuer : bytes -> bytes;
  common_name : bytes -> bytes;
  path : Z -> bytes -> list bytes -> bytes -> Prop;
  verifies : bytes -> bytes -> bytes -> Prop;
  in_store : S -> ptr -> bytes -> Prop;
  now : S -> Z;
  time_passes {R} s (e : OsslCall R) : now s <= now (snd (handle (inj e) s));
  verifying : S -> ptr -> verify_stage;
  digesting : S -> ptr -> option (bytes * bytes);
  store_kept {R} s (e : OsslCall R) st c : in_store s st c -> in_store (snd (handle (inj e) s)) st c;
  store_new s : is_null (fst (handle (inj X509_STORE_new) s)) = false;
  stack_new s : is_null (fst (handle (inj sk_X509_new_null) s)) = false;
  cert_read s der : well_formed_cert der -> let c := fst (handle (inj (d2i_X509 der)) s) in
    is_null c = false /\ cert_of c = der;
  store_add s st c : exists s', handle (inj (X509_STORE_add_cert st c)) s = (1, s') /\ in_store s' st (cert_of c);
  cert_dup s c : is_null c = false -> let d := fst (handle (inj (X509_dup c)) s) in is_null d = false /\ cert_of d = cert_of c;
  stack_push s k c : fst (handle (inj (sk_X509_push k c)) s) <> 0;
  verify_new s : is_null (fst (handle (inj X509_STORE_CTX_new) s)) = false;
  verify_init s x st leaf l : exists s', handle (inj (X509_STORE_CTX_init x st leaf l)) s = (1, s') /\
    verifying s' x = Ready st (cert_of leaf) (map cert_of l);
  verify_flags s x f : verifying (snd (handle (inj (X509_STORE_CTX_set_flags x f)) s)) x = verifying s x;
  verify_path s x st leaf l anchor : verifying s x = Ready st leaf l -> path (now s) leaf l anchor -> in_store s st anchor ->
    exists s', handle (inj (X509_verify_cert x)) s = (1, s') /\ verifying s' x = Verified anchor;
  (* reading names leaves the contexts as they are *)
  name_kept {R} s (e : OsslCall R) x :
    match e with
    | X509_get_subject_name _ | X509_NAME_get_index_by_NID _ _ _ | X509_NAME_get_entry _ _ | X509_NAME_ENTRY_get_data _ => True
    | _ => False
    end -> verifying (snd (handle (inj e) s)) x = verifying s x;
  verified_chain s x anchor : verifying s x = Verified anchor -> exists ch c,
    fst (handle (inj (X509_STORE_CTX_get0_chain x)) s) = Some ch /\ last ch = Some c /\ is_null c = false /\ cert_of c = anchor;
  subject_read s c : is_null c = false -> let n := fst (handle (inj (X509_get_subject_name c)) s) in is_null n = false /\ name_of n = subject (cert_of c);
  issuer_read s c : is_null c = false -> let n := fst (handle (inj (X509_get_issuer_name c)) s) in is_null n = false /\ name_of n = issuer (cert_of c);
  names_equal s n m : name_of n = name_of m -> fst (handle (inj (X509_NAME_cmp n m)) s) = 0;
  certs_equal s c d : cert_of c = cert_of d -> fst (handle (inj (X509_cmp c d)) s) = 0;
  name_index s n : 0 <= fst (handle (inj (X509_NAME_get_index_by_NID n X509.NID_commonName (-1))) s);
  name_entry s n i : is_null n = false -> let e := fst (handle (inj (X509_NAME_get_entry n i)) s) in
    is_null e = false /\ forall s', fst (handle (inj (X509_NAME_ENTRY_get_data e)) s') = Some (common_name (name_of n));
  key_read s c : is_null c = false -> let k := fst (handle (inj (X509_get_pubkey c)) s) in is_null k = false /\ cert_of k = cert_of c;
  md_new s : is_null (fst (handle (inj EVP_MD_CTX_new) s)) = false;
  md_init s x k : exists s', handle (inj (EVP_DigestVerifyInit x SHA256 k)) s = (1, s') /\ digesting s' x = Some (cert_of k, []);
  md_update s x k d d' : digesting s x = Some (k, d) ->
    exists s', handle (inj (EVP_DigestVerifyUpdate x d')) s = (1, s') /\ digesting s' x = Some (k, d ++ d');
  md_final s x k d sig : digesting s x = Some (k, d) -> verifies k d sig ->
    fst (handle (inj (EVP_DigestVerifyFinal x sig)) s) = 1 }.

Section OpenSSL.
Context {F : Type -> Type} {S : Type} `{HF : Handler F S} `{HO : OsslCall -< F} `{OP : !OsslPaths F S}.
Context `{Bb : BoostBase64, Bs : BoostString}.
Import X509.

(** The text is base64 of a certificate. *)
Definition cert_text (text der : bytes) : Prop :=
  Encoders.base64_decode (c_str text) = Ret der /\ well_formed_cert der.

Lemma delivers_load der s : well_formed_cert der ->
  delivers (LoadCertificate der) s (fun c s' => is_null c = false /\ cert_of c = der /\
    forall st a, in_store s st a -> in_store s' st a).
Proof.
  intros Hd. unfold LoadCertificate. destruct (cert_read s der Hd) as [Hn Hc].
  eapply next_answer; [reflexivity|]. rewrite Hn. apply next_true, delivers_ret. split_and!; [done|done|].
  intros st a. apply store_kept.
Qed.
Lemma delivers_load_roots st roots : forall ders s, Forall2 cert_text roots ders ->
  delivers (load_roots st roots) s (fun rs s' => map cert_of rs = ders /\ (forall a, a ∈ ders -> in_store s' st a) /\
    forall a, in_store s st a -> in_store s' st a).
Proof.
  induction roots as [|text roots IH]; intros ders s Hall; apply Forall2_cons_inv_l in Hall || apply Forall2_nil_inv_l in Hall.
  - subst ders. apply delivers_ret. split_and!; [done| |done]. intros a Ha. by apply elem_of_nil in Ha.
  - destruct Hall as (der & ders' & [Hdec Hwf] & Hall & ->). cbn [load_roots]. eapply next_lift; [exact Hdec|].
    apply delivers_bind. eapply delivers_mono; [by apply delivers_load|]. intros c s1 (Hcn & Hc & Hk1).
    destruct (store_add s1 st c) as (s2 & E2 & Hin). pose proof (store_kept s1 (X509_STORE_add_cert st c)) as Hk2. rewrite E2 in Hk2.
    eapply next_call; [exact E2|]. apply next_true.
    destruct (cert_dup s2 c Hcn) as [Hdn Hdc]. eapply next_answer; [reflexivity|]. rewrite Hdn. apply next_true.
    set (d := fst _) in *. apply delivers_bind. eapply delivers_mono; [by apply IH|]. intros rs s3 (Hrs & Hders & Hk3).
    apply delivers_ret. cbn [map]. rewrite Hdc, Hc, Hrs in *. split_and!; [done| |].
    + intros a [->|Ha]%elem_of_cons; [|by apply Hders]. by apply Hk3, store_kept.
    + intros a Ha. by apply Hk3, store_kept, (Hk2 st a), Hk1.
Qed.

(** [x] was made with the roots [ders], whose texts it has read, and has loaded [l] and the leaf. *)
Definition ossl_loaded (ders : list bytes) (s : S) (x : OsslX509) (l : list bytes) (leaf : option bytes) : Prop :=
  (forall a, a ∈ ders -> in_store s (store x) a) /\ map cert_of (rootCertContexts x) = ders /\
  Forall2 (fun text c => cert_text text (cert_of c)) l (intermediate_certs x) /\
  match leaf with Some text => is_null (leaf_cert x) = false /\ cert_text text (cert_of (leaf_cert x)) | None => True end.
(** From time [t] on there is a path from the leaf to one of the roots, which is issued by itself, and the
    leaf's common name ends in the suffix. *)
Definition ossl_trusted (roots : list bytes) (t : Z) (leaf : bytes) (l : list bytes) (suffix : bytes) : Prop :=
  suffix <> [] /\ forall der ders, cert_text leaf der -> Forall2 cert_text l ders ->
    common_name (subject der) <> [] /\ suffix_matches (common_name (subject der)) suffix = true /\
    exists anchor, (forall s : S, t <= now s -> path (now s) der ders anchor) /\ anchor ∈ roots /\ subject anchor = issuer anchor.
Definition ossl_signed (leaf data sig : bytes) : Prop := forall der, cert_text leaf der -> verifies der data sig.

Lemma delivers_root_matches c roots : forall s, cert_of c ∈ map cert_of roots ->
  delivers (root_matches c roots) s (fun b _ => b = true).
Proof.
  induction roots as [|r roots IH]; intros s; cbn [map root_matches]; [by intros ?%elem_of_nil|]. intros Hin.
  destruct (fst (handle (inj (X509_cmp c r)) s) =? 0) eqn:E.
  - eapply next_answer; [reflexivity|]. rewrite E. by apply delivers_ret.
  - eapply next_answer; [reflexivity|]. rewrite E. apply IH. apply elem_of_cons in Hin as [Hin|Hin]; [|done].
    by rewrite certs_equal in E.
Qed.
Lemma delivers_suffix x suffix der s : is_null (leaf_cert x) = false -> cert_of (leaf_cert x) = der ->
  suffix <> [] -> common_name (subject der) <> [] -> suffix_matches (common_name (subject der)) suffix = true ->
  delivers (VerifySubjectSuffix x suffix) s (fun b s' => b = true /\ forall ctx, verifying s' ctx = verifying s ctx).
Proof.
  intros Hl Hc Hs Hne Hm. unfold VerifySubjectSuffix, GetCommonName. rewrite bool_decide_eq_false_2 by done. rewrite Hl.
  apply delivers_bind. destruct (subject_read s (leaf_cert x) Hl) as [Hn Hname].
  eapply next_answer; [reflexivity|]. rewrite Hn. set (n := fst _) in *. set (s1 := snd _).
  pose proof (name_index s1 n) as Hi. eapply next_answer; [reflexivity|]. rewrite (proj2 (Z.ltb_ge _ _)) by done.
  set (i := fst _). set (s2 := snd _). destruct (name_entry s2 n i Hn) as [He Hd].
  eapply next_answer; [reflexivity|]. rewrite He. set (e := fst _) in *. set (s3 := snd _).
  eapply next_answer; [apply Hd|]. apply delivers_ret. rewrite Hname, Hc. rewrite bool_decide_eq_false_2 by done.
  apply delivers_ret. split; [done|]. intros ctx. unfold s3, s2, s1. by rewrite !name_kept.
Qed.
Lemma delivers_terminates x ctx anchor s : verifying s ctx = Verified anchor ->
  anchor ∈ map cert_of (rootCertContexts x) -> subject anchor = issuer anchor ->
  delivers (VerifyChainTerminatesAtRoot x ctx) s (fun b _ => b = true).
Proof.
  intros Hv Hin Hself. unfold VerifyChainTerminatesAtRoot. destruct (verified_chain s ctx anchor Hv) as (ch & c & E & Hlast & Hn & Hc).
  eapply next_answer; [exact E|]. destruct ch as [|c0 cs]; [done|]. rewrite Hlast. cbn [default from_option id]. rewrite Hn.
  set (s1 := snd _). destruct (subject_read s1 c Hn) as [Hsn Hs]. eapply next_answer; [reflexivity|].
  set (n := fst _) in *. set (s2 := snd _). destruct (issuer_read s2 c Hn) as [Hin' Hi]. eapply next_answer; [reflexivity|].
  set (m := fst _) in *. rewrite Hsn, Hin'. cbn [orb]. eapply next_answer; [apply names_equal; by rewrite Hs, Hi, Hc|].
  cbn [Z.eqb negb]. apply delivers_root_matches. by rewrite Hc.
Qed.

Lemma delivers_new roots ders s : Forall2 cert_text roots ders ->
  delivers (new_OsslX509 roots) s (fun x s' => ossl_loaded ders s' x [] None).
Proof.
  intros Hall. unfold new_OsslX509. eapply next_answer; [reflexivity|]. set (s1 := snd _).
  eapply next_answer; [reflexivity|]. rewrite store_new, stack_new. apply next_true, next_true.
  eapply next_run; [by apply delivers_load_roots|]. intros rs s2 (Hrs & Hst & _).
  eapply next_answer; [reflexivity|]. apply delivers_ret. split_and!; [|done|by constructor|done].
  intros a Ha. by apply store_kept, Hst.
Qed.
Lemma delivers_intermediate roots s x l text der : ossl_loaded roots s x l None -> cert_text text der ->
  delivers (LoadIntermediateCertificate x text) s (fun x' s' => ossl_loaded roots s' x' (l ++ [text]) None).
Proof.
  intros (Hst & Hr & Hl & _) [Hd Hwf]. unfold LoadIntermediateCertificate.
  eapply next_lift; [exact Hd|]. eapply next_run; [by apply delivers_load|].
  intros c s1 (_ & Hc & Hk). eapply next_answer; [reflexivity|].
  rewrite (proj2 (Z.eqb_neq _ _)) by apply stack_push. apply next_true, delivers_ret.
  split_and!; cbn [store rootCertContexts intermediate_certs]; [|done| |done].
  - intros a Ha. by apply store_kept, Hk, Hst.
  - apply Forall2_app; [done|]. constructor; [|done]. by rewrite Hc.
Qed.
Lemma delivers_leaf roots s x l text der : ossl_loaded roots s x l None -> cert_text text der ->
  delivers (LoadLeafCertificate x text) s (fun x' s' => ossl_loaded roots s' x' l (Some text)).
Proof.
  intros (Hst & Hr & Hl & _) [Hd Hwf]. unfold LoadLeafCertificate.
  eapply next_lift; [exact Hd|]. eapply next_run; [by apply delivers_load|].
  intros c s1 (Hn & Hc & Hk). apply delivers_ret.
  split_and!; cbn [store rootCertContexts intermediate_certs leaf_cert]; [|done|done|done|by rewrite Hc].
  intros a Ha. by apply Hk, Hst.
Qed.
Lemma delivers_chain roots s x l leaf suffix : ossl_loaded roots s x l (Some leaf) ->
  ossl_trusted roots (now s) leaf l suffix -> delivers (VerifyCertChain x suffix) s (fun b _ => b = true).
Proof.
  intros (Hst & Hr & Hl & Hn & Hleaf) [Hsuf Ht].
  destruct (Ht (cert_of (leaf_cert x)) (map cert_of (intermediate_certs x)) Hleaf) as (Hcn & Hm & anchor & Hp & Ha & Hself).
  { by apply Forall2_fmap_r. }
  unfold VerifyCertChain. eapply next_answer; [reflexivity|]. set (ctx := fst _). rewrite (verify_new s : is_null ctx = false).
  pose proof (time_passes s X509_STORE_CTX_new) as T1. set (s1 := snd _) in *. apply next_true.
  destruct (verify_init s1 ctx (store x) (leaf_cert x) (intermediate_certs x)) as (s2 & E2 & V2).
  pose proof (store_kept s1 (X509_STORE_CTX_init ctx (store x) (leaf_cert x) (intermediate_certs x)) (store x) anchor) as K2.
  pose proof (time_passes s1 (X509_STORE_CTX_init ctx (store x) (leaf_cert x) (intermediate_certs x))) as T2. rewrite E2 in K2, T2. cbn [snd] in K2, T2.
  eapply next_call; [exact E2|]. apply next_true.
  pose proof (time_passes s2 (X509_STORE_CTX_set_flags ctx X509_V_FLAG_CHECK_SS_SIGNATURE)) as T3.
  eapply next_answer; [reflexivity|]. set (s3 := snd (handle _ s2)) in *.
  assert (V3 : verifying s3 ctx = Ready (store x) (cert_of (leaf_cert x)) (map cert_of (intermediate_certs x)))
    by (unfold s3; by rewrite verify_flags).
  destruct (verify_path s3 ctx _ _ _ anchor V3) as (s4 & E4 & V4); [apply Hp; lia|by apply store_kept, K2, store_kept, Hst|].
  eapply next_call; [exact E4|]. cbn [Z.eqb Pos.eqb].
  eapply next_run; [by eapply delivers_suffix|]. intros b s5 [-> Hv]. cbn [negb].
  eapply next_run; [eapply (delivers_terminates x ctx anchor); [by rewrite Hv|by rewrite Hr|done]|].
  intros b s6 ->. by apply delivers_ret.
Qed.
Lemma delivers_signature x der data sig s : is_null (leaf_cert x) = false -> cert_of (leaf_cert x) = der ->
  verifies der data sig -> delivers (VerifySignature x data sig) s (fun b _ => b = true).
Proof.
  intros Hnull Hder Hs. unfold VerifySignature.
  destruct (key_read s (leaf_cert x) Hnull) as [Hn Hc]. eapply next_answer; [reflexivity|]. rewrite Hn.
  set (k := fst _) in *. set (s1 := snd _). eapply next_answer; [reflexivity|]. rewrite md_new. set (ctx := fst _).
  destruct (md_init (snd (handle (inj EVP_MD_CTX_new) s1)) ctx k) as (s2 & E2 & D2). eapply next_call; [exact E2|].
  apply delivers_bind, delivers_ret. destruct (md_update s2 ctx _ _ data D2) as (s3 & E3 & D3). eapply next_call; [exact E3|].
  apply delivers_bind, delivers_ret. eapply next_answer; [apply (md_final s3 ctx _ _ sig D3); by rewrite Hc, Hder|by apply delivers_ret].
Qed.

(** With the library's own roots. *)
Context (root_ders : list bytes) (root_texts : Forall2 cert_text GetTrustedRoots root_ders).
#[refine] Instance openssl_accepts : X509Accepts F S :=
  {| readable text := exists der, cert_text text der; trusted leaf l suffix := forall t, ossl_trusted root_ders t leaf l suffix;
     signed_by := ossl_signed; loaded := ossl_loaded root_ders |}.
Proof.
  all: cbn [x509_default x509_load_leaf x509_load_intermediate x509_verify_chain x509_verify_signature OpensslX509].
  - intros s. by apply delivers_new.
  - intros s x l text Hx [der Hd]. by eapply delivers_intermediate.
  - intros s x l text Hx [der Hd]. by eapply delivers_leaf.
  - intros s x l leaf suffix Hx Ht. by eapply delivers_chain.
  - intros s0 s x l leaf data sig (_ & _ & _ & Hnull & Hleaf) Hs. by eapply delivers_signature; [|done|apply Hs].
Defined.
End OpenSSL.
