(* ===== verification/WindowsX509.v ===== *)
(** * Certificates on Windows: [WincryptX509] implements [BaseX509]

    Windows/WincryptX509.cpp is modelled in WinCrypt.v; this file gives it the interface of
    BaseX509.h. Its default constructor takes one root, [ROOTCERT], and not [GetTrustedRoots]. The
    messages of the errors are those of BcryptError.h. *)

From S2P Require Import Prelude Base64 ReturnCodes Json Ossl Bcrypt WinCrypt WinFacts BaseX509.
#[local] Open Scope Z_scope.

(** [#define ROOTCERT CCME_ROOTCERT_PEM] *)
Definition ROOTCERT : bytes := CCME_ROOTCERT_PEM.

(** ** BcryptError.h *)

(** ntstatus.h *)
Definition ntstatus_info : list (Z * bytes) :=
  [(0xC000A002, str "(Bcrypt) Auth tag mismatch"); (0xC0000225, str "(Bcrypt) Not Found");
   (0xC0000017, str "(Bcrypt) No Memory"); (0xC000000D, str "(Bcrypt) Invalid parameter");
   (0xC0000008, str "(Bcrypt) Invalid handle"); (0xC00000BB, str "(Bcrypt) Not supported");
   (0xC0000023, str "(Bcrypt) Buffer Too Small"); (0xC0000206, str "(Bcrypt) Invalid Buffer Size");
   (0xC000A000, str "(Bcrypt) Invalid Signature")].
Definition getErrorInfo (status : Z) : bytes :=
  match find (fun p => fst p =? u32 status) ntstatus_info with
  | Some (_, text) => text
  | None => str "(Bcrypt) Unknown error"
  end.
Definition GetErrorMessage (what : bytes) (errorcode : Z) : bytes :=
  str "WinCryptError: " ++ what ++ (if errorcode =? 0 then [] else digits (u32 errorcode)).

(** [catch (WinCryptError& e)] and [catch (BcryptError &e)] *)
Definition windows_clause (e : exn) : option exn :=
  match e with
  | WinCryptErr w errorcode librc => Some (JwtErr (str "WinCrypt error: " ++ w ++ GetErrorMessage w errorcode) librc)
  | BcryptErr status _ librc => Some (JwtErr (getErrorInfo status) librc)
  | _ => None
  end.

#[export] Instance WindowsX509 {F S} `{Handler F S} `{BcryptCall -< F} `{CryptCall -< F} `{BoostBase64, BoostString}
  : BaseX509 F S :=
  {| X509Object := WinX509.WincryptX509;
     default_roots := [ROOTCERT];
     x509_default := WinX509.new_WincryptX509 [ROOTCERT];
     x509_load_leaf := WinX509.LoadLeafCertificate;
     x509_load_intermediate x text := _ ← WinX509.LoadIntermediateCertificate x text; mret x;
     x509_verify_chain := WinX509.VerifyCertChain;
     x509_verify_signature := WinX509.VerifySignature;
     x509_catch := windows_clause |}.

Section Facts.
Context {F : Type -> Type} {S : Type} `{HF : Handler F S} `{HB : BcryptCall -< F} `{HC : CryptCall -< F}.
Context `{Bb : BoostBase64, Bs : BoostString}.
Import WinX509.

(** Each root of [x] is the certificate of [ROOTCERT]. *)
Definition only_rootcert (x : WincryptX509) (t : list (event F)) : Prop :=
  forall r, r ∈ rootCertContexts x -> exists der,
    Encoders.base64_decode (c_str ROOTCERT) = Ret der /\ Ev (inj (CertCreateCertificateContext der)) r ∈ t.
(** The leaf of [x] was read from [der], and the chain of [x] is one the provider built for it. *)
Definition leaf_chained (x : WincryptX509) (der : bytes) (t : list (event F)) : Prop :=
  exists leaf c, pLeafCertContext x = Some leaf /\ chainContext x = Chain c /\
    Ev (inj (CertCreateCertificateContext der)) leaf ∈ t /\
    Ev (inj (CertGetCertificateChain leaf (hStore x) chain_flags)) (Some c) ∈ t.
(** The key of the leaf verified the signature of the hash of [data]. *)
Definition hash_signed (x : WincryptX509) (data sig : bytes) (t : list (event F)) : Prop :=
  exists leaf key alg hash, pLeafCertContext x = Some leaf /\
    Ev (inj (CryptImportPublicKeyInfo leaf)) (Some key) ∈ t /\
    Ev (inj (BCryptHash alg [] data 32)) (0, hash) ∈ t /\
    Ev (inj (BCryptVerifySignature key hash sig)) 0 ∈ t.

Lemma ends_error {A} (P : A -> list (event F) -> Prop) w code : ends P (wincrypt_error (F := F) (S := S) w code).
Proof. unfold wincrypt_error. intros s a. unfold trig, call, mbind, M_bind. by destruct (handle _ s). Qed.
Lemma ends_answered {A} (r : option A) w code :
  ends (fun a t => r = Some a /\ t = []) (checked (F := F) (S := S) r w code).
Proof.
  destruct r as [a|]; [by apply ends_ret|apply ends_error].
Qed.
Lemma ends_status st w code : ends (fun _ t => st = 0 /\ t = []) (status_ok (F := F) (S := S) st w code).
Proof.
  unfold status_ok, require. destruct (st =? 0) eqn:E; [|by apply ends_lift].
  apply ends_ret. split; [lia|done].
Qed.
Lemma ends_LoadCertificate der :
  ends (fun cert t => Ev (inj (CertCreateCertificateContext der)) cert ∈ t) (LoadCertificate (F := F) (S := S) der).
Proof.
  unfold LoadCertificate. apply (ends_bind (fun cert t => t = [Ev (inj (CertCreateCertificateContext der)) cert])).
  { by apply ends_trig. }
  intros cert ? ->. destruct (is_null cert); [apply ends_error|].
  apply ends_ret. rewrite app_nil_r. apply elem_single.
Qed.
Lemma ends_decode text :
  ends (fun der t => Encoders.base64_decode text = Ret der /\ t = [])
    (lift (E := F) (S := S) (Encoders.base64_decode text)).
Proof. by apply ends_lift. Qed.

Lemma ends_load_roots store roots :
  ends (fun rs t => forall r, r ∈ rs -> exists text der, text ∈ roots /\
          Encoders.base64_decode (c_str text) = Ret der /\ Ev (inj (CertCreateCertificateContext der)) r ∈ t)
    (load_roots (F := F) (S := S) store roots).
Proof.
  induction roots as [|text roots IH]; simpl.
  { apply ends_ret. intros r Hr. by apply elem_of_nil in Hr. }
  eapply ends_bind; [apply ends_decode|]. intros der ? [Hd ->].
  eapply ends_bind; [apply ends_LoadCertificate|]. intros cert t1 Hc.
  apply (ends_bind (fun _ _ => True)); [done|]. intros _ t2 _.
  eapply ends_bind; [exact IH|]. intros rs t3 Hrs. apply ends_ret.
  intros r [->|Hr]%elem_of_cons.
  - exists text, der. split_and!; [by left|done|eauto with trace].
  - destruct (Hrs r Hr) as (text' & der' & ? & ? & ?). exists text', der'. split_and!; [by right|done|eauto with trace].
Qed.
Lemma ends_new_WincryptX509 : ends only_rootcert (new_WincryptX509 (F := F) (S := S) [ROOTCERT]).
Proof.
  unfold new_WincryptX509. apply (ends_bind (fun _ _ => True)); [done|]. intros store t _.
  destruct (is_null store); [apply ends_error|].
  eapply ends_bind; [apply ends_load_roots|]. intros rs t2 Hrs. apply ends_ret. intros r Hr. cbn in Hr.
  destruct (Hrs r Hr) as (text & der & ->%list_elem_of_singleton & Hd & Hev). exists der. eauto with trace.
Qed.
Lemma ends_LoadLeaf x text :
  ends (fun x' t => rootCertContexts x' = rootCertContexts x /\
          exists der, Encoders.base64_decode (c_str text) = Ret der /\ leaf_chained x' der t)
    (LoadLeafCertificate (F := F) (S := S) x text).
Proof.
  unfold LoadLeafCertificate. eapply ends_bind; [apply ends_decode|]. intros der ? [Hd ->].
  eapply ends_bind; [apply ends_LoadCertificate|]. intros leaf t1 Hl.
  apply (ends_bind (fun r t => t = [Ev (inj (CertGetCertificateChain leaf (hStore x) chain_flags)) r])).
  { by apply ends_trig. }
  intros r ? ->. eapply ends_bind; [apply ends_answered|]. intros c ? [-> ->]. apply ends_ret.
  split; [done|]. exists der. split; [done|]. exists leaf, c. split_and!; try done; eauto with trace.
Qed.
Lemma ends_sha256 data w late :
  ends (fun p t => Ev (inj (BCryptHash (fst p) [] data 32)) (0, snd p) ∈ t) (sha256 (F := F) (S := S) data w late).
Proof.
  unfold sha256. apply (ends_bind (fun _ _ => True)); [done|]. intros [st alg] t1 _.
  apply (ends_bind (fun _ _ => True)); [done|]. intros _ t2 _.
  apply (ends_bind (fun r t => t = [Ev (inj (BCryptHash alg [] data 32)) r])); [by apply ends_trig|].
  intros [st2 hash] ? ->. apply (ends_bind (fun _ _ => True)); [done|]. intros _ t3 _.
  eapply ends_bind; [apply ends_status|]. intros _ ? [-> ->]. apply ends_ret. simpl. eauto with trace.
Qed.
Lemma ends_VerifySignature x data sig :
  ends (fun b t => b = true -> hash_signed x data sig t) (VerifySignature (F := F) (S := S) x data sig).
Proof.
  unfold VerifySignature. destruct (pLeafCertContext x) as [leaf|] eqn:El; [|by apply ends_lift].
  apply (ends_bind (fun r t => t = [Ev (inj (CryptImportPublicKeyInfo leaf)) r])); [by apply ends_trig|].
  intros [key|] ? ->; [|by apply ends_lift]. destruct (is_null key); [apply ends_error|].
  eapply ends_bind; [apply ends_sha256|]. intros [alg hash] t1 Hh. simpl in Hh.
  apply (ends_bind (fun r t => t = [Ev (inj (BCryptVerifySignature key hash sig)) r])); [by apply ends_trig|].
  intros st ? ->. apply (ends_bind (fun _ _ => True)); [done|]. intros _ t2 _.
  eapply ends_bind; [apply ends_status|]. intros _ ? [-> ->].
  apply (ends_bind (fun _ _ => True)); [done|]. intros _ t3 _. apply ends_ret. intros _.
  exists leaf, key, alg, hash. split_and!; try done; eauto 8 with trace.
Qed.

(** A call to bcrypt or wincrypt. *)
Definition is_crypt (ev : event F) : Prop :=
  (exists (R : Type) (e : BcryptCall R) (r : R), ev = Ev (inj e) r) \/
  (exists (R : Type) (e : CryptCall R) (r : R), ev = Ev (inj e) r).
Lemma bcrypt_call {R} (e : BcryptCall R) r : is_crypt (Ev (inj e) r).
Proof. left. by exists R, e, r. Qed.
Lemma crypt_call {R} (e : CryptCall R) r : is_crypt (Ev (inj e) r).
Proof. right. by exists R, e, r. Qed.
Hint Resolve bcrypt_call crypt_call : emits.

Lemma emits_error {A} w code : emits is_crypt (wincrypt_error (F := F) (S := S) (A := A) w code).
Proof. unfold wincrypt_error. emits_go. Qed.
Hint Resolve emits_error : emits.
Lemma emits_checked {A} (r : option A) w code : emits is_crypt (checked (F := F) (S := S) r w code).
Proof. destruct r; unfold checked; emits_go. Qed.
Lemma emits_status st w code : emits is_crypt (status_ok (F := F) (S := S) st w code).
Proof. unfold status_ok. emits_go. Qed.
Lemma emits_load_certificate der : emits is_crypt (LoadCertificate (F := F) (S := S) der).
Proof. unfold LoadCertificate. emits_go. Qed.
Hint Resolve emits_checked emits_status emits_load_certificate : emits.
Lemma emits_load_roots store roots : emits is_crypt (load_roots (F := F) (S := S) store roots).
Proof. induction roots; simpl; unfold add_to_store; emits_go. Qed.
Lemma emits_root_matches root roots : emits is_crypt (root_matches (F := F) (S := S) root roots).
Proof. induction roots; simpl; emits_go. Qed.
Hint Resolve emits_load_roots emits_root_matches : emits.

#[export] Instance windows_laws : X509Laws F S.
Proof.
  refine {| holds_roots := only_rootcert; holds_leaf := leaf_chained;
            chain_ok x t := exists c, chainContext x = Chain c /\ chain_trusted x c t;
            subject_ok := subject_matches; signature_ok := hash_signed; x509_call := is_crypt |};
    cbn [x509_default x509_load_leaf x509_load_intermediate x509_verify_chain x509_verify_signature WindowsX509].
  - intros x t t' Ht Hx r Hr. destruct (Hx r Hr) as (der & ? & ?). exists der. auto.
  - intros x der t t' Ht (leaf & c & ? & ? & ? & ?). exists leaf, c. auto.
  - intros x t t' Ht (c & ? & root & r & ? & ? & ? & ? & ? & ? & ?). exists c. split; [done|].
    exists root, r. split_and!; auto.
  - intros x suffix t t' Ht (leaf & n & name & pre & tail & ? & ? & ? & ? & ?).
    exists leaf, n, name, pre, tail. split_and!; auto.
  - intros x data sig t t' Ht (leaf & key & alg & hash & ? & ? & ? & ?). exists leaf, key, alg, hash. auto.
  - apply ends_new_WincryptX509.
  - intros x text. apply (ends_bind (fun _ _ => True)); [done|]. intros _ t1 _. by apply ends_ret.
  - intros x text. eapply ends_mono; [apply ends_LoadLeaf|]. intros x' t (Hr & der & Hd & Hl).
    split; [|by exists der]. intros t0 Ht r Hin. apply Ht. by rewrite <- Hr.
  - intros x suffix. eapply ends_mono; [apply ends_VerifyCertChain|]. cbn beta.
    intros b t Hb E. destruct (Hb E) as (c & ? & ? & ?). eauto.
  - apply ends_VerifySignature.
  - unfold new_WincryptX509. emits_go.
  - intros x text. unfold LoadIntermediateCertificate, add_to_store. emits_go.
  - intros x text. unfold LoadLeafCertificate. emits_go.
  - intros x suffix. unfold VerifyCertChain, VerifyChainTerminatesAtRoot, VerifySubjectSuffix, GetCommonName,
      GetSubjectName. emits_go.
  - intros x data sig. unfold VerifySignature, sha256. emits_go.
Defined.

Section Errors.
Context `{!BoostBase64Laws}.

Lemma coded_error {A} w code : code <> Success -> throws coded (wincrypt_error (F := F) (S := S) (A := A) w code).
Proof. intros Hc. unfold wincrypt_error. coded_go. Qed.
Lemma coded_checked {A} (r : option A) w code : code <> Success -> throws coded (checked (F := F) (S := S) r w code).
Proof. intros Hc. destruct r; unfold checked; [coded_go|by apply coded_error]. Qed.
Lemma coded_status st w code : code <> Success -> throws coded (status_ok (F := F) (S := S) st w code).
Proof. intros Hc. unfold status_ok. coded_go. Qed.
Lemma coded_overwrite buf o new : othrows coded (overwrite buf o new).
Proof. unfold overwrite. by case_bool_decide. Qed.
Hint Resolve coded_decode coded_overwrite : throws.
Hint Extern 1 (throws coded (wincrypt_error _ _)) => (by apply coded_error) : throws.
Hint Extern 1 (throws coded (checked _ _ _)) => (by apply coded_checked) : throws.
Hint Extern 1 (throws coded (status_ok _ _ _)) => (by apply coded_status) : throws.
Lemma coded_add store cert w : throws coded (add_to_store (F := F) (S := S) store cert w).
Proof. unfold add_to_store. coded_go. Qed.
Lemma coded_load_certificate der : throws coded (LoadCertificate (F := F) (S := S) der).
Proof. unfold LoadCertificate. coded_go. Qed.
Hint Resolve coded_add coded_load_certificate : throws.
Lemma coded_roots store roots : throws coded (load_roots (F := F) (S := S) store roots).
Proof. induction roots; simpl; coded_go. Qed.
Lemma coded_matches root roots : throws coded (root_matches (F := F) (S := S) root roots).
Proof. induction roots; simpl; coded_go. Qed.
Lemma coded_sha256 data w late : throws coded (sha256 (F := F) (S := S) data w late).
Proof. unfold sha256. coded_go. Qed.
Hint Resolve coded_roots coded_matches coded_sha256 : throws.

#[export] Instance windows_errors : X509Errors F S.
Proof.
  split; cbn [x509_default x509_load_leaf x509_load_intermediate x509_verify_chain
    x509_verify_signature x509_catch WindowsX509].
  - unfold new_WincryptX509. coded_go.
  - intros x text. unfold LoadIntermediateCertificate. coded_go.
  - intros x text. unfold LoadLeafCertificate. coded_go.
  - intros x suffix. unfold VerifyCertChain, VerifyChainTerminatesAtRoot, VerifySubjectSuffix, GetCommonName,
      GetSubjectName. coded_go.
  - intros x data sig. unfold VerifySignature. coded_go.
  - intros e e' He. destruct e; simpl; intros; simplify_eq; exact He.
Qed.
End Errors.
End Facts.
