(* ===== verification/Jwt.v ===== *)
(** * JsonWebToken.cpp: creating, recognising and verifying tokens

    A [JsonWebToken] is its header, its claims ([jwt]) and its signature. Token
    text is [header.payload.signature], each part base64url. [ParseToken] with
    [verify] checks a non-empty signature with the certificate of the [x5c]
    header, through the interface of BaseX509.v; the platform is its instance. *)

From S2P Require Import Prelude Base64 ReturnCodes Json Ossl BaseX509 LinuxX509.

(** [time(0)] *)
Inductive ClockCall : Type -> Type :=
| time0 : ClockCall Z.

Definition X509_SUBJECT_NAME_SUFFIX : bytes := str ".SecureCPSProvisioning.cloudapp.net".

Module Jwt.
Section Ops.
Context {F : Type -> Type} {S : Type} `{Handler F S} `{ClockCall -< F}.
Context `{BoostBase64, BoostString, NlohmannJson} `{!BaseX509 F S}.

Record JsonWebToken := { header : json; jwt : json; signature : bytes }.

Definition jwt_error (w : string) (rc : ErrorCode) : exn := JwtErr (str w) (error_code rc).

Definition new_JsonWebToken (alg : bytes) : outcome JsonWebToken :=
  h ← json_set json_null (str "alg") (json_str alg);
  h ← json_set h (str "typ") (json_str (str "JWT"));
  mret {| header := h; jwt := json_null; signature := [] |}.

Fixpoint fields_match (h : json) (requiredFields : list (bytes * bytes)) : outcome bool :=
  match requiredFields with
  | [] => mret true
  | (field, expectedValue) :: rest =>
      if negb (json_contains h field) then mret false
      else
        '(h, v) ← json_index h field;
        if negb (json_eq_string v expectedValue) then mret false else fields_match h rest
  end.

Definition is_real_header (headerBase64 : bytes) (requiredFields : list (bytes * bytes))
  : outcome bool :=
  headerJson ← Encoders.base64_url_decode headerBase64;
  h ← json_parse headerJson;
  if negb (json_contains h (str "alg")) then mret false
  else
    '(h, alg) ← json_index h (str "alg");
    if negb (json_is_string alg) then mret false
    else match requiredFields with [] => mret true | _ => fields_match h requiredFields end.

(** Every exception means [false]. *)
Definition isRealJwt (token : bytes) (requiredFields : list (bytes * bytes)) : outcome bool :=
  match find_byte "." token, rfind_byte "." token with
  | Some firstDot, Some lastDot =>
      if bool_decide (firstDot = lastDot) || negb (bool_decide (count_byte "." token = 2))
      then mret false
      else match is_real_header (take firstDot token) requiredFields with
           | Throw _ => mret false
           | r => r
           end
  | _, _ => mret false
  end.

Definition addClaim (o : JsonWebToken) (key : bytes) (value : json) : outcome JsonWebToken :=
  j ← json_set (jwt o) key value;
  mret {| header := header o; jwt := j; signature := signature o |}.

Definition CreateToken (o : JsonWebToken) : M F S (JsonWebToken * bytes) :=
  hd ← lift (json_dump (header o));
  now ← trig time0;
  o ← lift (addClaim o (str "iat") (json_int now));
  now' ← trig time0;
  o ← lift (addClaim o (str "exp") (json_int (now' + 1800)));
  payload ← lift (json_dump (jwt o));
  let headerBase64 := Encoders.base64_url_encode hd in
  let payloadBase64 := Encoders.base64_url_encode payload in
  let signatureBase64 := Encoders.base64_url_encode (signature o) in
  mret (o, headerBase64 ++ str "." ++ payloadBase64 ++ str "." ++ signatureBase64).

(** A part of the token: decode and parse, with the exceptions renamed. *)
Definition parse_part (part : bytes) (generic : string) : outcome json :=
  match (text ← Encoders.base64_url_decode part; json_parse text) with
  | Ret j => Ret j
  | Throw (DataflowException w) =>
      Throw (JwtErr (str "Base64 decoding failed: " ++ w)
               (error_code ParsingError_Base64_b64Error))
  | Throw (JsonError ParseErr w) => Throw (JwtErr w (error_code ParsingError_Jwt_jsonParseError))
  | Throw _ => Throw (jwt_error generic ParsingError_Jwt_jsonParseError)
  | Fault f => Fault f
  end.

Fixpoint load_intermediates (x : X509Object) (certs : list json) : M F S X509Object :=
  match certs with
  | [] => mret x
  | c :: rest =>
      text ← lift (json_get_string c);
      x ← x509_load_intermediate x text;
      load_intermediates x rest
  end.

(** The body of the [try] that checks the signature. *)
Definition verify_token (o : JsonWebToken) (x509 : X509Object)
  (signatureBase64 signed_portion expectedSubjectSuffix : bytes) : M F S JsonWebToken :=
  sig ← lift (Encoders.base64_url_decode signatureBase64);
  '(h, chain) ← lift (json_index (header o) (str "x5c"));
  match json_is_array chain, json_elements chain with
  | true, leaf :: intermediates =>
      x509 ← load_intermediates x509 intermediates;
      text ← lift (json_get_string leaf);
      x509 ← x509_load_leaf x509 text;
      chain_ok ← x509_verify_chain x509 expectedSubjectSuffix;
      _ ← require chain_ok
            (jwt_error "Failed to verify certificate chain."
               CryptographyError_Signing_certChainError);
      sig_ok ← x509_verify_signature x509 signed_portion sig;
      _ ← require sig_ok
            (jwt_error "Failed to verify signature." CryptographyError_Signing_verifyError);
      mret {| header := h; jwt := jwt o; signature := sig |}
  | _, _ => throw (runtime_error "x5c header missing or malformed.")
  end.

(** The catch clauses; the last one is that of the platform. *)
Definition verify_handler (e : exn) : option (M F S JsonWebToken) :=
  match e with
  | DataflowException w =>
      Some (throw (JwtErr (str "Base64 decoding failed: " ++ w)
                     (error_code ParsingError_Base64_b64Error)))
  | JsonError OutOfRangeErr w =>
      Some (throw (JwtErr w (error_code ParsingError_Jwt_jsonParseError)))
  | e => match x509_catch e with Some e' => Some (throw e') | None => None end
  end.

Definition ParseToken (o : JsonWebToken) (token : bytes) (verify : bool)
  (expectedSubjectSuffix : bytes) : M F S JsonWebToken :=
  _ ← require (2 <=? length token)%nat (jwt_error "Invalid JWT token." GeneralError);
  match find_byte "." token, rfind_byte "." token with
  | Some first, Some last =>
      _ ← require (negb (bool_decide (first = last))) (jwt_error "Invalid JWT token." GeneralError);
      let headerBase64 := take first token in
      let payloadBase64 := substr token (first + 1) (last - (first + 1)) in
      let signatureBase64 := drop (last + 1) token in
      h ← (if bool_decide (headerBase64 = []) then mret (header o)
           else lift (parse_part headerBase64 "Failed to parse header."));
      j ← (if bool_decide (payloadBase64 = []) then mret (jwt o)
           else lift (parse_part payloadBase64 "Failed to parse payload."));
      let o := {| header := h; jwt := j; signature := signature o |} in
      if negb (bool_decide (signatureBase64 = [])) && verify then
        let signed_portion := take last token in
        x509 ← x509_default;
        try_catch (verify_token o x509 signatureBase64 signed_portion expectedSubjectSuffix)
          verify_handler
      else mret o
  | _, _ => throw (jwt_error "Invalid JWT token." GeneralError)
  end.

End Ops.
End Jwt.

(** ** What a verified token guarantees *)
Module JwtFacts.
Import Jwt.
Section Facts.
Context {F : Type -> Type} {S : Type} `{HF : Handler F S} `{HC : ClockCall -< F}.
Context `{Bb : BoostBase64, Bs : BoostString, NJ : NlohmannJson} `{BX : !BaseX509 F S}.

Section Verified.
Context `{XL : !X509Laws F S}.

(** The leaf of [x] is the first certificate of the [x5c] element of the header,
    which the access leaves as [h]. *)
Definition leaf_of_header (h : json) (x : X509Object) (t : list (event F)) : Prop :=
  exists h0 chain leaf rest text der,
    json_index h0 (str "x5c") = Ret (h, chain) /\ json_is_array chain = true /\
    json_elements chain = leaf :: rest /\ json_get_string leaf = Ret text /\
    Encoders.base64_decode (c_str text) = Ret der /\ holds_leaf x der t.

(** The signature over [data] is that of a leaf trusted for [suffix]. *)
Definition token_verified (h : json) (data sig suffix : bytes) (t : list (event F)) : Prop :=
  exists x, holds_roots x t /\ leaf_of_header h x t /\ chain_ok x t /\
    subject_ok x suffix t /\ signature_ok x data sig t.

Lemma token_verified_mono h d sg sf (t t' : list (event F)) :
  t ⊆ t' -> token_verified h d sg sf t -> token_verified h d sg sf t'.
Proof.
  intros Ht (x & Hr & Hl & Hc & Hs & Hg). exists x. split_and!.
  - by eapply roots_mono.
  - destruct Hl as (h0 & chain & leaf & rest & text & der & ? & ? & ? & ? & ? & ?).
    exists h0, chain, leaf, rest, text, der. split_and!; try done. by eapply leaf_mono.
  - by eapply chain_mono.
  - by eapply subject_mono.
  - by eapply signature_mono.
Qed.

Lemma ends_intermediates x certs :
  ends (fun x' _ => forall t, holds_roots x t -> holds_roots x' t) (load_intermediates (F := F) (S := S) x certs).
Proof.
  revert x. induction certs as [|c certs IH]; intros x; simpl; [by apply ends_ret|].
  apply ends_after; [by intros ? ? ? ?|]. intros text. eapply ends_bind; [apply intermediate_ends|].
  intros x1 t1 Hx1. eapply ends_mono; [apply IH|]. cbn beta. auto.
Qed.

Lemma ends_verify_token o x sigB64 data suffix t0 : holds_roots x t0 ->
  ends (fun o' t => Encoders.base64_url_decode sigB64 = Ret (signature o') /\
          token_verified (header o') data (signature o') suffix (t0 ++ t))
    (verify_token (F := F) (S := S) o x sigB64 data suffix).
Proof.
  intros Hx. unfold verify_token.
  eapply (ends_bind (fun sig t => Encoders.base64_url_decode sigB64 = Ret sig /\ t = [])).
  { by apply ends_lift. }
  intros sig ? [Hsig ->]. eapply (ends_bind (fun p t => json_index (header o) (str "x5c") = Ret p /\ t = [])).
  { by apply ends_lift. }
  intros [h chain] ? [Hi ->].
  destruct (json_is_array chain) eqn:Ha; [|by apply ends_lift].
  destruct (json_elements chain) as [|leaf rest] eqn:Hl; [by apply ends_lift|].
  eapply ends_bind; [apply ends_intermediates|]. intros x1 t1 Hx1.
  eapply (ends_bind (fun text t => json_get_string leaf = Ret text /\ t = [])).
  { by apply ends_lift. }
  intros text ? [Ht ->]. eapply ends_bind; [apply leaf_ends|]. intros x2 t2 (Hx2 & der & Hder & Hleaf).
  eapply ends_bind; [apply chain_ends|]. intros chained t3 Hch.
  eapply (ends_bind (fun _ t => chained = true /\ t = [])).
  { destruct chained; [by apply ends_ret|by apply ends_lift]. }
  intros _ ? [-> ->]. destruct (Hch eq_refl) as [Hchain Hsub].
  eapply ends_bind; [apply signature_ends|]. intros signed t4 Hsg.
  eapply (ends_bind (fun _ t => signed = true /\ t = [])).
  { destruct signed; [by apply ends_ret|by apply ends_lift]. }
  intros _ ? [-> ->]. apply ends_ret. split; [done|]. cbn [signature header]. simpl app.
  exists x2. split_and!.
  - eapply roots_mono; [|by apply Hx2, Hx1]. intros e He. rewrite elem_of_app. by left.
  - exists (header o), chain, leaf, rest, text, der. split_and!; try done.
    eapply leaf_mono; [|exact Hleaf]. intros e He. rewrite !elem_of_app. tauto.
  - eapply chain_mono; [|exact Hchain]. intros e He. rewrite !elem_of_app. tauto.
  - eapply subject_mono; [|exact Hsub]. intros e He. rewrite !elem_of_app. tauto.
  - eapply signature_mono; [|by apply Hsg]. intros e He. rewrite !elem_of_app. tauto.
Qed.

(** Every clause throws again. *)
Lemma verify_handler_throws e k : verify_handler (F := F) (S := S) e = Some k -> exists e', k = throw e'.
Proof. unfold verify_handler. repeat case_match; intros; simplify_eq; eauto. Qed.

Lemma ParseToken_spec o token suffix s :
  wp (ParseToken o token true suffix) s (fun out _ t => forall o', out = Ret o' ->
    signature o' <> signature o ->
    exists last, rfind_byte "." token = Some last /\
      Encoders.base64_url_decode (drop (last + 1) token) = Ret (signature o') /\
      token_verified (header o') (take last token) (signature o') suffix t).
Proof.
  unfold ParseToken. wp_step. wp_step; [|done].
  wp_step; [|by wp_step]. wp_step; [|by wp_step]. wp_step. wp_step; [|done].
  wp_step. eapply (wp_mono _ _ (fun out _ t => t = [])); [by wp_go|].
  intros [h|e|f] s1 t1 ->; try done.
  wp_step. eapply (wp_mono _ _ (fun out _ t => t = [])); [by wp_go|].
  intros [j|e|f] s2 t2 ->; try done.
  wp_step; [|by wp_step; intros o' [= <-]].
  wp_step. eapply wp_mono; [apply wp_ends, default_ends|]. intros [x|e|f] s3 t3 Hx; try done.
  wp_step. eapply wp_mono; [by apply wp_ends, (ends_verify_token _ x _ _ _ t3), Hx|].
  intros [o'|e|f] s4 t4 Ho; [|destruct (verify_handler e) eqn:Eh|done].
  - intros o'' [= <-] _. destruct (Ho o' eq_refl) as [Hsig Hv]. eexists. split; [done|].
    by split.
  - apply verify_handler_throws in Eh as [e' ->]. done.
  - done.
Qed.
End Verified.

(** *** Tokens that were created *)

Lemma url_encode_no_dot `{!BoostBase64Laws, !BoostStringLaws} l :
  Forall (fun c => c <> "."%byte) (Encoders.base64_url_encode l).
Proof.
  unfold Encoders.base64_url_encode, Encoders.base64_encode.
  rewrite url_encode_map. apply Forall_map. eapply Forall_impl; [apply padded_alphabet|].
  cbv beta. intros c [Hc| ->]; [|done]. apply to_url_alphabet in Hc. by intros E; rewrite E in Hc.
Qed.
Lemma url_encode_nonempty `{!BoostBase64Laws, !BoostStringLaws} l :
  l <> [] -> Encoders.base64_url_encode l <> [].
Proof.
  intros Hl E. apply (f_equal length) in E. revert E.
  unfold Encoders.base64_url_encode, Encoders.base64_encode.
  rewrite url_encode_map, length_map, length_app, text_length. cbn [length].
  destruct l as [|c l]; [done|]. cbn [length]. intros E.
  assert (1 <= (4 * Datatypes.S (length l) + 2) / 3)
    by (apply Nat.div_le_lower_bound; lia). lia.
Qed.
Lemma url_encode_nil `{!BoostBase64Laws, !BoostStringLaws} : Encoders.base64_url_encode [] = [].
Proof.
  unfold Encoders.base64_url_encode, Encoders.base64_encode. rewrite url_encode_map.
  pose proof (text_length (BoostBase64Laws := _) []) as E.
  destruct (b64_text []); [done|]. discriminate.
Qed.

Lemma parse_part_encoded `{!BoostBase64Laws, !BoostStringLaws} text j w :
  (size text + 2 <= vector_max_size)%Z -> json_parse text = Ret j ->
  parse_part (Encoders.base64_url_encode text) w = Ret j.
Proof.
  intros Hs Hp. unfold parse_part, Encoders.base64_url_decode, Encoders.base64_url_encode.
  rewrite url_encode_map, url_decode_map, url_decode_encode by apply padded_alphabet.
  unfold Encoders.base64_encode. change (@Encoders.base64_decode) with (@AttestBase64.base64_to_binary).
  rewrite attest_decode_padded by done. cbn [mbind outcome_bind]. by rewrite Hp.
Qed.

Section Split.
Variables hd pl sg : bytes.
Hypothesis Hh : Forall (fun c => c <> "."%byte) hd.
Hypothesis Hp : Forall (fun c => c <> "."%byte) pl.
Hypothesis Hs : Forall (fun c => c <> "."%byte) sg.

Let token := hd ++ str "." ++ pl ++ str "." ++ sg.

Lemma token_first : find_byte "." token = Some (length hd).
Proof. apply (find_byte_app "." hd), Hh. Qed.
Lemma token_last : rfind_byte "." token = Some (length hd + 1 + length pl).
Proof.
  unfold token. replace (hd ++ str "." ++ pl ++ str "." ++ sg)
    with ((hd ++ str "." ++ pl) ++ "."%byte :: sg) by by rewrite <- !app_assoc.
  rewrite rfind_byte_app by apply Hs. rewrite !length_app. cbn. f_equal. lia.
Qed.
Lemma token_header : take (length hd) token = hd.
Proof. apply take_app_length. Qed.
Lemma token_payload :
  substr token (length hd + 1) (length hd + 1 + length pl - (length hd + 1)) = pl.
Proof.
  unfold substr, token. rewrite <- drop_drop, drop_app_length.
  change (drop 1 (str "." ++ pl ++ str "." ++ sg)) with (pl ++ str "." ++ sg).
  replace (length hd + 1 + length pl - (length hd + 1)) with (length pl) by lia.
  apply take_app_length.
Qed.
Lemma token_signature : drop (length hd + 1 + length pl + 1) token = sg.
Proof.
  replace (length hd + 1 + length pl + 1) with (length hd + (1 + (length pl + 1))) by lia.
  unfold token. rewrite <- !drop_drop, drop_app_length.
  change (drop 1 (str "." ++ pl ++ str "." ++ sg)) with (pl ++ str "." ++ sg).
  rewrite drop_app_length. done.
Qed.
End Split.

Lemma addClaim_ret o k v o' :
  addClaim o k v = Ret o' ->
  json_set (jwt o) k v = Ret (jwt o') /\ header o' = header o /\ signature o' = signature o.
Proof.
  unfold addClaim. intros (j & Hj & E)%outcome_bind_ret. injection E as <-. by split_and!.
Qed.

Lemma token_signed hd pl sg : take (length hd + 1 + length pl) (hd ++ str "." ++ pl ++ str "." ++ sg) = hd ++ str "." ++ pl.
Proof.
  replace (hd ++ str "." ++ pl ++ str "." ++ sg) with ((hd ++ str "." ++ pl) ++ str "." ++ sg) by by rewrite <- !app_assoc.
  replace (length hd + 1 + length pl) with (length (hd ++ str "." ++ pl)); [apply take_app_length|].
  rewrite !length_app. change (length (str ".")) with 1. lia.
Qed.
(** [ParseToken] on a token of three parts, of which two are read as JSON. *)
Lemma ParseToken_parts `{!BoostBase64Laws, !BoostStringLaws} o hs ps sg h j verify suffix s
  (hd := Encoders.base64_url_encode hs) (pl := Encoders.base64_url_encode ps) (st := Encoders.base64_url_encode sg) :
  hs <> [] -> ps <> [] -> json_parse hs = Ret h -> json_parse ps = Ret j ->
  (size hs + 2 <= vector_max_size)%Z -> (size ps + 2 <= vector_max_size)%Z ->
  ParseToken o (hd ++ str "." ++ pl ++ str "." ++ st) verify suffix s =
    (let o := {| header := h; jwt := j; signature := signature o |} in
     if negb (bool_decide (st = [])) && verify then
       x509 ← x509_default;
       try_catch (verify_token o x509 st (hd ++ str "." ++ pl) suffix) verify_handler
     else mret o) s.
Proof.
  intros Hhs Hps Hh Hj Hsh Hsp.
  pose proof (url_encode_no_dot hs : Forall _ hd) as Dh. pose proof (url_encode_no_dot ps : Forall _ pl) as Dp.
  pose proof (url_encode_no_dot sg : Forall _ st) as Ds. unfold ParseToken.
  rewrite (token_first hd pl st), (token_last hd pl st) by done.
  rewrite token_header, token_payload, token_signature, token_signed.
  assert (Hne : hd <> [] /\ pl <> []) by (split; by apply url_encode_nonempty).
  destruct Hne as [Hhd Hpl].
  rewrite (bind_pure _ _ _ tt).
  2: { unfold require. rewrite (proj2 (Nat.leb_le _ _)); [done|]. rewrite !length_app. cbn. lia. }
  rewrite (bind_pure _ _ _ tt) by (unfold require; rewrite bool_decide_eq_false_2; [done|lia]).
  rewrite (bind_pure _ _ _ h).
  2: { rewrite bool_decide_eq_false_2 by done. unfold lift. f_equal. by apply parse_part_encoded. }
  rewrite (bind_pure _ _ _ j).
  2: { rewrite bool_decide_eq_false_2 by done. unfold lift. f_equal. by apply parse_part_encoded. }
  done.
Qed.
Lemma ParseToken_encoded `{!BoostBase64Laws, !BoostStringLaws} o hs ps sg h j verify suffix s :
  hs <> [] -> ps <> [] -> json_parse hs = Ret h -> json_parse ps = Ret j ->
  (size hs + 2 <= vector_max_size)%Z -> (size ps + 2 <= vector_max_size)%Z ->
  verify = false \/ sg = [] ->
  ParseToken o (Encoders.base64_url_encode hs ++ str "." ++ Encoders.base64_url_encode ps ++
                str "." ++ Encoders.base64_url_encode sg) verify suffix s =
    Res (Ret {| header := h; jwt := j; signature := signature o |}) s [].
Proof.
  intros Hhs Hps Hh Hj Hsh Hsp Hv. rewrite (ParseToken_parts _ _ _ _ h j) by done.
  destruct Hv as [->| ->]; [by rewrite andb_false_r|].
  rewrite url_encode_nil. by rewrite bool_decide_eq_true_2.
Qed.
End Facts.
End JwtFacts.

Section Theorems.
Import Jwt JwtFacts.
Context {F : Type -> Type} {S : Type} `{HF : Handler F S} `{HC : ClockCall -< F}.
Context `{Bb : BoostBase64, Bs : BoostString, NJ : NlohmannJson} `{BX : !BaseX509 F S}.

(** C11: a parsed token has a non-empty signature only when it was verified.
    On either platform, whatever its cryptography answers: if [ParseToken] with [verify] returns on
    a fresh object and the signature is not empty, then it is the decoding of the last
    part of the token, and in the calls made the platform verified a chain from the
    first [x5c] certificate to a self-issued certificate equal to one of its default
    roots, the leaf's common name ends in the expected suffix,
    and the signature was verified with the leaf's key over exactly the text
    before the last dot. *)
Theorem parsed_signature_verified `{XL : !X509Laws F S} o token suffix s :
  signature o = [] ->
  wp (ParseToken o token true suffix) s (fun out _ t => forall o', out = Ret o' ->
    signature o' <> [] ->
    exists last, rfind_byte "." token = Some last /\
      Encoders.base64_url_decode (drop (last + 1) token) = Ret (signature o') /\
      token_verified (header o') (take last token) (signature o') suffix t).
Proof.
  intros Ho. eapply wp_mono; [apply ParseToken_spec|]. cbv beta. rewrite Ho. auto.
Qed.

(** a created token parses back. If [CreateToken] returns a token, and header
    and final claims survive the JSON library's own print and parse, then
    [ParseToken] without verification returns the header and the claims, [iat]
    and [exp] included; so it does with verification when the object carries no
    signature, and it then calls no cryptography. *)
Theorem create_parse_round_trip `{!BoostBase64Laws, !BoostStringLaws, !NlohmannLaws}
  o s o' token s' t hs ps verify suffix s0 :
  CreateToken o s = Res (Ret (o', token)) s' t ->
  json_dump (header o) = Ret hs -> json_parse hs = Ret (header o) ->
  json_dump (jwt o') = Ret ps -> json_parse ps = Ret (jwt o') ->
  (size hs + 2 <= vector_max_size)%Z -> (size ps + 2 <= vector_max_size)%Z ->
  verify = false \/ signature o = [] ->
  ParseToken {| header := json_null; jwt := json_null; signature := [] |} token verify suffix s0 =
    Res (Ret {| header := header o; jwt := jwt o'; signature := [] |}) s0 [] /\
  signature o' = signature o /\
  exists now exp, json_index (jwt o') (str "exp") = Ret (jwt o', json_int (exp + 1800)) /\
    Ev (inj time0) now ∈ t /\ Ev (inj time0) exp ∈ t.
Proof.
  intros Hc Hd Hph Hdp Hpp Hsh Hsp Hv. unfold CreateToken in Hc.
  rewrite Hd in Hc. apply bind_ret_inv in Hc as (? & ? & ? & t1 & [= <- <- <-] & Hc & ->).
  apply bind_ret_inv in Hc as (now & s1 & ev1 & t2 & Hnow & Hc & ->).
  apply bind_ret_inv in Hc as (o1 & ? & ? & t3 & Ho1 & Hc & ->).
  apply bind_ret_inv in Hc as (exp & s2 & ev2 & t4 & Hexp & Hc & ->).
  apply bind_ret_inv in Hc as (o2 & ? & ? & t5 & Ho2 & Hc & ->).
  apply bind_ret_inv in Hc as (pl & ? & ? & t6 & Hpl & Hc & ->).
  unfold lift in *. simplify_eq. injection Hc as <- <- <- <-.
  apply trig_ret_inv in Hnow as ->. apply trig_ret_inv in Hexp as ->.
  apply addClaim_ret in Ho1 as (_ & Hh1 & Hg1). apply addClaim_ret in Ho2 as (Hset & Hh2 & Hg2).
  rewrite Hdp in Hpl. injection Hpl as <-. rewrite Hg2, Hg1.
  split_and!; [|done|].
  - by apply (ParseToken_encoded {| header := json_null; jwt := json_null; signature := [] |}
      hs ps (signature o)); [eapply dump_nonempty..| | | | |].
  - exists now, exp. apply set_index in Hset. split_and!; eauto with trace.
Qed.
End Theorems.

(** ** Witnesses: an OpenSSL that accepts everything, and a clock *)

Definition ossl_accept (common_name : bytes) (R : Type) (e : OsslCall R) : R :=
  match e in OsslCall T return T with
  | ERR_get_error => 0%Z
  | ERR_error_string _ => []
  | X509_STORE_new | X509_dup _ | sk_X509_new_null | d2i_X509 _ | X509_STORE_CTX_new => 1%N
  | X509_STORE_add_cert _ _ | sk_X509_push _ _ | X509_STORE_CTX_init _ _ _ _ => 1%Z
  | X509_STORE_set_flags _ _ | X509_STORE_CTX_set_flags _ _ => tt
  | X509_verify_cert _ => 1%Z
  | X509_STORE_CTX_get0_chain _ => Some [1%N]
  | X509_get_subject_name _ | X509_get_issuer_name _ | X509_NAME_get_entry _ _ => 1%N
  | X509_NAME_cmp _ _ | X509_cmp _ _ | X509_NAME_get_index_by_NID _ _ _ => 0%Z
  | X509_NAME_ENTRY_get_data _ => Some common_name
  | X509_get_pubkey _ | EVP_MD_CTX_new | EVP_CIPHER_CTX_new => 1%N
  | EVP_DigestVerifyInit _ _ _ | EVP_DigestVerifyUpdate _ _ | EVP_DigestVerifyFinal _ _ => 1%Z
  | EVP_DigestInit_ex _ _ | EVP_DigestUpdate _ _ => 1%Z
  | EVP_DigestFinal_ex _ => (1%Z, replicate 32 x01)
  | EVP_EncryptInit_gcm _ | EVP_EncryptInit_key _ _ _ => 1%Z
  | EVP_DecryptInit_gcm _ | EVP_DecryptInit_key _ _ _ => 1%Z
  (* a cipher that leaves the text as it is *)
  | EVP_EncryptUpdate _ data | EVP_DecryptUpdate _ data => (1%Z, data)
  | EVP_EncryptFinal_ex _ | EVP_DecryptFinal_ex _ => (1%Z, [])
  | EVP_CTRL_GCM_SET_IVLEN _ _ | EVP_CTRL_GCM_SET_TAG _ _ => 1%Z
  | EVP_CTRL_GCM_GET_TAG _ n => (1%Z, replicate (Z.to_nat n) x07)
  | EVP_PKEY_CTX_new_id_HKDF | EVP_PKEY_CTX_new_id_EC | EVP_PKEY_CTX_new _ => 1%N
  | EVP_PKEY_derive_init _ | EVP_PKEY_CTX_hkdf_mode _ | EVP_PKEY_CTX_set_hkdf_md _ _ => 1%Z
  | EVP_PKEY_CTX_set1_hkdf_key _ _ | EVP_PKEY_CTX_set1_hkdf_salt _ _ => 1%Z
  | EVP_PKEY_CTX_add1_hkdf_info _ _ | EVP_PKEY_derive_set_peer _ _ => 1%Z
  | EVP_PKEY_derive_len _ => (1%Z, 32%Z)
  | EVP_PKEY_derive _ n => (1%Z, replicate (Z.to_nat n) x02)
  | d2i_PrivateKey _ | d2i_PUBKEY _ => 1%N
  | i2d_PrivateKey _ | i2d_PUBKEY _ => (1%Z, [x03])
  | EVP_PKEY_paramgen_init _ | EVP_PKEY_CTX_set_ec_paramgen_curve_nid _ _ => 1%Z
  | EVP_PKEY_paramgen _ | EVP_PKEY_keygen _ _ => (1%Z, 1%N)
  | EVP_PKEY_keygen_init _ => 1%Z
  end.

Definition DemoCall : Type -> Type := sumE OsslCall ClockCall.
(** The state is the time, which each reading advances by one second. *)
Definition demo_handle (cn : bytes) (R : Type) (e : DemoCall R) (now : Z) : R * Z :=
  match e with
  | InL o => (ossl_accept cn R o, now)
  | InR c => match c in ClockCall T return T * Z with time0 => (now, (now + 1)%Z) end
  end.
#[local] Instance demo_handler : Handler DemoCall Z :=
  demo_handle (str "x.securecpsprovisioning.cloudapp.net").

Definition demo_header : jtree :=
  JObj [(str "alg", JStr (str "RS256")); (str "x5c", JArr [JStr (str "AQID"); JStr (str "BAUG")])].
Definition demo_claims : jtree := JObj [(str "salt", JStr (str "AAAA"))].
Definition demo_token (sg : bytes) : bytes :=
  match Jwt.CreateToken (S := Z) (F := DemoCall)
    {| Jwt.header := demo_header; Jwt.jwt := demo_claims; Jwt.signature := sg |} 1700000000%Z with
  | Res (Ret (_, tok)) _ _ => tok
  | _ => []
  end.
Definition empty_token : Jwt.JsonWebToken :=
  {| Jwt.header := JNull; Jwt.jwt := JNull; Jwt.signature := [] |}.

Definition demo_parsed (sg : bytes) : Jwt.JsonWebToken :=
  {| Jwt.header := demo_header;
     Jwt.jwt := JObj [(str "exp", JInt 1700001801); (str "iat", JInt 1700000000);
                      (str "salt", JStr (str "AAAA"))];
     Jwt.signature := sg |}.

Lemma parsed_signature_verified_witness :
  let r := Jwt.ParseToken (F := DemoCall) empty_token (demo_token [x09]) true
             X509_SUBJECT_NAME_SUFFIX 0%Z in
  res r = Ret (demo_parsed [x09]) /\
  exists last, JwtFacts.token_verified (F := DemoCall) (NJ := json_tree) demo_header
    (take last (demo_token [x09])) [x09] X509_SUBJECT_NAME_SUFFIX (evs r).
Proof.
  intros r. assert (Hr : res r = Ret (demo_parsed [x09])) by vm_eq.
  split; [exact Hr|].
  destruct (parsed_signature_verified (F := DemoCall) empty_token (demo_token [x09])
    X509_SUBJECT_NAME_SUFFIX 0%Z eq_refl _ Hr) as (last & _ & _ & Hv); [discriminate|].
  exists last. exact Hv.
Defined.

Lemma create_parse_round_trip_witness :
  Jwt.ParseToken (F := DemoCall) empty_token (demo_token []) true X509_SUBJECT_NAME_SUFFIX 0%Z =
    Res (Ret (demo_parsed [])) 0%Z [].
Proof.
  eapply (proj1 (create_parse_round_trip (F := DemoCall) (S := Z)
    (@Jwt.Build_JsonWebToken json_tree demo_header demo_claims [])
    1700000000%Z (demo_parsed []) (demo_token []) 1700000002%Z
    [Ev (inj time0) 1700000000%Z; Ev (inj time0) 1700000001%Z]
    (dump_tree demo_header) (dump_tree (Jwt.jwt (demo_parsed [])))
    true X509_SUBJECT_NAME_SUFFIX 0%Z _ _ _ _ _ _ _ (or_intror eq_refl))).
  Unshelve.
  - vm_eq.
  - vm_eq.
  - vm_eq.
  - vm_eq.
  - vm_eq.
  - by vm_compute.
  - by vm_compute.
Defined.
