(* ===== verification/CertGen.v ===== *)
(** * A certificate authority on OpenSSL

    The part of Linux/OsslX509.cpp that makes a chain of certificates - [generateKey], [generateCSR],
    [addExtensions], [signCertificate], [generateCertChain] -, signs with the leaf's key
    ([SignData]) and prints the leaf's name ([GetSubjectName]). CertGenFacts.v has the theorem. *)

From S2P Require Import Prelude Base64 ReturnCodes Ossl BaseX509 LinuxX509 Jwt.
#[local] Open Scope Z_scope.

(** The calls of this part. [X509_gmtime_adj(X509_getm_...(cert), adj)] and
    [ASN1_INTEGER_set(X509_get_serialNumber(cert), serial)] are one call each; an extension's context is
    its issuer and subject. *)
Inductive IssueCall : Type -> Type :=
| EVP_PKEY_new : IssueCall ptr
| EVP_PKEY_free (key : ptr) : IssueCall unit
| EVP_PKEY_CTX_new_id_RSA : IssueCall ptr
| EVP_PKEY_CTX_set_rsa_keygen_bits (ctx : ptr) (bits : Z) : IssueCall Z
| EVP_PKEY_CTX_free (ctx : ptr) : IssueCall unit
| X509_REQ_new : IssueCall ptr
| X509_NAME_new : IssueCall ptr
| X509_NAME_add_entry_by_txt (name : ptr) (field text : bytes) : IssueCall Z
| X509_REQ_set_subject_name (req name : ptr) : IssueCall Z
| X509_REQ_set_pubkey (req key : ptr) : IssueCall Z
| X509_REQ_sign (req key : ptr) (m : md) : IssueCall Z
| X509_REQ_get_subject_name (req : ptr) : IssueCall ptr
| X509_REQ_get0_pubkey (req : ptr) : IssueCall ptr
| X509V3_EXT_conf_nid (issuer subject : ptr) (nid : Z) (value : bytes) : IssueCall ptr
| X509_add_ext (cert ext : ptr) (loc : Z) : IssueCall Z
| X509_new : IssueCall ptr
| X509_set_version (cert : ptr) (version : Z) : IssueCall Z
| X509_set_serialNumber (cert : ptr) (serial : Z) : IssueCall Z
| X509_gmtime_adj_notBefore (cert : ptr) (adj : Z) : IssueCall ptr
| X509_gmtime_adj_notAfter (cert : ptr) (adj : Z) : IssueCall ptr
| X509_set_subject_name (cert name : ptr) : IssueCall Z
| X509_set_issuer_name (cert name : ptr) : IssueCall Z
| X509_set_pubkey (cert key : ptr) : IssueCall Z
| X509_sign (cert key : ptr) (m : md) : IssueCall Z
| i2d_X509_length (cert : ptr) : IssueCall Z
| i2d_X509 (cert : ptr) : IssueCall (Z * bytes)
| BIO_new_mem : IssueCall ptr
| X509_NAME_print_ex (bio name : ptr) : IssueCall Z
| BIO_get_mem_data (bio : ptr) : IssueCall bytes
| BIO_free (bio : ptr) : IssueCall unit
| EVP_DigestSignInit (ctx : ptr) (m : md) (key : ptr) : IssueCall Z
| EVP_DigestSignUpdate (ctx : ptr) (data : bytes) : IssueCall Z
| EVP_DigestSignFinal_length (ctx : ptr) : IssueCall (Z * Z)
| EVP_DigestSignFinal (ctx : ptr) (capacity : Z) : IssueCall (Z * bytes).

Module CertGen.
Import X509.
Definition NID_subject_key_identifier : Z := 82.
Definition NID_key_usage : Z := 83.
Definition NID_basic_constraints : Z := 87.
Definition NID_authority_key_identifier : Z := 90.

Section Ops.
Context {F : Type -> Type} {S : Type} `{Handler F S} `{OsslCall -< F} `{IssueCall -< F}.
Context `{BoostBase64, BoostString}.

(** When [EVP_PKEY_keygen_init] fails the context is not freed. *)
Definition generateKey (bits : Z) : M F S ptr :=
  pkey ← trig EVP_PKEY_new;
  ctx ← trig EVP_PKEY_CTX_new_id_RSA;
  rc ← (if is_null ctx then mret 0 else trig (EVP_PKEY_keygen_init ctx));
  if rc <=? 0 then
    _ ← trig (EVP_PKEY_free pkey);
    throw_ossl "Failed to initialize key generation"
  else
    rc ← trig (EVP_PKEY_CTX_set_rsa_keygen_bits ctx bits);
    if rc <=? 0 then
      _ ← trig (EVP_PKEY_CTX_free ctx);
      _ ← trig (EVP_PKEY_free pkey);
      throw_ossl "Failed to set key size"
    else
      '(rc, pkey) ← trig (EVP_PKEY_keygen ctx pkey);
      if rc <=? 0 then
        _ ← trig (EVP_PKEY_CTX_free ctx);
        _ ← trig (EVP_PKEY_free pkey);
        throw_ossl "Failed to generate key pair"
      else
        _ ← trig (EVP_PKEY_CTX_free ctx);
        mret pkey.

(** [if (!rc) throw OsslError(...)] *)
Definition must_be_set (rc : Z) (w : string) : M F S unit :=
  if rc =? 0 then throw_ossl w else mret tt.

(** The second of the two calls is made when the first succeeds. *)
Definition generateCSR (pkey : ptr) (commonName : bytes) : M F S ptr :=
  req ← trig X509_REQ_new;
  name ← trig X509_NAME_new;
  rc ← trig (X509_NAME_add_entry_by_txt name (str "C") (str "US"));
  _ ← must_be_set rc "Failed to set country";
  rc ← trig (X509_NAME_add_entry_by_txt name (str "ST") (str "State"));
  _ ← must_be_set rc "Failed to set state";
  rc ← trig (X509_NAME_add_entry_by_txt name (str "O") (str "Organization"));
  _ ← must_be_set rc "Failed to set organization";
  rc ← trig (X509_NAME_add_entry_by_txt name (str "CN") (c_str commonName));
  _ ← must_be_set rc "Failed to set common name";
  rc ← trig (X509_REQ_set_subject_name req name);
  rc ← (if rc =? 0 then mret 0 else trig (X509_REQ_set_pubkey req pkey));
  _ ← must_be_set rc "Failed to set subject name or public key";
  rc ← trig (X509_REQ_sign req pkey SHA256);
  _ ← must_be_set rc "Failed to sign CSR";
  mret req.

Definition add_extension (cert issuer : ptr) (nid : Z) (value : bytes) (w : string) : M F S unit :=
  ex ← trig (X509V3_EXT_conf_nid issuer cert nid value);
  rc ← (if is_null ex then mret 0 else trig (X509_add_ext cert ex (-1)));
  must_be_one rc w.

Definition basic_constraints (is_ca : bool) (pathlen : Z) : bytes :=
  if is_ca then str "critical,CA:TRUE" ++ (if 0 <=? pathlen then str ",pathlen:" ++ z_text pathlen else [])
  else str "critical,CA:FALSE".
Definition key_usage (is_ca : bool) : bytes :=
  if is_ca then str "critical,keyCertSign,cRLSign" else str "critical,digitalSignature,keyEncipherment".

Definition addExtensions (cert issuer : ptr) (is_ca : bool) (pathlen : Z) : M F S unit :=
  _ ← add_extension cert issuer NID_basic_constraints (basic_constraints is_ca pathlen)
        "Failed to add Basic Constraints extension";
  _ ← add_extension cert issuer NID_key_usage (key_usage is_ca) "Failed to add Key Usage extension";
  _ ← add_extension cert issuer NID_subject_key_identifier (str "hash")
        "Failed to add Subject Key Identifier extension";
  if negb (is_null issuer) && negb (issuer =? cert)%N then
    add_extension cert issuer NID_authority_key_identifier (str "keyid:always")
      "Failed to add Authority Key Identifier extension"
  else mret tt.

(** [if (p == NULL) throw OsslError(...)] *)
Definition must_be_some (p : ptr) (w : string) : M F S unit :=
  if is_null p then throw_ossl w else mret tt.

(** An issuer of null makes a self-signed certificate. *)
Definition signCertificate (req issuerKey issuerCert : ptr) (serial days : Z) (is_ca : bool) (pathlen : Z) : M F S ptr :=
  cert ← trig X509_new;
  rc ← trig (X509_set_version cert 2);
  _ ← must_be_one rc "Failed to set certificate version";
  rc ← trig (X509_set_serialNumber cert serial);
  _ ← must_be_one rc "Failed to set serial number";
  t ← trig (X509_gmtime_adj_notBefore cert 0);
  _ ← must_be_some t "Failed to set notBefore time";
  t ← trig (X509_gmtime_adj_notAfter cert (60 * 60 * 24 * days));
  _ ← must_be_some t "Failed to set notAfter time";
  name ← trig (X509_REQ_get_subject_name req);
  rc ← trig (X509_set_subject_name cert name);
  _ ← must_be_one rc "Failed to set subject name";
  _ ← (if is_null issuerCert then
         name ← trig (X509_REQ_get_subject_name req);
         rc ← trig (X509_set_issuer_name cert name);
         must_be_one rc "Failed to set issuer name for self-signed certificate"
       else
         name ← trig (X509_get_subject_name issuerCert);
         rc ← trig (X509_set_issuer_name cert name);
         must_be_one rc "Failed to set issuer name");
  pubkey ← trig (X509_REQ_get0_pubkey req);
  rc ← (if is_null pubkey then mret 0 else trig (X509_set_pubkey cert pubkey));
  _ ← must_be_one rc "Failed to set public key";
  _ ← addExtensions cert (if is_null issuerCert then cert else issuerCert) is_ca pathlen;
  rc ← trig (X509_sign cert issuerKey SHA256);
  _ ← must_be_set rc "Failed to sign certificate";
  mret cert.

(** A call wrote [data] at the start of a buffer. *)
Definition over (buffer data : bytes) : M F S bytes :=
  if size buffer <? size data then fault_with UndefinedBehaviour
  else mret (data ++ drop (length data) buffer).

Definition getDerEncodedCertificate (cert : ptr) : M F S bytes :=
  len ← trig (i2d_X509_length cert);
  if len <? 0 then throw_ossl "Failed to get DER encoded length"
  else
    der ← lift (resize [] len);
    '(rc, data) ← trig (i2d_X509 cert);
    if rc <? 0 then throw_ossl "Failed to encode certificate to DER"
    else
      der ← over der data;
      mret (Encoders.base64_encode der).

(** Printing of the certificates is left out. *)
Definition generateCertChain : M F S OsslX509 :=
  rootKey ← generateKey 2048;
  rootReq ← generateCSR rootKey (str "Root CA");
  rootCert ← signCertificate rootReq rootKey null 1 3650 true 1;
  intermediateKey ← generateKey 2048;
  intermediateReq ← generateCSR intermediateKey (str "Intermediate CA");
  intermediateCert ← signCertificate intermediateReq rootKey rootCert 2 1825 true 0;
  leafKey ← generateKey 2048;
  leafReq ← generateCSR leafKey (str "eastus" ++ X509_SUBJECT_NAME_SUFFIX);
  leafCert ← signCertificate leafReq intermediateKey intermediateCert 3 365 false (-1);
  root ← getDerEncodedCertificate rootCert;
  x ← new_OsslX509 [root];
  intermediate ← getDerEncodedCertificate intermediateCert;
  x ← LoadIntermediateCertificate x intermediate;
  leaf ← getDerEncodedCertificate leafCert;
  x ← LoadLeafCertificate x leaf;
  mret (SetLeafKey x leafKey).

(** An empty string stands for every failure; the result of printing is not looked at. *)
Definition GetSubjectName (x : OsslX509) : M F S bytes :=
  if is_null (leaf_cert x) then mret []
  else
    subject ← trig (X509_get_subject_name (leaf_cert x));
    if is_null subject then mret []
    else
      bio ← trig BIO_new_mem;
      if is_null bio then mret []
      else
        _ ← trig (X509_NAME_print_ex bio subject);
        subjectName ← trig (BIO_get_mem_data bio);
        _ ← trig (BIO_free bio);
        mret subjectName.

(** The signature keeps the length of the first answer. *)
Definition SignData (x : OsslX509) (data : bytes) : M F S bytes :=
  mdctx ← trig EVP_MD_CTX_new;
  if is_null mdctx then throw_ossl "Failed to create EVP_MD_CTX"
  else
    rc ← trig (EVP_DigestSignInit mdctx SHA256 (leaf_key x));
    _ ← must_be_one rc "Failed to initialize DigestSign";
    rc ← trig (EVP_DigestSignUpdate mdctx data);
    _ ← must_be_one rc "Failed to update DigestSign";
    '(rc, siglen) ← trig (EVP_DigestSignFinal_length mdctx);
    _ ← must_be_one rc "Failed to finalize DigestSign (get length)";
    signature ← lift (resize [] siglen);
    '(rc, written) ← trig (EVP_DigestSignFinal mdctx siglen);
    _ ← must_be_one rc "Failed to finalize DigestSign";
    over signature written.
End Ops.
End CertGen.
