(* ===== verification/Policy.v ===== *)
(** * Policy.cpp: which payloads a policy admits

    A [PolicyEvaluator] decides whether the input is a legacy string or a token,
    parses and verifies the token in its constructor, and compares the features
    it finds with the options of the caller. Feature and option sets are the
    integers of the enumerations, combined bit by bit. *)

From S2P Require Import Prelude Base64 ReturnCodes Json Ossl BaseX509 Jwt.
#[local] Open Scope Z_scope.

Module Policy.

(** [PayloadFeature] *)
Definition None_ : Z := 0.
Definition Encrypted : Z := 1.
Definition Signed : Z := 2.
Definition Legacy : Z := 4.
(** [PolicyOption] *)
Definition RequireAll : Z := 0.
Definition AllowUnencrypted : Z := 1.
Definition AllowUnsigned : Z := 2.
Definition AllowLegacy : Z := 4.

Definition IS_POLICY_SET (policy flag : Z) : bool := Z.land policy flag =? flag.

(** The conversions of [std::wstring_convert<codecvt_utf8<wchar_t>>]; [None] when
    they throw. A wide string is a list of code units. *)
Class Utf8 := {
  utf8_to_bytes : list Z -> option bytes;
  utf8_from_bytes : bytes -> option (list Z) }.

Definition wide_to_utf8 `{Utf8} (wide_vec : list Z) : bytes :=
  match wide_vec with
  | [] => []
  | _ => default [] (utf8_to_bytes wide_vec)
  end.
(** The fallback widens each byte. *)
Definition utf8_to_wide `{Utf8} (utf8_vec : bytes) : list Z :=
  match utf8_vec with
  | [] => []
  | _ => default (map z_of_byte utf8_vec) (utf8_from_bytes utf8_vec)
  end.

Section Ops.
Context {F : Type -> Type} {S : Type} `{Handler F S} `{ClockCall -< F}.
Context `{BoostBase64, BoostString, NlohmannJson, Utf8} `{!BaseX509 F S}.

Record PolicyEvaluator := {
  policy : Z;
  isLegacy : bool;
  token : option Jwt.JsonWebToken }.

Definition requiredFields : list (bytes * bytes) :=
  [(str "x-az-cvm-purpose", str "secrets-provisioning")].

Definition parse_verified (inputStr : bytes) : M F S Jwt.JsonWebToken :=
  o ← lift (Jwt.new_JsonWebToken (str "RS256"));
  Jwt.ParseToken o inputStr true X509_SUBJECT_NAME_SUFFIX.

Definition new_PolicyEvaluator (p : Z) (input : bytes) : M F S PolicyEvaluator :=
  real ← lift (Jwt.isRealJwt input requiredFields);
  if negb real then mret {| policy := p; isLegacy := true; token := None |}
  else
    o ← parse_verified input;
    mret {| policy := p; isLegacy := false; token := Some o |}.

Definition new_PolicyEvaluator_wide (p : Z) (wideInput : list Z) : M F S PolicyEvaluator :=
  let inputVec := wide_to_utf8 wideInput in
  if bool_decide (inputVec = []) && negb (bool_decide (wideInput = []))
  then mret {| policy := p; isLegacy := true; token := None |}
  else
    real ← lift (Jwt.isRealJwt inputVec requiredFields);
    if negb real then mret {| policy := p; isLegacy := true; token := None |}
    else
      o ← parse_verified inputVec;
      mret {| policy := p; isLegacy := false; token := Some o |}.

Definition isEncrypted (pe : PolicyEvaluator) : bool :=
  if isLegacy pe then false
  else match token pe with
       | Some o => json_contains (Jwt.jwt o) (str "encryptedSecret")
       | None => false
       end.
Definition isSigned (pe : PolicyEvaluator) : bool :=
  if isLegacy pe then false
  else match token pe with
       | Some o => 0 <? size (Jwt.signature o)
       | None => false
       end.

Definition GetEvaluatedPolicy (pe : PolicyEvaluator) : Z :=
  let e := None_ in
  let e := if isEncrypted pe then Z.lor e Encrypted else e in
  let e := if isSigned pe then Z.lor e Signed else e in
  if isLegacy pe then Z.lor e Legacy else e.

(** The decision, on the evaluated features and the caller's options. *)
Definition admits (evalFeatures p : Z) : bool :=
  if IS_POLICY_SET evalFeatures Legacy then IS_POLICY_SET p AllowLegacy
  else if negb (IS_POLICY_SET evalFeatures Encrypted) && negb (IS_POLICY_SET p AllowUnencrypted)
  then false
  else if negb (IS_POLICY_SET evalFeatures Signed) && negb (IS_POLICY_SET p AllowUnsigned)
  then false
  else true.
Definition IsCompliant (pe : PolicyEvaluator) : bool :=
  admits (GetEvaluatedPolicy pe) (policy pe).

Definition GetClaims (pe : PolicyEvaluator) : json :=
  match token pe with Some o => if isLegacy pe then json_null else Jwt.jwt o | None => json_null end.
Definition GetHeader (pe : PolicyEvaluator) : json :=
  match token pe with
  | Some o => if isLegacy pe then json_null else Jwt.header o
  | None => json_null
  end.

End Ops.
End Policy.

Section Properties.
Import Policy.

Lemma IS_POLICY_SET_bit p k : 0 <= k -> IS_POLICY_SET p (2 ^ k) = Z.testbit p k.
Proof.
  intros Hk. unfold IS_POLICY_SET. destruct (Z.testbit p k) eqn:E.
  - apply Z.eqb_eq, Z.bits_inj'. intros n Hn. rewrite Z.land_spec, Z.pow2_bits_eqb by done.
    destruct (k =? n) eqn:Ek; [|by rewrite andb_false_r].
    apply Z.eqb_eq in Ek. by subst; rewrite E.
  - apply Z.eqb_neq. intros Heq. apply (f_equal (fun x => Z.testbit x k)) in Heq.
    by rewrite Z.land_spec, Z.pow2_bits_true, E in Heq.
Qed.
Lemma set_Encrypted p : IS_POLICY_SET p 1 = Z.testbit p 0.
Proof. by apply (IS_POLICY_SET_bit p 0). Qed.
Lemma set_Signed p : IS_POLICY_SET p 2 = Z.testbit p 1.
Proof. by apply (IS_POLICY_SET_bit p 1). Qed.
Lemma set_Legacy p : IS_POLICY_SET p 4 = Z.testbit p 2.
Proof. by apply (IS_POLICY_SET_bit p 2). Qed.

Section Pe.
Context `{NlohmannJson}.

Lemma evaluated_bits pe :
  Z.testbit (GetEvaluatedPolicy pe) 0 = isEncrypted pe /\
  Z.testbit (GetEvaluatedPolicy pe) 1 = isSigned pe /\
  Z.testbit (GetEvaluatedPolicy pe) 2 = isLegacy pe /\
  0 <= GetEvaluatedPolicy pe < 8.
Proof.
  unfold GetEvaluatedPolicy. by destruct (isEncrypted pe), (isSigned pe), (isLegacy pe).
Qed.

(** [IsCompliant] decides as documented, for every 32-bit option word: a legacy
    payload needs [AllowLegacy] and nothing else; a token needs each of
    encryption and signature, or the option that waives it. In particular
    [RequireAll] admits exactly the encrypted and signed tokens, and setting
    more option bits never revokes an admission. *)
Theorem IsCompliant_spec pe :
  IsCompliant pe =
    (if isLegacy pe then Z.testbit (policy pe) 2
     else (isEncrypted pe || Z.testbit (policy pe) 0) &&
          (isSigned pe || Z.testbit (policy pe) 1)) /\
  (policy pe = RequireAll -> IsCompliant pe = true ->
     isLegacy pe = false /\ isEncrypted pe = true /\ isSigned pe = true) /\
  (forall more, IsCompliant pe = true ->
     IsCompliant {| policy := Z.lor (policy pe) more; isLegacy := isLegacy pe;
                    token := token pe |} = true).
Proof.
  assert (Hspec : forall q, IsCompliant q =
    (if isLegacy q then Z.testbit (policy q) 2
     else (isEncrypted q || Z.testbit (policy q) 0) &&
          (isSigned q || Z.testbit (policy q) 1))).
  { intros q. destruct (evaluated_bits q) as (E0 & E1 & E2 & _).
    unfold IsCompliant, admits, Legacy, AllowLegacy, Encrypted, AllowUnencrypted, Signed,
      AllowUnsigned.
    rewrite !set_Encrypted, !set_Signed, !set_Legacy, E0, E1, E2.
    by destruct (isLegacy q), (isEncrypted q), (isSigned q), (Z.testbit (policy q) 0),
      (Z.testbit (policy q) 1). }
  split_and!; [apply Hspec| |].
  - intros Hp. rewrite Hspec, Hp. rewrite !Z.bits_0.
    destruct (isLegacy pe), (isEncrypted pe), (isSigned pe); done.
  - intros more. rewrite !Hspec. unfold isEncrypted, isSigned. cbn [isLegacy policy token].
    rewrite !Z.lor_spec. destruct (isLegacy pe).
    + by intros ->.
    + rewrite !andb_true_iff, !orb_true_iff. tauto.
Qed.
End Pe.
End Properties.

Lemma IsCompliant_spec_witness :
  Policy.isSigned (@Policy.Build_PolicyEvaluator json_tree Policy.RequireAll false
    (Some (@Jwt.Build_JsonWebToken json_tree JNull
             (JObj [(str "encryptedSecret", JNull)]) [x01]))) = true.
Proof.
  apply (proj1 (proj2 (IsCompliant_spec (@Policy.Build_PolicyEvaluator json_tree Policy.RequireAll false
    (Some (@Jwt.Build_JsonWebToken json_tree JNull
             (JObj [(str "encryptedSecret", JNull)]) [x01]))))) eq_refl eq_refl).
Defined.
