(* ===== verification/Esys.v ===== *)
(** * The TPM: the calls to tpm2-tss

    [EsysCall] lists the functions of the Enhanced System API (and of its
    marshalling library) that the two TPM wrappers call, with the structures they
    exchange.  A return code is a [Z], 0 for success; an out-parameter is part of
    the answer. Constants have the values of the headers of tpm2-tss. *)

From S2P Require Import Prelude.
#[local] Open Scope Z_scope.

Notation ESYS_TR := Z (only parsing).
Notation TPM2_HANDLE := Z (only parsing).
Definition TSS2_RC_SUCCESS : Z := 0.
Definition ESYS_TR_NONE : ESYS_TR := 0xfff.
Definition ESYS_TR_PASSWORD : ESYS_TR := 0xff.
Definition ESYS_TR_RH_OWNER : ESYS_TR := 0x101.
Definition ESYS_TR_RH_NULL : ESYS_TR := 0x107.
Definition ESYS_TR_RH_ENDORSEMENT : ESYS_TR := 0x10b.

Definition TPM2_ALG_RSA : Z := 0x0001.
Definition TPM2_ALG_SHA1 : Z := 0x0004.
Definition TPM2_ALG_AES : Z := 0x0006.
Definition TPM2_ALG_SHA256 : Z := 0x000b.
Definition TPM2_ALG_SHA384 : Z := 0x000c.
Definition TPM2_ALG_SHA512 : Z := 0x000d.
Definition TPM2_ALG_NULL : Z := 0x0010.
Definition TPM2_ALG_SM3_256 : Z := 0x0012.
Definition TPM2_ALG_RSAES : Z := 0x0015.
Definition TPM2_ALG_OAEP : Z := 0x0017.
Definition TPM2_ALG_CFB : Z := 0x0043.

Definition TPMA_OBJECT_FIXEDTPM : Z := 0x2.
Definition TPMA_OBJECT_FIXEDPARENT : Z := 0x10.
Definition TPMA_OBJECT_SENSITIVEDATAORIGIN : Z := 0x20.
Definition TPMA_OBJECT_USERWITHAUTH : Z := 0x40.
Definition TPMA_OBJECT_ADMINWITHPOLICY : Z := 0x80.
Definition TPMA_OBJECT_NODA : Z := 0x400.
Definition TPMA_OBJECT_RESTRICTED : Z := 0x10000.
Definition TPMA_OBJECT_DECRYPT : Z := 0x20000.
Definition TPMA_NV_OWNERWRITE : Z := 0x2.
Definition TPMA_NV_AUTHWRITE : Z := 0x4.
Definition TPMA_NV_OWNERREAD : Z := 0x20000.
Definition TPMA_NV_AUTHREAD : Z := 0x40000.

Definition TPM2_SE_POLICY : Z := 1.
Definition TPM2_SE_TRIAL : Z := 3.
Definition TPM2_PT_FAMILY_INDICATOR : Z := 0x100.
Definition TPM2_PT_PCR_COUNT : Z := 0x112.
Definition TPM2_RC_HANDLE : Z := 0x8b.
Definition TPM2_MAX_RSA_KEY_BYTES : Z := 512.

(** [TPM2B_PUBLIC], with the fields of an RSA object. The buffer of
    [unique.rsa] has [TPM2_MAX_RSA_KEY_BYTES] bytes, of which [rsa_size] count. *)
Record TPM2B_PUBLIC := {
  type_ : Z;
  nameAlg : Z;
  objectAttributes : Z;
  authPolicy : bytes;
  sym_algorithm : Z; sym_keyBits : Z; sym_mode : Z;
  scheme_alg : Z;
  keyBits : Z;
  exponent : Z;
  rsa_buffer : bytes;
  rsa_size : Z }.
Definition zero_public : TPM2B_PUBLIC :=
  {| type_ := 0; nameAlg := 0; objectAttributes := 0; authPolicy := [];
     sym_algorithm := 0; sym_keyBits := 0; sym_mode := 0; scheme_alg := 0;
     keyBits := 0; exponent := 0; rsa_buffer := []; rsa_size := 0 |}.

(** [TPMT_RSA_DECRYPT] *)
Record rsa_scheme := { scheme : Z; oaep_hashAlg : Z }.

(** [TPML_PCR_SELECTION] with its one bank. *)
Record pcr_selection := { sel_hash : Z; sizeofSelect : Z; pcrSelect : list Z }.

(** The three structures the wrappers marshal. [TPMT_SIGNATURE] is read as its
    [rsassa.sig]. *)
Inductive EsysCall : Type -> Type :=
| Tss2_Tcti_Device_Init_size : EsysCall (Z * Z)
| Tss2_Tcti_Device_Init (size : Z) : EsysCall Z
| Esys_Initialize : EsysCall Z
| Esys_Finalize : EsysCall unit
| Esys_TR_FromTPMPublic (handle : TPM2_HANDLE) : EsysCall (Z * ESYS_TR)
| Esys_TR_Close (tr : ESYS_TR) : EsysCall Z
| Esys_TR_SetAuth (tr : ESYS_TR) (auth : bytes) : EsysCall Z
| Esys_EvictControl (auth object : ESYS_TR) (persistent : TPM2_HANDLE) : EsysCall (Z * ESYS_TR)
| Esys_CreatePrimary (hierarchy : ESYS_TR) (inPublic : TPM2B_PUBLIC)
  : EsysCall (Z * (ESYS_TR * TPM2B_PUBLIC))
| Esys_ReadPublic (object : ESYS_TR) : EsysCall (Z * option TPM2B_PUBLIC)
| Esys_RSA_Encrypt (key : ESYS_TR) (plain : bytes) (s : rsa_scheme) : EsysCall (Z * bytes)
| Esys_RSA_Decrypt (key session : ESYS_TR) (cipher : bytes) (s : rsa_scheme)
  : EsysCall (Z * bytes)
| Esys_NV_ReadPublic (nv : ESYS_TR) : EsysCall (Z * Z)
| Esys_NV_Read (nv : ESYS_TR) (size offset : Z) : EsysCall (Z * bytes)
| Esys_NV_Write (nv : ESYS_TR) (data : bytes) (offset : Z) : EsysCall Z
| Esys_NV_UndefineSpace (nv : ESYS_TR) : EsysCall Z
| Esys_NV_DefineSpace (index : TPM2_HANDLE) (attributes size : Z) : EsysCall (Z * ESYS_TR)
| Esys_PCR_Read (sel : pcr_selection) : EsysCall (Z * option (pcr_selection * list bytes))
| Esys_GetCapability (property : Z) : EsysCall (Z * list (Z * Z))
| Esys_Quote (key : ESYS_TR) (sel : pcr_selection) : EsysCall (Z * option (bytes * bytes))
| Esys_StartAuthSession (sessionType : Z) : EsysCall (Z * ESYS_TR)
| Esys_PolicySecret (authority session : ESYS_TR) : EsysCall Z
| Esys_PolicyPCR (session : ESYS_TR) (digest : bytes) (sel : pcr_selection) : EsysCall Z
| Esys_PolicyCommandCode (session : ESYS_TR) (command : Z) : EsysCall Z
| Esys_PolicyAuthValue (session : ESYS_TR) : EsysCall Z
| Esys_PolicyGetDigest (session : ESYS_TR) : EsysCall (Z * bytes)
| Esys_FlushContext (tr : ESYS_TR) : EsysCall Z
| Esys_Import (key session : ESYS_TR) (pub : TPM2B_PUBLIC) (priv seed : bytes)
  : EsysCall (Z * bytes)
| Esys_Load (key session : ESYS_TR) (priv : bytes) (pub : TPM2B_PUBLIC) : EsysCall (Z * ESYS_TR)
| Esys_Unseal (object session : ESYS_TR) : EsysCall (Z * bytes)
| Esys_Certify (object sign : ESYS_TR) : EsysCall (Z * (bytes * bytes))
| MU_TPM2B_PUBLIC_Marshal (pub : TPM2B_PUBLIC) : EsysCall (Z * bytes)
| MU_TPM2B_PUBLIC_Unmarshal (data : bytes) : EsysCall (Z * TPM2B_PUBLIC)
| MU_TPMT_PUBLIC_Unmarshal (data : bytes) : EsysCall (Z * TPM2B_PUBLIC)
| MU_TPM2B_PRIVATE_Unmarshal (data : bytes) : EsysCall (Z * bytes)
| MU_TPM2B_ENCRYPTED_SECRET_Unmarshal (data : bytes) : EsysCall (Z * bytes)
| MU_TPM2B_ATTEST_Marshal (attest : bytes) : EsysCall (Z * bytes)
| MU_TPM2B_ATTEST_Unmarshal (data : bytes) : EsysCall (Z * bytes)
| MU_TPMT_SIGNATURE_Marshal (sig : bytes) : EsysCall (Z * bytes)
| MU_TPMT_SIGNATURE_Unmarshal (data : bytes) : EsysCall (Z * bytes).

(** A TPM in which every call succeeds, for evaluating concrete runs. The key's
    decryption returns [plain]; a session and an object have handle 5. *)
Definition esys_accept (plain : bytes) (R : Type) (e : EsysCall R) : R :=
  match e in EsysCall T return T with
  | Tss2_Tcti_Device_Init_size => (0, 64)
  | Tss2_Tcti_Device_Init _ | Esys_Initialize => 0
  | Esys_Finalize => tt
  | Esys_TR_FromTPMPublic _ => (0, 5)
  | Esys_TR_Close _ | Esys_TR_SetAuth _ _ => 0
  | Esys_EvictControl _ _ _ => (0, 5)
  | Esys_CreatePrimary _ p => (0, (5, p))
  | Esys_ReadPublic _ => (0, Some zero_public)
  | Esys_RSA_Encrypt _ data _ => (0, data)
  | Esys_RSA_Decrypt _ _ _ _ => (0, plain)
  | Esys_NV_ReadPublic _ => (0, size plain)
  | Esys_NV_Read _ n o => (0, take (Z.to_nat n) (drop (Z.to_nat o) plain))
  | Esys_NV_Write _ _ _ | Esys_NV_UndefineSpace _ => 0
  | Esys_NV_DefineSpace _ _ _ => (0, 5)
  | Esys_PCR_Read sel => (0, Some (sel, [plain]))
  | Esys_GetCapability prop => (0, [(prop, if (prop =? TPM2_PT_PCR_COUNT)%Z then 24 else 0x322e3000)])
  | Esys_Quote _ _ => (0, Some (plain, plain))
  | Esys_StartAuthSession _ => (0, 5)
  | Esys_PolicySecret _ _ | Esys_PolicyPCR _ _ _ | Esys_PolicyCommandCode _ _ => 0
  | Esys_PolicyAuthValue _ => 0
  | Esys_PolicyGetDigest _ => (0, replicate 32 x01)
  | Esys_FlushContext _ => 0
  | Esys_Import _ _ _ _ _ => (0, plain)
  | Esys_Load _ _ _ _ => (0, 5)
  | Esys_Unseal _ _ => (0, plain)
  | Esys_Certify _ _ => (0, (plain, plain))
  | MU_TPM2B_PUBLIC_Marshal p => (0, rsa_buffer p)
  | MU_TPM2B_PUBLIC_Unmarshal data | MU_TPMT_PUBLIC_Unmarshal data =>
      (0, {| type_ := TPM2_ALG_RSA; nameAlg := TPM2_ALG_SHA256; objectAttributes := 0;
             authPolicy := []; sym_algorithm := 0; sym_keyBits := 0; sym_mode := 0;
             scheme_alg := 0; keyBits := 2048; exponent := 0; rsa_buffer := data;
             rsa_size := size data |})
  | MU_TPM2B_PRIVATE_Unmarshal data | MU_TPM2B_ENCRYPTED_SECRET_Unmarshal data => (0, data)
  | MU_TPM2B_ATTEST_Marshal data | MU_TPM2B_ATTEST_Unmarshal data => (0, data)
  | MU_TPMT_SIGNATURE_Marshal data | MU_TPMT_SIGNATURE_Unmarshal data => (0, data)
  end.
