(* ===== verification/SecretsTpm.v ===== *)
(** * The TPM wrapper of azure-protected-vm-secrets

    TssCtx.cpp, Tss2Wrapper.cpp, Tpm.cpp and the padding schemes of
    CommonTypes.h. The guest key lives at the persistent handle [KEYHANDLE]. *)

From S2P Require Import Prelude ReturnCodes Esys.
#[local] Open Scope Z_scope.

Inductive RsaPaddingScheme := Rsaes | RsaesOaep.

Definition RsaPaddingSchemeToString (scheme : RsaPaddingScheme) : bytes :=
  match scheme with RsaesOaep => str "rsaes-oaep" | Rsaes => str "rsaes" end.

Definition ParseRsaPaddingScheme (value : bytes) : outcome RsaPaddingScheme :=
  if bool_decide (value = []) || bool_decide (value = str "rsaes") then mret Rsaes
  else if bool_decide (value = str "rsaes-oaep") then mret RsaesOaep
  else Throw (InvalidArgument (str "Unrecognized RSA padding scheme: " ++ value)).

Module SecretsTpm.

Definition SRKHANDLE : TPM2_HANDLE := 0x81000001.
Definition KEYHANDLE : TPM2_HANDLE := SRKHANDLE + 3.
Definition RSA_PUBLIC_EXPONENT : Z := 0x00010001.
Definition TPM_PT_NV_INDEX_MAX : Z := 1024.
Definition HCL_REPORT_INDEX : TPM2_HANDLE := 0x01400001.

Section Ops.
Context {F : Type -> Type} {S : Type} `{Handler F S} `{EsysCall -< F} `{Fuel}.

(** [if (ret != TSS2_RC_SUCCESS) throw TpmError(ret, what, librc);] *)
Definition check (ret : Z) (w : string) (librc : ErrorCode) : M F S unit :=
  require (ret =? TSS2_RC_SUCCESS) (TpmErr ret (str w) (error_code librc)).

(** Constructor and destructor of [TssCtx]. *)
Definition InitializeTcti : M F S unit :=
  '(ret, sz) ← trig Tss2_Tcti_Device_Init_size;
  _ ← check ret "Failed to initialize TSS context - size" TpmError_Context_tctiInitError;
  ret ← trig (Tss2_Tcti_Device_Init sz);
  check ret "Failed to initialize TCTI context" TpmError_Context_tctiInitError.
Definition new_TssCtx : M F S unit :=
  _ ← InitializeTcti;
  ret ← trig Esys_Initialize;
  check ret "Failed to initialize TSS context" TpmError_Context_esysInitError.
(** An object owning a context, used in [m], destroyed at the end of its scope. *)
Definition with_TssCtx {A} (m : M F S A) : M F S A :=
  _ ← new_TssCtx; finally m (trig Esys_Finalize).

Definition RemoveKey : M F S Z :=
  '(ret, object_handle) ← trig (Esys_TR_FromTPMPublic KEYHANDLE);
  _ ← check ret "Failed to get object from handle" TpmError_Handles_handlePresentError;
  '(ret, _) ← trig (Esys_EvictControl ESYS_TR_RH_OWNER object_handle KEYHANDLE);
  _ ← check ret "Failed to Evict object at handle" TpmError_Handles_evictControlError;
  mret ret.

Definition guest_key_template : TPM2B_PUBLIC := {|
  type_ := TPM2_ALG_RSA;
  nameAlg := TPM2_ALG_SHA256;
  objectAttributes :=
    Z.lor TPMA_OBJECT_DECRYPT (Z.lor TPMA_OBJECT_USERWITHAUTH (Z.lor TPMA_OBJECT_FIXEDTPM
      (Z.lor TPMA_OBJECT_FIXEDPARENT TPMA_OBJECT_SENSITIVEDATAORIGIN)));
  authPolicy := [];
  sym_algorithm := TPM2_ALG_NULL; sym_keyBits := 0; sym_mode := 0;
  scheme_alg := TPM2_ALG_NULL;
  keyBits := 2048;
  exponent := RSA_PUBLIC_EXPONENT;
  rsa_buffer := [];
  rsa_size := 256 |}.

Definition GenerateGuestKey : M F S TPM2B_PUBLIC :=
  '(ret, (primaryHandle, outPub)) ← trig (Esys_CreatePrimary ESYS_TR_RH_OWNER guest_key_template);
  _ ← check ret "Failed to create primary object under storage hierarchy" TpmError_Objects_createError;
  '(ret, _) ← trig (Esys_EvictControl ESYS_TR_RH_OWNER primaryHandle KEYHANDLE);
  _ ← check ret "Failed to EvictControl key" TpmError_Handles_evictControlError;
  mret outPub.

Definition IsKeyPresent : M F S bool :=
  '(ret, _) ← trig (Esys_TR_FromTPMPublic KEYHANDLE);
  mret (ret =? TSS2_RC_SUCCESS).

(** An RSAES scheme leaves the hash of the zeroed structure. *)
Definition MakeRsaScheme (paddingScheme : RsaPaddingScheme) : rsa_scheme :=
  match paddingScheme with
  | RsaesOaep => {| scheme := TPM2_ALG_OAEP; oaep_hashAlg := TPM2_ALG_SHA256 |}
  | Rsaes => {| scheme := TPM2_ALG_RSAES; oaep_hashAlg := 0 |}
  end.

(** [std::copy] of the data into the 512-byte buffer of a [TPM2B_PUBLIC_KEY_RSA],
    without a check of the size. *)
Definition copy_to_rsa_buffer (data : bytes) : M F S bytes :=
  if TPM2_MAX_RSA_KEY_BYTES <? size data then fault_with UndefinedBehaviour else mret data.

Definition Tss2RsaEncrypt (plaintextData : bytes) (paddingScheme : RsaPaddingScheme)
  : M F S bytes :=
  '(r, primaryHandle) ← trig (Esys_TR_FromTPMPublic KEYHANDLE);
  _ ← check r "Failed to read tpm object from handle" TpmError_Handles_handlePresentError;
  r ← trig (Esys_TR_SetAuth primaryHandle []);
  _ ← check r "Failed to set auth" TpmError_Auth_setAuthError;
  plain ← copy_to_rsa_buffer plaintextData;
  '(r, cipher) ← trig (Esys_RSA_Encrypt primaryHandle plain (MakeRsaScheme paddingScheme));
  _ ← check r "Failed to Encrypt data" CryptographyError_TpmRsa_encryptError;
  mret cipher.

Definition Tss2RsaDecrypt (encryptedData : bytes) (paddingScheme : RsaPaddingScheme)
  : M F S bytes :=
  r ← trig (Esys_TR_SetAuth ESYS_TR_RH_OWNER []);
  _ ← check r "Failed to set auth" TpmError_Auth_setAuthError;
  '(r, primaryHandle) ← trig (Esys_TR_FromTPMPublic KEYHANDLE);
  _ ← check r "Failed to read tpm object from handle" TpmError_Handles_handlePresentError;
  r ← trig (Esys_TR_SetAuth primaryHandle []);
  _ ← check r "Failed to set auth" TpmError_Auth_setAuthError;
  cipher ← copy_to_rsa_buffer encryptedData;
  '(r, plain2) ← trig (Esys_RSA_Decrypt primaryHandle ESYS_TR_PASSWORD cipher
                         (MakeRsaScheme paddingScheme));
  _ ← check r "Failed to Decrypt data" CryptographyError_TpmRsa_decryptError;
  mret plain2.

(** [std::copy(first, last, data.begin() + offset)] *)
Definition copy_at (data chunk : bytes) (offset : Z) : M F S bytes :=
  let o := Z.to_nat offset in
  if size data <? offset + size chunk then fault_with UndefinedBehaviour
  else mret (take o data ++ chunk ++ drop (o + length chunk) data).

Fixpoint nv_read_loop (n : nat) (nvHandle : ESYS_TR) (data : bytes) (sz offset : Z)
  : M F S bytes :=
  if sz <=? 0 then mret data
  else match n with
  | O => fault_with OutOfFuel
  | Datatypes.S n' =>
      let bytesToRead := if TPM_PT_NV_INDEX_MAX <? sz then TPM_PT_NV_INDEX_MAX else sz in
      '(r, nvData) ← trig (Esys_NV_Read nvHandle (u16 bytesToRead) (u16 offset));
      _ ← check r "Failed to read NV data" TpmError_Handles_esysNvReadError;
      data ← copy_at data nvData offset;
      nv_read_loop n' nvHandle data (u64 (sz - size nvData)) (offset + size nvData)
  end.

Definition Tss2NvRead (nvIndex : TPM2_HANDLE) : M F S bytes :=
  '(r, nvHandle) ← trig (Esys_TR_FromTPMPublic nvIndex);
  _ ← check r "Failed to read tpm object from handle" TpmError_Handles_handlePresentError;
  '(r, dataSize) ← trig (Esys_NV_ReadPublic nvHandle);
  _ ← check r "Failed to read tpm object from handle" TpmError_Handles_handlePresentError;
  nv_read_loop fuel nvHandle (replicate (Z.to_nat dataSize) x00) dataSize 0.

(** Tpm.cpp: a [Tpm] holds a wrapper, which holds a context. *)
Definition RsaDecrypt (encryptedData : bytes) (paddingScheme : RsaPaddingScheme) : M F S bytes :=
  Tss2RsaDecrypt encryptedData paddingScheme.
Definition ReadHclReport : M F S bytes := Tss2NvRead HCL_REPORT_INDEX.

End Ops.
End SecretsTpm.
