(* ===== verification/Secrets.v ===== *)
(** * SecretsProvisioningLibrary.cpp: releasing a secret

    [unprotect_secret] evaluates the policy, decrypts the claims of a token
    ([decrypt_secret]: TPM, AES-GCM, ECDH, HKDF, AES-GCM) and hands the
    secret to the caller. Exceptions become status codes; [UnprotectResult] is
    the return value with the two out-parameters. *)

From S2P Require Import Prelude Base64 ReturnCodes Json Ossl BaseX509 LinuxX509 Jwt Policy Esys SecretsTpm.
#[local] Open Scope Z_scope.

(** The first line of [/sys/class/dmi/id/product_uuid], if the file opens. *)
Inductive DmiCall : Type -> Type :=
| product_uuid : DmiCall (option bytes).

(** [decrypt_secret] as the entry points see it, and the bits of a [long]; each platform has its own
    ([LinuxDecryptor] below, [WindowsDecryptor] in WinRelease.v). *)
Class Decryptor (F : Type -> Type) (S : Type) `{NlohmannJson} := {
  platform_decrypt : json -> RsaPaddingScheme -> M F S (Z * bytes);
  long_bits : Z }.

Module Secrets.
Section Linux.
Context {F : Type -> Type} {S : Type} `{Handler F S}.
Context `{OsslCall -< F} `{EsysCall -< F} `{DmiCall -< F}.
Context `{BoostBase64, BoostString, NlohmannJson}.

Definition GetSystemUuid : M F S bytes :=
  line ← trig product_uuid;
  match line with
  | Some t_uuid => mret (map X509.tolower t_uuid)
  | None => throw (runtime_error "Unable to open /sys/class/dmi/id/product_uuid")
  end.

(** [encoders::base64_decode(claims.at(key))] *)
Definition claim_bytes (claims : json) (key : string) : outcome bytes :=
  v ← json_at claims (str key);
  s ← json_get_string v;
  Encoders.base64_decode s.

(** The catch clauses of [decrypt_secret], in their order. *)
Definition decrypt_error (e : exn) : ErrorCode + Z :=
  match e with
  | TpmErr _ _ librc => inr librc
  | OsslErr _ _ => inl CryptographyError
  | StdOutOfRange _ => inl ParsingError_Jwt_missingFieldError
  | JsonError OutOfRangeErr _ => inl ParsingError_Jwt_missingFieldError
  | JsonError TypeErr _ => inl ParsingError_Jwt_invalidFieldError
  | JwtErr _ librc => inr librc
  | _ => inl UnknownError
  end.
Definition code_of (r : ErrorCode + Z) : Z :=
  match r with inl c => error_code c | inr z => z end.

Definition decrypt_steps (claims : json) (infoData : bytes) (paddingScheme : RsaPaddingScheme)
  : M F S (Z * bytes) :=
  _ ← lift (json_dump claims);
  salt ← lift (claim_bytes claims "salt");
  dataNonce ← lift (claim_bytes claims "dataNonce");
  wrappingNonce ← lift (claim_bytes claims "keyNonce");
  wrappedAesKey ← lift (claim_bytes claims "wrappedAesTransportKey");
  encryptedSecret ← lift (claim_bytes claims "encryptedSecret");
  encryptedEcdhPrivate ← lift (claim_bytes claims "encryptedGuestEcdhPrivateKey");
  exportedPublicKeyData ← lift (claim_bytes claims "ephemeralEcdhPublicKey");
  SecretsTpm.with_TssCtx (
    aesKey ← SecretsTpm.RsaDecrypt wrappedAesKey paddingScheme;
    if size aesKey =? 0 then mret (error_code UnknownError, [])
    else
      aesWrapper ← Aes.new_OsslGcmWrapper;
      let aesWrapper := Aes.SetKey aesWrapper aesKey in
      encodedEcdhPrivate ←
        Aes.Decrypt aesWrapper encryptedEcdhPrivate (Some (Aes.SetChainingInfo wrappingNonce));
      if size encodedEcdhPrivate =? 0 then mret (error_code UnknownError, [])
      else
        ecdhPrivate ← Ecdh.new_OsslECDiffieHellman;
        ecdhPublic ← Ecdh.new_OsslECDiffieHellman;
        ecdhPrivate ← Ecdh.ImportPkcs8PrivateKey ecdhPrivate encodedEcdhPrivate;
        ecdhPublic ← Ecdh.ImportSubjectPublicKeyInfo ecdhPublic exportedPublicKeyData;
        secret ← Ecdh.DeriveSecret ecdhPrivate ecdhPublic;
        hkdf ← Hkdf.new_OsslHKDF secret;
        aesKey ← Hkdf.DeriveKey hkdf salt infoData 32;
        let aesWrapper := Aes.SetKey aesWrapper aesKey in
        plaintextData ←
          Aes.Decrypt aesWrapper encryptedSecret (Some (Aes.SetChainingInfo dataNonce));
        if size plaintextData =? 0 then mret (error_code UnknownError, [])
        else mret (0, plaintextData)).

(** The system's UUID is read before the [try]. *)
Definition decrypt_secret (claims : json) (paddingScheme : RsaPaddingScheme)
  : M F S (Z * bytes) :=
  infoString ← GetSystemUuid;
  try_all (decrypt_steps claims infoString paddingScheme)
    (fun e => mret (code_of (decrypt_error e), [])).

End Linux.
#[global] Instance LinuxDecryptor {F S} `{Handler F S} `{OsslCall -< F} `{EsysCall -< F} `{DmiCall -< F}
  `{BoostBase64, BoostString, NlohmannJson} : Decryptor F S := {| platform_decrypt := decrypt_secret; long_bits := 64 |}.

(** ** The entry points *)

Section Ops.
Context {F : Type -> Type} {S : Type} `{Handler F S} `{ClockCall -< F} `{EsysCall -< F} `{Fuel}.
Context `{BoostBase64, BoostString, NlohmannJson, Policy.Utf8} `{!BaseX509 F S} `{!Decryptor F S}.

Definition GetPaddingScheme (pe : Policy.PolicyEvaluator) : outcome RsaPaddingScheme :=
  let header := Policy.GetHeader pe in
  if json_contains header (str "x-az-rsa-padding") then
    v ← json_at header (str "x-az-rsa-padding");
    s ← json_get_string v;
    ParseRsaPaddingScheme s
  else mret Rsaes.

(** [static_cast<long>(n)] *)
Definition to_long (n : Z) : Z := wrap_signed (long_bits (F := F) (S := S)) n.
(** [*output] and the return value *)
Definition marshal_output {T} (data : list T) : option (list T) * Z :=
  match data with
  | [] => (None, 0)
  | _ => (Some data, to_long (Z.of_nat (length data)))
  end.

Record UnprotectResult (T : Type) := {
  ret : Z;
  output_secret : option (list T);
  eval_policy : option Z }.
Arguments ret {T}. Arguments output_secret {T}. Arguments eval_policy {T}.
Arguments Build_UnprotectResult {T}.
Arguments Build_UnprotectResult {T}.

(** The catch clauses of the two entry points. *)
Definition unprotect_error (e : exn) : Z :=
  match e with
  | JwtErr _ librc => librc
  | InvalidArgument _ => error_code ParsingError_Jwt_invalidFieldError
  | _ => error_code UnknownError
  end.

(** What follows the evaluation of the policy. [get_data] yields a status and
    the data of a payload that is not a legacy one. *)
Definition release {T} (pe : Policy.PolicyEvaluator) (legacy : list T)
  (get_data : M F S (Z * list T)) : M F S (Z * option (list T)) :=
  if negb (Policy.IsCompliant pe) then mret (error_code PolicyMismatchError, None)
  else if Policy.isLegacy pe then
    let '(out, n) := marshal_output legacy in mret (n, out)
  else
    '(result, data) ← get_data;
    if negb (result =? 0) then mret (result, None)
    else let '(out, n) := marshal_output data in mret (n, out).

Definition unprotect {T} (new_pe : M F S Policy.PolicyEvaluator) (legacy : list T)
  (get_data : Policy.PolicyEvaluator -> M F S (Z * list T)) : M F S (UnprotectResult T) :=
  pe ← try_all (pe ← new_pe; mret (inl pe)) (fun e => mret (inr (unprotect_error e)));
  match pe with
  | inr code => mret (Build_UnprotectResult code None None)
  | inl pe =>
      let ev := Policy.GetEvaluatedPolicy pe in
      '(code, out) ← try_all (release pe legacy (get_data pe))
                       (fun e => mret (unprotect_error e, None));
      mret (Build_UnprotectResult code out (Some ev))
  end.

Definition token_data (pe : Policy.PolicyEvaluator) : M F S (Z * bytes) :=
  scheme ← lift (GetPaddingScheme pe);
  platform_decrypt (Policy.GetClaims pe) scheme.

Definition unprotect_secret (jwt : bytes) (policy : Z) : M F S (UnprotectResult byte) :=
  unprotect (Policy.new_PolicyEvaluator policy jwt) jwt token_data.

(** The wide entry point converts the decrypted text. *)
Definition token_data_wide (pe : Policy.PolicyEvaluator) : M F S (Z * list Z) :=
  '(result, plaintextData) ← token_data pe;
  if negb (result =? 0) then mret (result, [])
  else
    let wide_data := Policy.utf8_to_wide plaintextData in
    if bool_decide (wide_data = []) && negb (bool_decide (plaintextData = []))
    then mret (error_code ParsingError_Jwt_invalidFieldError, [])
    else mret (0, wide_data).

Definition unprotect_secret_wide (jwt : list Z) (policy : Z) : M F S (UnprotectResult Z) :=
  unprotect (Policy.new_PolicyEvaluator_wide policy jwt) jwt token_data_wide.

(** -1 for every exception. *)
Definition is_secrets_provisioning_enabled : M F S Z :=
  try_all (SecretsTpm.with_TssCtx (
             present ← SecretsTpm.IsKeyPresent;
             mret (if present : bool then 1 else 0)))
    (fun _ => mret (-1)).

End Ops.
Arguments ret {T}. Arguments output_secret {T}. Arguments eval_policy {T}.
Arguments Build_UnprotectResult {T}.
End Secrets.

(** ** Properties *)
Module SecretsFacts.
Import Secrets.

(** A status is 0 with data, or a failure. *)
Definition status_ok {T} (r : Z * list T) : Prop := (fst r = 0 /\ snd r <> []) \/ failure (fst r).
(** What the entry points rely on. *)
Class DecryptorLaws (F : Type -> Type) (S : Type) `{Decryptor F S} : Prop := {
  decrypt_status claims scheme : yields status_ok (platform_decrypt claims scheme);
  decrypt_coded claims scheme : throws coded (platform_decrypt claims scheme);
  long_width : long_bits (F := F) (S := S) ∈ [32; 64] }.

Section Facts.
Context {F : Type -> Type} {S : Type} `{HF : Handler F S} `{HC : ClockCall -< F} `{HE : EsysCall -< F} `{Fu : Fuel}.
Context `{Bb : BoostBase64, Bs : BoostString, NJ : NlohmannJson, U8 : Policy.Utf8} `{BX : !BaseX509 F S}.
Import JwtFacts.

Section Verified.
Context `{XL : !X509Laws F S} `{DC : !Decryptor F S}.

(** The token text was signed by a trusted provisioning certificate. *)
Definition text_verified (text : bytes) (t : list (event F)) : Prop :=
  exists last sig h, rfind_byte "." text = Some last /\
    Encoders.base64_url_decode (drop (last + 1) text) = Ret sig /\
    token_verified h (take last text) sig X509_SUBJECT_NAME_SUFFIX t.

Lemma text_verified_mono text (t t' : list (event F)) :
  t ⊆ t' -> text_verified text t -> text_verified text t'.
Proof.
  intros Ht (last & sig & h & ? & ? & ?). exists last, sig, h.
  split_and!; auto. by eapply token_verified_mono.
Qed.

(** What the constructor of a policy evaluator establishes, for the text that
    was examined. *)
Definition evaluator_ok (p : Z) (text : bytes) (pe : Policy.PolicyEvaluator)
  (t : list (event F)) : Prop :=
  Policy.policy pe = p /\
  (Policy.isSigned pe = true -> Policy.isLegacy pe = false /\ text_verified text t).

Lemma new_jwt_signature alg o : Jwt.new_JsonWebToken alg = Ret o -> Jwt.signature o = [].
Proof.
  unfold Jwt.new_JsonWebToken. intros (h & _ & (h' & _ & [= <-])%outcome_bind_ret)%outcome_bind_ret.
  done.
Qed.

Lemma parse_verified_spec text s :
  wp (Policy.parse_verified text) s (fun o _ t => forall obj, o = Ret obj ->
    Jwt.signature obj <> [] -> text_verified text t).
Proof.
  unfold Policy.parse_verified. wp_step. wp_step.
  destruct (Jwt.new_JsonWebToken _) as [o|e|f] eqn:E; [|done..].
  apply new_jwt_signature in E. eapply wp_mono; [apply ParseToken_spec|].
  intros out s' t Ho obj -> Hs. rewrite E in Ho.
  destruct (Ho obj eq_refl Hs) as (last & ? & ? & ?). by exists last, (Jwt.signature obj), (Jwt.header obj).
Qed.

(** The two constructors after the text is known. *)
Lemma evaluate_text_spec p text s :
  wp (real ← lift (Jwt.isRealJwt text Policy.requiredFields);
      if negb real then mret {| Policy.policy := p; Policy.isLegacy := true; Policy.token := None |}
      else o ← Policy.parse_verified text;
           mret {| Policy.policy := p; Policy.isLegacy := false; Policy.token := Some o |})
    s (fun o _ t => forall pe, o = Ret pe -> evaluator_ok p text pe t).
Proof.
  wp_step. wp_step. destruct (Jwt.isRealJwt _ _) as [real|e|f]; [|done..].
  wp_step; [by wp_step; intros pe [= <-]|].
  wp_step. eapply wp_mono; [apply parse_verified_spec|].
  intros [o|e|f] s' t Ho; [|done..]. wp_step. intros pe [= <-]. split; [done|].
  unfold Policy.isSigned. cbn. intros Hs%Z.ltb_lt. split; [done|].
  rewrite app_nil_r. apply (Ho o eq_refl). intros E. by rewrite E in Hs.
Qed.

Lemma new_PolicyEvaluator_spec p text s :
  wp (Policy.new_PolicyEvaluator p text) s (fun o _ t =>
    forall pe, o = Ret pe -> evaluator_ok p text pe t).
Proof. apply evaluate_text_spec. Qed.
Lemma new_PolicyEvaluator_wide_spec p wide s :
  wp (Policy.new_PolicyEvaluator_wide p wide) s (fun o _ t =>
    forall pe, o = Ret pe -> evaluator_ok p (Policy.wide_to_utf8 wide) pe t).
Proof.
  unfold Policy.new_PolicyEvaluator_wide. wp_step; [by wp_step; intros pe [= <-]|].
  apply evaluate_text_spec.
Qed.

Lemma release_spec {T} pe (legacy : list T) (gd : M F S (Z * list T)) s :
  wp (release pe legacy gd) s (fun o _ _ => forall code out, o = Ret (code, Some out) ->
    Policy.IsCompliant pe = true /\ code = to_long (F := F) (S := S) (Z.of_nat (length out)) /\ out <> [] /\
    (Policy.isLegacy pe = true -> out = legacy)).
Proof.
  unfold release, marshal_output. wp_step; [by wp_step|]. apply negb_false_iff in Hif.
  wp_step.
  - destruct legacy as [|x l]; wp_step; [done|]. by intros code out [= <- <-].
  - wp_step. eapply (wp_mono _ _ (fun _ _ _ => True)); [done|]. intros [[res data]|e|f] s' t _; try done.
    wp_step; [by wp_step|]. destruct data as [|x l]; wp_step; [done|].
    intros code out [= <- <-]. by split_and!.
Qed.

Lemma unprotect_spec {T} new_pe (legacy : list T)
  (gd : Policy.PolicyEvaluator -> M F S (Z * list T)) p text s :
  wp new_pe s (fun o _ t => forall pe, o = Ret pe -> evaluator_ok p text pe t) ->
  wp (unprotect new_pe legacy gd) s (fun o _ t =>
    (forall e, o <> Throw e) /\
    forall r out, o = Ret r -> output_secret r = Some out ->
      ret r = to_long (F := F) (S := S) (Z.of_nat (length out)) /\ out <> [] /\
      exists ev, eval_policy r = Some ev /\ Policy.admits ev p = true /\
        (Z.testbit ev 2 = true -> out = legacy) /\
        (Z.testbit ev 1 = true -> text_verified text t)).
Proof.
  intros Hpe. unfold unprotect. wp_step. wp_step. wp_step.
  eapply wp_mono; [apply Hpe|]. intros [pe|e|f] s1 t1 Hok; cbn beta iota.
  - wp_step. wp_step. wp_step. eapply wp_mono; [apply release_spec|].
    intros [[code out]|e|f] s2 t2 Hr; wp_go; (split; [done|]); try done.
    2: { by intros r out [= <-]. }
    intros r out' [= <-] Ho. cbn in Ho. subst out.
    destruct (Hr code out' eq_refl) as (Hc & -> & Hne & Hleg).
    destruct (Hok pe eq_refl) as [Hp Hv].
    destruct (evaluated_bits pe) as (_ & E1 & E2 & _). split_and!; [done..|].
    exists (Policy.GetEvaluatedPolicy pe). split_and!; [done| | |].
    + by rewrite <- Hp.
    + by rewrite E2.
    + rewrite E1. intros Hs. destruct (Hv Hs) as [_ Hv'].
      eapply text_verified_mono; [|exact Hv']. intros ev Hev. eauto with trace.
  - wp_go. split; [done|]. by intros r out [= <-].
  - by split.
Qed.

(** *** Which calls are made *)

Lemma emits_x509_load x l : emits x509_call (Jwt.load_intermediates (F := F) (S := S) x l).
Proof. revert x. induction l; intros x; simpl; emits_go. Qed.
Hint Resolve emits_x509_load : emits.
Lemma emits_ParseToken o t v sf : emits x509_call (Jwt.ParseToken (F := F) (S := S) o t v sf).
Proof.
  unfold Jwt.ParseToken, Jwt.verify_token. emits_go.
  all: match goal with H : Jwt.verify_handler _ = Some _ |- _ => apply verify_handler_throws in H as [? ->] end;
    emits_go.
Qed.
Hint Resolve emits_ParseToken : emits.
Lemma emits_new_pe p t : emits x509_call (Policy.new_PolicyEvaluator (F := F) (S := S) p t).
Proof. unfold Policy.new_PolicyEvaluator, Policy.parse_verified. emits_go. Qed.
Lemma emits_new_pe_wide p t : emits x509_call (Policy.new_PolicyEvaluator_wide (F := F) (S := S) p t).
Proof. unfold Policy.new_PolicyEvaluator_wide, Policy.parse_verified. emits_go. Qed.

Lemma unprotect_mismatch {T} new_pe (legacy : list T)
  (gd : Policy.PolicyEvaluator -> M F S (Z * list T)) p text s :
  wp new_pe s (fun o _ t => forall pe, o = Ret pe -> evaluator_ok p text pe t) ->
  emits x509_call new_pe ->
  wp (unprotect new_pe legacy gd) s (fun o _ t => forall r ev, o = Ret r ->
    eval_policy r = Some ev -> Policy.admits ev p = false ->
    ret r = error_code PolicyMismatchError /\ output_secret r = None /\ Forall x509_call t).
Proof.
  intros Hpe Hem. unfold unprotect. wp_step. wp_step. wp_step.
  eapply wp_mono with (Q := fun o _ t =>
    (forall pe, o = Ret pe -> evaluator_ok p text pe t) /\ Forall x509_call t).
  { split; [apply Hpe|apply Hem]. }
  intros [pe|e|f] s1 t1 [Hok Ht]; cbn beta iota; [| |done].
  2: { wp_go. by intros r ev [= <-]. }
  destruct (Hok pe eq_refl) as [Hp _]. wp_step. wp_step. wp_step.
  destruct (Policy.IsCompliant pe) eqn:Hc.
  - eapply (wp_mono _ _ (fun _ _ _ => True)); [done|].
    intros [[code out]|e|f] s2 t2 _; wp_go; try done;
      intros r ev [= <-]; cbn; intros [= <-] Ha; rewrite <- Hp in Ha;
      unfold Policy.IsCompliant in Hc; congruence.
  - unfold release. rewrite Hc. cbn [negb]. wp_go. intros r ev [= <-] _ _.
    rewrite !app_nil_r. by split_and!.
Qed.
End Verified.

(** *** Status codes carried by exceptions *)

Lemma coded_json {A} (m : outcome A) : json_throws_json m -> othrows coded m.
Proof. intros H e ->. by destruct e. Qed.

Section Codes.
Context `{!BoostBase64Laws, !NlohmannLaws}.

Lemma coded_url_decode t : othrows coded (Encoders.base64_url_decode t).
Proof. apply coded_decode. Qed.
Lemma coded_parse_part t w : othrows coded (Jwt.parse_part t w).
Proof.
  unfold Jwt.parse_part.
  destruct (Encoders.base64_url_decode t ≫= _) as [j|e'|f]; [apply othrows_ret| |done].
  destruct_exn e'; apply othrows_throw; coded_leaf.
Qed.
Lemma coded_set j k v : othrows coded (json_set j k v).
Proof. apply coded_json, set_errors. Qed.
Lemma coded_at j k : othrows coded (json_at j k).
Proof. apply coded_json, at_errors. Qed.
Lemma coded_get_string j : othrows coded (json_get_string j).
Proof. apply coded_json, get_string_errors. Qed.
Lemma coded_index j k : othrows coded (json_index j k).
Proof. apply coded_json, index_errors. Qed.
Lemma coded_dump j : othrows coded (json_dump j).
Proof. apply coded_json, dump_errors. Qed.
Hint Resolve coded_decode coded_url_decode coded_parse_part coded_set coded_at coded_get_string
  coded_index coded_dump : throws.

Lemma coded_new_jwt a : othrows coded (Jwt.new_JsonWebToken a).
Proof.
  unfold Jwt.new_JsonWebToken. repeat (apply othrows_bind; [auto with throws|intros ?]).
  apply othrows_ret.
Qed.
Lemma coded_is_real t r : othrows coded (Jwt.isRealJwt t r).
Proof.
  intros e. unfold Jwt.isRealJwt. repeat case_match; try done.
Qed.
Lemma coded_padding pe : othrows coded (GetPaddingScheme pe).
Proof.
  unfold GetPaddingScheme. cbn zeta. destruct (json_contains _ _); [|apply othrows_ret].
  do 2 (apply othrows_bind; [auto with throws|intros ?]).
  unfold ParseRsaPaddingScheme. repeat case_match; (apply othrows_ret || by apply othrows_throw).
Qed.
Hint Resolve coded_new_jwt coded_is_real coded_padding : throws.

Section Parsing.
Context `{XE : !X509Errors F S}.

Lemma coded_load_intermediates x l : throws coded (Jwt.load_intermediates (F := F) (S := S) x l).
Proof. revert x. induction l; intros x; simpl; coded_go. Qed.
Lemma coded_verify_handler e k : coded e -> Jwt.verify_handler (F := F) (S := S) e = Some k -> throws coded k.
Proof.
  unfold Jwt.verify_handler. intros He Hk. repeat case_match; simplify_eq; try coded_go.
  all: by eapply catch_coded.
Qed.
Hint Resolve coded_load_intermediates : throws.
Lemma coded_verify_token o x sig d sf : throws coded (Jwt.verify_token (F := F) (S := S) o x sig d sf).
Proof. unfold Jwt.verify_token. coded_go. Qed.
Lemma coded_try_token o x sig d sf : throws coded (try_catch
  (Jwt.verify_token (F := F) (S := S) o x sig d sf) Jwt.verify_handler).
Proof.
  apply (throws_caught coded); [apply coded_verify_token|].
  intros e He. destruct (Jwt.verify_handler e) eqn:Eh; [by eapply coded_verify_handler|done].
Qed.
Lemma coded_ParseToken o t v sf : throws coded (Jwt.ParseToken (F := F) (S := S) o t v sf).
Proof. unfold Jwt.ParseToken. repeat first [apply coded_try_token | throws_step]; try coded_leaf; eauto with throws. Qed.
Hint Resolve coded_ParseToken : throws.
Lemma coded_parse_verified t : throws coded (Policy.parse_verified (F := F) (S := S) t).
Proof. unfold Policy.parse_verified. coded_go. Qed.
Hint Resolve coded_parse_verified : throws.
Lemma coded_new_pe p t : throws coded (Policy.new_PolicyEvaluator (F := F) (S := S) p t).
Proof. unfold Policy.new_PolicyEvaluator. coded_go. Qed.
Lemma coded_new_pe_wide p t : throws coded (Policy.new_PolicyEvaluator_wide (F := F) (S := S) p t).
Proof. unfold Policy.new_PolicyEvaluator_wide. coded_go. Qed.
End Parsing.

Lemma unprotect_error_failure e : coded e -> failure (unprotect_error e).
Proof. destruct e; intros He; try coded_leaf; exact He. Qed.

Section EntryPoints.
Context `{DC : !Decryptor F S} `{DL : !DecryptorLaws F S}.
Hint Resolve decrypt_coded : throws.

Lemma token_data_status pe : yields status_ok (token_data (F := F) (S := S) pe).
Proof. unfold token_data. apply yields_bind. intros k. apply decrypt_status. Qed.
Lemma coded_token_data pe : throws coded (token_data (F := F) (S := S) pe).
Proof. unfold token_data. coded_go. Qed.
Hint Resolve coded_token_data : throws.
Lemma coded_token_data_wide pe : throws coded (token_data_wide (F := F) (S := S) pe).
Proof. unfold token_data_wide. coded_go. Qed.
Lemma token_data_wide_status pe : yields status_ok (token_data_wide (F := F) (S := S) pe).
Proof.
  unfold token_data_wide. apply (yields_bind_strong status_ok); [apply token_data_status|].
  intros [r d] Hs. yields_go.
  - right. destruct Hs as [[Hr _]|]; [|done]. cbn in Hr. by subst.
  - right. by apply failure_code.
  - apply negb_false_iff, Z.eqb_eq in Hif. subst. left. split; [done|]. cbn.
    destruct Hs as [[_ Hd]|Hf%failure_negative]; cbn in *; [|lia].
    intros E. by rewrite (bool_decide_eq_true_2 _ E), (bool_decide_eq_false_2 _ Hd) in Hif0.
Qed.

Lemma unprotect_no_throw {T} new_pe (legacy : list T)
  (gd : Policy.PolicyEvaluator -> M F S (Z * list T)) :
  throws (fun _ => False) (unprotect new_pe legacy gd).
Proof. unfold unprotect. throws_go. Qed.
(** The contract of the return value and the out-parameter. *)
Definition result_ok {T} (legacy : list T) (r : UnprotectResult T) : Prop :=
  match output_secret r with
  | Some out => out <> [] /\ ret r = to_long (F := F) (S := S) (Z.of_nat (length out)) /\
      (Z.of_nat (length out) < 2 ^ (long_bits (F := F) (S := S) - 1) -> ret r = Z.of_nat (length out))
  | None => failure (ret r) \/ (ret r = 0 /\ legacy = [])
  end.

Lemma long_small n : 0 <= n < 2 ^ (long_bits (F := F) (S := S) - 1) -> to_long (F := F) (S := S) n = n.
Proof.
  intros Hn. apply wrap_signed_small; [|done]. pose proof (long_width (F := F) (S := S)) as Hw.
  apply elem_of_cons in Hw as [->|[->|[]%elem_of_nil]%elem_of_cons]; lia.
Qed.
Lemma marshalled {T} (legacy data : list T) : (data = [] -> legacy = []) ->
  result_ok legacy {| ret := (marshal_output (F := F) (S := S) data).2;
                    output_secret := (marshal_output (F := F) (S := S) data).1; eval_policy := None |}.
Proof.
  destruct data; intros Hd; [right; split; [done|by apply Hd]|]. split_and!; [done|done|]. intros Hn. apply long_small.
  cbn [length] in *. lia.
Qed.
Lemma unprotect_contract {T} new_pe (legacy : list T)
  (gd : Policy.PolicyEvaluator -> M F S (Z * list T)) :
  throws coded new_pe -> (forall pe, throws coded (gd pe)) -> (forall pe, yields status_ok (gd pe)) ->
  yields (result_ok legacy) (unprotect new_pe legacy gd).
Proof.
  intros Hpe Hgt Hgy. unfold unprotect.
  apply (yields_bind_strong (fun x => match x with inl _ => True | inr z => failure z end)).
  { apply (yields_try_throws coded); [by yields_go|by coded_go|]. intros e He.
    apply yields_ret. by apply unprotect_error_failure. }
  intros [pe|z] Hx; [|by yields_go; left].
  apply (yields_bind_strong (fun x => result_ok legacy
    {| ret := fst x; output_secret := snd x; eval_policy := None |})).
  - apply (yields_try_throws coded).
    + unfold release. yields_step; [yields_step; left; by apply failure_code|].
      yields_step; [rewrite (surjective_pairing (marshal_output legacy)); by apply yields_ret, marshalled|].
      apply (yields_bind_strong status_ok); [apply Hgy|]. intros [res d] Hs.
      yields_step; [yields_step|].
      * left. destruct Hs as [[Hr _]|]; [|done]. cbn in Hr. by subst.
      * apply negb_false_iff, Z.eqb_eq in Hif1. subst.
        destruct Hs as [[_ Hd]|Hf%failure_negative]; cbn in *; [|lia].
        rewrite (surjective_pairing (marshal_output d)). by apply yields_ret, marshalled.
    + unfold release. coded_go.
    + intros e He. apply yields_ret. left. by apply unprotect_error_failure.
  - intros [code out] Hr. yields_step. exact Hr.
Qed.
End EntryPoints.

(** *** The decryption on Linux *)

Lemma coded_claim j k : othrows coded (claim_bytes j k).
Proof.
  unfold claim_bytes. do 2 (apply othrows_bind; [auto with throws|intros ?]). auto with throws.
Qed.
Hint Resolve coded_claim : throws.
Lemma coded_check r w c : c <> Success -> throws coded (SecretsTpm.check (F := F) (S := S) r w c).
Proof. intros Hc. unfold SecretsTpm.check. coded_go. Qed.
Hint Extern 1 (throws coded (SecretsTpm.check _ _ _)) => (by apply coded_check) : throws.
Lemma coded_rsa_decrypt d k : throws coded (SecretsTpm.RsaDecrypt (F := F) (S := S) d k).
Proof.
  unfold SecretsTpm.RsaDecrypt, SecretsTpm.Tss2RsaDecrypt, SecretsTpm.copy_to_rsa_buffer. coded_go.
Qed.
Lemma coded_new_ctx : throws coded (SecretsTpm.new_TssCtx (F := F) (S := S)).
Proof. unfold SecretsTpm.new_TssCtx, SecretsTpm.InitializeTcti. coded_go. Qed.
Lemma coded_tss_ctx {A} (m : M F S A) : throws coded m -> throws coded (SecretsTpm.with_TssCtx m).
Proof.
  intros Hm. unfold SecretsTpm.with_TssCtx. pose proof coded_new_ctx. coded_go.
Qed.
Hint Resolve coded_rsa_decrypt coded_tss_ctx : throws.

Section Linux.
Context `{HO : OsslCall -< F} `{HD : DmiCall -< F}.

Lemma coded_pos rc w : throws coded (must_be_pos (F := F) (S := S) rc w).
Proof. unfold must_be_pos. coded_go. apply coded_ossl. Qed.
Hint Resolve coded_ossl coded_one coded_pos : throws.

Lemma coded_aes_decrypt w c ci : throws coded (Aes.Decrypt (F := F) (S := S) w c ci).
Proof. unfold Aes.Decrypt, Aes.with_key, Aes.new_vector, Aes.written. coded_go. Qed.
Lemma coded_aes_new : throws coded (Aes.new_OsslGcmWrapper (F := F) (S := S)).
Proof. unfold Aes.new_OsslGcmWrapper. coded_go. Qed.
Lemma coded_sha d n : throws coded (Hkdf.OsslSha (F := F) (S := S) d n).
Proof. unfold Hkdf.OsslSha. coded_go. Qed.
Lemma coded_hkdf_new d : throws coded (Hkdf.new_OsslHKDF (F := F) (S := S) d).
Proof. unfold Hkdf.new_OsslHKDF. coded_go. apply coded_sha. Qed.
Lemma coded_hkdf_derive p a b n : throws coded (Hkdf.DeriveKey (F := F) (S := S) p a b n).
Proof. unfold Hkdf.DeriveKey, Hkdf.Extract, Hkdf.Expand. coded_go. Qed.
Lemma coded_ecdh_new : throws coded (Ecdh.new_OsslECDiffieHellman (F := F) (S := S)).
Proof. unfold Ecdh.new_OsslECDiffieHellman. coded_go. Qed.
Lemma coded_ecdh_priv d k : throws coded (Ecdh.ImportPkcs8PrivateKey (F := F) (S := S) d k).
Proof. unfold Ecdh.ImportPkcs8PrivateKey. coded_go. Qed.
Lemma coded_ecdh_pub d k : throws coded (Ecdh.ImportSubjectPublicKeyInfo (F := F) (S := S) d k).
Proof. unfold Ecdh.ImportSubjectPublicKeyInfo. coded_go. Qed.
Lemma coded_ecdh_derive d k : throws coded (Ecdh.DeriveSecret (F := F) (S := S) d k).
Proof. unfold Ecdh.DeriveSecret. coded_go. Qed.
Hint Resolve coded_aes_decrypt coded_aes_new coded_hkdf_new coded_hkdf_derive coded_ecdh_new
  coded_ecdh_priv coded_ecdh_pub coded_ecdh_derive : throws.

Lemma coded_decrypt_steps c u k : throws coded (decrypt_steps (F := F) (S := S) c u k).
Proof. unfold decrypt_steps. coded_go. apply coded_tss_ctx. coded_go. Qed.

Lemma decrypt_error_failure e : coded e -> failure (code_of (decrypt_error e)).
Proof. destruct_exn e; intros He; try coded_leaf; exact He. Qed.
Lemma decrypt_steps_status claims info k :
  yields status_ok (decrypt_steps (F := F) (S := S) claims info k).
Proof.
  unfold decrypt_steps, SecretsTpm.with_TssCtx. yields_go; try (right; by apply failure_code).
  left. split; [done|]. cbn. intros ->. done.
Qed.
Lemma decrypt_secret_status claims k : yields status_ok (decrypt_secret (F := F) (S := S) claims k).
Proof.
  unfold decrypt_secret. apply yields_bind. intros u.
  apply (yields_try_throws coded); [apply decrypt_steps_status|apply coded_decrypt_steps|].
  intros e He. apply yields_ret. right. by apply decrypt_error_failure.
Qed.
Lemma coded_decrypt_secret claims k : throws coded (decrypt_secret (F := F) (S := S) claims k).
Proof. unfold decrypt_secret, GetSystemUuid. coded_go. Qed.
#[global] Instance linux_decryptor_laws : DecryptorLaws F S.
Proof. split; [apply decrypt_secret_status|apply coded_decrypt_secret|right; left]. Qed.
End Linux.
End Codes.

End Facts.
End SecretsFacts.

Section Theorems.
Context {F : Type -> Type} {S : Type} `{HF : Handler F S} `{HC : ClockCall -< F} `{HE : EsysCall -< F} `{Fu : Fuel}.
Context `{Bb : BoostBase64, Bs : BoostString, NJ : NlohmannJson, U8 : Policy.Utf8}.
Context `{BX : !BaseX509 F S} `{DC : !Decryptor F S}.
Import Secrets SecretsFacts.

Lemma admits_bits ev p :
  Policy.admits ev p = true ->
  if Z.testbit ev 2 then Z.testbit p 2 = true
  else (Z.testbit ev 0 = true \/ Z.testbit p 0 = true) /\
       (Z.testbit ev 1 = true \/ Z.testbit p 1 = true).
Proof.
  unfold Policy.admits, Policy.Legacy, Policy.AllowLegacy, Policy.Encrypted,
    Policy.AllowUnencrypted, Policy.Signed, Policy.AllowUnsigned.
  rewrite !set_Encrypted, !set_Signed, !set_Legacy.
  destruct (Z.testbit ev 2), (Z.testbit ev 1), (Z.testbit ev 0), (Z.testbit p 0),
    (Z.testbit p 1); simpl; auto; discriminate.
Qed.

(** C8: no secret without an admitted payload. On either platform, whatever the TPM, the cryptography and the
    system answer, when [unprotect_secret] hands out data the evaluated features
    are reported and admitted by the caller's policy; a legacy payload is handed
    out unchanged and only with [AllowLegacy]; and unless the caller waived the
    signature with [AllowUnsigned], a token was signed by a leaf certificate that
    was chained to a trusted root and whose name ends in the provisioning
    suffix. *)
Theorem secret_needs_policy `{XL : !X509Laws F S} jwt policy s :
  wp (unprotect_secret jwt policy) s (fun o _ t => forall r out,
    o = Ret r -> output_secret r = Some out ->
    exists ev, eval_policy r = Some ev /\ Policy.admits ev policy = true /\
      (Z.testbit ev 2 = true -> out = jwt /\ Z.testbit policy 2 = true) /\
      (Z.testbit ev 2 = false -> Z.testbit policy 1 = false -> text_verified jwt t)).
Proof.
  eapply wp_mono; [apply unprotect_spec, new_PolicyEvaluator_spec|].
  intros o s' t [_ Ho] r out Er Eo.
  destruct (Ho r out Er Eo) as (_ & _ & ev & Hev & Had & Hleg & Hsig).
  exists ev. pose proof (admits_bits ev policy Had) as Hb. split_and!; [done..| |].
  - intros E2. rewrite E2 in Hb. auto.
  - intros E2 Ep. rewrite E2 in Hb. destruct Hb as [_ [H|H]]; [auto|congruence].
Qed.

(** [RequireAll], narrow and wide: a secret handed out under policy 0 comes from a
    token that is not legacy, has an encrypted secret, and whose text (as UTF-8
    for the wide entry point) carries a verified signature. *)
Theorem require_all_secret `{XL : !X509Laws F S} jwt wide s :
  wp (unprotect_secret jwt Policy.RequireAll) s (fun o _ t => forall r out,
    o = Ret r -> output_secret r = Some out ->
    exists ev, eval_policy r = Some ev /\ Z.testbit ev 0 = true /\ Z.testbit ev 1 = true /\
      Z.testbit ev 2 = false /\ text_verified jwt t) /\
  wp (unprotect_secret_wide wide Policy.RequireAll) s (fun o _ t => forall r out,
    o = Ret r -> output_secret r = Some out ->
    exists ev, eval_policy r = Some ev /\ Z.testbit ev 0 = true /\ Z.testbit ev 1 = true /\
      Z.testbit ev 2 = false /\ text_verified (Policy.wide_to_utf8 wide) t).
Proof.
  assert (Hbits : forall ev, Policy.admits ev Policy.RequireAll = true ->
    Z.testbit ev 0 = true /\ Z.testbit ev 1 = true /\ Z.testbit ev 2 = false).
  { intros ev Had. apply admits_bits in Had. unfold Policy.RequireAll in Had.
    rewrite !Z.bits_0 in Had. destruct (Z.testbit ev 2); [discriminate|].
    destruct Had as [[?|?] [?|?]]; by split_and!. }
  split.
  - eapply wp_mono; [apply unprotect_spec, new_PolicyEvaluator_spec|].
    intros o s' t [_ Ho] r out Er Eo.
    destruct (Ho r out Er Eo) as (_ & _ & ev & Hev & Had & _ & Hsig).
    destruct (Hbits ev Had) as (H0 & H1 & H2). exists ev. split_and!; auto.
  - eapply wp_mono; [apply unprotect_spec, new_PolicyEvaluator_wide_spec|].
    intros o s' t [_ Ho] r out Er Eo.
    destruct (Ho r out Er Eo) as (_ & _ & ev & Hev & Had & _ & Hsig).
    destruct (Hbits ev Had) as (H0 & H1 & H2). exists ev. split_and!; auto.
Qed.

(** a payload the policy does not admit gets [PolicyMismatchError] and no data,
    and nothing but the verification of certificates was asked: no call reaches the TPM. *)
Theorem mismatch_stops `{XL : !X509Laws F S} jwt policy s :
  wp (unprotect_secret jwt policy) s (fun o _ t => forall r ev, o = Ret r ->
    eval_policy r = Some ev -> Policy.admits ev policy = false ->
    ret r = error_code PolicyMismatchError /\ output_secret r = None /\ Forall x509_call t).
Proof.
  eapply unprotect_mismatch; [apply new_PolicyEvaluator_spec|apply emits_new_pe].
Qed.

(** C29: the contract of the two entry points with the caller, on either platform: no exception crosses
    the C boundary; with data the return value is its length converted to the platform's [long] of 64 or 32
    bits, so the (positive) length itself when that fits; without data it is one of the negative codes
    of [ErrorCode], or 0 for an empty legacy input. *)
Theorem unprotect_result_contract `{!BoostBase64Laws, !NlohmannLaws} `{XE : !X509Errors F S} `{DL : !DecryptorLaws F S} jwt wide policy s :
  wp (unprotect_secret jwt policy) s (fun o _ _ =>
    (forall e, o <> Throw e) /\ (forall r, o = Ret r -> result_ok jwt r)) /\
  wp (unprotect_secret_wide wide policy) s (fun o _ _ =>
    (forall e, o <> Throw e) /\ (forall r, o = Ret r -> result_ok wide r)).
Proof.
  split; (split; [intros e He; exact (unprotect_no_throw _ _ _ s e He)|intros r]); apply unprotect_contract.
  - apply coded_new_pe.
  - intros pe. apply coded_token_data.
  - intros pe. apply token_data_status.
  - apply coded_new_pe_wide.
  - intros pe. apply coded_token_data_wide.
  - intros pe. apply token_data_wide_status.
Qed.

(** A legacy payload is passed through without any call: text that is not a
    provisioning token comes back as it is under [AllowLegacy], and is refused
    with [PolicyMismatchError] otherwise. *)
Theorem legacy_pass_through jwt policy s :
  Jwt.isRealJwt jwt Policy.requiredFields = Ret false ->
  unprotect_secret jwt policy s =
    Res (Ret (if Z.testbit policy 2
              then let '(out, n) := marshal_output (F := F) (S := S) jwt in
                   Build_UnprotectResult n out (Some Policy.Legacy)
              else Build_UnprotectResult (error_code PolicyMismatchError) None
                     (Some Policy.Legacy))) s [].
Proof.
  intros Hl. set (pe := {| Policy.policy := policy; Policy.isLegacy := true;
                           Policy.token := None |}).
  assert (Hpe : Policy.new_PolicyEvaluator policy jwt s = Res (Ret pe) s [])
    by (unfold Policy.new_PolicyEvaluator; by rewrite Hl).
  assert (Hc : Policy.IsCompliant pe = Z.testbit policy 2).
  { unfold Policy.IsCompliant, Policy.admits.
    change (Policy.GetEvaluatedPolicy pe) with Policy.Legacy.
    change (Policy.IS_POLICY_SET Policy.Legacy Policy.Legacy) with true. apply set_Legacy. }
  unfold unprotect_secret, unprotect. rewrite (bind_pure _ _ _ (inl pe)).
  2: { unfold try_all, try_catch. by rewrite (bind_pure _ _ _ pe). }
  unfold release. rewrite Hc. destruct (Z.testbit policy 2); [|done]. by destruct jwt.
Qed.

(** a wrapped key of more than 512 bytes overflows the buffer of the
    [TPM2B_PUBLIC_KEY_RSA] on the stack: when the TPM accepts the calls before the
    copy, the run is undefined behaviour, and no exception stops it. *)
Theorem rsa_decrypt_overflow data k s s1 s2 s3 h :
  TPM2_MAX_RSA_KEY_BYTES < size data ->
  handle (inj (Esys_TR_SetAuth ESYS_TR_RH_OWNER [])) s = (0, s1) ->
  handle (inj (Esys_TR_FromTPMPublic SecretsTpm.KEYHANDLE)) s1 = ((0, h), s2) ->
  handle (inj (Esys_TR_SetAuth h [])) s2 = (0, s3) ->
  res (SecretsTpm.Tss2RsaDecrypt data k s) = Fault UndefinedBehaviour.
Proof.
  intros Hs H1 H2 H3. unfold SecretsTpm.Tss2RsaDecrypt, SecretsTpm.check.
  unfold mbind, M_bind, trig, call. rewrite H1. cbn. rewrite H2. cbn. rewrite H3. cbn.
  unfold SecretsTpm.copy_to_rsa_buffer. by rewrite (proj2 (Z.ltb_lt _ _)).
Qed.
End Theorems.

(** ** Witnesses *)

Definition SecCall : Type -> Type := sumE OsslCall (sumE EsysCall (sumE ClockCall DmiCall)).
#[local] Instance sec_handler : Handler SecCall Z := fun R e now =>
  match e with
  | InL o => (ossl_accept (str "x.securecpsprovisioning.cloudapp.net") R o, now)
  | InR (InL t) => (esys_accept (replicate 32 x42) R t, now)
  | InR (InR (InL c)) =>
      match c in ClockCall T return T * Z with time0 => (now, now + 1) end
  | InR (InR (InR d)) =>
      match d in DmiCall T return T * Z with product_uuid => (Some (str "0AB"), now) end
  end.
#[local] Instance demo_fuel : Fuel := 4%nat.
#[local] Instance ascii_utf8 : Policy.Utf8 :=
  {| Policy.utf8_to_bytes l := Some (map byte_of_z l);
     Policy.utf8_from_bytes l := Some (map z_of_byte l) |}.

Definition b64 (l : bytes) : jtree := JStr (Encoders.base64_encode l).
Definition secret_claims : jtree :=
  JObj [(str "dataNonce", b64 (replicate 12 x01));
        (str "encryptedGuestEcdhPrivateKey", b64 (replicate 20 x02));
        (str "encryptedSecret", b64 (str "secret!" ++ replicate 16 x00));
        (str "ephemeralEcdhPublicKey", b64 [x03]); (str "keyNonce", b64 (replicate 12 x04));
        (str "salt", b64 [x05]); (str "wrappedAesTransportKey", b64 (replicate 256 x06))].
Definition secret_header : jtree :=
  JObj [(str "alg", JStr (str "RS256")); (str "x-az-cvm-purpose", JStr (str "secrets-provisioning"));
        (str "x5c", JArr [JStr (str "AQID"); JStr (str "BAUG")])].
Definition secret_token (sg : bytes) : bytes :=
  match Jwt.CreateToken (F := SecCall) (@Jwt.Build_JsonWebToken json_tree secret_header secret_claims sg)
          1700000000 with
  | Res (Ret (_, tok)) _ _ => tok
  | _ => []
  end.

Notation unprotect_demo tok p := (Secrets.unprotect_secret (F := SecCall) tok p 0).
Definition released : Secrets.UnprotectResult byte :=
  Secrets.Build_UnprotectResult 7 (Some (str "secret!")) (Some 3).

Lemma secret_needs_policy_witness :
  res (unprotect_demo (secret_token [x09]) 0) = Ret released /\
  SecretsFacts.text_verified (F := SecCall) (secret_token [x09])
    (evs (unprotect_demo (secret_token [x09]) 0)).
Proof.
  assert (Hr : res (unprotect_demo (secret_token [x09]) 0) = Ret released) by vm_eq.
  split; [exact Hr|].
  destruct (secret_needs_policy (F := SecCall) (secret_token [x09]) 0 0 released (str "secret!")
    Hr eq_refl) as (ev & [= <-] & _ & _ & Hv).
  apply Hv; reflexivity.
Defined.

Lemma require_all_secret_witness :
  SecretsFacts.text_verified (F := SecCall) (secret_token [x09])
    (evs (unprotect_demo (secret_token [x09]) Policy.RequireAll)).
Proof.
  assert (Hr : res (unprotect_demo (secret_token [x09]) Policy.RequireAll) = Ret released) by vm_eq.
  destruct (proj1 (require_all_secret (F := SecCall) (secret_token [x09]) [] 0) released
    (str "secret!") Hr eq_refl) as (_ & _ & _ & _ & _ & Hv).
  exact Hv.
Defined.

(** Under [RequireAll] the same token without a signature is refused. *)
Definition refused : Secrets.UnprotectResult byte :=
  Secrets.Build_UnprotectResult (-20480) None (Some 1).
Lemma mismatch_stops_witness :
  res (unprotect_demo (secret_token []) Policy.RequireAll) = Ret refused /\
  Forall (is_ossl (F := SecCall))
    (evs (unprotect_demo (secret_token []) Policy.RequireAll)).
Proof.
  assert (Hr : res (unprotect_demo (secret_token []) Policy.RequireAll) = Ret refused) by vm_eq.
  split; [exact Hr|].
  destruct (mismatch_stops (F := SecCall) (secret_token []) Policy.RequireAll 0 refused 1
    Hr eq_refl eq_refl) as (_ & _ & H).
  exact H.
Defined.

Lemma unprotect_result_contract_witness :
  Secrets.ret released = Z.of_nat (length (str "secret!")).
Proof.
  assert (Hr : res (unprotect_demo (secret_token [x09]) 0) = Ret released) by vm_eq.
  destruct (proj2 (proj1 (unprotect_result_contract (F := SecCall) (secret_token [x09]) [] 0 0)) released Hr)
    as (_ & _ & Hl). by apply Hl.
Defined.

Lemma legacy_pass_through_witness :
  unprotect_demo (str "a.b") 4 =
  Res (Ret (Secrets.Build_UnprotectResult 3 (Some (str "a.b")) (Some Policy.Legacy))) 0 [].
Proof.
  assert (Hj : Jwt.isRealJwt (str "a.b") Policy.requiredFields = Ret false) by vm_eq.
  rewrite (legacy_pass_through (F := SecCall) (str "a.b") 4 0 Hj). vm_compute. reflexivity.
Defined.

Lemma rsa_decrypt_overflow_witness :
  res (SecretsTpm.Tss2RsaDecrypt (F := SecCall) (replicate 513 x00) RsaesOaep 0)
  = Fault UndefinedBehaviour.
Proof.
  apply (rsa_decrypt_overflow (F := SecCall) (replicate 513 x00) RsaesOaep 0 0 0 0 5);
    reflexivity.
Defined.
