(* ===== verification/Cvm.v ===== *)
(** * CvmHelper: is this machine a confidential VM?

    CvmHelper/src/CvmHelper.cpp reads five leaves of the [cpuid] instruction, which is outside:
    [cpuid leaf] are EAX, EBX, ECX and EDX, four words of 32 bits. The unions of the source lay
    named fields over the words; here a field is read where it lies. *)

From S2P Require Import Prelude.
#[local] Open Scope Z_scope.

(** [HV_CPUID_RESULT]: [AsUINT32] *)
Record HV_CPUID_RESULT := { Eax : Z; Ebx : Z; Ecx : Z; Edx : Z }.
Definition words (r : HV_CPUID_RESULT) : Prop :=
  Forall (fun w => 0 <= w < 2 ^ 32) [Eax r; Ebx r; Ecx r; Edx r].

Module Cvm.
Definition CPUID_LEAF_FEATURE_INFO : Z := 0x1.
Definition HV_CPUID_LEAF_HYPERVISOR_PRESENT : Z := 0x40000000.
Definition HV_CPUID_LEAF_HYPERVISOR_INTERFACE : Z := 0x40000001.
Definition HV_CPUID_LEAF_HYPERVISOR_FEATURES : Z := 0x40000003.
Definition HV_CPUID_LEAF_HYPERVISOR_ISOLATION_CONFIG : Z := 0x4000000C.
Definition VENDOR_MICR : Z := 0x7263694D.
Definition VENDOR_OSOF : Z := 0x666F736F.
Definition VENDOR_T_HV : Z := 0x76482074.
Definition INTERFACE_HV1 : Z := 0x31237648.

(** [HvFeatureDiscovery.PartitionPrivilegeMask] is EAX and EBX, 64 bits; the bit-fields before
    [IsolationFeatures] take 54 of them. *)
Definition privilege_fields : list Z :=
  replicate 14 1 ++ [18] ++ [1; 1; 1; 1; 1; 1; 1; 1; 1; 2] ++ replicate 11 1.
Definition IsolationFeatures (r : HV_CPUID_RESULT) : bool :=
  Z.testbit (Z.lor (Eax r) (Z.shiftl (Ebx r) 32)) (foldr Z.add 0 privilege_fields).
(** [CpuFeatureDiscovery.Hypervisor] and [HvIsolationType.IsolationType] *)
Definition Hypervisor (r : HV_CPUID_RESULT) : bool := Z.testbit (Ecx r) 31.
Definition IsolationType (r : HV_CPUID_RESULT) : Z := Z.land (Ebx r) 0xF.

(** [IsolationModeResult]; the isolation type of the last leaf is cast to it. *)
Definition IM_RESULT_NO_ISOLATION : Z := 0.
Definition IM_RESULT_VBS_ISOLATION : Z := 1.
Definition IM_RESULT_SNP_ISOLATION : Z := 2.
Definition IM_RESULT_TDX_ISOLATION : Z := 3.
Definition IM_RESULT_NO_HYPERVISOR : Z := 0x10.
Definition IM_RESULT_NO_HYPERV : Z := 0x11.
Definition IM_RESULT_NO_ISOLATION_CONFIG : Z := 0x12.

Section Cpuid.
Variable cpuid : Z -> HV_CPUID_RESULT.

Definition GetIsolationMode : Z :=
  let cpuidResult := cpuid CPUID_LEAF_FEATURE_INFO in
  if negb (Hypervisor cpuidResult) then IM_RESULT_NO_HYPERVISOR else
  let cpuidResult := cpuid HV_CPUID_LEAF_HYPERVISOR_PRESENT in
  if negb (Ebx cpuidResult =? VENDOR_MICR) || negb (Ecx cpuidResult =? VENDOR_OSOF)
     || negb (Edx cpuidResult =? VENDOR_T_HV) then IM_RESULT_NO_HYPERV else
  let HvMaxFunction := Eax cpuidResult in
  let cpuidResult := cpuid HV_CPUID_LEAF_HYPERVISOR_INTERFACE in
  if negb (Eax cpuidResult =? INTERFACE_HV1) then IM_RESULT_NO_HYPERV else
  let cpuidResult := cpuid HV_CPUID_LEAF_HYPERVISOR_FEATURES in
  if negb (IsolationFeatures cpuidResult) then IM_RESULT_NO_ISOLATION else
  if HvMaxFunction <? HV_CPUID_LEAF_HYPERVISOR_ISOLATION_CONFIG then IM_RESULT_NO_ISOLATION_CONFIG else
  let cpuidResult := cpuid HV_CPUID_LEAF_HYPERVISOR_ISOLATION_CONFIG in
  IsolationType cpuidResult.

Definition IsConfidentialVM : bool :=
  (GetIsolationMode =? IM_RESULT_SNP_ISOLATION) || (GetIsolationMode =? IM_RESULT_TDX_ISOLATION).
End Cpuid.
End Cvm.

Section Facts.
Variable cpuid : Z -> HV_CPUID_RESULT.
Import Cvm.

(** What makes a machine confidential, by register and bit of the leaves. *)
Definition reports_isolation (type : Z) : Prop :=
  Z.testbit (Ecx (cpuid 0x1)) 31 = true /\
  Ebx (cpuid 0x40000000) = 0x7263694D /\ Ecx (cpuid 0x40000000) = 0x666F736F /\
  Edx (cpuid 0x40000000) = 0x76482074 /\ 0x4000000C <= Eax (cpuid 0x40000000) /\
  Eax (cpuid 0x40000001) = 0x31237648 /\
  Z.testbit (Ebx (cpuid 0x40000003)) 22 = true /\
  Ebx (cpuid 0x4000000C) mod 16 = type.

Lemma isolation_bit r : words r -> IsolationFeatures r = Z.testbit (Ebx r) 22.
Proof.
  intros Hw. apply Forall_cons in Hw as [Ha _]. unfold IsolationFeatures.
  replace (foldr Z.add 0 privilege_fields) with 54 by reflexivity.
  rewrite Z.lor_spec, Z.shiftl_spec by lia. change (54 - 32) with 22.
  rewrite (Z.bits_above_log2 (Eax r)); [done|lia|].
  destruct (decide (Eax r = 0)) as [->|]; [done|]. apply Z.log2_lt_pow2; lia.
Qed.
Lemma type_range r : 0 <= IsolationType r < 16.
Proof. unfold IsolationType. rewrite (Z.land_ones _ 4) by lia. by apply Z.mod_pos_bound. Qed.

Lemma mode_type t :
  words (cpuid HV_CPUID_LEAF_HYPERVISOR_FEATURES) -> t <> IM_RESULT_NO_ISOLATION ->
  t < IM_RESULT_NO_HYPERVISOR -> GetIsolationMode cpuid = t <-> reports_isolation t.
Proof.
  intros Hw Ht Hl. unfold GetIsolationMode, reports_isolation, Hypervisor, VENDOR_MICR, VENDOR_OSOF, VENDOR_T_HV,
    INTERFACE_HV1, HV_CPUID_LEAF_HYPERVISOR_ISOLATION_CONFIG, CPUID_LEAF_FEATURE_INFO, HV_CPUID_LEAF_HYPERVISOR_PRESENT,
    HV_CPUID_LEAF_HYPERVISOR_INTERFACE, IM_RESULT_NO_HYPERVISOR, IM_RESULT_NO_HYPERV, IM_RESULT_NO_ISOLATION,
    IM_RESULT_NO_ISOLATION_CONFIG, IsolationType in *.
  rewrite isolation_bit by done. unfold HV_CPUID_LEAF_HYPERVISOR_FEATURES.
  rewrite (Z.land_ones _ 4) by lia. change (2 ^ 4) with 16.
  destruct (Z.testbit (Ecx (cpuid 1)) 31); cbn [negb]; [|split; [lia|naive_solver]].
  destruct (Ebx (cpuid 0x40000000) =? 0x7263694D) eqn:E1; cbn [negb orb]; [|split; [lia|intros (_ & ? & _); lia]].
  destruct (Ecx (cpuid 0x40000000) =? 0x666F736F) eqn:E2; cbn [negb orb]; [|split; [lia|intros (_ & _ & ? & _); lia]].
  destruct (Edx (cpuid 0x40000000) =? 0x76482074) eqn:E3; cbn [negb orb]; [|split; [lia|intros (_ & _ & _ & ? & _); lia]].
  destruct (Eax (cpuid 0x40000001) =? 0x31237648) eqn:E4; cbn [negb]; [|split; [lia|intros (_ & _ & _ & _ & _ & ? & _); lia]].
  destruct (Z.testbit (Ebx (cpuid 0x40000003)) 22); cbn [negb]; [|split; [lia|naive_solver]].
  destruct (_ <? _) eqn:E5; [split; [lia|intros (_ & _ & _ & _ & ? & _); lia]|].
  split; [intros <-; split_and!; try done; lia|tauto].
Qed.

(** C36: A machine counts as confidential exactly when its [cpuid] says so: the hypervisor bit, the
    vendor Microsoft Hv with interface Hv#1, bit 22 of EBX of the features leaf, a maximum leaf of
    at least 0x4000000C, and isolation type SNP or TDX. The result is one of the enumerators or,
    as the type is cast, a number below 16. *)
Theorem confidential_iff :
  words (cpuid HV_CPUID_LEAF_HYPERVISOR_FEATURES) ->
  (IsConfidentialVM cpuid = true <-> reports_isolation 2 \/ reports_isolation 3) /\
  (0 <= GetIsolationMode cpuid < 16 \/
   GetIsolationMode cpuid ∈ [IM_RESULT_NO_HYPERVISOR; IM_RESULT_NO_HYPERV; IM_RESULT_NO_ISOLATION_CONFIG]).
Proof.
  intros Hw. split.
  - unfold IsConfidentialVM. rewrite orb_true_iff, !Z.eqb_eq. by rewrite !mode_type.
  - unfold GetIsolationMode. repeat (case_match; [by (right; set_solver) || (left; done)|]). left. apply type_range.
Qed.
End Facts.

(** An SNP machine. *)
Definition snp_leaf (leaf : Z) : HV_CPUID_RESULT :=
  if leaf =? 0x1 then {| Eax := 0; Ebx := 0; Ecx := 2 ^ 31; Edx := 0 |}
  else if leaf =? 0x40000000 then {| Eax := 0x4000000C; Ebx := 0x7263694D; Ecx := 0x666F736F; Edx := 0x76482074 |}
  else if leaf =? 0x40000001 then {| Eax := 0x31237648; Ebx := 0; Ecx := 0; Edx := 0 |}
  else if leaf =? 0x40000003 then {| Eax := 0; Ebx := 2 ^ 22; Ecx := 0; Edx := 0 |}
  else {| Eax := 0; Ebx := 0x22; Ecx := 0; Edx := 0 |}.
Theorem confidential_iff_witness :
  Cvm.IsConfidentialVM snp_leaf = true /\ (reports_isolation snp_leaf 2 \/ reports_isolation snp_leaf 3).
Proof.
  split; [vm_eq|]. apply (confidential_iff snp_leaf); [|vm_eq].
  repeat constructor; vm_compute; congruence.
Defined.
