(* ===== verification/SecretsTool.v ===== *)
(** * The command-line tool: azure-protected-secrets-tool

    SecretsProvisioningSample/main.cpp (with DYNAMIC_SAMPLE), cli_common.cpp and the cmd_*.cpp:
    the commands [is-cvm], [is-secrets-provisioning-enabled], [unprotect-secret] and
    [validate-imds-metadata] over the secrets library (Secrets.v) and CvmHelper (Cvm.v). *)

From S2P Require Import Prelude Base64 ReturnCodes Json Ossl BaseX509 LinuxX509 Jwt Policy Esys SecretsTpm Secrets Cvm.
#[local] Open Scope Z_scope.

(** [std::cout << text], [std::cerr << text], [write(STDOUT_FILENO, ...)] and the standard input. *)
Inductive ToolCall : Type -> Type :=
| cout (text : bytes) : ToolCall unit
| cerr (text : bytes) : ToolCall unit
| write_stdout (data : bytes) : ToolCall Z
| read_all_stdin : ToolCall bytes
| free_secret (secret : option bytes) : ToolCall unit.

Module Tool.
Record CliArgs := {
  command : bytes; token : bytes; policy : Z; help : bool; version : bool; json_output : bool }.
Definition no_args : CliArgs :=
  {| command := []; token := []; policy := 0; help := false; version := false; json_output := false |}.

(** [strtoul(s, nullptr, 10)] with an unsigned long of 64 bits *)
Definition strtoul (s : bytes) : Z :=
  let '(neg, s) := match skip_space s with
                   | "-"%byte :: s' => (true, s')
                   | "+"%byte :: s' => (false, s')
                   | s' => (false, s')
                   end in
  let z := fst (read_digits 0 s) in
  if 2 ^ 64 <=? z then 2 ^ 64 - 1 else if neg : bool then u64 (- z) else z.

Definition set_flag (args : CliArgs) (arg : bytes) : CliArgs :=
  {| command := command args; token := token args; policy := policy args;
     help := help args || bool_decide (arg = str "--help" \/ arg = str "-h");
     version := version args || bool_decide (arg = str "--version");
     json_output := json_output args || bool_decide (arg = str "--json") |}.
Definition set_policy (args : CliArgs) (value : bytes) : CliArgs :=
  {| command := command args; token := token args; policy := u32 (strtoul value);
     help := help args; version := version args; json_output := json_output args |}.
(** The first word is the command, the second the token. *)
Definition set_word (args : CliArgs) (arg : bytes) : CliArgs :=
  let '{| command := c; token := t; policy := p; help := h; version := v; json_output := j |} := args in
  match c, t with
  | [], _ => {| command := arg; token := t; policy := p; help := h; version := v; json_output := j |}
  | _, [] => {| command := c; token := arg; policy := p; help := h; version := v; json_output := j |}
  | _, _ => args
  end.

(** The loop of [parse_args] over [argv[1]], [argv[2]], ... *)
Fixpoint parse_args_from (args : CliArgs) (argv : list bytes) : CliArgs :=
  match argv with
  | [] => args
  | arg :: argv' =>
      if bool_decide (arg = str "--help" \/ arg = str "-h" \/ arg = str "--json" \/ arg = str "--version")
      then parse_args_from (set_flag args arg) argv'
      else if bool_decide (arg = str "--policy") then
        match argv' with
        | value :: argv'' => parse_args_from (set_policy args value) argv''
        | [] => args
        end
      else match arg with
           | "-"%byte :: _ => parse_args_from args argv'
           | _ => parse_args_from (set_word args arg) argv'
           end
  end.
Definition parse_args (argv : list bytes) : CliArgs := parse_args_from no_args argv.

Definition quoted (s : bytes) : bytes := [x22] ++ s ++ [x22].
Definition line (s : bytes) : bytes := s ++ [x0a].

(** [snprintf(buf, sizeof(buf), "\u%04x", c)] of [c < 0x20], and the other escapes. *)
Definition escape_char (c : byte) : bytes :=
  if decide (c = x5c) then [x5c; x5c]
  else if decide (c = x22) then [x5c; x22]
  else if decide (c = x0a) then [x5c; "n"%byte]
  else if decide (c = x0d) then [x5c; "r"%byte]
  else if decide (c = x09) then [x5c; "t"%byte]
  else if z_of_byte c <? 0x20
       then [x5c; "u"; "0"; "0"; hex_char (z_of_byte c / 16); hex_char (z_of_byte c mod 16)]%byte
  else [c].
Definition escape (secret : bytes) : bytes := flat_map escape_char secret.

(** The trailing null byte of the encrypted string is not part of the secret. *)
Definition write_len (output : bytes) (result : Z) : nat :=
  let n := Z.to_nat result in
  if bool_decide (output !! (n - 1)%nat = Some x00) then (n - 1)%nat else n.
Definition secret_of (output : bytes) (result : Z) : bytes := take (write_len output result) output.

Definition isolation_type_string (mode : Z) : bytes :=
  if mode =? Cvm.IM_RESULT_SNP_ISOLATION then str "SNP"
  else if mode =? Cvm.IM_RESULT_TDX_ISOLATION then str "TDX"
  else if mode =? Cvm.IM_RESULT_VBS_ISOLATION then str "VBS" else str "NONE".
Definition hypervisor_string (mode : Z) : bytes :=
  if (mode =? Cvm.IM_RESULT_NO_HYPERVISOR) || (mode =? Cvm.IM_RESULT_NO_HYPERV) then str "None"
  else str "Microsoft Hv".
Definition error_string (mode : Z) : option bytes :=
  if mode =? Cvm.IM_RESULT_NO_HYPERVISOR then Some (str "NO_HYPERVISOR")
  else if mode =? Cvm.IM_RESULT_NO_HYPERV then Some (str "NO_HYPERV")
  else if mode =? Cvm.IM_RESULT_NO_ISOLATION_CONFIG then Some (str "NO_ISOLATION_CONFIG") else None.

Definition usage : bytes := concat (map line
  [str "Usage: azure-protected-secrets-tool <command> [options]"; []; str "Commands:";
   str "  is-cvm                             Check if VM is a Confidential VM";
   str "  is-secrets-provisioning-enabled    Check if secrets provisioning is enabled";
   str "  unprotect-secret [TOKEN]           Decrypt a protected secret.";
   str "                                     TOKEN may be passed as an inline argument";
   str "                                     or piped via stdin.";
   str "  validate-imds-metadata             Validate IMDS metadata signature"; []; str "Options:";
   str "  --policy N   Set policy for unprotect-secret (0=RequireAll, 2=AllowUnsigned, 4=AllowLegacy)";
   str "  --json       Output in JSON format"; str "  --help, -h   Print this help message";
   str "  --version    Print tool and library version"]).

Section Commands.
Context {F : Type -> Type} {S : Type} `{Handler F S}.
Context `{ClockCall -< F} `{EsysCall -< F} `{ToolCall -< F} `{Fuel}.
Context `{BoostBase64, BoostString, NlohmannJson, Policy.Utf8} `{!BaseX509 F S} `{!Decryptor F S}.
(** The answers of the processor, and the text of [secrets_library_version()]. *)
Variable cpuid : Z -> HV_CPUID_RESULT.
Variable secrets_library_version : bytes.

Definition cmd_is_cvm (args : CliArgs) : M F S Z :=
  let mode := Cvm.GetIsolationMode cpuid in
  let iso := isolation_type_string mode in
  let hyp := hypervisor_string mode in
  let err := error_string mode in
  _ ← trig (cout
        (if json_output args
         then line (str "{" ++ quoted (str "isolation_type") ++ str ":" ++ quoted iso ++ str ","
                    ++ quoted (str "hypervisor") ++ str ":" ++ quoted hyp
                    ++ match err with Some e => str "," ++ quoted (str "error") ++ str ":" ++ quoted e | None => [] end
                    ++ str "}")
         else line (str "isolation_type=" ++ iso) ++ line (str "hypervisor=" ++ hyp)
              ++ match err with Some e => line (str "error=" ++ e) | None => [] end));
  let is_cvm := (mode =? Cvm.IM_RESULT_SNP_ISOLATION) || (mode =? Cvm.IM_RESULT_TDX_ISOLATION) in
  mret (if is_cvm : bool then 0 else 1).

Definition enabled_json (b : string) (more : bytes) : bytes :=
  str "{" ++ quoted (str "enabled") ++ str ":" ++ str b ++ more ++ str "}".
Definition cmd_is_secrets_enabled (args : CliArgs) : M F S Z :=
  result ← Secrets.is_secrets_provisioning_enabled;
  let j := json_output args in
  if 0 <? result then
    _ ← trig (cout (if j then line (enabled_json "true" (str "," ++ quoted (str "version") ++ str ":"
                                                        ++ quoted secrets_library_version))
                    else line (str "enabled=true") ++ line (str "version=" ++ secrets_library_version)));
    mret 0
  else if result =? 0 then
    _ ← trig (cout (line (if j then enabled_json "false" [] else str "enabled=false"))); mret 1
  else
    let e := get_error_message (- 0x1005) in
    _ ← trig (cerr (line (if j then enabled_json "false" (str "," ++ quoted (str "error") ++ str ":" ++ quoted e)
                          else str "error=" ++ e)));
    mret 1.

Definition json_error (e : bytes) : bytes := str "{" ++ quoted (str "error") ++ str ":" ++ quoted e ++ str "}".
(** What is printed of a secret, and the exit code. *)
Definition print_secret (args : CliArgs) (secret : bytes) : M F S Z :=
  if json_output args then
    _ ← trig (cout (line (str "{" ++ quoted (str "secret") ++ str ":" ++ quoted (escape secret) ++ str "}")));
    mret 0
  else
    written ← trig (write_stdout secret);
    mret (if written <? 0 then 1 else 0).
Definition cmd_unprotect_secret (args : CliArgs) : M F S Z :=
  input ← match token args with [] => trig read_all_stdin | t => mret t end;
  match input with
  | [] =>
      _ ← (if json_output args then trig (cout (line (json_error (str "no input provided"))))
           else trig (cerr (line (str "No input provided. Pass the token as an argument or pipe it via stdin."))));
      mret 1
  | _ =>
      r ← Secrets.unprotect_secret (take (Z.to_nat (u32 (size input))) input) (policy args);
      let result := Secrets.ret r in
      if 0 <? result then
        match Secrets.output_secret r with
        | None => fault_with UndefinedBehaviour
        | Some output =>
            if size output <? result then fault_with UndefinedBehaviour
            else code ← print_secret args (secret_of output result);
                 _ ← trig (free_secret (Some output)); mret code
        end
      else
        _ ← trig (free_secret (Secrets.output_secret r));
        _ ← (if json_output args then trig (cout (line (json_error (get_error_message result))))
             else trig (cerr (line (get_error_message result))));
        mret 1
  end.

Definition cmd_validate_imds (args : CliArgs) : M F S Z :=
  _ ← trig (cerr (line (str "validate-imds-metadata: not yet implemented"))); mret 1.

(** [argv] are the arguments after the name of the program. *)
Definition main (argv : list bytes) : M F S Z :=
  match argv with
  | [] => _ ← trig (cerr usage); mret 1
  | _ =>
      let args := parse_args argv in
      if help args then _ ← trig (cout usage); mret 0
      else if version args then _ ← trig (cout (line secrets_library_version)); mret 0
      else if bool_decide (command args = str "is-cvm") then cmd_is_cvm args
      else if bool_decide (command args = str "is-secrets-provisioning-enabled") then cmd_is_secrets_enabled args
      else if bool_decide (command args = str "unprotect-secret") then cmd_unprotect_secret args
      else if bool_decide (command args = str "validate-imds-metadata") then cmd_validate_imds args
      else
        match command args with
        | [] => _ ← trig (cerr usage); mret 1
        | c => _ ← trig (cerr (line (str "Unknown command: " ++ c))); _ ← trig (cerr usage); mret 1
        end
  end.
End Commands.
End Tool.

(** ** Properties *)

Section Facts.
Context {F : Type -> Type} {S : Type} `{HF : Handler F S}.
Context `{HC : ClockCall -< F} `{HE : EsysCall -< F} `{HT : ToolCall -< F} `{Fu : Fuel}.
Context `{Bb : BoostBase64, Bs : BoostString, NJ : NlohmannJson, U8 : Policy.Utf8}.
Context `{BX : !BaseX509 F S} `{DC : !Decryptor F S} `{XL : !X509Laws F S} `{DL : !SecretsFacts.DecryptorLaws F S}.
Variable cpuid : Z -> HV_CPUID_RESULT.
Variable version_text : bytes.
Import Tool SecretsFacts.

(** The calls that get the token, and those that print the secret. *)
Definition input_read (args : CliArgs) (input : bytes) (t : list (event F)) : Prop :=
  match token args with
  | [] => t = [Ev (inj read_all_stdin) input]
  | w => input = w /\ t = []
  end.
Definition printing (args : CliArgs) (secret : bytes) (t : list (event F)) : Prop :=
  if json_output args
  then t = [Ev (inj (cout (line (str "{" ++ quoted (str "secret") ++ str ":" ++ quoted (escape secret) ++ str "}")))) tt]
  else exists n, 0 <= n /\ t = [Ev (inj (write_stdout secret)) n].
Definition without_nul (secret output : bytes) : Prop :=
  output = secret ++ [x00] \/ (output = secret /\ last output <> Some x00).
(** What the library said of the text it handed [output] out for. *)
Definition admitted (text : bytes) (p : Z) (r : Secrets.UnprotectResult byte) (output : bytes) (t : list (event F)) : Prop :=
  exists ev, Secrets.eval_policy r = Some ev /\ Policy.admits ev p = true /\
    (Z.testbit ev 2 = true -> output = text /\ Z.testbit p 2 = true) /\
    (Z.testbit ev 2 = false -> Z.testbit p 1 = false -> text_verified text t).
(** All calls of a run that prints a secret: those for the input, those of [unprotect_secret], those that
    print what it returned, and [free_secret]. *)
Definition tool_secret (args : CliArgs) (t : list (event F)) : Prop :=
  exists input s r output secret t0 t1,
    let text := take (Z.to_nat (u32 (size input))) input in
    let call := Secrets.unprotect_secret text (policy args) s in
    t = t0 ++ evs call ++ t1 ++ [Ev (inj (free_secret (Some output))) tt] /\
    input_read args input t0 /\
    res call = Ret r /\ Secrets.output_secret r = Some output /\ admitted text (policy args) r output (evs call) /\
    (size output < 2 ^ (long_bits (F := F) (S := S) - 1) -> without_nul secret output) /\
    printing args secret t1.

Lemma secret_of_output output : output <> [] -> without_nul (secret_of output (size output)) output.
Proof.
  intros Hne. unfold secret_of, write_len, size. rewrite Nat2Z.id.
  destruct output as [|x l _] using rev_ind; [done|]. rewrite length_app. cbn [length].
  rewrite Nat.add_sub, list_lookup_middle by done. case_bool_decide as Hx.
  - injection Hx as ->. left. by rewrite take_app_length.
  - right. rewrite take_ge by (rewrite length_app; cbn; lia). by rewrite last_snoc.
Qed.
Lemma ends_unprotect text p :
  ends (fun r t => exists s, let call := Secrets.unprotect_secret (S := S) text p s in
          t = evs call /\ res call = Ret r /\
          forall out, Secrets.output_secret r = Some out -> out <> [] /\ admitted text p r out t /\
            (size out < 2 ^ (long_bits (F := F) (S := S) - 1) -> Secrets.ret r = size out))
    (Secrets.unprotect_secret (S := S) text p).
Proof.
  intros s r Hr. exists s. split; [done|]. split; [done|]. intros out Ho.
  assert (Hw := unprotect_spec (Policy.new_PolicyEvaluator p text) text Secrets.token_data p text s
                  (new_PolicyEvaluator_spec p text s)).
  unfold wp in Hw. destruct Hw as [_ Hw].
  destruct (Hw r out Hr Ho) as (Hret & Hne & ev & Hev & Had & Hleg & Hsig). split; [done|]. split.
  - exists ev. pose proof (admits_bits ev p Had) as Hb. split_and!; [done|done| |].
    + intros E2. rewrite E2 in Hb. auto.
    + intros E2 Ep. rewrite E2 in Hb. destruct Hb as [_ [Hb|Hb]]; [auto|congruence].
  - intros Hs. rewrite Hret. apply long_small. split; [apply Nat2Z.is_nonneg|exact Hs].
Qed.
Lemma ends_print args secret :
  ends (fun r t => r = 0 -> printing args secret t) (print_secret (F := F) (S := S) args secret).
Proof.
  unfold print_secret, printing. destruct (json_output args).
  - apply (ends_bind (fun _ t => t = [Ev (inj (cout (line (str "{" ++ quoted (str "secret") ++ str ":"
      ++ quoted (escape secret) ++ str "}")))) tt])); [by apply ends_trig; intros []|].
    intros [] t ->. by apply ends_ret.
  - apply (ends_bind (fun n t => t = [Ev (inj (write_stdout secret)) n])); [by apply ends_trig|].
    intros n t ->. apply ends_ret. destruct (n <? 0) eqn:E; [done|]. intros _. exists n. split; [lia|done].
Qed.
Lemma ends_input args :
  ends (input_read args) (match token args with [] => trig read_all_stdin | t => mret (M := M F S) t end).
Proof. unfold input_read. destruct (token args); [by apply ends_trig|by apply ends_ret]. Qed.
Lemma ends_cmd_unprotect args :
  ends (fun r t => r = 0 -> tool_secret args t) (cmd_unprotect_secret (S := S) args).
Proof.
  unfold cmd_unprotect_secret. apply (ends_bind (input_read args)); [apply ends_input|].
  intros input t0 Hi. destruct input as [|x l] eqn:Ein.
  { apply ends_unless, yields_bind. intros []. by apply yields_ret. }
  rewrite <- Ein in *. clear Ein. eapply ends_bind; [apply ends_unprotect|].
  intros r t (s & -> & Hr & Hout). destruct (0 <? Secrets.ret r) eqn:E.
  - destruct (Secrets.output_secret r) as [out|] eqn:Eo; [|by apply ends_lift].
    destruct (size out <? Secrets.ret r); [by apply ends_lift|]. destruct (Hout out eq_refl) as (Hne & Had & Hret).
    eapply ends_bind; [apply ends_print|]. intros code t1 Hp.
    apply (ends_bind (fun _ t => t = [Ev (inj (free_secret (Some out))) tt])); [by apply ends_trig; intros []|].
    intros [] t ->. apply ends_ret. intros E0.
    exists input, s, r, out, (secret_of out (Secrets.ret r)), t0, t1. split_and!; [by rewrite app_nil_r|done..| |auto].
    intros Hs. rewrite (Hret Hs). by apply secret_of_output.
  - apply ends_unless. do 2 (apply yields_bind; intros ?). by apply yields_ret.
Qed.

Lemma policy_default args argv :
  str "--policy" ∉ argv -> policy (parse_args_from args argv) = policy args.
Proof.
  revert args. induction argv as [|arg argv IH]; intros args Hn; [done|].
  apply not_elem_of_cons in Hn as [Hne Hn]. simpl. case_bool_decide; [by rewrite IH|].
  rewrite bool_decide_eq_false_2 by done.
  assert (Hw : policy (set_word args arg) = policy args).
  { destruct args as [c t' p h v j]. by destruct c, t'. }
  destruct arg as [|[] arg]; rewrite IH by done; done.
Qed.

(** C13: What the tool prints is the secret it may print. When [unprotect-secret] exits with 0, its calls
    are those that get the token - the argument, or the standard input -, those of one run of
    [unprotect_secret] on it under the policy of [--policy], one that prints the data this run returned, without
    one null byte at the end (with [--json], escaped), and [free_secret] of that data; nothing else is
    printed. The policy admitted the payload, and without [--policy] the token carries a verified signature. *)
Theorem tool_prints_secret argv s :
  let args := parse_args argv in
  let run := main cpuid version_text argv s in
  command args = str "unprotect-secret" -> help args = false -> version args = false ->
  res run = Ret 0 ->
  tool_secret args (evs run) /\
  (str "--policy" ∉ argv -> exists input t0 t t1, evs run = t0 ++ t ++ t1 /\ input_read args input t0 /\
     text_verified (take (Z.to_nat (u32 (size input))) input) t).
Proof.
  intros args run Hc Hh Hv Hr.
  assert (Hs : tool_secret args (evs run)).
  { revert Hr. subst run. unfold main. destruct argv as [|a0 argv]; [discriminate|]. fold args. rewrite Hh, Hv, Hc.
    intros Hr. by apply (ends_cmd_unprotect args s 0 Hr). }
  split; [done|]. intros Hn. destruct Hs as (input & s1 & r & out & sec & t0 & t1 & Et & Hi & _ & _ & (ev & _ & Had & Hleg & Hsig) & _).
  assert (Hp : policy args = 0) by apply (policy_default no_args argv Hn). rewrite Hp in *.
  eexists input, t0, _, _. split; [exact Et|]. split; [done|].
  apply Hsig; [|by rewrite Z.bits_0]. destruct (Z.testbit ev 2) eqn:E2; [|done].
  destruct (Hleg eq_refl) as [_ Hx]. by rewrite Z.bits_0 in Hx.
Qed.
End Facts.

(** *** The escaped secret *)

(** A reader of JSON strings, for the escapes RFC 8259 lists and code points below 256. *)
Definition hex_value (c : byte) : option Z :=
  if is_digit c then Some (z_of_byte c - 48)
  else if (97 <=? z_of_byte c) && (z_of_byte c <=? 102) then Some (z_of_byte c - 87)
  else if (65 <=? z_of_byte c) && (z_of_byte c <=? 70) then Some (z_of_byte c - 55) else None.
Definition unescape (e : byte) : option byte :=
  match e with
  | "n" => Some x0a | "r" => Some x0d | "t" => Some x09 | "b" => Some x08 | "f" => Some x0c
  | x5c => Some x5c | x22 => Some x22 | "/" => Some "/" | _ => None
  end%byte.
Definition consed (c : option byte) (r : option (bytes * bytes)) : option (bytes * bytes) :=
  match c, r with Some c, Some (l, rest) => Some (c :: l, rest) | _, _ => None end.
Fixpoint json_text (s : bytes) : option (bytes * bytes) :=
  match s with
  | [] => None
  | c :: r =>
      if decide (c = x22) then Some ([], r)
      else if decide (c = x5c) then
        match r with
        | e :: r1 =>
            if decide (e = "u"%byte) then
              match r1 with
              | z1 :: z2 :: a :: b :: r2 =>
                  if bool_decide (z1 = "0"%byte /\ z2 = "0"%byte) then
                    match hex_value a, hex_value b with
                    | Some x, Some y => consed (Some (byte_of_z (x * 16 + y))) (json_text r2)
                    | _, _ => None
                    end
                  else None
              | _ => None
              end
            else consed (unescape e) (json_text r1)
        | [] => None
        end
      else if z_of_byte c <? 0x20 then None else consed (Some c) (json_text r)
  end.
Lemma hex_value_char d : 0 <= d < 16 -> hex_value (hex_char d) = Some d.
Proof.
  intros Hd. assert (Hall : forallb (fun n => bool_decide
    (hex_value (hex_char (Z.of_nat n)) = Some (Z.of_nat n))) (seq 0 16) = true) by vm_eq.
  rewrite forallb_forall in Hall. specialize (Hall (Z.to_nat d)). rewrite Z2Nat.id in Hall by lia.
  eapply bool_decide_eq_true_1, Hall, in_seq. lia.
Qed.
Lemma json_text_escape c r l rest :
  json_text r = Some (l, rest) -> json_text (Tool.escape_char c ++ r) = Some (c :: l, rest).
Proof.
  intros Hr. unfold Tool.escape_char. repeat case_decide; subst; [cbn; by rewrite Hr..|].
  pose proof (z_of_byte_range c). destruct (z_of_byte c <? 0x20) eqn:E.
  - cbn [app json_text]. rewrite decide_False, decide_True, decide_True, bool_decide_eq_true_2 by done.
    rewrite !hex_value_char by (Z.to_euclidean_division_equations; lia). rewrite Hr. cbn [consed].
    by rewrite (Z.mul_comm _ 16), <- Z.div_mod, byte_of_z_of_byte.
  - cbn [app json_text]. rewrite !decide_False by done. by rewrite E, Hr.
Qed.

(** The JSON line says what the secret is: any reader of JSON strings reads the escaped text,
    up to its closing quote, as the bytes of the secret, whatever they are. *)
Theorem escape_round_trip secret rest :
  json_text (Tool.escape secret ++ x22 :: rest) = Some (secret, rest).
Proof.
  induction secret as [|c secret IH]; [done|]. unfold Tool.escape. cbn [flat_map].
  rewrite <- app_assoc. by apply json_text_escape.
Qed.

(** ** Witnesses: the tool over the world of Secrets.v *)

Notation ToolE := (sumE ToolCall SecCall).
Definition demo_tool (stdin : bytes) (R : Type) (e : ToolCall R) : R :=
  match e in ToolCall T return T with
  | cout _ | cerr _ | free_secret _ => tt
  | write_stdout data => size data
  | read_all_stdin => stdin
  end.
#[local] Instance tool_world : Handler ToolE Z := fun R e now =>
  match e with
  | InL e => (demo_tool (secret_token [x09]) R e, now)
  | InR e => sec_handler R e now
  end.
#[local] Instance tool_fuel : Fuel := 4%nat.
#[local] Instance tool_utf8 : Policy.Utf8 := ascii_utf8.

(** The token comes from the standard input; no policy is given. *)
Definition tool_argv : list bytes := [str "unprotect-secret"; str "--json"].
Notation tool_run := (Tool.main (F := ToolE) snp_leaf (str "1.0") tool_argv 0).
Theorem tool_prints_secret_witness :
  res tool_run = Ret 0 /\ tool_secret (F := ToolE) (Tool.parse_args tool_argv) (evs tool_run) /\
  exists input t0 t t1, evs tool_run = t0 ++ t ++ t1 /\
    SecretsFacts.text_verified (F := ToolE) (take (Z.to_nat (u32 (size input))) input) t.
Proof.
  assert (Hr : res tool_run = Ret 0) by vm_eq. split; [exact Hr|].
  assert (Hc : Tool.command (Tool.parse_args tool_argv) = str "unprotect-secret") by vm_eq.
  assert (Hh : Tool.help (Tool.parse_args tool_argv) = false) by vm_eq.
  assert (Hw : Tool.version (Tool.parse_args tool_argv) = false) by vm_eq.
  destruct (tool_prints_secret (F := ToolE) snp_leaf (str "1.0") tool_argv 0 Hc Hh Hw Hr) as [Hs Hv].
  split; [exact Hs|].
  assert (Hn : bool_decide (str "--policy" ∈ tool_argv) = false) by vm_eq.
  destruct (Hv (bool_decide_eq_false_1 _ Hn)) as (input & t0 & t & t1 & Et & _ & Ht). exists input, t0, t, t1.
  split; [exact Et|exact Ht].
Defined.
Theorem escape_round_trip_witness :
  Tool.escape [x01; x22; xff] = [x5c] ++ str "u0001" ++ [x5c; x22; xff] /\
  json_text (Tool.escape [x01; x22; xff] ++ [x22]) = Some ([x01; x22; xff], []).
Proof. split; [vm_eq|exact (escape_round_trip [x01; x22; xff] [])]. Defined.
