(* ===== verification/Sample.v ===== *)
(** * The static sample of the secrets library

    SecretsProvisioningSample.cpp and main.cpp without DYNAMIC_SAMPLE, on Linux: making, finding and
    removing the guest key, protecting a text for this machine ([EncryptWithPadding]: what the
    provisioning service does, with the building blocks of the library) and releasing it
    again ([Decrypt]). SampleFacts.v shows that the two fit. *)

From S2P Require Import Prelude Base64 ReturnCodes Json Ossl BaseX509 Jwt Policy Esys SecretsTpm Secrets SecretsTool.
#[local] Open Scope Z_scope.

(** The C library's [rand]. *)
Inductive RandCall : Type -> Type :=
| rand : RandCall Z.

Module Sample.
Section Ops.
Context {F : Type -> Type} {S : Type} `{Handler F S}.
Context `{OsslCall -< F} `{EsysCall -< F} `{DmiCall -< F} `{ClockCall -< F} `{ToolCall -< F} `{RandCall -< F} `{Fuel}.
Context `{BoostBase64, BoostString, NlohmannJson, Policy.Utf8} `{!BaseX509 F S} `{!Decryptor F S}.
(** The text of a code of the TPM, and what a [std::exception] copied out of its class says. *)
Variable Tss2_RC_Decode : Z -> bytes.
Variable exception_what : bytes.

Definition print (text : bytes) : M F S unit := trig (cout text).

Fixpoint MakeRandomBytes (n : nat) : M F S bytes :=
  match n with
  | O => mret []
  | Datatypes.S n => r ← trig rand; rest ← MakeRandomBytes n; mret (byte_of_z r :: rest)
  end.

(** ** The guest key *)

(** [catch (TpmError e)] *)
Definition tpm_report {A} (x : A) (e : exn) : option (M F S A) :=
  match e with
  | TpmErr rc _ _ => Some (_ ← print (Tool.line (str "Error in TPM " ++ Tss2_RC_Decode rc)); mret x)
  | _ => None
  end.
(** A wrapper declared before a [try], made in it and used in it: it lives until the function ends. *)
Definition with_Tss2Wrapper {A} (x : A) (m : M F S A) : M F S A :=
  made ← try_catch (_ ← SecretsTpm.new_TssCtx; mret true) (tpm_report false);
  if made : bool then finally (try_catch m (tpm_report x)) (trig Esys_Finalize) else mret x.

Definition GenerateKey : M F S unit :=
  with_Tss2Wrapper tt (_ ← SecretsTpm.GenerateGuestKey; mret tt).
Definition RemoveKey : M F S unit :=
  with_Tss2Wrapper tt (_ ← SecretsTpm.RemoveKey; mret tt).
Definition IsKeyPresent : M F S bool := with_Tss2Wrapper false SecretsTpm.IsKeyPresent.
Definition GetVmidFromSmbios : M F S unit :=
  uuid ← Secrets.GetSystemUuid;
  print (Tool.line (str "UUID: " ++ uuid)).
Definition IsCvm : M F S unit := print (Tool.line (str "CvmHelper is not supported on Linux platform")).

(** ** Protecting a text *)

(** The catch clauses of [EncryptWithPadding]; the last one copies the exception as a [std::exception]. *)
Definition encrypt_report {A} (x : A) (e : exn) : option (M F S A) :=
  match e with
  | TpmErr _ _ _ => tpm_report x e
  | OsslErr code _ =>
      Some (info ← trig (ERR_error_string code);
            _ ← print (Tool.line (str "Error in Ossl " ++ info)); mret x)
  | e => if is_std_exception e
         then Some (_ ← print (Tool.line (str "Failed to encrypt data" ++ exception_what)); mret x)
         else None
  end.

(** What is ready when the transport key is to be wrapped. *)
Record Sealed := {
  saltData : bytes; dataNonce : bytes; wrappingNonce : bytes; wrappingKey : bytes;
  encryptedSecret : bytes; encryptedEcdhPrivate : bytes; exportedPublicKeyData : bytes }.

(** The body of the [try] up to the TPM. The second check of an empty ciphertext looks at the first
    ciphertext again. *)
Definition seal_steps (secretData salt : bytes) : M F S (option Sealed) :=
  infoData ← Secrets.GetSystemUuid;
  ecdhPrivate ← Ecdh.new_OsslECDiffieHellman;
  ecdhPublic ← Ecdh.new_OsslECDiffieHellman;
  ecdhPrivate ← Ecdh.GenerateKeyPair ecdhPrivate;
  ecdhPublic ← Ecdh.GenerateKeyPair ecdhPublic;
  public ← Ecdh.ExportSubjectPublicKeyInfo ecdhPublic;
  private ← Ecdh.ExportPkcs8PrivateKey ecdhPrivate;
  shared ← Ecdh.DeriveSecret ecdhPrivate ecdhPublic;
  hkdf ← Hkdf.new_OsslHKDF shared;
  aesKey ← Hkdf.DeriveKey hkdf salt infoData 32;
  if size aesKey =? 0 then _ ← print (Tool.line (str "Failed to derive key")); mret None
  else
    _ ← print (Tool.line (str "Derived key size" ++ z_text (size aesKey)));
    aesWrapper ← Aes.new_OsslGcmWrapper;
    let aesWrapper := Aes.SetKey aesWrapper aesKey in
    nonce ← MakeRandomBytes 12;
    secret ← Aes.Encrypt aesWrapper secretData (Some (Aes.SetChainingInfo nonce));
    if size secret =? 0 then _ ← print (Tool.line (str "Failed to encrypt data")); mret None
    else
      _ ← print (Tool.line (str "Encrypted data size" ++ z_text (size secret)));
      transport ← MakeRandomBytes 32;
      let aesWrapper := Aes.SetKey aesWrapper transport in
      keyNonce ← MakeRandomBytes 12;
      sealedPrivate ← Aes.Encrypt aesWrapper private (Some (Aes.SetChainingInfo keyNonce));
      if size secret =? 0 then _ ← print (Tool.line (str "Failed to encrypt data")); mret None
      else mret (Some {| saltData := salt; dataNonce := nonce; wrappingNonce := keyNonce; wrappingKey := transport;
                         encryptedSecret := secret; encryptedEcdhPrivate := sealedPrivate;
                         exportedPublicKeyData := public |}).

(** The rest of the body, with the TPM. *)
Definition wrap_steps (p : Sealed) (paddingScheme : RsaPaddingScheme) : M F S (option bytes) :=
  _ ← print (Tool.line (str "Generated EK" ++ [x0a] ++ str "Preparing to encrypt"));
  wrappedAesKey ← SecretsTpm.Tss2RsaEncrypt (wrappingKey p) paddingScheme;
  if size wrappedAesKey =? 0 then _ ← print (Tool.line (str "Failed to wrap key")); mret None
  else mret (Some wrappedAesKey).

(** An initialiser list of strings, as an object. *)
Definition json_object (members : list (string * bytes)) : outcome json :=
  foldl (fun o '(k, v) => j ← o; json_set j (str k) (json_str v)) (mret json_null) members.
Definition header_members (paddingScheme : RsaPaddingScheme) : list (string * bytes) :=
  [("alg"%string, str "RS256"); ("typ"%string, str "JWT"); ("x-az-cvm-purpose"%string, str "secrets-provisioning");
   ("x-az-rsa-padding"%string, RsaPaddingSchemeToString paddingScheme)].
Definition payload_members (p : Sealed) (wrappedAesKey : bytes) : list (string * bytes) :=
  [("salt"%string, Encoders.base64_encode (saltData p));
   ("dataNonce"%string, Encoders.base64_encode (dataNonce p));
   ("keyNonce"%string, Encoders.base64_encode (wrappingNonce p));
   ("wrappedAesTransportKey"%string, Encoders.base64_encode wrappedAesKey);
   ("encryptedSecret"%string, Encoders.base64_encode (encryptedSecret p));
   ("encryptedGuestEcdhPrivateKey"%string, Encoders.base64_encode (encryptedEcdhPrivate p));
   ("ephemeralEcdhPublicKey"%string, Encoders.base64_encode (exportedPublicKeyData p))].
Definition make_token (p : Sealed) (wrappedAesKey : bytes) (paddingScheme : RsaPaddingScheme) : M F S bytes :=
  jwt ← lift (Jwt.new_JsonWebToken (str "RS256"));
  header ← lift (json_object (header_members paddingScheme));
  payload ← lift (json_object (payload_members p wrappedAesKey));
  '(_, token) ← Jwt.CreateToken {| Jwt.header := header; Jwt.jwt := payload; Jwt.signature := Jwt.signature jwt |};
  mret token.

(** [data] is a C string: its terminator is part of what is protected. *)
Definition EncryptWithPadding (data : bytes) (paddingScheme : RsaPaddingScheme) : M F S bytes :=
  salt ← MakeRandomBytes 32;
  ready ← try_catch (p ← seal_steps (c_str data ++ [x00]) salt;
                      match p with
                      | None => mret None
                      | Some p => _ ← SecretsTpm.new_TssCtx; mret (Some p)
                      end) (encrypt_report None);
  match ready with
  | None => mret []
  | Some p =>
      finally (wrapped ← try_catch (wrap_steps p paddingScheme) (encrypt_report None);
               match wrapped with
               | None => mret []
               | Some wrappedAesKey => make_token p wrappedAesKey paddingScheme
               end) (trig Esys_Finalize)
  end.
Definition Encrypt (data : bytes) : M F S bytes := EncryptWithPadding data Rsaes.

(** The text of a wide string with its terminator; [strlen] of what an empty vector points to is
    undefined. *)
Definition EncryptWideWithPadding (data : list Z) (paddingScheme : RsaPaddingScheme) : M F S bytes :=
  match Policy.wide_to_utf8 (data ++ [0]) with
  | [] => fault_with UndefinedBehaviour
  | utf8Vec => EncryptWithPadding utf8Vec paddingScheme
  end.
Definition EncryptWide (data : list Z) : M F S bytes := EncryptWideWithPadding data Rsaes.

(** ** Releasing it *)

Definition hex_text (z : Z) : bytes :=
  let fix go (n : nat) (z : Z) : bytes :=
    match n with
    | O => []
    | Datatypes.S n => (if z <? 16 then [] else go n (z / 16)) ++ [hex_char (z mod 16)]
    end in go 16%nat z.
(** [jwtlen] passes through an [int]. The secret is a string of all the bytes, printed to its first null. *)
Definition Decrypt (jwt : bytes) : M F S bytes :=
  let jwt := c_str jwt in
  r ← Secrets.unprotect_secret (take (Z.to_nat (u32 (s32 (size jwt)))) jwt) Policy.AllowUnsigned;
  let result := Secrets.ret r in
  if result <=? 0 then
    _ ← print (Tool.line (str "Failed to unprotect secret: " ++ get_error_message result ++ str " (0x"
                          ++ hex_text (u64 result) ++ str ")"));
    mret []
  else
    match Secrets.output_secret r with
    | None => mret []
    | Some output_secret =>
        if size output_secret <? result then fault_with UndefinedBehaviour
        else
          let secret := take (Z.to_nat result) output_secret in
          _ ← print (Tool.line ([x0a; x0a] ++ str "Secret: " ++ c_str secret));
          _ ← trig (free_secret (Some output_secret));
          mret secret
    end.

(** [argv] are the arguments after the name of the program. An exception that leaves [main] ends the
    process. *)
Definition main (argv : list bytes) : M F S Z :=
  match argv with
  | [] => _ ← print (Tool.line (str "Please provide a command.")); mret 1
  | command :: args =>
      let with_text (use : bytes -> M F S unit) (what : string) : M F S Z :=
        match args with
        | [] => _ ← print (Tool.line (str "Please provide a string to " ++ str what ++ str ".")); mret 1
        | a :: _ => _ ← use a; mret 0
        end in
      if bool_decide (command = str "Decrypt") then with_text (fun a => _ ← Decrypt a; mret tt) "decrypt"%string
      else if bool_decide (command = str "GenerateKey") then _ ← GenerateKey; mret 0
      else if bool_decide (command = str "IsKeyPresent") then
        present ← IsKeyPresent;
        _ ← print (Tool.line (str (if present : bool then "Key is present" else "Key is not present"))); mret 0
      else if bool_decide (command = str "RemoveKey") then _ ← RemoveKey; mret 0
      else if bool_decide (command = str "GetVmid") then _ ← GetVmidFromSmbios; mret 0
      else if bool_decide (command = str "IsCvm") then _ ← IsCvm; mret 0
      else if bool_decide (command = str "Encrypt") then
        with_text (fun a => token ← Encrypt a; print (Tool.line (str "Token: " ++ token))) "encrypt"%string
      else if bool_decide (command = str "EncryptOaep") then
        with_text (fun a => token ← EncryptWithPadding a RsaesOaep; print (Tool.line (str "Token: " ++ token))) "encrypt"%string
      else _ ← print (Tool.line (str "Unknown command.")); mret 1
  end.
End Ops.
End Sample.
