(* ===== verification/GuestTpm.v ===== *)
(** * The LinuxTpm library of client-library

    Tss2Util.cpp and Tss2Session.cpp ([TpmUtil]) and Tss2Wrapper.cpp
    ([GuestTpm]): endorsement keys, NV storage, PCR selections and digests, policy
    sessions, unsealing, and keys bound to the PCRs. A [unique_esys_tr] closes its
    handle when its scope is left, a [Tss2Session] flushes its own; an
    [OpenSslException] is the runtime error with its text. *)

From S2P Require Import Prelude Ossl Esys.
#[local] Open Scope Z_scope.

(** AttestationTypes.h; [HashOther] is a value of no enumerator. *)
Inductive TpmVersion := V1_2 | V2_0.
Inductive HashAlg := Sha1 | Sha256 | Sha384 | Sha512 | Sm3_256 | HashOther (z : Z).
Record PcrValue := { index : Z; digest : bytes }.
Record PcrSet := { hashAlg : HashAlg; pcrs : list PcrValue }.
Record PcrQuote := { quote : bytes; quote_signature : bytes }.
Record EphemeralKey := { encryptionKey : bytes; certifyInfo : bytes; certifyInfoSignature : bytes }.

(** The exceptions of Exceptions.h *)
Definition tss2_exception (desc : string) (rc : Z) : exn :=
  Tss2Exception (str "tpm2-tss exception : message=" ++ str desc ++ str ", code=" ++ z_text rc) rc.
Definition openssl_exception (desc : bytes) (rc : Z) : exn :=
  RuntimeError (str "OpenSSL exception: message=" ++ [x22] ++ desc ++ [x22] ++ str ", code="
                ++ z_text rc).

Module TpmUtil.

Definition EK_CERT_INDEX : TPM2_HANDLE := 0x01c00002.
Definition EK_NONCE_INDEX : TPM2_HANDLE := 0x01c00003.
Definition EK_TEMPLATE_INDEX : TPM2_HANDLE := 0x01c00004.
Definition AIK_CERT_INDEX : TPM2_HANDLE := 0x01C101D0.
Definition HCL_REPORT_INDEX : TPM2_HANDLE := 0x01400001.
Definition EK_PUB_INDEX : TPM2_HANDLE := 0x81010000 + 1.
Definition AIK_PUB_INDEX : TPM2_HANDLE := 0x81000000 + 3.
Definition MAX_NV_BUFFER_SIZE : Z := 512.
Definition TSS2_RC_ERROR_MASK : Z := 0xff.

Section Util.
Context {F : Type -> Type} {S : Type} `{Handler F S} `{EsysCall -< F} `{OsslCall -< F} `{Fuel}.

Definition check (ret : Z) (desc : string) : M F S unit :=
  require (ret =? TSS2_RC_SUCCESS) (tss2_exception desc ret).

(** The destructor of [unique_esys_tr] ignores the result. *)
Definition close_handle (h : ESYS_TR) : M F S unit :=
  if h =? 0 then mret tt else _ ← trig (Esys_TR_Close h); mret tt.

(** [auto h = HandleToEsys(ctx, handle); ...] *)
Definition HandleToEsys {A} (handle : TPM2_HANDLE) (k : ESYS_TR -> M F S A) : M F S A :=
  '(ret, esys) ← trig (Esys_TR_FromTPMPublic handle);
  finally (_ ← check ret "Failed to open ESYS_TR"; k esys) (close_handle esys).

Fixpoint nv_read_loop (n : nat) (nv : ESYS_TR) (data : bytes) (sz offset : Z) : M F S bytes :=
  if sz <=? 0 then mret data
  else match n with
  | O => fault_with OutOfFuel
  | Datatypes.S n' =>
      let bytesToRead := if MAX_NV_BUFFER_SIZE <? sz then MAX_NV_BUFFER_SIZE else sz in
      '(ret, nvData) ← trig (Esys_NV_Read nv (u16 bytesToRead) (u16 offset));
      _ ← check ret "Failed to read from TPM NV RAM";
      nv_read_loop n' nv (data ++ nvData) (sz - size nvData) (offset + size nvData)
  end.

Definition NvRead (index : TPM2_HANDLE) : M F S bytes :=
  HandleToEsys index (fun nvHandle =>
    '(ret, dataSize) ← trig (Esys_NV_ReadPublic nvHandle);
    _ ← check ret "Failed to read public portion of EK cert nv index";
    data ← nv_read_loop fuel nvHandle [] dataSize 0;
    lift (resize data dataSize)).

Fixpoint nv_write_loop (n : nat) (nv : ESYS_TR) (data : bytes) (sz offset : Z) : M F S unit :=
  if sz <=? 0 then mret tt
  else match n with
  | O => fault_with OutOfFuel
  | Datatypes.S n' =>
      let bytesToWrite := if MAX_NV_BUFFER_SIZE <? sz then MAX_NV_BUFFER_SIZE else sz in
      let nvData := take (Z.to_nat bytesToWrite) (drop (Z.to_nat offset) data) in
      ret ← trig (Esys_NV_Write nv nvData (u16 offset));
      _ ← check ret "Failed to perform NV write";
      nv_write_loop n' nv data (sz - bytesToWrite) (offset + bytesToWrite)
  end.

(** Each round writes at least one byte, so the length of the data is enough. *)
Definition NvWrite (index : TPM2_HANDLE) (data : bytes) : M F S unit :=
  HandleToEsys index (fun nvHandle =>
    nv_write_loop (length data) nvHandle data (s32 (size data)) 0).

Definition NvUndefineSpace (index : TPM2_HANDLE) : M F S unit :=
  HandleToEsys index (fun nvHandle =>
    ret ← trig (Esys_NV_UndefineSpace nvHandle);
    check ret "Failed to undefine NV space").

Definition nv_attributes : Z :=
  Z.lor TPMA_NV_OWNERREAD (Z.lor TPMA_NV_OWNERWRITE (Z.lor TPMA_NV_AUTHREAD TPMA_NV_AUTHWRITE)).

(** [dataSize] is a [UINT16]. *)
Definition NvDefineSpace (index : TPM2_HANDLE) (sz : Z) : M F S unit :=
  '(ret, _) ← trig (Esys_NV_DefineSpace index nv_attributes (u16 sz));
  check ret "Failed to define NV space".

Definition GetPublicObject (index : TPM2_HANDLE) : M F S bytes :=
  HandleToEsys index (fun nvHandle =>
    '(ret, pub) ← trig (Esys_ReadPublic nvHandle);
    _ ← check ret "Failed to read public portion";
    match pub with
    | None => throw (runtime_error "Failed to read or generate public portion")
    | Some pub =>
        '(ret, bytes) ← trig (MU_TPM2B_PUBLIC_Marshal pub);
        _ ← check ret "Failed to marshal TPM2B_PUBLIC";
        mret bytes
    end).

Definition EK_AUTH_POLICY : bytes := map byte_of_z
  [0x83; 0x71; 0x97; 0x67; 0x44; 0x84; 0xb3; 0xf8;
   0x1a; 0x90; 0xcc; 0x8d; 0x46; 0xa5; 0xd7; 0x24;
   0xfd; 0x52; 0xd7; 0x6e; 0x06; 0x52; 0x0b; 0x64;
   0xf2; 0xa1; 0xda; 0x1b; 0x33; 0x14; 0x69; 0xaa].

(** The buffer of [unique.rsa] keeps what it held. *)
Definition PopulateParametersEkFromSpec (inPub : TPM2B_PUBLIC) (setAdminWithAuthPolicy : bool)
  : TPM2B_PUBLIC :=
  let attributes :=
    Z.lor TPMA_OBJECT_RESTRICTED (Z.lor TPMA_OBJECT_DECRYPT (Z.lor TPMA_OBJECT_FIXEDTPM
      (Z.lor TPMA_OBJECT_FIXEDPARENT TPMA_OBJECT_SENSITIVEDATAORIGIN))) in
  {| type_ := TPM2_ALG_RSA;
     nameAlg := TPM2_ALG_SHA256;
     objectAttributes := if setAdminWithAuthPolicy
                         then Z.lor attributes TPMA_OBJECT_ADMINWITHPOLICY else attributes;
     authPolicy := EK_AUTH_POLICY;
     sym_algorithm := TPM2_ALG_AES; sym_keyBits := 128; sym_mode := TPM2_ALG_CFB;
     scheme_alg := TPM2_ALG_NULL;
     keyBits := 2048;
     exponent := 0;
     rsa_buffer := rsa_buffer inPub;
     rsa_size := 256 |}.

(** Only "no such handle" is absorbed; every other exception goes on. *)
Definition is_no_handle (e : exn) : bool :=
  match e with
  | Tss2Exception _ rc => Z.land rc TSS2_RC_ERROR_MASK =? TPM2_RC_HANDLE
  | _ => false
  end.

(** [std::memcpy] of the nonce over the start of the 512-byte buffer. *)
Definition copy_nonce (inPub : TPM2B_PUBLIC) (nonce : bytes) : M F S TPM2B_PUBLIC :=
  if TPM2_MAX_RSA_KEY_BYTES <? size nonce then fault_with UndefinedBehaviour
  else mret {| type_ := type_ inPub; nameAlg := nameAlg inPub;
               objectAttributes := objectAttributes inPub; authPolicy := authPolicy inPub;
               sym_algorithm := sym_algorithm inPub; sym_keyBits := sym_keyBits inPub;
               sym_mode := sym_mode inPub; scheme_alg := scheme_alg inPub;
               keyBits := keyBits inPub; exponent := exponent inPub;
               rsa_buffer := nonce ++ drop (length nonce) (rsa_buffer inPub);
               rsa_size := rsa_size inPub |}.

Definition PopulateEkPublicInput : M F S TPM2B_PUBLIC :=
  inPub ← try_catch (
      ekTemplate ← NvRead EK_TEMPLATE_INDEX;
      '(ret, temp) ← trig (MU_TPMT_PUBLIC_Unmarshal ekTemplate);
      _ ← check ret "Failed to unmarshal ek template";
      mret temp)
    (fun e => if is_no_handle e then Some (mret (PopulateParametersEkFromSpec zero_public true))
              else None);
  try_catch (
      ekNonce ← NvRead EK_NONCE_INDEX;
      copy_nonce inPub ekNonce)
    (fun e => if is_no_handle e then Some (mret inPub) else None).

Definition GenerateEk : M F S TPM2B_PUBLIC :=
  inPub ← PopulateEkPublicInput;
  '(ret, (outHandle, outPub)) ← trig (Esys_CreatePrimary ESYS_TR_RH_ENDORSEMENT inPub);
  finally (_ ← check ret "Failed to create primary object under endorsement hierarchy"; mret outPub)
    (close_handle outHandle).

Definition GenerateEkFromSpec (setAdminWithAuthPolicy : bool) : M F S (ESYS_TR * TPM2B_PUBLIC) :=
  let inPub := PopulateParametersEkFromSpec zero_public setAdminWithAuthPolicy in
  '(ret, (primaryHandle, outPub)) ← trig (Esys_CreatePrimary ESYS_TR_RH_ENDORSEMENT inPub);
  _ ← check ret "Failed to create Ephemeral Key";
  mret (primaryHandle, outPub).

(** [outHandle] is the empty handle of this function, not that of the created key. *)
Definition GenerateAndPersistEk : M F S TPM2B_PUBLIC :=
  let outHandle := 0 in
  outPub ← GenerateEk;
  '(ret, tmpHandle) ← trig (Esys_EvictControl ESYS_TR_RH_OWNER outHandle EK_PUB_INDEX);
  finally (_ ← check ret "Failed to persist EK in TPM NVRAM"; mret outPub) (close_handle tmpHandle).

(** ** PCRs *)

Definition GetPcrCount : M F S Z :=
  '(ret, caps) ← trig (Esys_GetCapability TPM2_PT_PCR_COUNT);
  _ ← check ret "Esys_GetCapability failed";
  match caps with
  | (property, value) :: _ =>
      if property =? TPM2_PT_PCR_COUNT then mret (value mod 2 ^ 8)
      else throw (runtime_error "Could not find PCR count")
  | [] => throw (runtime_error "Could not find PCR count")
  end.

Definition GetTssHashAlg (a : HashAlg) : outcome Z :=
  match a with
  | Sha1 => mret TPM2_ALG_SHA1
  | Sha256 => mret TPM2_ALG_SHA256
  | Sha384 => mret TPM2_ALG_SHA384
  | Sha512 => mret TPM2_ALG_SHA512
  | Sm3_256 => mret TPM2_ALG_SM3_256
  | HashOther _ => Throw (runtime_error "Unknown hash algorithm")
  end.

(** The mask of the selected PCRs; a shift by 32 or more is undefined. *)
Fixpoint pcr_mask (pcrCount mask : Z) (l : list PcrValue) : outcome Z :=
  match l with
  | [] => mret mask
  | p :: rest =>
      if (index p <? 0) || (pcrCount <=? index p)
      then Throw (runtime_error "PCR index out of range")
      else if 32 <=? index p then Fault UndefinedBehaviour
      else pcr_mask pcrCount (Z.lor mask (u32 (Z.shiftl 1 (index p)))) rest
  end.

Definition mask_octets (pcrMask : Z) : list Z :=
  [Z.land pcrMask 0xff; Z.shiftr (Z.land pcrMask 0xff00) 8;
   Z.shiftr (Z.land pcrMask 0xff0000) 16; Z.shiftr (Z.land pcrMask 0xff000000) 24].

Definition GetTssPcrSelection (pcrSet : PcrSet) (a : HashAlg) : M F S pcr_selection :=
  pcrCount ← GetPcrCount;
  pcrMask ← lift (pcr_mask pcrCount 0 (pcrs pcrSet));
  hash ← lift (GetTssHashAlg a);
  mret {| sel_hash := hash; sizeofSelect := pcrCount / 8; pcrSelect := mask_octets pcrMask |}.

Definition GetOpenSslAlg (a : HashAlg) : option md :=
  match a with
  | Sha1 => Some SHA1
  | Sha256 => Some SHA256
  | Sha384 => Some SHA384
  | Sha512 => Some SHA512
  | Sm3_256 => Some SHA256
  | HashOther _ => None
  end.

Definition get_openssl_err : M F S bytes := code ← trig ERR_get_error; trig (ERR_error_string code).

(** [if (!ret) throw OpenSslException(get_openssl_err(), ret);] *)
Definition check_ssl (ret : Z) : M F S unit :=
  if ret =? 0 then err ← get_openssl_err; throw (openssl_exception err ret) else mret tt.

Definition GeneratePcrDigest (pcrSet : PcrSet) (a : HashAlg) : M F S bytes :=
  match GetOpenSslAlg a with
  | None =>
      throw (RuntimeError (str "Error generating PCR digest, unknown hash algorithm: " ++
               z_text (match a with HashOther z => z | _ => 0 end)))
  | Some m =>
      mdctx ← trig EVP_MD_CTX_new;
      if is_null mdctx then
        err ← get_openssl_err;
        throw (RuntimeError (str "Error initializing OpenSSL EVP context:" ++ err))
      else
        ret ← trig (EVP_DigestInit_ex mdctx m);
        _ ← check_ssl ret;
        _ ← for_each (pcrs pcrSet) (fun pcr =>
              ret ← trig (EVP_DigestUpdate mdctx (digest pcr)); check_ssl ret);
        '(ret, out) ← trig (EVP_DigestFinal_ex mdctx);
        _ ← check_ssl ret;
        mret out
  end.

(** [std::copy(..., std::back_inserter(pcrSet.pcrs[first + i].digest))] for each digest. *)
Fixpoint append_digests (l : list PcrValue) (first : nat) (ds : list bytes) : outcome (list PcrValue) :=
  match ds with
  | [] => mret l
  | d :: ds' =>
      match l !! first with
      | None => Fault UndefinedBehaviour
      | Some p =>
          append_digests (<[first := {| index := index p; digest := digest p ++ d |}]> l)
            (Datatypes.S first) ds'
      end
  end.

(** What is left to read, and the sum of the octets left. *)
Definition clear_octets (want got : list Z) (sizeofSelect : Z) : outcome (list Z * Z) :=
  let n := Z.to_nat sizeofSelect in
  if Z.of_nat (length want) <? sizeofSelect then Fault UndefinedBehaviour
  else
    let cleared := zip_with (fun w g => Z.ldiff w g) (take n want) (take n (got ++ replicate n 0)) in
    mret (cleared ++ drop n want, foldr Z.add 0 cleared).

Fixpoint pcr_read_loop (n : nat) (sel : pcr_selection) (l : list PcrValue) (count : nat) (maskSum : Z)
  : M F S (list PcrValue) :=
  match n with
  | O => fault_with OutOfFuel
  | Datatypes.S n' =>
      '(ret, out) ← trig (Esys_PCR_Read sel);
      _ ← check ret "Unable to read PCRs";
      match out with
      | Some (pcrSel, (_ :: _) as vals) =>
          l ← lift (append_digests l count vals);
          '(octets, maskSum) ←
            lift (clear_octets (pcrSelect sel) (pcrSelect pcrSel) (sizeofSelect pcrSel));
          let sel := {| sel_hash := sel_hash sel; sizeofSelect := sizeofSelect sel;
                        pcrSelect := octets |} in
          if maskSum =? 0 then mret l
          else pcr_read_loop n' sel l (count + length vals) maskSum
      | _ => if maskSum =? 0 then mret l else pcr_read_loop n' sel l count maskSum
      end
  end.

Definition PopulateCurrentPcrs (pcrSet : PcrSet) : M F S PcrSet :=
  selection ← GetTssPcrSelection pcrSet (hashAlg pcrSet);
  l ← pcr_read_loop fuel selection (pcrs pcrSet) 0 0;
  mret {| hashAlg := hashAlg pcrSet; pcrs := l |}.

Definition FlushObjectContext (h : ESYS_TR) : M F S unit :=
  ret ← trig (Esys_FlushContext h);
  check ret "Failed to flush context of the object".

End Util.
End TpmUtil.

(** ** Tss2Session.cpp

    The handle of a session is the local state of the scope that declares it. *)
Module TpmSession.
Section Session.
Context {F : Type -> Type} {S : Type} `{Handler F S} `{EsysCall -< F}.
Notation MS := (M F (S * Z)).

Definition check_s (ret : Z) (desc : string) : MS unit :=
  require (ret =? TSS2_RC_SUCCESS) (tss2_exception desc ret).
(** The library stores the handle before the result is looked at. *)
Definition Start (sessionType : Z) : MS unit :=
  '(ret, h) ← trig (Esys_StartAuthSession sessionType);
  _ ← put_local h;
  check_s ret "Failed to start auth session".
Definition Flush : MS unit :=
  h ← get_local;
  if h =? 0 then mret tt
  else ret ← trig (Esys_FlushContext h);
       _ ← check_s ret "Tss2Session failed to flush ESYS context";
       put_local 0.
Definition Restart (sessionType : Z) : MS unit := _ ← Flush; Start sessionType.
Definition PolicySecret (authority : ESYS_TR) : MS unit :=
  h ← get_local;
  ret ← trig (Esys_PolicySecret authority h);
  check_s ret "Tss2Session failed to set policy secret".
Definition PolicyPcr (d : bytes) (sel : pcr_selection) : MS unit :=
  h ← get_local;
  ret ← trig (Esys_PolicyPCR h d sel);
  check_s ret "Tss2Session failed to set policy pcr".
Definition PolicyCommandCode (command : Z) : MS unit :=
  h ← get_local;
  ret ← trig (Esys_PolicyCommandCode h command);
  check_s ret "Tss2Session failed to set policy command code".
Definition PolicyAuthValue : MS unit :=
  h ← get_local;
  ret ← trig (Esys_PolicyAuthValue h);
  check_s ret "Tss2Session failed to set policy auth value".
Definition GetDigest : MS bytes :=
  h ← get_local;
  '(ret, d) ← trig (Esys_PolicyGetDigest h);
  _ ← check_s ret "Tss2Session failed to get policy digest";
  mret d.
Definition GetHandle : MS ESYS_TR := get_local.

(** [~Tss2Session] is [Flush] of the handle left; a destructor must not throw. *)
Definition destructor (h : Z) : M F S unit :=
  if h =? 0 then mret tt
  else ret ← trig (Esys_FlushContext h);
       require (ret =? TSS2_RC_SUCCESS)
               (tss2_exception "Tss2Session failed to flush ESYS context" ret).

(** [Tss2Session session(ctx); body] *)
Definition with_session {A} (body : MS A) : M F S A := scoped 0 body destructor.
End Session.
End TpmSession.

(** ** Tss2Wrapper.cpp, Tss2Ctx.cpp and the keys of Tss2Util.cpp *)
Module GuestTpm.
Import TpmUtil TpmSession.

Definition RsaNull : Z := 0x0010.
Definition RsaEs : Z := 0x0015.
Definition RsaOaep : Z := 0x0017.
Definition RsaSha1 : Z := 0x0004.
Definition RsaSha256 : Z := 0x000B.
Definition RsaSha384 : Z := 0x000C.
Definition RsaSha512 : Z := 0x000D.

Definition TCG_LOG_PATH : bytes := str "/sys/kernel/security/tpm0/binary_bios_measurements".
Definition FileNotFound : exn := runtime_error "File not found".
Definition TPM20_VERSION_STRING : Z := 0x00322e3000.
Definition TPM12_VERSION_STRING : Z := 0x00312e3200.

Section Tpm.
Context {F : Type -> Type} {S : Type} `{Handler F S} `{EsysCall -< F} `{OsslCall -< F}
        `{FileCall -< F} `{Fuel}.

(** *** Contexts (Tss2Ctx.cpp), as [Tss2_Tcti_Device_Init] connects them *)

Definition InitializeTcti : M F S unit :=
  '(ret, sz) ← trig Tss2_Tcti_Device_Init_size;
  _ ← check ret "Failed to get TCTI context size";
  ret ← trig (Tss2_Tcti_Device_Init sz);
  check ret "Failed to initialize TCTI context".

(** [std::make_unique<Tss2Ctx>()], the body, and [~Tss2Ctx], which has nothing to
    finalize when the constructor threw. *)
Definition with_Tss2Ctx {A} (body : M F S A) : M F S A :=
  _ ← InitializeTcti;
  ret ← trig Esys_Initialize;
  _ ← check ret "Failed to initialize TSS context";
  finally body (trig Esys_Finalize).

(** *** Keys bound to the PCRs (Tss2Util.cpp) *)

Definition GetEphemeralKeyPolicyDigest (pcrSet : PcrSet) : M F S bytes :=
  pcrDigest ← GeneratePcrDigest pcrSet (hashAlg pcrSet);
  pcrSelection ← GetTssPcrSelection pcrSet (hashAlg pcrSet);
  with_session (
    _ ← Start TPM2_SE_TRIAL;
    _ ← PolicyPcr pcrDigest pcrSelection;
    GetDigest).

Definition PopulateEphemeralKeyPublicTemplate (pcrSet : PcrSet) (inPub : TPM2B_PUBLIC)
  : M F S TPM2B_PUBLIC :=
  policyDigest ← GetEphemeralKeyPolicyDigest pcrSet;
  mret {| type_ := TPM2_ALG_RSA;
          nameAlg := TPM2_ALG_SHA256;
          objectAttributes :=
            Z.lor TPMA_OBJECT_DECRYPT (Z.lor TPMA_OBJECT_FIXEDTPM (Z.lor TPMA_OBJECT_FIXEDPARENT
              (Z.lor TPMA_OBJECT_SENSITIVEDATAORIGIN TPMA_OBJECT_NODA)));
          authPolicy := policyDigest;
          sym_algorithm := TPM2_ALG_NULL; sym_keyBits := sym_keyBits inPub;
          sym_mode := sym_mode inPub;
          scheme_alg := TPM2_ALG_NULL;
          keyBits := 2048;
          exponent := 0;
          rsa_buffer := rsa_buffer inPub;
          rsa_size := 256 |}.

Definition CreateEphemeralKey (pcrSet : PcrSet) : M F S (ESYS_TR * TPM2B_PUBLIC) :=
  inPub ← PopulateEphemeralKeyPublicTemplate pcrSet zero_public;
  '(ret, (primaryHandle, outPub)) ← trig (Esys_CreatePrimary ESYS_TR_RH_NULL inPub);
  _ ← check ret "Failed to create Ephemeral Key";
  mret (primaryHandle, outPub).

(** *** Endorsement and attestation keys *)

Definition GetEkNvCert : M F S bytes := NvRead EK_CERT_INDEX.

Definition CheckAndMarshalEkPub (pub : TPM2B_PUBLIC) : M F S bytes :=
  '(ret, ekPub) ← trig (MU_TPM2B_PUBLIC_Marshal pub);
  _ ← check ret "Failed to marshal TPM2B_PUBLIC";
  mret ekPub.

Definition GetEkPubWithoutPersisting : M F S bytes :=
  pub ← GenerateEk;
  CheckAndMarshalEkPub pub.

(** [catch (std::exception&)] *)
Definition GetEkPub : M F S bytes :=
  try_catch (GetPublicObject EK_PUB_INDEX)
    (fun e => if is_std_exception e
              then Some (pub ← GenerateAndPersistEk; CheckAndMarshalEkPub pub)
              else None).

Definition RemovePersistentEk : M F S unit :=
  '(ret, nvHandle) ← trig (Esys_TR_FromTPMPublic EK_PUB_INDEX);
  finally (
    if negb (ret =? TSS2_RC_SUCCESS) then mret tt
    else
      '(ret, tmpHandle) ← trig (Esys_EvictControl ESYS_TR_RH_OWNER nvHandle EK_PUB_INDEX);
      finally (check ret "Couldn't remove persistent handle") (close_handle tmpHandle))
    (close_handle nvHandle).

Definition GetAIKCert : M F S bytes := NvRead AIK_CERT_INDEX.
Definition GetAIKPub : M F S bytes := GetPublicObject AIK_PUB_INDEX.
Definition GetHCLReport : M F S bytes := NvRead HCL_REPORT_INDEX.

(** [int size] and the [UINT16] size of the space. *)
Definition WriteAikCert (aikCert : bytes) : M F S unit :=
  _ ← NvUndefineSpace AIK_CERT_INDEX;
  _ ← NvDefineSpace AIK_CERT_INDEX (s32 (size aikCert));
  NvWrite AIK_CERT_INDEX aikCert.

(** *** PCRs, quotes, the TCG log and the version *)

Definition select (l : list Z) (a : HashAlg) : PcrSet :=
  {| hashAlg := a; pcrs := map (fun i => {| index := i; digest := [] |}) l |}.

Definition GetPCRQuote (l : list Z) (a : HashAlg) : M F S PcrQuote :=
  HandleToEsys AIK_PUB_INDEX (fun signHandle =>
    pcrSelect ← GetTssPcrSelection (select l a) a;
    '(ret, out) ← trig (Esys_Quote signHandle pcrSelect);
    _ ← check ret "Failed to quote PCRs";
    match out with
    | None => throw (runtime_error "Failed to quote PCRs")
    | Some (quotePtr, sigPtr) =>
        '(ret, quote) ← trig (MU_TPM2B_ATTEST_Marshal quotePtr);
        _ ← check ret "Failed to marshal TPMT_SIGNATURE";
        '(ret, signature) ← trig (MU_TPMT_SIGNATURE_Marshal sigPtr);
        _ ← check ret "Failed to marshal TPMT_SIGNATURE";
        mret {| quote := quote; quote_signature := signature |}
    end).

Definition GetPCRValues (l : list Z) (a : HashAlg) : M F S PcrSet :=
  PopulateCurrentPcrs (select l a).

Definition GetTcgLogFromFile (fname : bytes) : M F S bytes :=
  log ← trig (ReadFile fname);
  match log with Some log => mret log | None => throw FileNotFound end.
Definition GetTcgLog : M F S bytes := GetTcgLogFromFile TCG_LOG_PATH.

Definition GetVersion : M F S TpmVersion :=
  '(ret, caps) ← trig (Esys_GetCapability TPM2_PT_FAMILY_INDICATOR);
  _ ← check ret "Esys_GetCapability failed";
  match caps with
  | (property, value) :: _ =>
      if property =? TPM2_PT_FAMILY_INDICATOR then
        if value =? TPM20_VERSION_STRING then mret V2_0
        else if value =? TPM12_VERSION_STRING then mret V1_2
        else throw (runtime_error "Invalid TPM version string")
      else throw (runtime_error "Could not find TPM version")
  | [] => throw (runtime_error "Could not find TPM version")
  end.

End Tpm.

(** *** Unsealing

    The body of [UnsealInternal] runs with its session, so in a state that has the
    session's handle. *)
Section Unseal.
Context {F : Type -> Type} {S : Type} `{Handler F S} `{EsysCall -< F} `{OsslCall -< F} `{Fuel}.
Notation MS := (M F (S * Z)).

Definition import_object (keyHandle : ESYS_TR) (inPub : TPM2B_PUBLIC) (inPriv seed : bytes)
  : MS bytes :=
  _ ← Start TPM2_SE_POLICY;
  _ ← PolicySecret ESYS_TR_RH_ENDORSEMENT;
  h ← GetHandle;
  '(ret, outPriv) ← trig (Esys_Import keyHandle h inPub inPriv seed);
  _ ← check_s ret "Failed to import encrypted data";
  mret outPriv.

Definition unseal_session (pcrSet : PcrSet) (a : HashAlg) (usePcrAuth : bool) : MS ESYS_TR :=
  if usePcrAuth then
    pcrDigest ← GeneratePcrDigest pcrSet a;
    pcrSelection ← GetTssPcrSelection pcrSet (hashAlg pcrSet);
    _ ← Restart TPM2_SE_POLICY;
    _ ← PolicyPcr pcrDigest pcrSelection;
    GetHandle
  else mret ESYS_TR_PASSWORD.

Definition UnsealInternal (keyHandle : ESYS_TR) (importablePublic importablePrivate
    encryptedSeed : bytes) (pcrSet : PcrSet) (a : HashAlg) (usePcrAuth : bool) : M F S bytes :=
  '(ret, inPub) ← trig (MU_TPM2B_PUBLIC_Unmarshal importablePublic);
  _ ← check ret "Failed to unmarshal TPM2B_PUBLIC";
  '(ret, inPriv) ← trig (MU_TPM2B_PRIVATE_Unmarshal importablePrivate);
  _ ← check ret "Failed to unmarshal TPM2B_PRIVATE";
  '(ret, seed) ← trig (MU_TPM2B_ENCRYPTED_SECRET_Unmarshal encryptedSeed);
  _ ← check ret "Failed to unmarshal TPM2B_ENCRYPTED_SECRET";
  with_session (
    outPriv ← import_object keyHandle inPub inPriv seed;
    _ ← Restart TPM2_SE_POLICY;
    _ ← PolicySecret ESYS_TR_RH_ENDORSEMENT;
    h ← GetHandle;
    '(ret, loadedData) ← trig (Esys_Load keyHandle h outPriv inPub);
    finally (
      _ ← check_s ret "Failed to load encrypted data";
      authSession ← unseal_session pcrSet a usePcrAuth;
      '(ret, outData) ← trig (Esys_Unseal loadedData authSession);
      _ ← check_s ret "Failed to Unseal encrypted data";
      mret outData)
    (close_handle loadedData)).

Definition UnsealWithEkFromSpec (importablePublic importablePrivate encryptedSeed : bytes)
    (pcrSet : PcrSet) (a : HashAlg) (usePcrAuth : bool) : M F S bytes :=
  '(ekHandle, _) ← GenerateEkFromSpec false;
  unsealedData ← UnsealInternal ekHandle importablePublic importablePrivate encryptedSeed
                   pcrSet a usePcrAuth;
  _ ← FlushObjectContext ekHandle;
  mret unsealedData.

Definition Unseal (importablePublic importablePrivate encryptedSeed : bytes)
    (pcrSet : PcrSet) (a : HashAlg) (usePcrAuth : bool) : M F S bytes :=
  HandleToEsys EK_PUB_INDEX (fun ekHandle =>
    UnsealInternal ekHandle importablePublic importablePrivate encryptedSeed pcrSet a usePcrAuth).

(** *** Unpacking marshalled structures *)

Definition UnpackAiKPubToRSA (aikPubMarshaled : bytes) : M F S bytes :=
  '(ret, pub) ← trig (MU_TPM2B_PUBLIC_Unmarshal aikPubMarshaled);
  _ ← check ret "Failed to unmarshal AikPub";
  mret (take (Z.to_nat (rsa_size pub)) (rsa_buffer pub)).

Definition UnpackPcrQuoteToRSA (marshaled : PcrQuote) : M F S PcrQuote :=
  '(ret, q) ← trig (MU_TPM2B_ATTEST_Unmarshal (quote marshaled));
  _ ← check ret "Failed to unmarshal PcrQuote";
  '(ret, sig) ← trig (MU_TPMT_SIGNATURE_Unmarshal (quote_signature marshaled));
  _ ← check ret "Failed to unmarshal PcrSignature";
  mret {| quote := q; quote_signature := sig |}.

(** *** Certified and ephemeral keys *)

Definition GetCertifiedKeyAndFlushHandle (pub : TPM2B_PUBLIC) (primaryHandle : ESYS_TR)
  : M F S EphemeralKey :=
  HandleToEsys AIK_PUB_INDEX (fun signHandle =>
    '(ret, (certifyInfo, signature)) ← trig (Esys_Certify primaryHandle signHandle);
    _ ← (if ret =? TSS2_RC_SUCCESS then mret tt
         else _ ← FlushObjectContext primaryHandle;
              throw (tss2_exception "Failed to certify ephemeral key" ret));
    _ ← FlushObjectContext primaryHandle;
    '(ret, keyPub) ← trig (MU_TPM2B_PUBLIC_Marshal pub);
    _ ← check ret "Failed to marshal TPM2B_PUBLIC";
    mret {| encryptionKey := keyPub; certifyInfo := certifyInfo;
            certifyInfoSignature := signature |}).

Definition GetEphemeralKey (pcrSet : PcrSet) : M F S EphemeralKey :=
  '(primaryHandle, pub) ← CreateEphemeralKey pcrSet;
  GetCertifiedKeyAndFlushHandle pub primaryHandle.

Definition GetEkPubWithCertification : M F S EphemeralKey :=
  '(primaryHandle, pub) ← GenerateEkFromSpec false;
  GetCertifiedKeyAndFlushHandle pub primaryHandle.

(** [try { ... } catch (...) { Flush; throw; }] around the start of the session. *)
Definition start_pcr_session (pcrSet : PcrSet) (primaryHandle : ESYS_TR) : MS unit :=
  try_all (
      pcrDigest ← GeneratePcrDigest pcrSet (hashAlg pcrSet);
      pcrSelection ← GetTssPcrSelection pcrSet (hashAlg pcrSet);
      _ ← Start TPM2_SE_POLICY;
      PolicyPcr pcrDigest pcrSelection)
    (fun e => _ ← FlushObjectContext primaryHandle; throw e).

Definition DecryptWithEphemeralKey (pcrSet : PcrSet) (encryptedBlob : bytes)
    (rsaWrapAlgId rsaHashAlgId : Z) : M F S bytes :=
  '(primaryHandle, _) ← CreateEphemeralKey pcrSet;
  with_session (
    _ ← start_pcr_session pcrSet primaryHandle;
    _ ← (if TPM2_MAX_RSA_KEY_BYTES <? size encryptedBlob then
           _ ← FlushObjectContext primaryHandle;
           throw (runtime_error "Encrypted data size larger than Max RSA key size")
         else mret tt);
    h ← GetHandle;
    '(ret, decrypted) ← trig (Esys_RSA_Decrypt primaryHandle h encryptedBlob
                                {| scheme := rsaWrapAlgId; oaep_hashAlg := rsaHashAlgId |});
    _ ← (if ret =? TSS2_RC_SUCCESS then mret tt
         else _ ← FlushObjectContext primaryHandle;
              throw (tss2_exception "Failed to decrypt message" ret));
    _ ← FlushObjectContext primaryHandle;
    mret decrypted).

End Unseal.
End GuestTpm.
