(* ===== verification/Digest.v ===== *)
(** * Message digests

    What the digest contexts of OpenSSL promise ([DigestLaws]): a context that was
    initialised and updated finishes with the digest of the concatenation of the
    updates. Clients of [Hkdf.OsslSha] and of the PCR digest are proved against it;
    [digest_sim] keeps the laws. *)

From S2P Require Import Prelude Ossl Jwt Esys GuestTpm.
#[local] Open Scope Z_scope.

Class DigestLaws (F : Type -> Type) (S : Type) `{Handler F S} `{OsslCall -< F} := {
  acc : S -> ptr -> option (md * bytes);
  hash_of : md -> bytes -> bytes;
  md_new s : exists c s', handle (inj EVP_MD_CTX_new) s = (c, s') /\ is_null c = false;
  md_init s c m : exists s', handle (inj (EVP_DigestInit_ex c m)) s = (1, s') /\
    acc s' c = Some (m, []);
  md_update s c m d x : acc s c = Some (m, d) ->
    exists s', handle (inj (EVP_DigestUpdate c x)) s = (1, s') /\ acc s' c = Some (m, d ++ x);
  md_final s c m d : acc s c = Some (m, d) ->
    exists s', handle (inj (EVP_DigestFinal_ex c)) s = ((1, hash_of m d), s') }.

Section Digest.
Context {F : Type -> Type} {S : Type} `{Handler F S} `{OsslCall -< F} `{!DigestLaws F S}.

Lemma wp_answer {R} (e : OsslCall R) s r s' (Q : post_cond F S R) :
  handle (inj e) s = (r, s') -> Q (Ret r) s' [Ev (inj e) r] -> wp (trig e) s Q.
Proof. intros He HQ. apply wp_trig. rewrite He. by intros ?? [= <- <-]. Qed.

Lemma wp_OsslSha s d n m (Q : post_cond F S bytes) :
  Hkdf.hash_md n = Some m -> (forall s' t, Q (Ret (hash_of m d)) s' t) ->
  wp (Hkdf.OsslSha d n) s Q.
Proof.
  intros Hn HQ. unfold Hkdf.OsslSha. rewrite Hn. apply wp_bind.
  destruct (md_new s) as (c & s1 & E1 & _). eapply wp_answer; [exact E1|]. simpl. apply wp_bind.
  destruct (md_init s1 c m) as (s2 & E2 & A2). eapply wp_answer; [exact E2|]. simpl.
  apply wp_bind, wp_ret, wp_bind.
  destruct (md_update s2 c m [] d A2) as (s3 & E3 & A3). eapply wp_answer; [exact E3|]. simpl.
  apply wp_bind, wp_ret, wp_bind.
  destruct (md_final s3 c m d A3) as (s4 & E4). eapply wp_answer; [exact E4|]. simpl.
  apply wp_bind, wp_ret, wp_ret. apply HQ.
Qed.

Lemma wp_updates c m (l : list PcrValue) : forall s d (Q : post_cond F S unit),
  acc s c = Some (m, d) ->
  (forall s' t, acc s' c = Some (m, d ++ concat (map digest l)) -> Q (Ret tt) s' t) ->
  wp (for_each l (fun pcr => ret ← trig (EVP_DigestUpdate c (digest pcr)); TpmUtil.check_ssl ret)) s Q.
Proof.
  induction l as [|p l IH]; intros s d Q Ha HQ; simpl.
  - apply wp_ret, HQ. by rewrite app_nil_r.
  - apply wp_bind. destruct (md_update s c m d (digest p) Ha) as (s' & E & A).
    apply wp_bind. eapply wp_answer; [exact E|]. simpl. apply wp_ret.
    eapply IH; [exact A|]. intros s2 t Hs2. apply HQ. simpl. by rewrite app_assoc.
Qed.

Lemma wp_GeneratePcrDigest s pcrSet a m (Q : post_cond F S bytes) :
  TpmUtil.GetOpenSslAlg a = Some m ->
  (forall s' t, Q (Ret (hash_of m (concat (map digest (pcrs pcrSet))))) s' t) ->
  wp (TpmUtil.GeneratePcrDigest pcrSet a) s Q.
Proof.
  intros Hm HQ. unfold TpmUtil.GeneratePcrDigest. rewrite Hm. apply wp_bind.
  destruct (md_new s) as (c & s1 & E1 & Hc). eapply wp_answer; [exact E1|]. simpl. rewrite Hc.
  apply wp_bind. destruct (md_init s1 c m) as (s2 & E2 & A2). eapply wp_answer; [exact E2|]. simpl.
  apply wp_bind, wp_ret, wp_bind. eapply wp_updates; [exact A2|]. intros s3 t3 A3.
  apply wp_bind. destruct (md_final s3 c m _ A3) as (s4 & E4). eapply wp_answer; [exact E4|]. simpl.
  apply wp_bind, wp_ret, wp_ret. apply HQ.
Qed.
End Digest.

(** One context, numbered 1; the digest is the data, cut or padded to the size. *)
Definition md_size (m : md) : nat :=
  match m with SHA1 => 20 | SHA256 => 32 | SHA384 => 48 | SHA512 => 64 end%nat.
Definition pad_hash (m : md) (d : bytes) : bytes := take (md_size m) (d ++ replicate (md_size m) x00).
Definition digest_state := option (md * bytes).
#[export] Instance digest_sim : Handler OsslCall digest_state := fun R e s =>
  match e in OsslCall T return T * digest_state with
  | EVP_MD_CTX_new => (1%N, s)
  | EVP_DigestInit_ex _ m => (1, Some (m, []))
  | EVP_DigestUpdate _ x =>
      match s with Some (m, d) => (1, Some (m, d ++ x)) | None => (0, None) end
  | EVP_DigestFinal_ex _ =>
      match s with Some (m, d) => ((1, pad_hash m d), None) | None => ((0, []), None) end
  | e => (ossl_accept [] _ e, s)
  end.
#[export] Program Instance digest_sim_laws : DigestLaws OsslCall digest_state :=
  {| acc := fun s _ => s; hash_of := pad_hash |}.
Next Obligation. intros s. by exists 1%N, s. Qed.
Next Obligation. intros s c m. by eexists. Qed.
Next Obligation. intros s c m d x Hs. simpl in Hs. subst s. by eexists. Qed.
Next Obligation. intros s c m d Hs. simpl in Hs. subst s. by eexists. Qed.
