(* ===== verification/SecretSpec.v ===== *)
(** * What the release of a secret computes

    A message of the provisioning service is opened with the guest key of the TPM, AES-GCM, P-256
    and HKDF: [open_message] says so as a function on bytes, over the algorithms ([Crypto]) and
    the guest key ([rsa_open]). [linux_release_refines]: [decrypt_secret] with the OpenSSL wrappers
    computes that function; WinSecretsFacts.v proves the same of the Windows wrappers. *)

From S2P Require Import Prelude Base64 ReturnCodes Json Ossl Bcrypt BcryptFacts Jwt Policy Esys SecretsTpm Secrets GuestTpm Digest.
#[local] Open Scope Z_scope.

(** ** The specification *)

(** A PKCS#8 key: the number, and the point if the encoding has it. *)
Record ec_private_key := { number : bytes; point : option (bytes * bytes) }.
(** AES-256-GCM ([gcm_ctr]: text and ciphertext under key and nonce; [gcm_mac]: the tag of a
    ciphertext), SHA-256, HMAC-SHA256, and P-256 with its encodings. *)
Class Crypto := {
  gcm_ctr : bytes -> bytes -> bytes -> bytes;
  gcm_mac : bytes -> bytes -> bytes -> bytes;
  sha256_of : bytes -> bytes;
  hmac256 : bytes -> bytes -> bytes;
  parse_private : bytes -> option ec_private_key;
  parse_public : bytes -> option (bytes * bytes);
  agree : bytes -> bytes * bytes -> bytes }.
Class CryptoLaws `{Crypto} : Prop := {
  gcm_ctr_size k n d : size (gcm_ctr k n d) = size d;
  hmac256_size k d : size (hmac256 k d) = 32 }.

(** The decoded fields of the claims. *)
Record message := {
  salt : bytes; dataNonce : bytes; keyNonce : bytes; wrappedAesTransportKey : bytes;
  encryptedSecret : bytes; encryptedGuestEcdhPrivateKey : bytes; ephemeralEcdhPublicKey : bytes }.
Definition read_message `{BoostBase64, BoostString, NlohmannJson} (claims : json) : outcome message :=
  salt ← Secrets.claim_bytes claims "salt";
  dataNonce ← Secrets.claim_bytes claims "dataNonce";
  keyNonce ← Secrets.claim_bytes claims "keyNonce";
  wrapped ← Secrets.claim_bytes claims "wrappedAesTransportKey";
  secret ← Secrets.claim_bytes claims "encryptedSecret";
  private ← Secrets.claim_bytes claims "encryptedGuestEcdhPrivateKey";
  public ← Secrets.claim_bytes claims "ephemeralEcdhPublicKey";
  Ret {| salt := salt; dataNonce := dataNonce; keyNonce := keyNonce; wrappedAesTransportKey := wrapped;
         encryptedSecret := secret; encryptedGuestEcdhPrivateKey := private; ephemeralEcdhPublicKey := public |}.

Section Spec.
Context `{Crypto} (rsa_open : rsa_scheme -> bytes -> option bytes).

(** The last 16 bytes are the tag. *)
Definition gcm_open (k n c : bytes) : option bytes :=
  let ct := take (length c - 16) c in
  if (16 <=? size c) && bool_decide (drop (length c - 16) c = gcm_mac k n ct)
  then Some (gcm_ctr k n ct) else None.
Definition nonempty (b : bytes) : option bytes := match b with [] => None | _ => Some b end.
(** The private key of the guest that a message carries. *)
Definition open_private (sch : rsa_scheme) (m : message) : option bytes :=
  k ← rsa_open sch (wrappedAesTransportKey m) ≫= nonempty;
  gcm_open k (keyNonce m) (encryptedGuestEcdhPrivateKey m) ≫= nonempty.
(** The key of the secret is bound to the machine by its UUID. *)
Definition open_message (sch : rsa_scheme) (uuid : bytes) (m : message) : option bytes :=
  d ← open_private sch m ≫= parse_private;
  q ← parse_public (ephemeralEcdhPublicKey m);
  gcm_open (rfc_hkdf hmac256 (salt m) (sha256_of (agree (number d) q)) uuid 32) (dataNonce m) (encryptedSecret m)
    ≫= nonempty.

(** A status and data carry out the specification: 0 with the secret, or a failure without data. *)
Definition carries_out (r : Z * bytes) (spec : option bytes) : Prop :=
  match spec with Some p => r = (0, p) | None => failure (fst r) /\ snd r = [] end.
End Spec.

(** The sizes of AES-256-GCM: nonces of 12 bytes, a transport key of 32, texts below 2 GiB, and what
    the TPM takes. *)
Record message_sizes (rsa_open : rsa_scheme -> bytes -> option bytes) (sch : rsa_scheme) (m : message) : Prop := {
  wrapped_fits : size (wrappedAesTransportKey m) <= TPM2_MAX_RSA_KEY_BYTES;
  transport_key : forall k, rsa_open sch (wrappedAesTransportKey m) = Some k -> k = [] \/ size k = 32;
  data_nonce : size (dataNonce m) = 12;
  key_nonce : size (keyNonce m) = 12;
  private_fits : size (encryptedGuestEcdhPrivateKey m) + 16 < 2 ^ 31;
  secret_fits : size (encryptedSecret m) + 16 < 2 ^ 31 }.

Lemma failure_unknown : failure (error_code UnknownError).
Proof. by apply failure_code. Qed.

Lemma gcm_open_size `{CryptoLaws} k n c p : gcm_open k n c = Some p -> size p = size c - 16.
Proof.
  unfold gcm_open. destruct (16 <=? size c) eqn:E; [|done]. apply Z.leb_le in E. cbn [andb].
  case_bool_decide; [|done]. intros [= <-]. rewrite gcm_ctr_size. unfold size in *. rewrite length_take. lia.
Qed.

Lemma open_message_size `{CryptoLaws} rsa_open sch uuid m p :
  open_message rsa_open sch uuid m = Some p -> size p = size (encryptedSecret m) - 16.
Proof.
  unfold open_message. intros (d & _ & (q & _ & (p' & Hp & Hn)%bind_Some)%bind_Some)%bind_Some.
  destruct p'; [done|]. injection Hn as <-. by apply gcm_open_size in Hp.
Qed.

(** ** The TPM with a guest key *)

(** A TPM that works and holds the key of which [rsa_open] is the decryption. *)
Class GuestKeyLaws (F : Type -> Type) (S : Type) `{Handler F S} `{EsysCall -< F}
    (rsa_open : rsa_scheme -> bytes -> option bytes) := {
  guest_key : ESYS_TR -> Prop;
  tcti_size s : exists n, fst (handle (inj Tss2_Tcti_Device_Init_size) s) = (0, n);
  tcti_init s n : fst (handle (inj (Tss2_Tcti_Device_Init n)) s) = 0;
  esys_init s : fst (handle (inj Esys_Initialize) s) = 0;
  from_public s : exists h, guest_key h /\
    fst (handle (inj (Esys_TR_FromTPMPublic SecretsTpm.KEYHANDLE)) s) = (0, h);
  set_auth s h a : fst (handle (inj (Esys_TR_SetAuth h a)) s) = 0;
  rsa_decrypt s h x c sch : guest_key h ->
    let r := fst (handle (inj (Esys_RSA_Decrypt h x c sch)) s) in
    match rsa_open sch c with Some p => r = (0, p) | None => fst r <> 0 end }.

Section Tpm.
Context {F : Type -> Type} {S : Type} `{Handler F S} `{EsysCall -< F}.
Context {rsa_open : rsa_scheme -> bytes -> option bytes} `{!GuestKeyLaws F S rsa_open} {X : exn -> Prop}.

Lemma meets_check r w c s (Q : unit -> S -> Prop) :
  (r = 0 -> Q tt s) -> (r <> 0 -> X (TpmErr r (str w) (error_code c))) ->
  meets (SecretsTpm.check (F := F) r w c) s Q X.
Proof. intros HQ HX. apply meets_require; [intros E%Z.eqb_eq; auto|intros E%Z.eqb_neq; auto]. Qed.

Lemma meets_new_TssCtx s (Q : unit -> S -> Prop) :
  (forall s', Q tt s') -> meets (SecretsTpm.new_TssCtx (F := F)) s Q X.
Proof.
  intros HQ. unfold SecretsTpm.new_TssCtx, SecretsTpm.InitializeTcti. apply meets_bind.
  destruct (tcti_size s) as (n & Hn). eapply meets_answer; [exact Hn|]. intros s1.
  apply meets_bind, meets_check; [intros _|done]. eapply meets_answer; [apply tcti_init|]. intros s2.
  apply meets_check; [intros _|done]. eapply meets_answer; [apply esys_init|]. intros s3. by apply meets_check.
Qed.
Lemma meets_TssCtx {A} (m : M F S A) s (Q : A -> S -> Prop) :
  (forall a s1 s2, Q a s1 -> Q a s2) -> (forall s', meets m s' Q X) -> meets (SecretsTpm.with_TssCtx m) s Q X.
Proof.
  intros HQ Hm. apply meets_bind, meets_new_TssCtx. intros s1. apply meets_finally; [|done|apply Hm].
  intros s2. by eapply delivers_answer.
Qed.
Lemma meets_RsaDecrypt c sch s (Q : bytes -> S -> Prop) :
  size c <= TPM2_MAX_RSA_KEY_BYTES ->
  match rsa_open (SecretsTpm.MakeRsaScheme sch) c with
  | Some p => forall s', Q p s'
  | None => forall r, r <> 0 -> X (TpmErr r (str "Failed to Decrypt data") (error_code CryptographyError_TpmRsa_decryptError))
  end -> meets (SecretsTpm.RsaDecrypt c sch) s Q X.
Proof.
  intros Hc HQ. unfold SecretsTpm.RsaDecrypt, SecretsTpm.Tss2RsaDecrypt, SecretsTpm.copy_to_rsa_buffer.
  eapply meets_answer; [apply set_auth|]. intros s1. apply meets_bind, meets_check; [intros _|done].
  destruct (from_public s1) as (h & Hh & E). eapply meets_answer; [exact E|]. intros s2. cbn beta iota.
  apply meets_bind, meets_check; [intros _|done]. eapply meets_answer; [apply set_auth|]. intros s3.
  apply meets_bind, meets_check; [intros _|done]. rewrite (proj2 (Z.ltb_ge _ _)) by done.
  apply meets_bind, meets_ret. pose proof (rsa_decrypt s3 h ESYS_TR_PASSWORD c (SecretsTpm.MakeRsaScheme sch) Hh) as Hr.
  cbn zeta in Hr. eapply meets_answer; [reflexivity|]. intros s4.
  destruct (fst (handle _ s3)) as [r p]. cbn beta iota.
  destruct (rsa_open _ c) as [p'|]; cbn [fst] in Hr.
  - injection Hr as -> ->. apply meets_bind, meets_check; [intros _|done]. apply meets_ret, HQ.
  - apply meets_bind, meets_check; [done|]. intros _. by apply HQ.
Qed.
End Tpm.

(** ** OpenSSL *)

(** How far a cipher context and a derivation context have come. *)
Inductive cipher_stage := NoCipher | Cipher | WithIv (n : Z) | Keyed (k iv ct : bytes) (tag : option bytes).
Inductive derive_stage := NoDerive | HkNew | Hk (k salt info : bytes) | EcNew (key : ptr) | EcInit (key : ptr) | EcPeer (key peer : ptr).
(** [key_number] and [key_point] are what the handle of a key stands for. *)
Class OsslCryptoLaws (F : Type -> Type) (S : Type) `{Handler F S} `{OsslCall -< F} `{!DigestLaws F S} `{Crypto} := {
  cipher : S -> ptr -> cipher_stage;
  derivation : S -> ptr -> derive_stage;
  key_number : ptr -> bytes;
  key_point : ptr -> bytes * bytes;
  foreign_key : bytes -> Prop;
  sha_is d : hash_of SHA256 d = sha256_of d;
  cipher_new s : exists c, fst (handle (inj EVP_CIPHER_CTX_new) s) = c /\ is_null c = false;
  dec_init s c : is_null c = false -> exists s', handle (inj (EVP_DecryptInit_gcm c)) s = (1, s') /\ cipher s' c = Cipher;
  dec_ivlen s c n : cipher s c = Cipher -> 0 < n ->
    exists s', handle (inj (EVP_CTRL_GCM_SET_IVLEN c n)) s = (1, s') /\ cipher s' c = WithIv n;
  dec_key s c k iv : cipher s c = WithIv (size iv) -> size k = 32 ->
    exists s', handle (inj (EVP_DecryptInit_key c k iv)) s = (1, s') /\ cipher s' c = Keyed k iv [] None;
  dec_update s c k iv d : cipher s c = Keyed k iv [] None ->
    exists s', handle (inj (EVP_DecryptUpdate c d)) s = ((1, gcm_ctr k iv d), s') /\ cipher s' c = Keyed k iv d None;
  dec_tag s c k iv d t : cipher s c = Keyed k iv d None -> size t = 16 ->
    exists s', handle (inj (EVP_CTRL_GCM_SET_TAG c t)) s = (1, s') /\ cipher s' c = Keyed k iv d (Some t);
  dec_final s c k iv d t : cipher s c = Keyed k iv d (Some t) ->
    fst (handle (inj (EVP_DecryptFinal_ex c)) s) = (if bool_decide (t = gcm_mac k iv d) then 1 else 0, []);
  hk_new s : exists c s', handle (inj EVP_PKEY_CTX_new_id_HKDF) s = (c, s') /\ is_null c = false /\ derivation s' c = HkNew;
  hk_init s c : derivation s c = HkNew ->
    exists s', handle (inj (EVP_PKEY_derive_init c)) s = (1, s') /\ derivation s' c = Hk [] [] [];
  hk_mode s c k a i : derivation s c = Hk k a i ->
    exists s', handle (inj (EVP_PKEY_CTX_hkdf_mode c)) s = (1, s') /\ derivation s' c = Hk k a i;
  hk_md s c k a i : derivation s c = Hk k a i ->
    exists s', handle (inj (EVP_PKEY_CTX_set_hkdf_md c SHA256)) s = (1, s') /\ derivation s' c = Hk k a i;
  hk_key s c k a i k' : derivation s c = Hk k a i ->
    exists s', handle (inj (EVP_PKEY_CTX_set1_hkdf_key c k')) s = (1, s') /\ derivation s' c = Hk k' a i;
  hk_salt s c k a i a' : derivation s c = Hk k a i ->
    exists s', handle (inj (EVP_PKEY_CTX_set1_hkdf_salt c a')) s = (1, s') /\ derivation s' c = Hk k a' i;
  hk_info s c k a i i' : derivation s c = Hk k a i ->
    exists s', handle (inj (EVP_PKEY_CTX_add1_hkdf_info c i')) s = (1, s') /\ derivation s' c = Hk k a (i ++ i');
  hk_derive s c k a i n : derivation s c = Hk k a i -> 0 <= n <= 255 * 32 ->
    fst (handle (inj (EVP_PKEY_derive c n)) s) = (1, rfc_hkdf hmac256 a k i n);
  ec_ctx s : exists c, fst (handle (inj EVP_PKEY_CTX_new_id_EC) s) = c /\ is_null c = false;
  ec_private s der : ~ foreign_key der -> let p := fst (handle (inj (d2i_PrivateKey der)) s) in
    match parse_private der with Some k => is_null p = false /\ key_number p = number k | None => is_null p = true end;
  ec_public s der : ~ foreign_key der -> let p := fst (handle (inj (d2i_PUBKEY der)) s) in
    match parse_public der with Some q => is_null p = false /\ key_point p = q | None => is_null p = true end;
  ec_new s key : is_null key = false ->
    exists c s', handle (inj (EVP_PKEY_CTX_new key)) s = (c, s') /\ is_null c = false /\ derivation s' c = EcNew key;
  ec_init s c key : derivation s c = EcNew key ->
    exists s', handle (inj (EVP_PKEY_derive_init c)) s = (1, s') /\ derivation s' c = EcInit key;
  ec_peer s c key p : derivation s c = EcInit key -> is_null p = false ->
    exists s', handle (inj (EVP_PKEY_derive_set_peer c p)) s = (1, s') /\ derivation s' c = EcPeer key p;
  ec_len s c key p : derivation s c = EcPeer key p ->
    exists s', handle (inj (EVP_PKEY_derive_len c)) s = ((1, size (agree (key_number key) (key_point p))), s') /\
      derivation s' c = EcPeer key p;
  ec_derive s c key p : derivation s c = EcPeer key p -> let z := agree (key_number key) (key_point p) in
    fst (handle (inj (EVP_PKEY_derive c (size z))) s) = (1, z) }.

Section Linux.
Context {F : Type -> Type} {S : Type} `{Handler F S} `{HO : OsslCall -< F} `{!DigestLaws F S} `{CryptoLaws} `{!OsslCryptoLaws F S}.
Context {X : exn -> Prop}.

Lemma meets_one {B} w s (k : unit -> M F S B) (Q : B -> S -> Prop) :
  meets (k tt) s Q X -> meets (must_be_one 1 w ≫= k) s Q X.
Proof. intros Hk. by apply meets_bind, meets_ret. Qed.
Lemma meets_pos {B} w s (k : unit -> M F S B) (Q : B -> S -> Prop) :
  meets (k tt) s Q X -> meets (must_be_pos 1 w ≫= k) s Q X.
Proof. intros Hk. by apply meets_bind, meets_ret. Qed.
Lemma meets_true {B} e s (k : unit -> M F S B) (Q : B -> S -> Prop) :
  meets (k tt) s Q X -> meets (require true e ≫= k) s Q X.
Proof. intros Hk. by apply meets_bind, meets_ret. Qed.
Lemma meets_throw_ossl {A} w s (Q : A -> S -> Prop) : (forall e, X e) -> meets (throw_ossl w) s Q X.
Proof. intros HX. unfold throw_ossl. eapply meets_answer; [reflexivity|]. intros s1. by apply meets_throw. Qed.

Lemma meets_Decrypt w n c s (Q : bytes -> S -> Prop) :
  is_null (Aes.ctx w) = false -> size (Aes.key w) = 32 -> 0 < size n -> size c < 2 ^ 31 ->
  match gcm_open (Aes.key w) n c with Some p => forall s', Q p s' | None => forall e, X e end ->
  meets (Aes.Decrypt w c (Some (Aes.SetChainingInfo n))) s Q X.
Proof.
  intros Hw Hk Hn Hc HQ. unfold Aes.Decrypt. cbn [Aes.initVector Aes.SetChainingInfo].
  destruct (dec_init s (Aes.ctx w) Hw) as (s1 & E1 & A1). eapply meets_call; [exact E1|]. apply meets_one.
  destruct (dec_ivlen s1 _ _ A1 Hn) as (s2 & E2 & A2). eapply meets_call; [exact E2|]. apply meets_one.
  apply meets_bind. unfold Aes.with_key, Aes.KEY_SIZE. rewrite Hk. cbn [Z.ltb Z.compare Pos.compare Pos.compare_cont].
  rewrite firstn_all2 by (unfold size in Hk; lia).
  destruct (dec_key s2 _ _ n A2 Hk) as (s3 & E3 & A3). apply meets_delivers. eapply delivers_trig; [exact E3|].
  apply meets_one. apply meets_bind. unfold Aes.new_vector, vector_max_size, gcm_open, u64 in *.
  assert (Hc0 : 0 <= size c) by (unfold size; lia). apply meets_require; intros Hv.
  2: { apply Z.leb_gt in Hv. destruct (16 <=? size c) eqn:E; [|by apply HQ].
       apply Z.leb_le in E. rewrite Z.mod_small in Hv by lia. lia. }
  assert (16 <= size c). { destruct (decide (16 <= size c)); [done|]. apply Z.leb_le in Hv.
    rewrite <- (Z.mod_unique_pos (size c - 16) (2 ^ 64) (-1) (size c - 16 + 2 ^ 64)) in Hv by lia. lia. }
  rewrite (proj2 (Z.leb_le _ _)) in HQ by done. cbn [andb] in HQ. rewrite Z.mod_small by lia.
  destruct (dec_update s3 _ _ _ (take (length c - 16) c) A3) as (s4 & E4 & A4). eapply meets_call; [exact E4|].
  cbn beta iota. apply meets_one.
  destruct (dec_tag s4 _ _ _ _ (drop (length c - 16) c) A4) as (s5 & E5 & A5).
  { unfold size in *. rewrite length_drop. lia. }
  eapply meets_call; [exact E5|]. apply meets_one.
  eapply meets_answer; [by apply (dec_final s5)|]. intros s6. cbn beta iota. case_bool_decide as Ht.
  - apply meets_one. unfold Aes.written. rewrite app_nil_r. change (size []) with 0.
    rewrite gcm_ctr_size, (proj2 (Z.ltb_ge _ _)) by (unfold size in *; rewrite length_take; lia).
    apply meets_ret, HQ.
  - apply meets_bind. unfold must_be_one. by apply meets_throw_ossl.
Qed.

Lemma meets_new_HKDF z s :
  meets (Hkdf.new_OsslHKDF z) s (fun c s' => derivation s' c = Hk (sha256_of z) [] []) X.
Proof.
  unfold Hkdf.new_OsslHKDF. apply meets_bind, meets_delivers.
  assert (Hs : wp (Hkdf.OsslSha z Hkdf.SHA256_HASH_SIZE) s (fun o _ _ => o = Ret (hash_of SHA256 z))) by (by eapply wp_OsslSha).
  unfold wp in Hs. unfold delivers. destruct (Hkdf.OsslSha _ _ s) as [o s0 t]. cbn in Hs. subst o. rewrite sha_is. cbn beta iota.
  destruct (hk_new s0) as (c & s1 & E1 & Hc & A1). eapply meets_call; [exact E1|]. rewrite Hc. apply meets_true.
  destruct (hk_init s1 c A1) as (s2 & E2 & A2). eapply meets_call; [exact E2|]. apply meets_true.
  destruct (hk_mode s2 c _ _ _ A2) as (s3 & E3 & A3). eapply meets_call; [exact E3|]. apply meets_true.
  destruct (hk_md s3 c _ _ _ A3) as (s4 & E4 & A4). eapply meets_call; [exact E4|]. apply meets_true.
  destruct (hk_key s4 c _ _ _ (sha256_of z) A4) as (s5 & E5 & A5). eapply meets_call; [exact E5|]. apply meets_true.
  by apply meets_ret.
Qed.
Lemma meets_DeriveKey c k a' i s :
  derivation s c = Hk k [] [] ->
  meets (Hkdf.DeriveKey c a' i 32) s (fun r _ => r = rfc_hkdf hmac256 a' k i 32) X.
Proof.
  intros A0. unfold Hkdf.DeriveKey, Hkdf.Extract, Hkdf.Expand. apply meets_bind.
  destruct (hk_salt s c _ _ _ a' A0) as (s1 & E1 & A1). eapply meets_call; [exact E1|]. apply meets_true, meets_ret.
  destruct (hk_info s1 c _ _ _ i A1) as (s2 & E2 & A2). eapply meets_call; [exact E2|]. apply meets_true.
  eapply meets_answer; [apply (hk_derive s2 c _ _ _ 32 A2); lia|]. intros s3. cbn beta iota. apply meets_true, meets_ret.
  pose proof (rfc_hkdf_size hmac256 hmac256_size a' k i 32 ltac:(lia)) as Hs. rewrite app_nil_l.
  rewrite take_app_le, take_ge by (unfold size in Hs; lia). done.
Qed.
Lemma meets_agree d q s :
  is_null (Ecdh.keyPair d) = false -> is_null (Ecdh.keyPair q) = false ->
  meets (Ecdh.DeriveSecret d q) s (fun z _ => z = agree (key_number (Ecdh.keyPair d)) (key_point (Ecdh.keyPair q))) X.
Proof.
  intros Hd Hq. unfold Ecdh.DeriveSecret. set (z := agree _ _).
  destruct (ec_new s _ Hd) as (c & s1 & E1 & Hc & A1). eapply meets_call; [exact E1|]. rewrite Hc.
  destruct (ec_init s1 c _ A1) as (s2 & E2 & A2). eapply meets_call; [exact E2|]. apply meets_pos.
  destruct (ec_peer s2 c _ _ A2 Hq) as (s3 & E3 & A3). eapply meets_call; [exact E3|]. apply meets_pos.
  destruct (ec_len s3 c _ _ A3) as (s4 & E4 & A4). eapply meets_call; [exact E4|]. cbn beta iota. apply meets_pos.
  eapply meets_answer; [apply (ec_derive s4 c _ _ A4)|]. intros s5. cbn beta iota. apply meets_pos, meets_ret.
  unfold z, size. by rewrite Nat2Z.id, take_app_length.
Qed.
End Linux.

(** ** Refinement *)

Section Refinement.
Context {F : Type -> Type} {S : Type} `{Handler F S} `{HO : OsslCall -< F} `{HE : EsysCall -< F} `{HD : DmiCall -< F}.
Context `{BoostBase64Laws} `{BoostString} `{NlohmannLaws} `{!DigestLaws F S} `{CryptoLaws} `{!OsslCryptoLaws F S}.
Context {rsa_open : rsa_scheme -> bytes -> option bytes} `{!GuestKeyLaws F S rsa_open}.

(** The fields the code reads one by one. *)
Lemma read_message_fields claims m : read_message claims = Ret m ->
  Secrets.claim_bytes claims "salt" = Ret (salt m) /\
  Secrets.claim_bytes claims "dataNonce" = Ret (dataNonce m) /\
  Secrets.claim_bytes claims "keyNonce" = Ret (keyNonce m) /\
  Secrets.claim_bytes claims "wrappedAesTransportKey" = Ret (wrappedAesTransportKey m) /\
  Secrets.claim_bytes claims "encryptedSecret" = Ret (encryptedSecret m) /\
  Secrets.claim_bytes claims "encryptedGuestEcdhPrivateKey" = Ret (encryptedGuestEcdhPrivateKey m) /\
  Secrets.claim_bytes claims "ephemeralEcdhPublicKey" = Ret (ephemeralEcdhPublicKey m).
Proof.
  unfold read_message. intros (a1 & -> & (a2 & -> & (a3 & -> & (a4 & -> & (a5 & -> & (a6 & -> &
    (a7 & -> & [= <-])%outcome_bind_ret)%outcome_bind_ret)%outcome_bind_ret)%outcome_bind_ret)%outcome_bind_ret)%outcome_bind_ret)%outcome_bind_ret.
  done.
Qed.
Lemma size_zero (l : bytes) : (size l =? 0) = match l with [] => true | _ => false end.
Proof. by destruct l. Qed.
Lemma nonempty_some l p : nonempty l = Some p -> l = p /\ p <> [].
Proof. destruct l; simpl; [done|]. by intros [= <-]. Qed.

(** What the steps of a message yield: the secret, or a failure where the specification has none. *)
Let done_with (spec : option bytes) (r : Z * bytes) (_ : S) : Prop := carries_out r spec.

(** After the transport key. *)
Lemma meets_transport m k uuid s spec :
  spec = (d ← (gcm_open k (keyNonce m) (encryptedGuestEcdhPrivateKey m) ≫= nonempty) ≫= parse_private;
          q ← parse_public (ephemeralEcdhPublicKey m);
          gcm_open (rfc_hkdf hmac256 (salt m) (sha256_of (agree (number d) q)) uuid 32) (dataNonce m) (encryptedSecret m)
            ≫= nonempty) ->
  size k = 32 -> size (dataNonce m) = 12 -> size (keyNonce m) = 12 ->
  size (encryptedGuestEcdhPrivateKey m) + 16 < 2 ^ 31 -> size (encryptedSecret m) + 16 < 2 ^ 31 ->
  (forall der, gcm_open k (keyNonce m) (encryptedGuestEcdhPrivateKey m) ≫= nonempty = Some der -> ~ foreign_key der) ->
  ~ foreign_key (ephemeralEcdhPublicKey m) ->
  meets (
      aesWrapper ← Aes.new_OsslGcmWrapper;
      let aesWrapper := Aes.SetKey aesWrapper k in
      encodedEcdhPrivate ←
        Aes.Decrypt aesWrapper (encryptedGuestEcdhPrivateKey m) (Some (Aes.SetChainingInfo (keyNonce m)));
      if size encodedEcdhPrivate =? 0 then mret (error_code UnknownError, [])
      else
        ecdhPrivate ← Ecdh.new_OsslECDiffieHellman;
        ecdhPublic ← Ecdh.new_OsslECDiffieHellman;
        ecdhPrivate ← Ecdh.ImportPkcs8PrivateKey ecdhPrivate encodedEcdhPrivate;
        ecdhPublic ← Ecdh.ImportSubjectPublicKeyInfo ecdhPublic (ephemeralEcdhPublicKey m);
        secret ← Ecdh.DeriveSecret ecdhPrivate ecdhPublic;
        hkdf ← Hkdf.new_OsslHKDF secret;
        aesKey ← Hkdf.DeriveKey hkdf (salt m) uuid 32;
        let aesWrapper := Aes.SetKey aesWrapper aesKey in
        plaintextData ←
          Aes.Decrypt aesWrapper (encryptedSecret m) (Some (Aes.SetChainingInfo (dataNonce m)));
        if size plaintextData =? 0 then mret (error_code UnknownError, [])
        else mret (0, plaintextData)) s (done_with spec) (fun _ => spec = None).
Proof.
  intros Hspec Hk Hdn Hkn Hp Hs Hf Hfq. unfold Aes.new_OsslGcmWrapper. apply meets_bind.
  destruct (cipher_new s) as (c & Ec & Hc). eapply meets_answer; [exact Ec|]. intros s1. rewrite Hc.
  apply meets_true, meets_ret. cbn zeta. apply meets_bind, meets_Decrypt; [done|done|lia|lia|]. cbn [Aes.key Aes.SetKey].
  destruct (gcm_open k _ _) as [der|] eqn:Eg; [|done]. intros s2. rewrite size_zero.
  destruct der as [|b der']; [subst spec; apply meets_ret; split; [apply failure_unknown|done]|].
  set (der := b :: der') in *. specialize (Hf der eq_refl). unfold Ecdh.new_OsslECDiffieHellman. apply meets_bind.
  destruct (ec_ctx s2) as (c1 & E1 & Hc1). eapply meets_answer; [exact E1|]. intros s3. rewrite Hc1. apply meets_true, meets_ret.
  apply meets_bind. destruct (ec_ctx s3) as (c2 & E2 & Hc2). eapply meets_answer; [exact E2|]. intros s4. rewrite Hc2.
  apply meets_true, meets_ret. apply meets_bind. unfold Ecdh.ImportPkcs8PrivateKey.
  pose proof (ec_private s4 der Hf) as Hpk. cbn zeta in Hpk. eapply meets_answer; [reflexivity|]. intros s5.
  destruct (parse_private der) as [d|] eqn:Ed.
  2: { rewrite Hpk. apply meets_throw_ossl. intros _. subst spec. cbn. by rewrite Ed. }
  destruct Hpk as [Hn Hd]. rewrite Hn. apply meets_ret, meets_bind. unfold Ecdh.ImportSubjectPublicKeyInfo.
  pose proof (ec_public s5 _ Hfq) as Hpq. cbn zeta in Hpq. eapply meets_answer; [reflexivity|]. intros s6.
  destruct (parse_public _) as [q|] eqn:Eq.
  2: { rewrite Hpq. apply meets_throw_ossl. intros _. subst spec. cbn. by rewrite Ed. }
  destruct Hpq as [Hnq Hq]. rewrite Hnq. apply meets_ret, meets_bind. eapply meets_mono; [by apply meets_agree|].
  cbn [Ecdh.keyPair]. rewrite Hd, Hq. intros z s7 ->. apply meets_bind. eapply meets_mono; [apply meets_new_HKDF|].
  intros h s8 Hh. apply meets_bind. eapply meets_mono; [exact (meets_DeriveKey _ _ _ _ _ Hh)|]. intros key s9 ->.
  set (key := rfc_hkdf _ _ _ _ _) in *.
  assert (Hkey : size key = 32) by (apply rfc_hkdf_size; [apply hmac256_size|lia]).
  cbn zeta. apply meets_bind, meets_Decrypt; [done|done|lia|lia|]. cbn [Aes.key Aes.SetKey].
  cbn in Hspec. rewrite Ed in Hspec. cbn in Hspec. fold key in Hspec.
  destruct (gcm_open key _ _) as [p|] eqn:Ep; [|done]. intros s10. rewrite size_zero. cbn in Hspec. unfold done_with.
  destruct p; subst spec; apply meets_ret; [split; [apply failure_unknown|done]|done].
Qed.

(** [decrypt_secret] yields what the specification has, and no data where it has nothing. *)
Lemma meets_release claims m sch line s (spec := open_message rsa_open (SecretsTpm.MakeRsaScheme sch) (map X509.tolower line) m) :
  read_message claims = Ret m -> returns (json_dump claims) ->
  fst (handle (inj product_uuid) s) = Some line ->
  message_sizes rsa_open (SecretsTpm.MakeRsaScheme sch) m ->
  (forall der, open_private rsa_open (SecretsTpm.MakeRsaScheme sch) m = Some der -> ~ foreign_key der) ->
  ~ foreign_key (ephemeralEcdhPublicKey m) ->
  meets (Secrets.decrypt_secret claims sch) s
    (fun r _ => match spec with Some p => r = (0, p) | None => snd r = [] end) (fun _ => False).
Proof.
  intros Hm (txt & Hdump) Hu [Hw Htk Hdn Hkn Hp Hs] Hf Hfq.
  destruct (read_message_fields _ _ Hm) as (E1 & E2 & E3 & E4 & E5 & E6 & E7).
  unfold Secrets.decrypt_secret, Secrets.GetSystemUuid. apply meets_bind. eapply meets_answer; [exact Hu|].
  intros s1. apply meets_ret. eapply (meets_try_all _ _ _ (done_with spec) _ (fun _ => spec = None)).
  3: { intros e s2 ->. by apply meets_ret. }
  2: { intros r s2. unfold done_with, carries_out. destruct spec; [done|]. by intros [_ ?]. }
  unfold Secrets.decrypt_steps. rewrite Hdump, E1, E2, E3, E4, E5, E6, E7.
  do 8 (apply meets_bind; eapply meets_lift; [reflexivity|]).
  apply meets_TssCtx; [done|]. intros s2. apply meets_bind, meets_RsaDecrypt; [done|].
  destruct (rsa_open _ _) as [k|] eqn:Ek; [|by intros; subst spec; unfold open_message, open_private; rewrite Ek].
  intros s3. rewrite size_zero. destruct (Htk k eq_refl) as [->|Hk].
  { subst spec. unfold open_message, open_private. rewrite Ek. apply meets_ret. split; [apply failure_unknown|done]. }
  destruct k as [|b k']; [done|]. set (k := b :: k') in *. unfold open_private in Hf. rewrite Ek in Hf.
  apply meets_transport; try done. subst spec. unfold open_message, open_private. by rewrite Ek.
Qed.

(** C5: On Linux the release of a secret computes what it should. For every token whose fields decode
    to a message of the sizes of the protocol, on a working TPM and OpenSSL, [decrypt_secret]
    returns 0 with the secret that [open_message] finds - guest key, transport key, key agreement, HKDF
    with the UUID of the machine, AES-GCM - and a failure code without data whenever a tag, a
    key or a part of the message is wrong; no input makes it stop otherwise. *)
Theorem linux_release_refines claims m sch line s :
  read_message claims = Ret m -> returns (json_dump claims) ->
  fst (handle (inj product_uuid) s) = Some line ->
  message_sizes rsa_open (SecretsTpm.MakeRsaScheme sch) m ->
  (forall der, open_private rsa_open (SecretsTpm.MakeRsaScheme sch) m = Some der -> ~ foreign_key der) ->
  ~ foreign_key (ephemeralEcdhPublicKey m) ->
  exists r, res (Secrets.decrypt_secret claims sch s) = Ret r /\
    carries_out r (open_message rsa_open (SecretsTpm.MakeRsaScheme sch) (map X509.tolower line) m).
Proof.
  intros Hm Hd Hu Hs Hf Hq. destruct (meets_total _ _ _ (meets_release _ _ _ _ _ Hm Hd Hu Hs Hf Hq)) as (r & Hr & s' & Hdone).
  exists r. split; [done|]. unfold carries_out. destruct (open_message _ _ _ _); [done|]. split; [|done].
  destruct (SecretsFacts.decrypt_secret_status claims sch s r Hr) as [[_ Hne]|Hfail]; [by rewrite Hdone in Hne|done].
Qed.
End Refinement.

(** ** Witness: algorithms and an OpenSSL that are easy to follow *)

(** Keys are their first byte, texts their own ciphertexts, and a tag is the start of key and text. *)
#[export] Instance toy_crypto : Crypto :=
  {| gcm_ctr _ _ d := d; gcm_mac k _ c := take 16 (take 8 k ++ c ++ replicate 16 x00);
     sha256_of := pad_hash SHA256; hmac256 := toy_hmac;
     parse_private der := match der with b :: _ => Some {| number := [b]; point := Some ([b], [b]) |} | [] => None end;
     parse_public der := match der with b :: _ => Some ([b], [b]) | [] => None end;
     agree d q := d ++ fst q |}.
#[export] Instance toy_crypto_laws : CryptoLaws.
Proof. split; [done|]. intros k d. simpl. unfold toy_hmac. rewrite app_assoc. apply (toy_size 32). Qed.

Record toy_ssl := { t_cipher : cipher_stage; t_derive : derive_stage; t_digest : digest_state }.
Definition set_cipher (s : toy_ssl) (c : cipher_stage) : toy_ssl :=
  {| t_cipher := c; t_derive := t_derive s; t_digest := t_digest s |}.
Definition set_derive (s : toy_ssl) (d : derive_stage) : toy_ssl :=
  {| t_cipher := t_cipher s; t_derive := d; t_digest := t_digest s |}.
Definition toy_handle (der : bytes) : ptr := match der with b :: _ => (1 + Byte.to_N b)%N | [] => null end.
Definition toy_key (p : ptr) : bytes := match Byte.of_N (p - 1)%N with Some b => [b] | None => [] end.
Definition toy_ossl (R : Type) (e : OsslCall R) (s : toy_ssl) : R * toy_ssl :=
  match e in OsslCall T return T * digest_state -> T * toy_ssl with
  | EVP_CIPHER_CTX_new => fun _ => (1%N, s)
  | EVP_DecryptInit_gcm _ => fun _ => (1, set_cipher s Cipher)
  | EVP_CTRL_GCM_SET_IVLEN _ n => fun _ => (1, set_cipher s (WithIv n))
  | EVP_DecryptInit_key _ k iv => fun _ => (1, set_cipher s (Keyed k iv [] None))
  | EVP_DecryptUpdate _ d => fun _ =>
      match t_cipher s with
      | Keyed k iv _ t => ((1, gcm_ctr k iv d), set_cipher s (Keyed k iv d t)) | _ => ((0, []), s) end
  | EVP_CTRL_GCM_SET_TAG _ t => fun _ =>
      match t_cipher s with Keyed k iv d _ => (1, set_cipher s (Keyed k iv d (Some t))) | _ => (0, s) end
  | EVP_DecryptFinal_ex _ => fun _ =>
      match t_cipher s with
      | Keyed k iv d (Some t) => ((if bool_decide (t = gcm_mac k iv d) then 1 else 0, []), s) | _ => ((0, []), s) end
  | EVP_PKEY_CTX_new_id_HKDF => fun _ => (1%N, set_derive s HkNew)
  | EVP_PKEY_CTX_new_id_EC => fun _ => (1%N, s)
  | EVP_PKEY_CTX_new key => fun _ => (1%N, set_derive s (EcNew key))
  | EVP_PKEY_derive_init _ => fun _ =>
      (1, set_derive s (match t_derive s with HkNew => Hk [] [] [] | EcNew k => EcInit k | d => d end))
  | EVP_PKEY_CTX_hkdf_mode _ => fun _ => (1, s)
  | EVP_PKEY_CTX_set_hkdf_md _ _ => fun _ => (1, s)
  | EVP_PKEY_CTX_set1_hkdf_key _ k => fun _ =>
      (1, match t_derive s with Hk _ a i => set_derive s (Hk k a i) | _ => s end)
  | EVP_PKEY_CTX_set1_hkdf_salt _ a => fun _ =>
      (1, match t_derive s with Hk k _ i => set_derive s (Hk k a i) | _ => s end)
  | EVP_PKEY_CTX_add1_hkdf_info _ i' => fun _ =>
      (1, match t_derive s with Hk k a i => set_derive s (Hk k a (i ++ i')) | _ => s end)
  | EVP_PKEY_derive_set_peer _ p => fun _ =>
      (1, match t_derive s with EcInit k => set_derive s (EcPeer k p) | _ => s end)
  | EVP_PKEY_derive_len _ => fun _ =>
      match t_derive s with
      | EcPeer k p => ((1, size (agree (toy_key k) (toy_key p, toy_key p))), s) | _ => ((0, 0), s) end
  | EVP_PKEY_derive _ n => fun _ =>
      match t_derive s with
      | Hk k a i => ((1, rfc_hkdf hmac256 a k i n), s)
      | EcPeer k p => ((1, agree (toy_key k) (toy_key p, toy_key p)), s)
      | _ => ((0, []), s) end
  | d2i_PrivateKey der => fun _ => (toy_handle der, s)
  | d2i_PUBKEY der => fun _ => (toy_handle der, s)
  | _ => fun d => (d.1, {| t_cipher := t_cipher s; t_derive := t_derive s; t_digest := d.2 |})
  end (handle e (t_digest s)).

Definition LinuxCall : Type -> Type := sumE OsslCall (sumE EsysCall DmiCall).
Definition toy_plain : bytes := replicate 32 x42.
#[export] Instance toy_linux : Handler LinuxCall toy_ssl := fun R e s =>
  match e with
  | InL o => toy_ossl R o s
  | InR (InL t) => (esys_accept toy_plain R t, s)
  | InR (InR d) => (match d in DmiCall T return T with product_uuid => Some (str "0AB") end, s)
  end.
#[refine, export]
Instance toy_linux_digest : DigestLaws LinuxCall toy_ssl := {| acc s _ := t_digest s; hash_of := pad_hash |}.
Proof.
  all: intros; unfold handle; simpl; repeat match goal with H : t_digest _ = _ |- _ => rewrite H end; eauto.
Defined.
#[local] Arguments toy_key : simpl never.
#[local] Arguments N.add : simpl never.
Lemma toy_key_handle b : toy_key (1 + Byte.to_N b) = [b].
Proof. unfold toy_key. replace (1 + Byte.to_N b - 1)%N with (Byte.to_N b) by lia. by rewrite Byte.of_to_N. Qed.
#[refine, export]
Instance toy_linux_crypto : OsslCryptoLaws LinuxCall toy_ssl :=
  {| cipher s _ := t_cipher s; derivation s _ := t_derive s; key_number := toy_key;
     key_point p := (toy_key p, toy_key p); foreign_key _ := False |}.
Proof.
  all: intros; try done; unfold handle; simpl;
    repeat match goal with
           | H : t_cipher _ = _ |- _ => rewrite H
           | H : t_derive _ = _ |- _ => rewrite H
           end; eauto.
  all: subst p; unfold handle; simpl; destruct der as [|b der]; [done|]; simpl; rewrite toy_key_handle; by destruct b.
Defined.
#[refine, export]
Instance toy_guest_key : GuestKeyLaws LinuxCall toy_ssl (fun _ _ => Some toy_plain) := {| guest_key _ := True |}.
Proof. all: intros; unfold handle; simpl; eauto. Defined.

(** The message of a service that knows the guest key, and the claims that carry it. *)
Definition toy_seal (k d : bytes) : bytes := d ++ gcm_mac k [] d.
Definition toy_message (uuid : bytes) (key_tag : bytes -> bytes) : message :=
  {| salt := [x05]; dataNonce := replicate 12 x01; keyNonce := replicate 12 x04;
     wrappedAesTransportKey := replicate 256 x06;
     encryptedSecret :=
       toy_seal (rfc_hkdf hmac256 [x05] (sha256_of (agree [x07] ([x08], [x08]))) uuid 32) (str "secret!");
     encryptedGuestEcdhPrivateKey := key_tag (toy_seal toy_plain [x07; x09]);
     ephemeralEcdhPublicKey := [x08] |}.
Definition toy_claims (m : message) : @json json_tree :=
  JObj [(str "dataNonce", b64 (dataNonce m)); (str "encryptedGuestEcdhPrivateKey", b64 (encryptedGuestEcdhPrivateKey m));
        (str "encryptedSecret", b64 (encryptedSecret m)); (str "ephemeralEcdhPublicKey", b64 (ephemeralEcdhPublicKey m));
        (str "keyNonce", b64 (keyNonce m)); (str "salt", b64 (salt m));
        (str "wrappedAesTransportKey", b64 (wrappedAesTransportKey m))].
(** The tag of the private key with its last byte dropped. *)
Definition damaged (uuid : bytes) : message := toy_message uuid (fun c => take (length c - 1) c).
Lemma toy_sizes m : m = toy_message (str "0ab") id \/ m = damaged (str "0ab") -> message_sizes (fun _ _ => Some toy_plain) (SecretsTpm.MakeRsaScheme Rsaes) m.
Proof.
  intros [-> | ->]; (split; try reflexivity; [by vm_compute|]); intros k [= <-]; by right.
Qed.
#[local] Notation good := (toy_message (str "0ab") id).
#[local] Notation bad := (damaged (str "0ab")).
Definition toy_start : toy_ssl := {| t_cipher := NoCipher; t_derive := NoDerive; t_digest := None |}.
Lemma toy_uuid : fst (handle (Handler := toy_linux) (inj product_uuid) toy_start) = Some (str "0AB").
Proof. reflexivity. Qed.
Lemma linux_release_refines_witness :
  let run m := Secrets.decrypt_secret (F := LinuxCall) (toy_claims m) Rsaes toy_start in
  res (run good) = Ret (0, str "secret!") /\
  exists c, failure c /\ res (run bad) = Ret (c, []).
Proof.
  intros run.
  assert (Hj : returns (json_dump (toy_claims good))) by (exists (dump_tree (toy_claims good)); vm_eq).
  assert (Hj' : returns (json_dump (toy_claims bad))) by (exists (dump_tree (toy_claims bad)); vm_eq).
  assert (Hm : read_message (toy_claims good) = Ret good) by vm_eq.
  assert (Hm' : read_message (toy_claims bad) = Ret bad) by vm_eq.
  assert (Hf : forall m der, open_private (fun _ _ => Some toy_plain) (SecretsTpm.MakeRsaScheme Rsaes) m = Some der -> ~ False)
    by (intros m der _ []). assert (Hq : ~ False) by (intros []). split.
  - destruct (linux_release_refines (F := LinuxCall) (OsslCryptoLaws0 := toy_linux_crypto) (GuestKeyLaws0 := toy_guest_key)
      _ _ Rsaes (str "0AB") toy_start Hm Hj toy_uuid (toy_sizes _ (or_introl eq_refl)) (Hf _) Hq) as (r & Hr & Hc).
    assert (Hs : open_message (fun _ _ => Some toy_plain) (SecretsTpm.MakeRsaScheme Rsaes) (map X509.tolower (str "0AB"))
      good = Some (str "secret!")) by vm_eq.
    unfold carries_out in Hc. rewrite Hs in Hc. subst r. exact Hr.
  - destruct (linux_release_refines (F := LinuxCall) (OsslCryptoLaws0 := toy_linux_crypto) (GuestKeyLaws0 := toy_guest_key)
      _ _ Rsaes (str "0AB") toy_start Hm' Hj' toy_uuid (toy_sizes _ (or_intror eq_refl)) (Hf _) Hq) as ([c out] & Hr & Hc).
    assert (Hs : open_message (fun _ _ => Some toy_plain) (SecretsTpm.MakeRsaScheme Rsaes) (map X509.tolower (str "0AB"))
      bad = None) by vm_eq.
    unfold carries_out in Hc. rewrite Hs in Hc. destruct Hc as [Hfail Ho]. exists c. simpl in Ho. subst out.
    split; [exact Hfail|exact Hr].
Defined.
