(* ===== verification/SampleFacts.v ===== *)
(** * What the sample protects, the library releases

    The theorem about Sample.v: with a working TPM and OpenSSL, the token of [EncryptWithPadding] is
    opened by [unprotect_secret] and shows exactly the text that went in. The laws are those of
    SecretSpec.v with their encrypting halves. *)

From S2P Require Import Prelude Base64 ReturnCodes Json JsonObjects Ossl Bcrypt BcryptFacts BaseX509 LinuxX509 Jwt Policy Esys SecretsTpm Secrets Cvm SecretsTool Sample GuestTpm Digest SecretSpec.
#[local] Open Scope Z_scope.

(** ** The laws *)

(** CTR is its own inverse, and tags have 16 bytes. *)
Class SealLaws `{Crypto} : Prop := {
  gcm_ctr_twice k n d : gcm_ctr k n (gcm_ctr k n d) = d;
  gcm_mac_size k n c : size (gcm_mac k n c) = 16 }.

(** How far the generation of a key has come. *)
Inductive key_stage := NoKey | ParamGen | WithCurve (nid : Z) | Params | KeyGen.
(** OpenSSL as it encrypts, and generates and writes P-256 keys. *)
Class OsslSealLaws (F : Type -> Type) (S : Type) `{Handler F S} `{OsslCall -< F} `{!DigestLaws F S} `{Crypto}
    `{!OsslCryptoLaws F S} := {
  sealing : S -> ptr -> cipher_stage;
  generation : S -> ptr -> key_stage;
  parameters : ptr -> Prop;
  generated : ptr -> Prop;
  enc_init s c : is_null c = false -> exists s', handle (inj (EVP_EncryptInit_gcm c)) s = (1, s') /\ sealing s' c = Cipher;
  enc_ivlen s c n : sealing s c = Cipher -> 0 < n ->
    exists s', handle (inj (EVP_CTRL_GCM_SET_IVLEN c n)) s = (1, s') /\ sealing s' c = WithIv n;
  enc_key s c k iv : sealing s c = WithIv (size iv) -> size k = 32 ->
    exists s', handle (inj (EVP_EncryptInit_key c k iv)) s = (1, s') /\ sealing s' c = Keyed k iv [] None;
  enc_update s c k iv d : sealing s c = Keyed k iv [] None ->
    exists s', handle (inj (EVP_EncryptUpdate c d)) s = ((1, gcm_ctr k iv d), s') /\
      sealing s' c = Keyed k iv (gcm_ctr k iv d) None;
  enc_final s c k iv d : sealing s c = Keyed k iv d None ->
    exists s', handle (inj (EVP_EncryptFinal_ex c)) s = ((1, []), s') /\ sealing s' c = Keyed k iv d None;
  enc_tag s c k iv d : sealing s c = Keyed k iv d None ->
    fst (handle (inj (EVP_CTRL_GCM_GET_TAG c 16)) s) = (1, gcm_mac k iv d);
  gen_init s c : is_null c = false ->
    exists s', handle (inj (EVP_PKEY_paramgen_init c)) s = (1, s') /\ generation s' c = ParamGen;
  gen_curve s c nid : generation s c = ParamGen ->
    exists s', handle (inj (EVP_PKEY_CTX_set_ec_paramgen_curve_nid c nid)) s = (1, s') /\ generation s' c = WithCurve nid;
  gen_params s c : generation s c = WithCurve Ecdh.NID_X9_62_prime256v1 ->
    exists p, fst (handle (inj (EVP_PKEY_paramgen c)) s) = (1, p) /\ parameters p;
  gen_context s p : parameters p ->
    exists c s', handle (inj (EVP_PKEY_CTX_new p)) s = (c, s') /\ is_null c = false /\ generation s' c = Params;
  gen_ready s c : generation s c = Params ->
    exists s', handle (inj (EVP_PKEY_keygen_init c)) s = (1, s') /\ generation s' c = KeyGen;
  gen_key s c k : generation s c = KeyGen -> exists p, fst (handle (inj (EVP_PKEY_keygen c k)) s) = (1, p) /\ generated p;
  generated_handle p : generated p -> is_null p = false;
  private_der s p : generated p -> exists der d, fst (handle (inj (i2d_PrivateKey p)) s) = (size der, der) /\
    0 < size der < 2 ^ 16 /\ parse_private der = Some d /\ number d = key_number p /\ ~ foreign_key der;
  public_der s p : generated p -> exists der, fst (handle (inj (i2d_PUBKEY p)) s) = (size der, der) /\
    0 < size der < 2 ^ 16 /\ parse_public der = Some (key_point p) /\ ~ foreign_key der }.
(** A TPM that wraps what its guest key can unwrap: 190 bytes fit OAEP with SHA-256 under 2048 bits. *)
Class GuestKeyWraps (F : Type -> Type) (S : Type) `{Handler F S} `{EsysCall -< F} rsa_open
    `{!GuestKeyLaws F S rsa_open} : Prop :=
  rsa_encrypt s h x sch : guest_key h -> 0 < size x <= 190 ->
    exists c, fst (handle (inj (Esys_RSA_Encrypt h x sch)) s) = (0, c) /\ rsa_open sch c = Some x /\
      0 < size c <= TPM2_MAX_RSA_KEY_BYTES.

Section Crypto.
Context `{CryptoLaws} `{!SealLaws}.
Definition gcm_seal (k n d : bytes) : bytes := gcm_ctr k n d ++ gcm_mac k n (gcm_ctr k n d).
Lemma gcm_seal_size k n d : size (gcm_seal k n d) = size d + 16.
Proof.
  pose proof (gcm_ctr_size k n d). pose proof (gcm_mac_size k n (gcm_ctr k n d)).
  unfold gcm_seal, size in *. rewrite length_app. lia.
Qed.
Lemma gcm_open_seal k n d : gcm_open k n (gcm_seal k n d) = Some d.
Proof.
  pose proof (gcm_seal_size k n d) as Hs. pose proof (gcm_mac_size k n (gcm_ctr k n d)) as Hm.
  unfold gcm_open. rewrite Hs, (proj2 (Z.leb_le _ _)) by (unfold size; lia). unfold gcm_seal in *.
  assert (length (gcm_ctr k n d ++ gcm_mac k n (gcm_ctr k n d)) - 16 = length (gcm_ctr k n d))%nat as ->.
  { rewrite length_app. unfold size in Hm. lia. }
  rewrite take_app_length, drop_app_length. simpl. by rewrite bool_decide_eq_true_2, gcm_ctr_twice.
Qed.
End Crypto.

(** ** The calls *)

Section Calls.
Context {F : Type -> Type} {S : Type} `{Handler F S} `{HO : OsslCall -< F} `{HE : EsysCall -< F} `{HR : RandCall -< F} `{HT : ToolCall -< F}.
Context `{!DigestLaws F S} `{CryptoLaws} `{!OsslCryptoLaws F S} `{!SealLaws} `{!OsslSealLaws F S}.
Context {X : exn -> Prop}.

Lemma meets_try {A} (m : M F S A) h s (Q : A -> S -> Prop) : meets m s Q (fun _ => False) -> meets (try_catch m h) s Q X.
Proof. unfold meets, try_catch. by destruct (m s) as [[a|e|x] s1 t1]. Qed.
Lemma meets_pure {A B} (m : M F S A) (k : A -> M F S B) s a (Q : B -> S -> Prop) :
  m s = Res (Ret a) s [] -> meets (k a) s Q X -> meets (m ≫= k) s Q X.
Proof. intros Hm Hk. unfold meets. by rewrite (bind_pure _ _ _ a). Qed.
Lemma meets_print {B} text s (k : unit -> M F S B) (Q : B -> S -> Prop) :
  (forall s', meets (k tt) s' Q X) -> meets (Sample.print text ≫= k) s Q X.
Proof. intros Hk. eapply meets_answer; [by destruct (fst _)|exact Hk]. Qed.
Lemma meets_random n : forall s, meets (Sample.MakeRandomBytes n) s (fun b (_ : S) => length b = n) X.
Proof.
  induction n as [|n IH]; intros s; cbn [Sample.MakeRandomBytes]; [by apply meets_ret|].
  eapply meets_answer; [reflexivity|]. intros s1. apply meets_bind. eapply meets_mono; [apply IH|].
  intros b s2 <-. by apply meets_ret.
Qed.

Lemma meets_Encrypt w n d s :
  is_null (Aes.ctx w) = false -> size (Aes.key w) = 32 -> 0 < size n -> size d < 2 ^ 31 ->
  meets (Aes.Encrypt w d (Some (Aes.SetChainingInfo n))) s (fun c _ => c = gcm_seal (Aes.key w) n d) X.
Proof.
  intros Hw Hk Hn Hd. unfold Aes.Encrypt. cbn [Aes.initVector Aes.SetChainingInfo].
  destruct (enc_init s (Aes.ctx w) Hw) as (s1 & E1 & A1). eapply meets_call; [exact E1|]. apply meets_one.
  destruct (enc_ivlen s1 _ _ A1 Hn) as (s2 & E2 & A2). eapply meets_call; [exact E2|]. apply meets_one.
  apply meets_bind. unfold Aes.with_key, Aes.KEY_SIZE. rewrite Hk. cbn [Z.ltb Z.compare Pos.compare Pos.compare_cont].
  rewrite firstn_all2 by (unfold size in Hk; lia).
  destruct (enc_key s2 _ _ n A2 Hk) as (s3 & E3 & A3). apply meets_delivers. eapply delivers_trig; [exact E3|].
  apply meets_one. assert (Hd0 : 0 <= size d) by (unfold size; lia).
  unfold Aes.new_vector, vector_max_size, Aes.EVP_MAX_BLOCK_LENGTH, u64. rewrite Z.mod_small by lia.
  apply meets_bind, meets_require; [intros _|intros Hv%Z.leb_gt; lia].
  destruct (enc_update s3 _ _ _ d A3) as (s4 & E4 & A4). eapply meets_call; [exact E4|]. cbn beta iota. apply meets_one.
  destruct (enc_final s4 _ _ _ _ A4) as (s5 & E5 & A5). eapply meets_call; [exact E5|]. cbn beta iota. apply meets_one.
  eapply meets_answer; [apply (enc_tag s5 _ _ _ _ A5)|]. intros s6. cbn beta iota. apply meets_one, meets_bind.
  unfold Aes.written. rewrite app_nil_r. change (size []) with 0. rewrite gcm_ctr_size, (proj2 (Z.ltb_ge _ _)) by lia.
  by apply meets_ret, meets_ret.
Qed.
Lemma meets_GenerateKeyPair d s : is_null (Ecdh.pctx d) = false ->
  meets (Ecdh.GenerateKeyPair d) s (fun d' _ => generated (Ecdh.keyPair d')) X.
Proof.
  intros Hd. unfold Ecdh.GenerateKeyPair.
  destruct (gen_init s _ Hd) as (s1 & E1 & A1). eapply meets_call; [exact E1|]. apply meets_pos.
  destruct (gen_curve s1 _ Ecdh.NID_X9_62_prime256v1 A1) as (s2 & E2 & A2). eapply meets_call; [exact E2|]. apply meets_pos.
  destruct (gen_params s2 _ A2) as (p & E3 & Hp). eapply meets_answer; [exact E3|]. intros s3. cbn beta iota. apply meets_pos.
  destruct (gen_context s3 p Hp) as (c & s4 & E4 & Hc & A4). eapply meets_call; [exact E4|]. rewrite Hc.
  apply meets_bind, meets_ret. destruct (gen_ready s4 c A4) as (s5 & E5 & A5). eapply meets_call; [exact E5|]. apply meets_pos.
  destruct (gen_key s5 c (Ecdh.keyPair d) A5) as (k & E6 & Hk). eapply meets_answer; [exact E6|]. intros s6. cbn beta iota.
  by apply meets_pos, meets_ret.
Qed.
Lemma meets_written_der (e : OsslCall (Z * bytes)) der w s :
  fst (handle (inj e) s) = (size der, der) -> 0 < size der ->
  meets ('(len, keyData) ← trig e; _ ← must_be_pos len w; mret (take (Z.to_nat len) keyData)) s (fun r _ => r = der) X.
Proof.
  intros E Hs. eapply meets_answer; [exact E|]. intros s1. cbn beta iota. unfold must_be_pos.
  rewrite (proj2 (Z.leb_gt _ _)) by done. apply meets_bind, meets_ret, meets_ret. apply take_ge. unfold size. lia.
Qed.
Lemma meets_fresh_ecdh s : meets Ecdh.new_OsslECDiffieHellman s (fun d (_ : S) => is_null (Ecdh.pctx d) = false) X.
Proof.
  unfold Ecdh.new_OsslECDiffieHellman. destruct (ec_ctx s) as (c & E & Hc). eapply meets_answer; [exact E|].
  intros s1. rewrite Hc. by apply meets_true, meets_ret.
Qed.
Lemma meets_new_aes s :
  meets Aes.new_OsslGcmWrapper s (fun w (_ : S) => is_null (Aes.ctx w) = false) X.
Proof.
  unfold Aes.new_OsslGcmWrapper. destruct (cipher_new s) as (c & E & Hc). eapply meets_answer; [exact E|].
  intros s1. rewrite Hc. by apply meets_true, meets_ret.
Qed.
End Calls.

(** ** What is sealed *)

Section Sealed.
Context {F : Type -> Type} {S : Type} `{Handler F S}.
Context `{HO : OsslCall -< F} `{HE : EsysCall -< F} `{HD : DmiCall -< F} `{HR : RandCall -< F} `{HT : ToolCall -< F}.
Context `{!DigestLaws F S} `{CryptoLaws} `{!OsslCryptoLaws F S} `{!SealLaws} `{!OsslSealLaws F S}.
Context {rsa_open : rsa_scheme -> bytes -> option bytes} `{!GuestKeyLaws F S rsa_open} `{!GuestKeyWraps F S rsa_open}.
Context {X : exn -> Prop}.
Variable line : bytes.
Hypothesis uuid_line : forall s, fst (handle (inj product_uuid) s) = Some line.
Notation uuid := (map X509.tolower line).

(** Everything is sealed with what the parts say. *)
Record sealed (secret salt : bytes) (p : Sample.Sealed) : Prop := {
  sealed_salt : Sample.saltData p = salt;
  sealed_nonce : size (Sample.dataNonce p) = 12;
  sealed_key_nonce : size (Sample.wrappingNonce p) = 12;
  sealed_key : size (Sample.wrappingKey p) = 32;
  sealed_parts : exists der d q,
    0 < size der < 2 ^ 16 /\ parse_private der = Some d /\ ~ foreign_key der /\
    Sample.encryptedEcdhPrivate p = gcm_seal (Sample.wrappingKey p) (Sample.wrappingNonce p) der /\
    0 < size (Sample.exportedPublicKeyData p) < 2 ^ 16 /\
    parse_public (Sample.exportedPublicKeyData p) = Some q /\ ~ foreign_key (Sample.exportedPublicKeyData p) /\
    Sample.encryptedSecret p =
      gcm_seal (rfc_hkdf hmac256 salt (sha256_of (agree (number d) q)) uuid 32) (Sample.dataNonce p) secret }.

Lemma size_of_length (b : bytes) n : length b = n -> size b = Z.of_nat n.
Proof. unfold size. by intros ->. Qed.
Lemma meets_seal_steps secret salt s : size secret < 2 ^ 30 ->
  meets (Sample.seal_steps secret salt) s (fun r _ => exists p, r = Some p /\ sealed secret salt p) X.
Proof.
  intros Hsz. unfold Sample.seal_steps, Secrets.GetSystemUuid. apply meets_bind.
  eapply meets_answer; [apply uuid_line|]. intros s1. apply meets_ret.
  apply meets_bind. eapply meets_mono; [apply meets_fresh_ecdh|]. intros d1 s2 Hd1.
  apply meets_bind. eapply meets_mono; [apply meets_fresh_ecdh|]. intros d2 s3 Hd2.
  apply meets_bind. eapply meets_mono; [by apply meets_GenerateKeyPair|]. intros priv s4 Hpriv.
  apply meets_bind. eapply meets_mono; [by apply meets_GenerateKeyPair|]. intros pub s5 Hpub.
  destruct (public_der s5 _ Hpub) as (pder & Ep & Hp & Hpq & Hpf).
  apply meets_bind. eapply meets_mono; [apply (meets_written_der _ _ _ _ Ep); lia|]. intros ? s6 ->.
  destruct (private_der s6 _ Hpriv) as (der & d & Ed & Hd & Hdp & Hdn & Hdf).
  apply meets_bind. eapply meets_mono; [apply (meets_written_der _ _ _ _ Ed); lia|]. intros ? s7 ->.
  apply meets_bind. eapply meets_mono; [apply meets_agree; by apply generated_handle|]. intros z s8 ->. rewrite <- Hdn.
  apply meets_bind. eapply meets_mono; [apply meets_new_HKDF|]. intros h s9 Hh.
  apply meets_bind. eapply meets_mono; [exact (meets_DeriveKey _ _ _ _ _ Hh)|]. intros key s10 ->.
  set (key := rfc_hkdf _ _ _ _ _).
  assert (Hkey : size key = 32) by (apply rfc_hkdf_size; [apply hmac256_size|lia]). rewrite Hkey.
  apply meets_print. intros s11. apply meets_bind. eapply meets_mono; [apply meets_new_aes|]. intros w s12 Hw. cbn zeta.
  apply meets_bind. eapply meets_mono; [apply meets_random|]. intros nonce s13 Hnonce%size_of_length.
  apply meets_bind. eapply meets_mono; [apply meets_Encrypt; [done|done|lia|lia]|]. intros c s14 Hc. cbn [Aes.key Aes.SetKey] in Hc.
  assert (Hcs : size c = size secret + 16) by (rewrite Hc; apply gcm_seal_size).
  assert (Hs0 : 0 <= size secret) by (unfold size; lia). rewrite !(proj2 (Z.eqb_neq (size c) 0)) by lia.
  apply meets_print. intros s15.
  apply meets_bind. eapply meets_mono; [apply meets_random|]. intros tk s16 Htk%size_of_length.
  apply meets_bind. eapply meets_mono; [apply meets_random|]. intros kn s17 Hkn%size_of_length.
  apply meets_bind. eapply meets_mono; [apply meets_Encrypt; [done|done|lia|lia]|]. intros pc s18 ->. cbn [Aes.key Aes.SetKey].
  apply meets_ret. eexists. split; [reflexivity|]. split; try done. by exists der, d, (key_point (Ecdh.keyPair pub)).
Qed.
Lemma meets_wrap_steps p sch s secret salt : sealed secret salt p ->
  meets (Sample.wrap_steps p sch) s (fun r _ => exists c, r = Some c /\
    rsa_open (SecretsTpm.MakeRsaScheme sch) c = Some (Sample.wrappingKey p) /\ 0 < size c <= TPM2_MAX_RSA_KEY_BYTES) X.
Proof.
  intros [_ _ _ Hk _]. unfold Sample.wrap_steps, SecretsTpm.Tss2RsaEncrypt, SecretsTpm.copy_to_rsa_buffer.
  apply meets_print. intros s1. apply meets_bind.
  destruct (from_public s1) as (h & Hh & E). eapply meets_answer; [exact E|]. intros s2. cbn beta iota.
  apply meets_bind, meets_check; [intros _|done]. eapply meets_answer; [apply set_auth|]. intros s3.
  apply meets_bind, meets_check; [intros _|done]. unfold TPM2_MAX_RSA_KEY_BYTES in *.
  rewrite (proj2 (Z.ltb_ge _ _)) by lia. apply meets_bind, meets_ret.
  destruct (rsa_encrypt s3 h (Sample.wrappingKey p) (SecretsTpm.MakeRsaScheme sch) Hh ltac:(lia)) as (c & Ec & Ho & Hc).
  eapply meets_answer; [exact Ec|]. intros s4. cbn beta iota. apply meets_bind, meets_check; [intros _|done].
  apply meets_ret. rewrite (proj2 (Z.eqb_neq _ _)) by lia. apply meets_ret. by exists c.
Qed.

(** ** The message *)

Definition message_of (p : Sample.Sealed) (c : bytes) : message :=
  {| salt := Sample.saltData p; dataNonce := Sample.dataNonce p; keyNonce := Sample.wrappingNonce p;
     wrappedAesTransportKey := c; encryptedSecret := Sample.encryptedSecret p;
     encryptedGuestEcdhPrivateKey := Sample.encryptedEcdhPrivate p;
     ephemeralEcdhPublicKey := Sample.exportedPublicKeyData p |}.
Lemma nonempty_size b : 0 < size b -> nonempty b = Some b.
Proof. by destruct b. Qed.
Lemma message_opens secret salt p c sch :
  sealed secret salt p -> rsa_open sch c = Some (Sample.wrappingKey p) -> 0 < size c <= TPM2_MAX_RSA_KEY_BYTES ->
  0 < size secret < 2 ^ 30 ->
  open_message rsa_open sch uuid (message_of p c) = Some secret /\
  message_sizes rsa_open sch (message_of p c) /\
  (forall der, open_private rsa_open sch (message_of p c) = Some der -> ~ foreign_key der) /\
  ~ foreign_key (ephemeralEcdhPublicKey (message_of p c)).
Proof.
  intros [Hsalt Hn Hkn Hk (der & d & q & Hd & Hdp & Hdf & Ep & Hp & Hpq & Hpf & Es)] Ho Hc Hs.
  assert (Hop : open_private rsa_open sch (message_of p c) = Some der).
  { unfold open_private, message_of. cbn. rewrite Ho. cbn. rewrite (nonempty_size (Sample.wrappingKey p)) by lia. cbn.
    rewrite Ep, gcm_open_seal. cbn. apply nonempty_size. lia. }
  split_and!.
  - unfold open_message. rewrite Hop. cbn. rewrite Hdp. cbn. rewrite Hpq. cbn.
    rewrite Hsalt, Es, gcm_open_seal. cbn. apply nonempty_size. lia.
  - pose proof (gcm_seal_size (Sample.wrappingKey p) (Sample.wrappingNonce p) der).
    split; cbn; [lia| |done|done|rewrite Ep; lia|rewrite Es, gcm_seal_size; lia].
    intros k. rewrite Ho. intros [= <-]. by right.
  - intros der' E. rewrite Hop in E. by injection E as <-.
  - done.
Qed.
End Sealed.

(** ** The token *)

Section Token.
Context `{BoostBase64Laws, !BoostStringLaws} `{NlohmannLaws, !PlainLaws}.

Definition member_map (m : gmap bytes json) (l : list (string * bytes)) : gmap bytes json :=
  foldl (fun m '(k, v) => <[str k := json_str v]> m) m l.
Definition members_size (l : list (string * bytes)) : Z :=
  foldr (fun '(k, v) n => size (str k) + size v + 8 + n) 0 l.
Definition plain_pairs (l : list (string * bytes)) : Prop := Forall (fun '(k, v) => plain_text (str k) /\ plain_text v) l.

Lemma json_object_more l : forall j m n, plain j m n -> plain_pairs l ->
  exists j' n', foldl (fun o '(k, v) => j ← o; json_set j (str k) (json_str v)) (Ret j) l = Ret j' /\
    plain j' (member_map m l) n' /\ n' <= n + members_size l.
Proof.
  induction l as [|[k v] l IH]; intros j m n Hj Hl.
  { exists j, n. split_and!; [done|done|]. cbn. lia. }
  apply Forall_cons in Hl as [[Hk Hv] Hl]. destruct (plain_set j m n (str k) _ _ Hj Hk (plain_str v Hv)) as (j1 & E & Hj1).
  destruct (IH j1 _ _ Hj1 Hl) as (j' & n' & E' & Hj' & Hn). exists j', n'. split_and!.
  - cbn [foldl mbind outcome_bind]. by rewrite E.
  - done.
  - unfold members_size in *. cbn [foldr]. lia.
Qed.
Lemma json_object_plain l : l <> [] -> plain_pairs l ->
  exists j n, Sample.json_object l = Ret j /\ plain j (member_map ∅ l) n /\ n <= members_size l.
Proof.
  destruct l as [|[k v] l]; [done|]. intros _ [[Hk Hv] Hl]%Forall_cons.
  destruct (plain_new (str k) _ _ Hk (plain_str v Hv)) as (j1 & E & Hj1).
  destruct (json_object_more l j1 _ _ Hj1 Hl) as (j' & n' & E' & Hj' & Hn). exists j', n'. split_and!.
  - unfold Sample.json_object. cbn [foldl mbind outcome_bind mret outcome_ret]. by rewrite E.
  - done.
  - unfold members_size in *. cbn [foldr]. lia.
Qed.

Lemma encoded_size l : 3 * size (Encoders.base64_encode l) <= 4 * size l + 12.
Proof.
  unfold Encoders.base64_encode, size. rewrite length_app, text_length, length_replicate. unfold pad_count.
  pose proof (Nat.div_mod (4 * length l + 2) 3 ltac:(lia)). pose proof (Nat.mod_upper_bound (3 - length l mod 3) 3 ltac:(lia)). lia.
Qed.
Lemma url_encoded_size l : 3 * size (Encoders.base64_url_encode l) <= 4 * size l + 12.
Proof.
  pose proof (encoded_size l) as Hs. unfold Encoders.base64_url_encode. rewrite url_encode_map. unfold size in *. by rewrite length_map.
Qed.
Lemma base64_plain c : b64_alphabet c = true \/ c = "="%byte -> plain_char c = true /\ plain_char (to_url c) = true.
Proof. intros [Hc| ->]; [|done]. destruct c; (discriminate || done). Qed.
Lemma encoded_plain l : plain_text (Encoders.base64_encode l).
Proof. unfold Encoders.base64_encode. eapply Forall_impl; [apply padded_alphabet|]. intros c. by apply base64_plain. Qed.
Lemma url_encoded_plain l : plain_text (Encoders.base64_url_encode l).
Proof.
  unfold Encoders.base64_url_encode. rewrite url_encode_map. apply Forall_map.
  eapply Forall_impl; [apply padded_alphabet|]. intros c. by apply base64_plain.
Qed.
Lemma c_str_plain l : plain_text l -> c_str l = l.
Proof. induction 1 as [|c l Hc _ IH]; simpl; [done|]. rewrite decide_False; [by rewrite IH|]. by intros ->. Qed.

(** What the text of a token with the signature [sg] carries. *)
Record token_of (sch : RsaPaddingScheme) (m : message) (sg tok hs ps : bytes) (h j : json) : Prop := {
  token_text : tok = Encoders.base64_url_encode hs ++ str "." ++ Encoders.base64_url_encode ps ++ str "." ++
    Encoders.base64_url_encode sg;
  header_read : json_parse hs = Ret h /\ hs <> [] /\ size hs < 2 ^ 20;
  payload_read : json_parse ps = Ret j /\ ps <> [] /\ size ps < 23 * 2 ^ 26;
  token_small : size tok < 2 ^ 31;
  header_has k v : (k, v) ∈ [("alg"%string, str "RS256"); ("x-az-cvm-purpose"%string, str "secrets-provisioning");
      ("x-az-rsa-padding"%string, RsaPaddingSchemeToString sch)] ->
    json_contains h (str k) = true /\ json_at h (str k) = Ret (json_str v) /\ json_index h (str k) = Ret (h, json_str v);
  payload_secret : json_contains j (str "encryptedSecret") = true;
  payload_message : read_message j = Ret m;
  payload_dump : returns (json_dump j) }.

Lemma small_vector (l : bytes) n : size l < n -> n < 2 ^ 40 -> size l + 2 <= vector_max_size.
Proof. unfold vector_max_size. lia. Qed.
Lemma claim_read j m n k b : plain j m n -> m !! str k = Some (json_str (Encoders.base64_encode b)) -> size b < 2 ^ 32 ->
  Secrets.claim_bytes j k = Ret b.
Proof.
  intros Hj Hk Hb. unfold Secrets.claim_bytes. destruct (plain_member j m n _ _ Hj Hk) as (_ & E & _). rewrite E.
  cbn [mbind outcome_bind]. rewrite get_string_str. cbn [mbind outcome_bind].
  apply encoders_round_trip. by eapply small_vector.
Qed.
Lemma payload_size p c : members_size (Sample.payload_members p c) =
  size (Encoders.base64_encode (Sample.saltData p)) + size (Encoders.base64_encode (Sample.dataNonce p)) +
  size (Encoders.base64_encode (Sample.wrappingNonce p)) + size (Encoders.base64_encode c) +
  size (Encoders.base64_encode (Sample.encryptedSecret p)) + size (Encoders.base64_encode (Sample.encryptedEcdhPrivate p)) +
  size (Encoders.base64_encode (Sample.exportedPublicKeyData p)) + 164.
Proof.
  unfold members_size, Sample.payload_members. cbn [foldr].
  assert (size (str "salt") + size (str "dataNonce") + size (str "keyNonce") + size (str "wrappedAesTransportKey") +
    size (str "encryptedSecret") + size (str "encryptedGuestEcdhPrivateKey") + size (str "ephemeralEcdhPublicKey") = 108) by done.
  lia.
Qed.
(** The payload keeps its members when the times are added. *)
Lemma payload_lookup (a b c d e f g i x : json) (m := <[str "exp" := x]> (<[str "iat" := i]> (
    <[str "ephemeralEcdhPublicKey" := g]> (<[str "encryptedGuestEcdhPrivateKey" := f]> (<[str "encryptedSecret" := e]> (
    <[str "wrappedAesTransportKey" := d]> (<[str "keyNonce" := c]> (<[str "dataNonce" := b]> (
    <[str "salt" := a]> ∅))))))) : gmap bytes json)) :
  m !! str "salt" = Some a /\ m !! str "dataNonce" = Some b /\ m !! str "keyNonce" = Some c /\
  m !! str "wrappedAesTransportKey" = Some d /\ m !! str "encryptedSecret" = Some e /\
  m !! str "encryptedGuestEcdhPrivateKey" = Some f /\ m !! str "ephemeralEcdhPublicKey" = Some g.
Proof. by vm_compute. Qed.
Lemma header_lookup (a b c d : json) (m := <[str "x-az-rsa-padding" := d]> (<[str "x-az-cvm-purpose" := c]> (
    <[str "typ" := b]> (<[str "alg" := a]> ∅))) : gmap bytes json) :
  m !! str "alg" = Some a /\ m !! str "x-az-cvm-purpose" = Some c /\ m !! str "x-az-rsa-padding" = Some d.
Proof. by vm_compute. Qed.
End Token.

(** ** Making and opening the token *)

Section Run.
Context {F : Type -> Type} {S : Type} `{Handler F S}.
Context `{HO : OsslCall -< F} `{HE : EsysCall -< F} `{HD : DmiCall -< F} `{HC : ClockCall -< F} `{HT : ToolCall -< F} `{HR : RandCall -< F} `{Fuel}.
Context `{BoostBase64Laws, !BoostStringLaws} `{NlohmannLaws, !PlainLaws} `{Policy.Utf8} `{!BaseX509 F S}.
Context `{!DigestLaws F S} `{CryptoLaws} `{!OsslCryptoLaws F S} `{!SealLaws} `{!OsslSealLaws F S}.
Context {rsa_open : rsa_scheme -> bytes -> option bytes} `{!GuestKeyLaws F S rsa_open} `{!GuestKeyWraps F S rsa_open}.
Variable line : bytes.
Hypothesis uuid_line : forall s, fst (handle (inj product_uuid) s) = Some line.
Hypothesis clock : forall s, 0 <= fst (handle (inj time0) s) < 2 ^ 62.
Notation uuid := (map X509.tolower line).
Notation never := (fun _ : exn => False).

Lemma new_jwt : exists o, Jwt.new_JsonWebToken (str "RS256") = Ret o /\ Jwt.signature o = [].
Proof.
  assert (Hp : plain_text (str "RS256") /\ plain_text (str "JWT") /\ plain_text (str "alg") /\ plain_text (str "typ"))
    by (by repeat constructor). destruct Hp as (H1' & H2' & H3' & H4').
  unfold Jwt.new_JsonWebToken. destruct (plain_new (str "alg") _ _ H3' (plain_str _ H1')) as (j & E & Hj). rewrite E.
  cbn [mbind outcome_bind]. destruct (plain_set _ _ _ (str "typ") _ _ Hj H4' (plain_str _ H2')) as (j' & E' & _).
  rewrite E'. by eexists.
Qed.

Lemma meets_CreateToken h hm hn j m n s : plain h hm hn -> plain j m n ->
  meets (Jwt.CreateToken {| Jwt.header := h; Jwt.jwt := j; Jwt.signature := [] |}) s (fun '(_, tok) _ =>
    exists hs ps j' i x n', tok = Encoders.base64_url_encode hs ++ str "." ++ Encoders.base64_url_encode ps ++ str "." ++
        Encoders.base64_url_encode [] /\
      json_parse hs = Ret h /\ hs <> [] /\ size hs <= hn /\ json_dump j' = Ret ps /\ json_parse ps = Ret j' /\ ps <> [] /\
      size ps <= n' /\ n' <= n + 60 /\ plain j' (<[str "exp" := json_int x]> (<[str "iat" := json_int i]> m)) n') never.
Proof.
  intros Hh Hj. unfold Jwt.CreateToken, Jwt.addClaim. cbn [Jwt.header Jwt.jwt Jwt.signature].
  destruct (plain_printed _ _ _ Hh) as (hs & Ed & Ehp & Hne & Hsz). apply meets_bind. eapply meets_lift; [exact Ed|].
  eapply meets_answer; [reflexivity|]. intros s1. set (now := fst _).
  assert (Hp : plain_text (str "iat") /\ plain_text (str "exp")) by (by repeat constructor). destruct Hp as [Hpi Hpe].
  pose proof (clock s) as Hnow. fold now in Hnow.
  destruct (plain_set _ _ _ (str "iat") _ _ Hj Hpi (plain_int now ltac:(lia))) as (j1 & E1 & Hj1).
  apply meets_bind. eapply meets_lift; [rewrite E1; reflexivity|]. cbn [Jwt.header Jwt.jwt Jwt.signature].
  eapply meets_answer; [reflexivity|]. intros s2. set (now' := fst _). pose proof (clock s1) as Hnow'. fold now' in Hnow'.
  destruct (plain_set _ _ _ (str "exp") _ _ Hj1 Hpe (plain_int (now' + 1800) ltac:(lia))) as (j2 & E2 & Hj2).
  apply meets_bind. eapply meets_lift; [rewrite E2; reflexivity|]. cbn [Jwt.header Jwt.jwt Jwt.signature].
  destruct (plain_printed _ _ _ Hj2) as (ps & Ep & Epp & Hpne & Hpsz). apply meets_bind. eapply meets_lift; [exact Ep|].
  apply meets_ret. exists hs, ps, j2, now, (now' + 1800). eexists. split_and!; try done.
  change (size (str "iat")) with 3. change (size (str "exp")) with 3. lia.
Qed.

Lemma meets_make_token secret salt p c sch s :
  sealed line secret salt p -> size salt = 32 -> size secret < 2 ^ 30 -> size c <= TPM2_MAX_RSA_KEY_BYTES ->
  meets (Sample.make_token p c sch) s (fun tok _ => exists hs ps h j, token_of sch (message_of p c) [] tok hs ps h j) never.
Proof.
  intros [Hsalt Hn Hkn Hk (der & d & q & Hd & _ & _ & Ep & Hp & _ & _ & Es)] Hsz Hs Hc. unfold Sample.make_token.
  destruct new_jwt as (o & Eo & Hsig). apply meets_bind. eapply meets_lift; [exact Eo|]. rewrite Hsig.
  destruct (json_object_plain (Sample.header_members sch)) as (h & hn & Eh & Hh & Hhn); [done|by destruct sch; repeat constructor|].
  apply meets_bind. eapply meets_lift; [exact Eh|].
  destruct (json_object_plain (Sample.payload_members p c)) as (j & n & Ej & Hj & Hjn); [done| |].
  { repeat (apply Forall_cons; split; [split; [by repeat constructor|apply encoded_plain]|]). constructor. }
  apply meets_bind. eapply meets_lift; [exact Ej|].
  apply meets_bind. eapply meets_mono; [by eapply meets_CreateToken|].
  intros [o' tok] s1 (hs & ps & j' & i & x & n' & -> & Ehp & Hne & Hhs & Edp & Epp & Hpne & Hps & Hn' & Hj'). apply meets_ret.
  assert (Hes : size (Sample.encryptedSecret p) = size secret + 16) by (rewrite Es; apply gcm_seal_size).
  assert (Hep : size (Sample.encryptedEcdhPrivate p) = size der + 16) by (rewrite Ep; apply gcm_seal_size).
  pose proof (encoded_size (Sample.saltData p)). pose proof (encoded_size (Sample.dataNonce p)).
  pose proof (encoded_size (Sample.wrappingNonce p)). pose proof (encoded_size c).
  pose proof (encoded_size (Sample.encryptedSecret p)). pose proof (encoded_size (Sample.encryptedEcdhPrivate p)).
  pose proof (encoded_size (Sample.exportedPublicKeyData p)).
  assert (Hps' : size ps < 23 * 2 ^ 26).
  { rewrite payload_size, Hsalt in Hjn. unfold TPM2_MAX_RSA_KEY_BYTES in *. rewrite Hsalt in *. lia. }
  assert (Hhs' : size hs < 2 ^ 10). { assert (members_size (Sample.header_members sch) < 2 ^ 10) by (by destruct sch). lia. }
  destruct (payload_lookup (json_str (Encoders.base64_encode (Sample.saltData p))) (json_str (Encoders.base64_encode (Sample.dataNonce p)))
    (json_str (Encoders.base64_encode (Sample.wrappingNonce p))) (json_str (Encoders.base64_encode c))
    (json_str (Encoders.base64_encode (Sample.encryptedSecret p))) (json_str (Encoders.base64_encode (Sample.encryptedEcdhPrivate p)))
    (json_str (Encoders.base64_encode (Sample.exportedPublicKeyData p))) (json_int i) (json_int x)) as (L1 & L2 & L3 & L4 & L5 & L6 & L7).
  exists hs, ps, h, j'. unfold TPM2_MAX_RSA_KEY_BYTES in *. split; [reflexivity|split_and!; [done|done|lia]|by split_and!| | | | |].
  - pose proof (url_encoded_size hs). pose proof (url_encoded_size ps). pose proof (url_encoded_size []).
    change (size []) with 0 in *. unfold size in *. rewrite !length_app. change (length (str ".")) with 1%nat. lia.
  - intros k v Hkv. destruct (header_lookup (json_str (str "RS256")) (json_str (str "JWT")) (json_str (str "secrets-provisioning"))
      (json_str (RsaPaddingSchemeToString sch))) as (K1 & K2 & K3). apply (plain_member _ _ _ _ _ Hh).
    rewrite !elem_of_cons, elem_of_nil in Hkv. destruct Hkv as [[= -> ->]|[[= -> ->]|[[= -> ->]|[]]]]; done.
  - by destruct (plain_member _ _ _ _ _ Hj' L5).
  - unfold read_message. erewrite !(claim_read _ _ _ _ _ Hj') by (eassumption || (rewrite ?Hsalt; lia)). reflexivity.
  - by exists ps.
Qed.

(** The library takes the text for one of its tokens. *)
Lemma token_recognised sch m sg tok hs ps h j : token_of sch m sg tok hs ps h j ->
  Jwt.isRealJwt tok Policy.requiredFields = Ret true.
Proof.
  intros [-> (Eh & Hne & Hhs) _ _ Hmem _ _ _].
  pose proof (JwtFacts.url_encode_no_dot hs) as Dh. pose proof (JwtFacts.url_encode_no_dot ps) as Dp.
  pose proof (JwtFacts.url_encode_no_dot sg) as Ds.
  destruct (Hmem "alg"%string _ ltac:(repeat constructor)) as (Ca & _ & Ia).
  destruct (Hmem "x-az-cvm-purpose"%string _ ltac:(repeat constructor)) as (Cp & _ & Ip). unfold Jwt.isRealJwt.
  rewrite JwtFacts.token_first, JwtFacts.token_last by done. rewrite bool_decide_eq_false_2 by lia.
  rewrite !count_byte_app, (count_byte_none _ _ Dh), (count_byte_none _ _ Dp), (count_byte_none _ _ Ds).
  change (count_byte "." (str ".")) with 1%nat. rewrite bool_decide_eq_true_2 by done. cbn [orb negb].
  rewrite JwtFacts.token_header. unfold Jwt.is_real_header.
  rewrite (proj2 (encoders_round_trip hs ltac:(by eapply small_vector))). cbn [mbind outcome_bind]. rewrite Eh.
  cbn [mbind outcome_bind]. rewrite Ca. cbn [negb]. rewrite Ia. cbn [mbind outcome_bind]. rewrite is_string_str. cbn [negb].
  unfold Policy.requiredFields. cbn [Jwt.fields_match]. rewrite Cp. cbn [negb]. rewrite Ip. cbn [mbind outcome_bind].
  by rewrite eq_string_str, bool_decide_eq_true_2.
Qed.
(** The evaluator that holds a token. *)
Definition evaluator_with (p : Z) (h j : json) (sg : bytes) : Policy.PolicyEvaluator :=
  {| Policy.policy := p; Policy.isLegacy := false;
     Policy.token := Some {| Jwt.header := h; Jwt.jwt := j; Jwt.signature := sg |} |}.
Lemma evaluator_of_token sch m tok hs ps h j p s : token_of sch m [] tok hs ps h j ->
  Policy.new_PolicyEvaluator p tok s = Res (Ret (evaluator_with p h j [])) s [].
Proof.
  intros Ht. unfold Policy.new_PolicyEvaluator. rewrite (bind_pure _ _ _ true) by (unfold lift; by erewrite token_recognised).
  destruct Ht as [-> (Eh & Hne & Hhs) (Ep & Hpne & Hps) _ _ _ _ _].
  cbn [negb]. unfold Policy.parse_verified. destruct new_jwt as (o & Eo & Hsig). rewrite Eo.
  erewrite (bind_pure _ _ _ {| Jwt.header := h; Jwt.jwt := j; Jwt.signature := [] |}); [done|].
  rewrite (bind_pure _ _ _ o) by done. rewrite <- Hsig at 2.
  apply JwtFacts.ParseToken_encoded; try done; [by eapply small_vector..|by right].
Qed.

(** What the library answers for a token that carries [secret]. *)
Definition released_as (ev : Z) (secret : bytes) : Secrets.UnprotectResult byte :=
  Secrets.Build_UnprotectResult (size secret) (Some secret) (Some ev).
Definition evaluated (sg : bytes) : Z := match sg with [] => Policy.Encrypted | _ => Z.lor Policy.Encrypted Policy.Signed end.
Lemma meets_unprotect secret sch m tok sg hs ps h j p s : token_of sch m sg tok hs ps h j ->
  meets (Policy.new_PolicyEvaluator p tok) s (fun pe _ => pe = evaluator_with p h j sg) never ->
  Policy.admits (evaluated sg) p = true ->
  open_message rsa_open (SecretsTpm.MakeRsaScheme sch) uuid m = Some secret -> 0 < size secret ->
  message_sizes rsa_open (SecretsTpm.MakeRsaScheme sch) m ->
  (forall der, open_private rsa_open (SecretsTpm.MakeRsaScheme sch) m = Some der -> ~ foreign_key der) ->
  ~ foreign_key (ephemeralEcdhPublicKey m) ->
  meets (Secrets.unprotect_secret tok p) s (fun r _ => r = released_as (evaluated sg) secret) never.
Proof.
  intros Ht Hpe Hadm Hopen Hsz Hm Hf Hq. unfold Secrets.unprotect_secret, Secrets.unprotect, try_all.
  apply meets_bind. eapply meets_mono.
  { apply meets_try, meets_bind. eapply meets_mono; [exact Hpe|]. intros pe s1 ->. apply meets_ret.
    instantiate (1 := fun r _ => r = inl (evaluator_with p h j sg)). done. }
  intros r s1 ->. cbn beta iota. set (pe := evaluator_with p h j sg). destruct Ht as [_ _ _ _ Hmem Hsecret Hread Hdump].
  assert (Hev : Policy.GetEvaluatedPolicy pe = evaluated sg).
  { unfold Policy.GetEvaluatedPolicy. assert (He : Policy.isEncrypted pe = true) by exact Hsecret. rewrite He.
    by destruct sg. }
  assert (Hok : Policy.IsCompliant pe = true) by (unfold Policy.IsCompliant; by rewrite Hev).
  rewrite Hev. apply meets_bind, meets_try. unfold Secrets.release. rewrite Hok. cbn [negb].
  change (Policy.isLegacy pe) with false. cbn iota. unfold Secrets.token_data, Secrets.GetPaddingScheme.
  change (Policy.GetHeader pe) with h. change (Policy.GetClaims pe) with j.
  destruct (Hmem "x-az-rsa-padding"%string _ ltac:(repeat constructor)) as (Cp & Ap & _). rewrite Cp, Ap.
  apply meets_bind, meets_bind. eapply meets_lift.
  { cbn [mbind outcome_bind]. rewrite get_string_str. cbn [mbind outcome_bind]. instantiate (1 := sch). by destruct sch. }
  pose proof (meets_release j m sch line s1 Hread Hdump (uuid_line s1) Hm Hf Hq) as Hr. cbn zeta in Hr. rewrite Hopen in Hr.
  eapply meets_mono; [exact Hr|]. intros r s' ->. cbn beta iota. change (negb (0 =? 0)) with false. cbn iota.
  assert (Hlong : Secrets.to_long (F := F) (S := S) (size secret) = size secret).
  { apply wrap_signed_small; [done|]. apply open_message_size in Hopen. pose proof (secret_fits _ _ _ Hm).
    unfold size in *. cbn [long_bits Secrets.LinuxDecryptor]. lia. }
  destruct secret as [|b secret]; [done|]. cbn [Secrets.marshal_output]. fold (size (b :: secret)). rewrite Hlong.
  by apply meets_ret, meets_ret.
Qed.

(** A token that carries [secret] to this machine. *)
Definition protects (sch : RsaPaddingScheme) (secret tok : bytes) : Prop :=
  exists m hs ps h j, token_of sch m [] tok hs ps h j /\
    open_message rsa_open (SecretsTpm.MakeRsaScheme sch) uuid m = Some secret /\ 0 < size secret /\
    message_sizes rsa_open (SecretsTpm.MakeRsaScheme sch) m /\
    (forall der, open_private rsa_open (SecretsTpm.MakeRsaScheme sch) m = Some der -> ~ foreign_key der) /\
    ~ foreign_key (ephemeralEcdhPublicKey m).

Variable decode : Z -> bytes.
Variable exception_what : bytes.
Lemma meets_EncryptWithPadding data sch s : size data < 2 ^ 30 - 1 ->
  meets (Sample.EncryptWithPadding decode exception_what data sch) s (fun tok _ => protects sch (c_str data ++ [x00]) tok) never.
Proof.
  intros Hs. unfold Sample.EncryptWithPadding. set (secret := c_str data ++ [x00]).
  assert (Hsecret : 0 < size secret < 2 ^ 30).
  { assert (length (c_str data) <= length data)%nat by (clear; induction data as [|b data IH]; simpl; [done|]; case_decide; simpl; lia).
    unfold secret, size in *. rewrite length_app. cbn [length]. lia. }
  apply meets_bind. eapply meets_mono; [apply meets_random|]. intros salt s1 Hsalt%size_of_length.
  apply meets_bind. eapply meets_mono.
  { apply meets_try. apply meets_bind. eapply meets_mono; [apply (meets_seal_steps line uuid_line); lia|].
    intros r s2 Hr. instantiate (1 := fun r _ => exists p, r = Some p /\ sealed line secret salt p).
    destruct Hr as (p & -> & Hp). apply meets_bind. apply meets_new_TssCtx. intros s3. apply meets_ret. by exists p. }
  intros r s2 (p & -> & Hp). apply meets_finally; [intros s'; by eapply delivers_answer|done|].
  apply meets_bind. eapply meets_mono; [by eapply meets_try, meets_wrap_steps|].
  intros r s3 (c & -> & Ho & Hc). cbn beta iota.
  eapply meets_mono; [eapply meets_make_token; [exact Hp|exact Hsalt|lia|lia]|]. intros tok s4 (hs & ps & h & j & Ht).
  destruct (message_opens line secret salt p c _ Hp Ho Hc Hsecret) as (Hopen & Hms & Hf & Hq).
  exists (message_of p c), hs, ps, h, j. split_and!; try done. lia.
Qed.
Lemma unprotect_protected sch secret tok s : protects sch secret tok ->
  res (Secrets.unprotect_secret tok Policy.AllowUnsigned s) = Ret (released_as Policy.Encrypted secret).
Proof.
  intros (m & hs & ps & h & j & Ht & Ho & Hs & Hm & Hf & Hq).
  assert (Hpe : meets (Policy.new_PolicyEvaluator Policy.AllowUnsigned tok) s (fun pe _ => pe = evaluator_with Policy.AllowUnsigned h j []) never).
  { unfold meets. by erewrite evaluator_of_token. }
  by destruct (meets_total _ _ _ (meets_unprotect _ _ _ _ _ _ _ _ _ _ s Ht Hpe eq_refl Ho Hs Hm Hf Hq)) as (r & Hr & s' & ->).
Qed.
Lemma protected_text sch secret tok : protects sch secret tok -> tok <> [] /\ c_str tok = tok /\ u32 (s32 (size tok)) = size tok /\ u32 (size tok) = size tok.
Proof.
  intros (m & hs & ps & h & j & [-> _ _ Hsz _ _ _ _] & _). set (tok := _ ++ _) in *. assert (0 <= size tok) by (unfold size; lia).
  split_and!.
  - intros E%(f_equal length). unfold tok in E. rewrite !length_app in E. change (length (str ".")) with 1%nat in E. cbn in E. lia.
  - apply c_str_plain. unfold tok, plain_text. repeat (apply Forall_app; split); try apply url_encoded_plain; by repeat constructor.
  - rewrite s32_small by lia. unfold u32. apply Z.mod_small. lia.
  - unfold u32. apply Z.mod_small. lia.
Qed.
Lemma take_size (l : bytes) : take (Z.to_nat (size l)) l = l.
Proof. apply take_ge. unfold size. lia. Qed.

Lemma decrypt_protected sch secret tok s : protects sch secret tok -> res (Sample.Decrypt tok s) = Ret secret.
Proof.
  intros Ht. destruct (protected_text _ _ _ Ht) as (_ & Ec & E1 & _). unfold Sample.Decrypt. rewrite Ec, E1, take_size.
  assert (Hm : meets (Secrets.unprotect_secret tok Policy.AllowUnsigned) s (fun r _ => r = released_as Policy.Encrypted secret) never).
  { apply (meets_res _ _ _ _ _ (unprotect_protected sch secret tok s Ht)). done. }
  assert (Hs : 0 < size secret) by (by destruct Ht as (m & hs & ps & h & j & _ & _ & Hs & _)).
  apply (delivers_after (A := Secrets.UnprotectResult byte)). unfold meets in Hm. unfold delivers.
  destruct (Secrets.unprotect_secret tok Policy.AllowUnsigned s) as [[r|e|x] s1 t1]; try done. subst r. cbn [Secrets.ret Secrets.output_secret released_as].
  rewrite (proj2 (Z.leb_gt _ _)), Z.ltb_irrefl by done. rewrite take_size.
  assert (Hp : meets (_ ← Sample.print (Tool.line ([x0a; x0a] ++ str "Secret: " ++ c_str secret));
                      _ ← trig (free_secret (Some secret)); mret secret) s1 (fun r _ => r = secret) never).
  { apply meets_print. intros s2. by eapply meets_answer. }
  by destruct (meets_total _ _ _ Hp) as (r & Hr & s' & ->).
Qed.

Lemma secret_of_text data : Tool.secret_of (data ++ [x00]) (size (data ++ [x00])) = data.
Proof.
  unfold Tool.secret_of, Tool.write_len, size. rewrite Nat2Z.id, length_app. cbn [length].
  replace (length data + 1 - 1)%nat with (length data) by lia.
  rewrite list_lookup_middle, bool_decide_eq_true_2 by done. by rewrite take_app_length.
Qed.
Variable cpuid : Z -> HV_CPUID_RESULT.
Variable version_text : bytes.
Definition tool_args : list bytes := [str "unprotect-secret"; str "--policy"; str "2"].
Lemma tool_protected sch data tok s : protects sch (data ++ [x00]) tok ->
  fst (handle (inj read_all_stdin) s) = tok ->
  exists n, Ev (inj (write_stdout data)) n ∈ evs (Tool.main cpuid version_text tool_args s).
Proof.
  intros Ht Hin. destruct (protected_text _ _ _ Ht) as (Hne & _ & _ & E2).
  set (args := {| Tool.command := str "unprotect-secret"; Tool.token := []; Tool.policy := 2; Tool.help := false;
                  Tool.version := false; Tool.json_output := false |}).
  change (Tool.main cpuid version_text tool_args) with (Tool.cmd_unprotect_secret (F := F) (S := S) args).
  assert (Hw : wp (Tool.cmd_unprotect_secret (F := F) (S := S) args) s (fun _ _ t => exists n, Ev (inj (write_stdout data)) n ∈ t)).
  2: { unfold wp in Hw. by destruct (Tool.cmd_unprotect_secret args s). }
  unfold Tool.cmd_unprotect_secret. apply wp_bind. cbn [Tool.token args]. apply wp_trig. intros input s1 E.
  rewrite E in Hin. cbn in Hin. subst input. destruct tok as [|b tok']; [done|]. set (tok := b :: tok') in *.
  rewrite E2, take_size. apply wp_bind. pose proof (unprotect_protected sch (data ++ [x00]) tok s1 Ht) as Hr.
  unfold wp at 1. change (Tool.policy args) with Policy.AllowUnsigned.
  destruct (Secrets.unprotect_secret tok Policy.AllowUnsigned s1) as [o s2 t2]. cbn in Hr. subst o.
  cbn beta iota delta [res post evs]. cbn [Secrets.ret Secrets.output_secret released_as]. set (n := size (data ++ [x00])).
  assert (0 < n) by (unfold n, size; rewrite length_app; cbn [length]; lia).
  rewrite (proj2 (Z.ltb_lt 0 n)), Z.ltb_irrefl by done. unfold n. rewrite secret_of_text. unfold Tool.print_secret.
  cbn [Tool.json_output args]. wp_go. exists r. eauto with trace.
Qed.
End Run.

Section Theorems.
Context {F : Type -> Type} {S : Type} `{Handler F S}.
Context `{HO : OsslCall -< F} `{HE : EsysCall -< F} `{HD : DmiCall -< F} `{HC : ClockCall -< F} `{HT : ToolCall -< F} `{HR : RandCall -< F} `{Fuel}.
Context `{BoostBase64Laws, !BoostStringLaws} `{NlohmannLaws, !PlainLaws} `{Policy.Utf8} `{!BaseX509 F S}.
Context `{!DigestLaws F S} `{CryptoLaws} `{!OsslCryptoLaws F S} `{!SealLaws} `{!OsslSealLaws F S}.
Context {rsa_open : rsa_scheme -> bytes -> option bytes} `{!GuestKeyLaws F S rsa_open} `{!GuestKeyWraps F S rsa_open}.

(** C7: what is protected for a machine is released on it. With a working TPM and OpenSSL, for every text of
    less than a gibibyte and either padding, [EncryptWithPadding] of the sample returns a token - whatever [rand]
    yields and whatever keys are generated - from which, in every later state of the same machine,
    [unprotect_secret] under [AllowUnsigned] releases the text with its terminator and reports an encrypted
    payload without a signature, [Decrypt] returns the same, and the command-line tool, given the token on its
    standard input, writes exactly the text, without the terminator. *)
Theorem protected_then_released decode exception_what cpuid version_text line data sch s :
  (forall s, fst (handle (inj product_uuid) s) = Some line) ->
  (forall s, 0 <= fst (handle (inj time0) s) < 2 ^ 62) ->
  size data < 2 ^ 30 - 1 ->
  exists tok, res (Sample.EncryptWithPadding decode exception_what data sch s) = Ret tok /\
    forall s', res (Secrets.unprotect_secret tok Policy.AllowUnsigned s') = Ret (released_as Policy.Encrypted (c_str data ++ [x00])) /\
      res (Sample.Decrypt tok s') = Ret (c_str data ++ [x00]) /\
      (fst (handle (inj read_all_stdin) s') = tok ->
       exists n, Ev (inj (write_stdout (c_str data))) n ∈ evs (Tool.main cpuid version_text tool_args s')).
Proof.
  intros Hu Hc Hs.
  destruct (meets_total _ _ _ (meets_EncryptWithPadding line Hu Hc decode exception_what data sch s Hs)) as (tok & Hr & _ & Ht).
  exists tok. split; [done|]. intros s'. split_and!.
  - by eapply unprotect_protected.
  - by eapply decrypt_protected.
  - by eapply tool_protected.
Qed.
End Theorems.

(** ** Witness: a machine that is easy to follow *)

(** OpenSSL as in SecretSpec.v with the encrypting half, and the text that is waiting on the standard input. *)
Record sample_state := { w_ssl : toy_ssl; w_seal : cipher_stage; w_key : key_stage; w_stdin : bytes }.
Definition SampleCall : Type -> Type := sumE ToolCall (sumE RandCall (sumE ClockCall LinuxCall)).
Definition set_seal (s : sample_state) (c : cipher_stage) : sample_state :=
  {| w_ssl := w_ssl s; w_seal := c; w_key := w_key s; w_stdin := w_stdin s |}.
Definition set_key (s : sample_state) (k : key_stage) : sample_state :=
  {| w_ssl := w_ssl s; w_seal := w_seal s; w_key := k; w_stdin := w_stdin s |}.
Definition set_ssl (s : sample_state) (t : toy_ssl) : sample_state :=
  {| w_ssl := t; w_seal := w_seal s; w_key := w_key s; w_stdin := w_stdin s |}.
Definition seal_ossl (R : Type) (e : OsslCall R) (s : sample_state) : R * sample_state :=
  match e in OsslCall T return T * toy_ssl -> T * sample_state with
  | EVP_EncryptInit_gcm _ => fun _ => (1, set_seal s Cipher)
  | EVP_CTRL_GCM_SET_IVLEN _ n => fun d => (1, set_seal (set_ssl s d.2) (WithIv n))
  | EVP_EncryptInit_key _ k iv => fun _ => (1, set_seal s (Keyed k iv [] None))
  | EVP_EncryptUpdate _ d => fun _ =>
      match w_seal s with
      | Keyed k iv _ _ => ((1, gcm_ctr k iv d), set_seal s (Keyed k iv (gcm_ctr k iv d) None)) | _ => ((0, []), s) end
  | EVP_EncryptFinal_ex _ => fun _ => ((1, []), s)
  | EVP_CTRL_GCM_GET_TAG _ _ => fun _ =>
      match w_seal s with Keyed k iv c _ => ((1, gcm_mac k iv c), s) | _ => ((0, []), s) end
  | EVP_PKEY_paramgen_init _ => fun _ => (1, set_key s ParamGen)
  | EVP_PKEY_CTX_set_ec_paramgen_curve_nid _ n => fun _ => (1, set_key s (WithCurve n))
  | EVP_PKEY_paramgen _ => fun _ => ((1, 2%N), s)
  | EVP_PKEY_CTX_new _ => fun d => (1%N, set_key (set_ssl s d.2) Params)
  | EVP_PKEY_keygen_init _ => fun _ => (1, set_key s KeyGen)
  | EVP_PKEY_keygen _ _ => fun _ => ((1, 8%N), s)
  | i2d_PrivateKey _ => fun _ => ((1, [x07]), s)
  | i2d_PUBKEY _ => fun _ => ((1, [x07]), s)
  | _ => fun d => (d.1, set_ssl s d.2)
  end (toy_ossl R e (w_ssl s)).
(** The guest key leaves its texts as they are. *)
Definition open_esys (R : Type) (e : EsysCall R) : R :=
  match e in EsysCall T return T -> T with
  | Esys_RSA_Decrypt _ _ c _ => fun _ => (0, c)
  | _ => fun r => r
  end (esys_accept [] R e).
#[export] Instance toy_sample : Handler SampleCall sample_state := fun R e s =>
  match e with
  | InL t => (match t in ToolCall T return T with
              | cout _ | cerr _ | free_secret _ => tt | write_stdout d => size d | read_all_stdin => w_stdin s
              end, s)
  | InR (InL r) => (match r in RandCall T return T with rand => 1804289383 end, s)
  | InR (InR (InL c)) => (match c in ClockCall T return T with time0 => 1700000000 end, s)
  | InR (InR (InR (InL o))) => seal_ossl R o s
  | InR (InR (InR (InR (InL t)))) => (open_esys R t, s)
  | InR (InR (InR (InR (InR d)))) => (match d in DmiCall T return T with product_uuid => Some (str "0AB") end, s)
  end.
#[refine, export]
Instance toy_sample_digest : DigestLaws SampleCall sample_state := {| acc s _ := t_digest (w_ssl s); hash_of := pad_hash |}.
Proof.
  all: intros; unfold handle; simpl; repeat match goal with H : t_digest _ = _ |- _ => rewrite H end; eauto.
Defined.
#[local] Arguments toy_key : simpl never.
#[local] Arguments N.add : simpl never.
#[refine, export]
Instance toy_sample_crypto : OsslCryptoLaws SampleCall sample_state :=
  {| cipher s _ := t_cipher (w_ssl s); derivation s _ := t_derive (w_ssl s); key_number := toy_key;
     key_point p := (toy_key p, toy_key p); foreign_key _ := False |}.
Proof.
  all: intros; try done; unfold handle; simpl;
    repeat match goal with
           | H : t_cipher _ = _ |- _ => rewrite H
           | H : t_derive _ = _ |- _ => rewrite H
           end; eauto.
  all: subst p; unfold handle; simpl; destruct der as [|b der]; [done|]; simpl; rewrite toy_key_handle; by destruct b.
Defined.
#[export] Instance toy_seal_laws : SealLaws.
Proof.
  split; [done|]. intros k n c. cbn [gcm_mac toy_crypto]. unfold size. rewrite length_take, !length_app, length_replicate. lia.
Qed.
#[refine, export]
Instance toy_sample_seal : OsslSealLaws SampleCall sample_state :=
  {| sealing s _ := w_seal s; generation s _ := w_key s; parameters p := True; generated p := p = 8%N |}.
Proof.
  all: intros; try done; unfold handle; simpl;
    repeat match goal with
           | H : w_seal _ = _ |- _ => rewrite H
           | H : w_key _ = _ |- _ => rewrite H
           end; eauto.
  all: subst; try done; exists [x07]; try exists {| number := [x07]; point := Some ([x07], [x07]) |}; split_and!; done || (intros []).
Defined.
#[refine, export]
Instance toy_sample_key : GuestKeyLaws SampleCall sample_state (fun _ c => Some c) := {| guest_key _ := True |}.
Proof. all: intros; unfold handle; simpl; eauto. Defined.
#[export] Instance toy_sample_wraps : GuestKeyWraps SampleCall sample_state (fun _ c => Some c).
Proof. intros s h x sch _ Hx. exists x. split_and!; try done; unfold TPM2_MAX_RSA_KEY_BYTES; lia. Qed.
#[local] Instance sample_fuel : Fuel := 4%nat.
#[local] Instance sample_utf8 : Policy.Utf8 :=
  {| Policy.utf8_to_bytes l := Some (map byte_of_z l); Policy.utf8_from_bytes l := Some (map z_of_byte l) |}.
Definition sample_start (stdin : bytes) : sample_state :=
  {| w_ssl := toy_start; w_seal := NoCipher; w_key := NoKey; w_stdin := stdin |}.
Definition no_cpuid (_ : Z) : HV_CPUID_RESULT := {| Eax := 0; Ebx := 0; Ecx := 0; Edx := 0 |}.
Lemma protected_then_released_witness : exists tok,
  res (Sample.EncryptWithPadding (F := SampleCall) (fun _ => []) [] (str "secret!") RsaesOaep (sample_start [])) = Ret tok /\
  res (Sample.Decrypt (F := SampleCall) tok (sample_start [])) = Ret (str "secret!" ++ [x00]) /\
  exists n, Ev (inj (write_stdout (str "secret!"))) n ∈
    evs (Tool.main (F := SampleCall) no_cpuid [] tool_args (sample_start tok)).
Proof.
  assert (Hu : forall s : sample_state, fst (handle (E := SampleCall) (inj product_uuid) s) = Some (str "0AB")) by (intros; reflexivity).
  assert (Hc : forall s : sample_state, 0 <= fst (handle (E := SampleCall) (inj time0) s) < 2 ^ 62) by (intros; by vm_compute).
  assert (Hs : size (str "secret!") < 2 ^ 30 - 1) by (by vm_compute).
  destruct (protected_then_released (F := SampleCall) (fun _ => []) [] no_cpuid [] (str "0AB") (str "secret!") RsaesOaep
    (sample_start []) Hu Hc Hs) as (tok & Hr & Hall).
  exists tok. split; [exact Hr|]. split.
  - exact (proj1 (proj2 (Hall (sample_start [])))).
  - exact (proj2 (proj2 (Hall (sample_start tok))) eq_refl).
Defined.
