(* ===== verification/Provisioned.v ===== *)
(** * Signed tokens are released

    The converse of the safety theorems of Secrets.v: a token that carries a message for this
    machine, with a chain of certificates that leads to a default root and a signature of its leaf,
    is accepted under every policy, [RequireAll] included, and its secret is released. *)

From S2P Require Import Prelude Base64 ReturnCodes Json JsonObjects Ossl Bcrypt BcryptFacts BaseX509 LinuxX509 Accepts Jwt Policy Esys SecretsTpm Secrets Cvm SecretsTool Sample GuestTpm Digest SecretSpec SampleFacts.
#[local] Open Scope Z_scope.

Section Signed.
Context {F : Type -> Type} {S : Type} `{Handler F S} `{!BaseX509 F S} `{!X509Accepts F S} `{HC : ClockCall -< F}.
Context `{BoostBase64Laws, !BoostStringLaws} `{NlohmannLaws, !PlainLaws}.
Context {X : exn -> Prop}.

Lemma meets_same {A} (m m' : M F S A) s (Q : A -> S -> Prop) : m s = m' s -> meets m' s Q X -> meets m s Q X.
Proof. unfold meets. by intros ->. Qed.
Lemma delivers_try {A} (m : M F S A) h s (P : A -> S -> Prop) : delivers m s P -> delivers (try_catch m h) s P.
Proof. unfold delivers, try_catch. by destruct (m s) as [[a|e|x] s1 t1]. Qed.

(** The header's [x5c] names a leaf and intermediate certificates, which the platform can read and trusts. *)
Record trusted_header (h : json) (leaf : bytes) (l : list bytes) (suffix : bytes) : Prop := {
  header_chain : exists chain leafj lj, json_index h (str "x5c") = Ret (h, chain) /\ json_is_array chain = true /\
    json_elements chain = leafj :: lj /\ json_get_string leafj = Ret leaf /\
    Forall2 (fun c text => json_get_string c = Ret text) lj l;
  header_readable : readable leaf /\ Forall readable l;
  header_trusted : trusted leaf l suffix }.

Lemma delivers_intermediates lj l : forall s x done, loaded s x done None ->
  Forall2 (fun c text => json_get_string c = Ret text) lj l -> Forall readable l ->
  delivers (Jwt.load_intermediates x lj) s (fun x' s' => loaded s' x' (done ++ l) None).
Proof.
  revert l. induction lj as [|c lj IH]; intros l s x don Hx Hl Hr.
  - apply Forall2_nil_inv_l in Hl as ->. cbn [Jwt.load_intermediates]. apply delivers_ret. by rewrite app_nil_r.
  - apply Forall2_cons_inv_l in Hl as (text & l' & Hc & Hl & ->). apply Forall_cons in Hr as [Hr Hrs].
    cbn [Jwt.load_intermediates]. apply delivers_bind. eapply delivers_lift; [exact Hc|]. apply delivers_bind.
    eapply delivers_mono; [by apply intermediate_loads|]. intros x1 s1 Hx1.
    replace (don ++ text :: l') with ((don ++ [text]) ++ l') by by rewrite <- app_assoc. by apply IH.
Qed.
Lemma delivers_verify_token h leaf l suffix j o0 x sg data s :
  trusted_header h leaf l suffix -> signed_by leaf data sg -> size sg + 2 <= vector_max_size -> loaded s x [] None ->
  delivers (Jwt.verify_token {| Jwt.header := h; Jwt.jwt := j; Jwt.signature := o0 |} x (Encoders.base64_url_encode sg) data suffix) s
    (fun o _ => o = {| Jwt.header := h; Jwt.jwt := j; Jwt.signature := sg |}).
Proof.
  intros [(chain & leafj & lj & Ei & Ea & Ee & El & Hl) [Hrl Hr] Ht] Hs Hsz Hx. unfold Jwt.verify_token.
  apply delivers_bind. eapply delivers_lift; [exact (proj2 (encoders_round_trip sg Hsz))|]. cbn [Jwt.header Jwt.jwt].
  apply delivers_bind. eapply delivers_lift; [exact Ei|]. cbn beta iota. rewrite Ea, Ee.
  apply delivers_bind. eapply delivers_mono; [by eapply delivers_intermediates|]. intros x1 s1 Hx1. cbn beta in Hx1. rewrite app_nil_l in Hx1.
  apply delivers_bind. eapply delivers_lift; [exact El|]. apply delivers_bind.
  eapply delivers_mono; [by apply leaf_loads|]. intros x2 s2 Hx2. cbn beta in Hx2. apply delivers_bind.
  eapply delivers_mono; [by eapply chain_accepts|]. intros b s3 ->. apply delivers_bind, delivers_require; [done|].
  apply delivers_bind. eapply delivers_mono; [by eapply (signature_accepts s2)|]. intros b s4 ->.
  apply delivers_bind, delivers_require; [done|]. by apply delivers_ret.
Qed.

(** What is signed: the text before the last dot. *)
Definition signed_text (hs ps : bytes) : bytes := Encoders.base64_url_encode hs ++ str "." ++ Encoders.base64_url_encode ps.
Lemma meets_signed_token sch m sg tok hs ps h j leaf l p s :
  token_of sch m sg tok hs ps h j -> trusted_header h leaf l X509_SUBJECT_NAME_SUFFIX ->
  signed_by leaf (signed_text hs ps) sg -> 0 < size sg -> size sg + 2 <= vector_max_size ->
  meets (Policy.new_PolicyEvaluator p tok) s (fun pe _ => pe = evaluator_with p h j sg) X.
Proof.
  intros Ht Hh Hs Hne Hsz. unfold Policy.new_PolicyEvaluator.
  eapply meets_pure; [unfold lift; by erewrite token_recognised|]. cbn [negb].
  destruct Ht as [-> (Eh & Hnh & Hhs) (Ep & Hnp & Hps) _ _ _ _ _].
  unfold Policy.parse_verified. destruct new_jwt as (o & Eo & Hsig). apply meets_bind, meets_bind.
  eapply meets_lift; [exact Eo|]. eapply meets_same.
  { apply (JwtFacts.ParseToken_parts _ _ _ _ h j); done || by eapply small_vector. }
  cbn zeta. rewrite bool_decide_eq_false_2 by (apply JwtFacts.url_encode_nonempty; by destruct sg). cbn [negb andb].
  apply meets_bind, meets_delivers. eapply delivers_mono; [apply default_loads|]. intros x s1 Hx.
  apply meets_delivers, delivers_try. eapply delivers_mono; [by eapply delivers_verify_token|]. intros o1 s2 ->. by apply meets_ret.
Qed.
End Signed.

Section Theorems.
Context {F : Type -> Type} {S : Type} `{Handler F S}.
Context `{HO : OsslCall -< F} `{HE : EsysCall -< F} `{HD : DmiCall -< F} `{HC : ClockCall -< F}.
Context `{BoostBase64Laws, !BoostStringLaws} `{NlohmannLaws, !PlainLaws} `{Policy.Utf8} `{!BaseX509 F S} `{!X509Accepts F S}.
Context `{!DigestLaws F S} `{CryptoLaws} `{!OsslCryptoLaws F S}.
Context {rsa_open : rsa_scheme -> bytes -> option bytes} `{!GuestKeyLaws F S rsa_open}.

(** A message for this machine, of the sizes of the protocol, that holds [secret]. *)
Record message_for (sch : RsaPaddingScheme) (uuid : bytes) (m : message) (secret : bytes) : Prop := {
  opens : open_message rsa_open (SecretsTpm.MakeRsaScheme sch) uuid m = Some secret;
  some_secret : secret <> [];
  sizes : message_sizes rsa_open (SecretsTpm.MakeRsaScheme sch) m;
  own_private : forall der, open_private rsa_open (SecretsTpm.MakeRsaScheme sch) m = Some der -> ~ foreign_key der;
  own_public : ~ foreign_key (ephemeralEcdhPublicKey m) }.

(** C9: what is signed and sealed for a machine is released on it. A token whose payload decodes to a message
    that the specification opens, whose header names a readable chain of certificates that the platform
    trusts for the provisioning suffix, and whose signature is the leaf's over the text before the last dot,
    is released under every policy - [RequireAll] with them: [unprotect_secret] returns the secret
    with its length and reports an encrypted and signed payload. *)
Theorem signed_token_released sch m sg tok hs ps h j leaf l line secret policy s :
  (forall s, fst (handle (inj product_uuid) s) = Some line) ->
  token_of sch m sg tok hs ps h j ->
  trusted_header h leaf l X509_SUBJECT_NAME_SUFFIX ->
  signed_by leaf (signed_text hs ps) sg -> 0 < size sg -> size sg + 2 <= vector_max_size ->
  message_for sch (map X509.tolower line) m secret ->
  res (Secrets.unprotect_secret tok policy s) = Ret (released_as (Z.lor Policy.Encrypted Policy.Signed) secret).
Proof.
  intros Hu Ht Hh Hs Hne Hsz [Hopen Hsec Hm Hf Hq]. destruct sg as [|b sg]; [done|].
  assert (Hsize : 0 < size secret) by (destruct secret; [done|]; unfold size; cbn [length]; lia).
  assert (Hadm : Policy.admits (evaluated (b :: sg)) policy = true) by done.
  by destruct (meets_total _ _ _ (meets_unprotect line Hu _ _ _ _ _ _ _ _ _ policy s Ht
    (meets_signed_token _ _ _ _ _ _ _ _ _ _ policy s Ht Hh Hs Hne Hsz) Hadm Hopen Hsize Hm Hf Hq)) as (r & Hr & s' & ->).
Qed.
End Theorems.

(** ** Witness: a store that knows one path *)

(** The handle of a certificate is the certificate. *)
Definition ptr_of (der : bytes) : ptr := N.pos (encode der).
Definition cert_at (p : ptr) : bytes := match p with N.pos q => default [] (decode q) | N0 => [] end.
Lemma cert_at_ptr der : cert_at (ptr_of der) = der.
Proof. unfold cert_at, ptr_of. by rewrite decode_encode. Qed.

Record prov_state := { p_ssl : toy_ssl; p_verify : verify_stage; p_digest : option (bytes * bytes) }.
Definition ProvCall : Type -> Type := sumE ClockCall LinuxCall.
Definition set_verify (s : prov_state) (v : verify_stage) : prov_state :=
  {| p_ssl := p_ssl s; p_verify := v; p_digest := p_digest s |}.
Definition set_digest (s : prov_state) (d : option (bytes * bytes)) : prov_state :=
  {| p_ssl := p_ssl s; p_verify := p_verify s; p_digest := d |}.
Definition root_ders : list bytes :=
  map (fun text => match Encoders.base64_decode (c_str text) with Ret der => der | _ => [] end) GetTrustedRoots.
Definition toy_anchor : bytes := default [] (head root_ders).
Definition prov_ossl (R : Type) (e : OsslCall R) (s : prov_state) : R * prov_state :=
  match e in OsslCall T return T * toy_ssl -> T * prov_state with
  | d2i_X509 der => fun _ => (ptr_of der, s)
  | X509_STORE_new | sk_X509_new_null | X509_STORE_CTX_new => fun _ => (1%N, s)
  | X509_STORE_add_cert _ _ | sk_X509_push _ _ => fun _ => (1, s)
  | X509_dup c | X509_get_subject_name c | X509_get_issuer_name c | X509_get_pubkey c | X509_NAME_get_entry c _ => fun _ => (c, s)
  | X509_STORE_CTX_init _ st leaf l => fun _ => (1, set_verify s (Ready st (cert_at leaf) (map cert_at l)))
  | X509_STORE_CTX_set_flags _ _ => fun _ => (tt, s)
  | X509_verify_cert _ => fun _ => (1, set_verify s (Verified toy_anchor))
  | X509_STORE_CTX_get0_chain _ => fun _ => (match p_verify s with Verified a => Some [ptr_of a] | _ => None end, s)
  | X509_NAME_cmp _ _ | X509_cmp _ _ | X509_NAME_get_index_by_NID _ _ _ => fun _ => (0, s)
  | X509_NAME_ENTRY_get_data _ => fun _ => (Some (str "eastus.securecpsprovisioning.cloudapp.net"), s)
  | EVP_DigestVerifyInit _ _ k => fun _ => (1, set_digest s (Some (cert_at k, [])))
  | EVP_DigestVerifyUpdate _ d => fun _ =>
      (1, set_digest s (match p_digest s with Some (k, d0) => Some (k, d0 ++ d) | None => None end))
  | EVP_DigestVerifyFinal _ _ => fun _ => (1, s)
  | _ => fun d => (d.1, {| p_ssl := d.2; p_verify := p_verify s; p_digest := p_digest s |})
  end (toy_ossl R e (p_ssl s)).
#[export] Instance toy_prov : Handler ProvCall prov_state := fun R e s =>
  match e with
  | InL c => (match c in ClockCall T return T with time0 => 1700000000 end, s)
  | InR (InL o) => prov_ossl R o s
  | InR (InR (InL t)) => (esys_accept toy_plain R t, s)
  | InR (InR (InR d)) => (match d in DmiCall T return T with product_uuid => Some (str "0AB") end, s)
  end.
#[refine, export]
Instance toy_prov_digest : DigestLaws ProvCall prov_state := {| acc s _ := t_digest (p_ssl s); hash_of := pad_hash |}.
Proof.
  all: intros; unfold handle; simpl; repeat match goal with H : t_digest _ = _ |- _ => rewrite H end; eauto.
Defined.
#[local] Arguments toy_key : simpl never.
#[local] Arguments N.add : simpl never.
#[refine, export]
Instance toy_prov_crypto : OsslCryptoLaws ProvCall prov_state :=
  {| cipher s _ := t_cipher (p_ssl s); derivation s _ := t_derive (p_ssl s); key_number := toy_key;
     key_point p := (toy_key p, toy_key p); foreign_key _ := False |}.
Proof.
  all: intros; try done; unfold handle; simpl;
    repeat match goal with
           | H : t_cipher _ = _ |- _ => rewrite H
           | H : t_derive _ = _ |- _ => rewrite H
           end; eauto.
  all: subst p; unfold handle; simpl; destruct der as [|b der]; [done|]; simpl; rewrite toy_key_handle; by destruct b.
Defined.
#[refine, export]
Instance toy_prov_key : GuestKeyLaws ProvCall prov_state (fun _ _ => Some toy_plain) := {| guest_key _ := True |}.
Proof. all: intros; unfold handle; simpl; eauto. Defined.
#[local] Arguments ptr_of : simpl never.
#[local] Arguments toy_anchor : simpl never.
#[refine, export]
Instance toy_prov_paths : OsslPaths ProvCall prov_state :=
  {| cert_of := cert_at; name_of := cert_at; well_formed_cert _ := True; subject c := c; issuer c := c;
     common_name _ := str "eastus.securecpsprovisioning.cloudapp.net"; path _ _ _ a := a = toy_anchor; now _ := 0; verifies _ _ _ := True;
     in_store _ _ _ := True; verifying s _ := p_verify s; digesting s _ := p_digest s |}.
Proof.
  all: intros; try done; unfold handle; simpl;
    repeat match goal with
           | H : p_verify _ = _ |- _ => rewrite H
           | H : p_digest _ = _ |- _ => rewrite H
           end; subst; eauto.
  - split; [done|]. apply cert_at_ptr.
  - by destruct e.
  - exists [ptr_of anchor], (ptr_of anchor). split_and!; try done. apply cert_at_ptr.
Defined.

Lemma root_texts : Forall2 (cert_text (F := ProvCall) (S := prov_state)) GetTrustedRoots root_ders.
Proof. repeat constructor; vm_eq. Qed.
#[export] Instance toy_prov_accepts : X509Accepts ProvCall prov_state := openssl_accepts root_ders root_texts.
#[local] Instance prov_utf8 : Policy.Utf8 :=
  {| Policy.utf8_to_bytes l := Some (map byte_of_z l); Policy.utf8_from_bytes l := Some (map z_of_byte l) |}.

Definition prov_header : @json json_tree :=
  JObj [(str "alg", JStr (str "RS256")); (str "typ", JStr (str "JWT")); (str "x-az-cvm-purpose", JStr (str "secrets-provisioning"));
        (str "x-az-rsa-padding", JStr (str "rsaes")); (str "x5c", JArr [JStr (str "AQID"); JStr (str "BAUG")])].
Definition prov_message : message := toy_message (str "0ab") id.
Definition prov_claims : @json json_tree := toy_claims prov_message.
Definition prov_token : bytes :=
  Encoders.base64_url_encode (dump_tree prov_header) ++ str "." ++ Encoders.base64_url_encode (dump_tree prov_claims) ++ str "." ++
  Encoders.base64_url_encode [x09].
Lemma prov_token_of :
  token_of Rsaes prov_message [x09] prov_token (dump_tree prov_header) (dump_tree prov_claims) prov_header prov_claims.
Proof.
  split.
  - reflexivity.
  - split_and!; [vm_eq|vm_compute; discriminate|by vm_compute].
  - split_and!; [vm_eq|vm_compute; discriminate|by vm_compute].
  - by vm_compute.
  - intros k v Hk. rewrite !elem_of_cons, elem_of_nil in Hk.
    destruct Hk as [[= -> ->]|[[= -> ->]|[[= -> ->]|[]]]]; split_and!; vm_eq.
  - vm_eq.
  - vm_eq.
  - exists (dump_tree prov_claims). vm_eq.
Qed.
Lemma prov_header_trusted : trusted_header (F := ProvCall) (S := prov_state) prov_header (str "AQID") [str "BAUG"] X509_SUBJECT_NAME_SUFFIX.
Proof.
  assert (Hread : forall text der, Encoders.base64_decode (c_str text) = Ret der -> readable (F := ProvCall) (S := prov_state) text)
    by (intros text der Hd; by exists der).
  split.
  - exists (JArr [JStr (str "AQID"); JStr (str "BAUG")]), (JStr (str "AQID")), [JStr (str "BAUG")]. split_and!; try reflexivity.
    by repeat constructor.
  - split; [apply (Hread _ [x01; x02; x03]); vm_eq|]. repeat constructor.
    apply (Hread _ [x04; x05; x06]). vm_eq.
  - split; [by vm_compute|]. intros der ders _ _. split_and!; [by vm_compute|by vm_compute|].
    exists toy_anchor. split_and!; [done| |done]. unfold toy_anchor, root_ders, GetTrustedRoots. cbn [map head default]. by left.
Qed.
Lemma prov_message_for : message_for (F := ProvCall) (S := prov_state) (rsa_open := fun _ _ => Some toy_plain) Rsaes
  (map X509.tolower (str "0AB")) prov_message (str "secret!").
Proof.
  split; [vm_eq|discriminate|apply toy_sizes; by left|intros der _ []|intros []].
Qed.
Definition prov_start : prov_state := {| p_ssl := toy_start; p_verify := NoVerify; p_digest := None |}.
Lemma signed_token_released_witness :
  res (Secrets.unprotect_secret (F := ProvCall) prov_token Policy.RequireAll prov_start) = Ret (released_as 3 (str "secret!")).
Proof.
  assert (Hu : forall s : prov_state, fst (handle (E := ProvCall) (inj product_uuid) s) = Some (str "0AB")) by (intros; reflexivity).
  assert (Hv : size [x09] + 2 <= vector_max_size) by (by vm_compute).
  exact (signed_token_released (F := ProvCall) _ _ _ _ _ _ _ _ _ _ _ _ Policy.RequireAll prov_start Hu prov_token_of prov_header_trusted
    (fun _ _ => I) eq_refl Hv prov_message_for).
Defined.
