(* ===== verification/CertGenFacts.v ===== *)
(** * The generated chain is a valid one

    What the certificates of CertGen.v hold, the path validation of RFC 5280 on it ([chain_valid]), and
    OpenSSL's part as laws ([IssueLaws]). [generated_chain_accepted]: the chain [generateCertChain] makes is
    accepted by [VerifyCertChain] for the provisioning suffix until its leaf expires, and
    [VerifySignature] accepts what [SignData] signs. *)

From S2P Require Import Prelude Base64 ReturnCodes Json JsonObjects Ossl BaseX509 LinuxX509 Accepts Jwt CertGen Esys SecretsTpm GuestTpm Digest SecretSpec SampleFacts Provisioned.
#[local] Open Scope Z_scope.

Module CertSpec.
Import CertGen.

(** ** Certificates *)

Definition name : Type := list (bytes * bytes).
(** Keys are numbered. A key identifier is the hash of a key. *)
Inductive extension :=
| BasicConstraints (ca : bool) (pathlen : option Z)
| KeyUsage (uses : list bytes)
| SubjectKeyId (key : Z)
| AuthorityKeyId (key : Z).
Record certificate := {
  c_version : Z; c_serial : Z; c_from : Z; c_until : Z; c_subject : name; c_issuer : name;
  c_key : option Z; c_extensions : list extension; c_signer : option Z }.
Definition blank : certificate :=
  {| c_version := 0; c_serial := 0; c_from := 0; c_until := 0; c_subject := []; c_issuer := []; c_key := None;
     c_extensions := []; c_signer := None |}.

Definition find_map {A B} (f : A -> option B) (l : list A) : option B := head (omap f l).
Definition constraints (c : certificate) : option (bool * option Z) :=
  find_map (fun e => match e with BasicConstraints ca n => Some (ca, n) | _ => None end) (c_extensions c).
Definition usage (c : certificate) : list bytes :=
  default [] (find_map (fun e => match e with KeyUsage l => Some l | _ => None end) (c_extensions c)).
Definition subject_key (c : certificate) : option Z :=
  find_map (fun e => match e with SubjectKeyId k => Some k | _ => None end) (c_extensions c).
Definition authority_key (c : certificate) : option Z :=
  find_map (fun e => match e with AuthorityKeyId k => Some k | _ => None end) (c_extensions c).
Definition common_name_of (n : name) : bytes :=
  default [] (find_map (fun e => if decide (e.1 = str "CN") then Some e.2 else None) n).

(** [X509V3_EXT_conf_nid]: the text of an extension, in the context of an issuer and a subject. *)
Fixpoint fields (text : bytes) : list bytes :=
  match text with
  | [] => [[]]
  | c :: text' =>
      match c, fields text' with
      | ","%byte, l => [] :: l
      | _, [] => [[c]]
      | _, w :: l => (c :: w) :: l
      end
  end.
Definition items (text : bytes) : list bytes :=
  match fields text with w :: l => if decide (w = str "critical") then l else w :: l | [] => [] end.
Definition number (text : bytes) : Z := foldl (fun n c => 10 * n + (z_of_byte c - 48)) 0 text.
Definition conf (issuer c : certificate) (nid : Z) (text : bytes) : option extension :=
  if nid =? NID_basic_constraints then
    match items text with
    | ca :: l =>
        let n := match l with w :: _ => Some (number (drop 8 w)) | [] => None end in
        if decide (ca = str "CA:TRUE") then Some (BasicConstraints true n)
        else if decide (ca = str "CA:FALSE") then Some (BasicConstraints false n) else None
    | [] => None
    end
  else if nid =? NID_key_usage then Some (KeyUsage (items text))
  else if nid =? NID_subject_key_identifier then SubjectKeyId <$> c_key c
  else if nid =? NID_authority_key_identifier then AuthorityKeyId <$> subject_key issuer
  else None.

(** ** Path validation (RFC 5280, section 6, with the checks of [X509_V_FLAG_X509_STRICT]) *)

Definition in_force (t : Z) (c : certificate) : bool :=
  (c_version c =? 2) && (0 <? c_serial c) && (c_from c <=? t) && (t <=? c_until c) && bool_decide (is_Some (constraints c)) &&
  bool_decide (is_Some (c_key c)) && bool_decide (subject_key c = c_key c) && negb (bool_decide (c_subject c = [])).
(** [i] signed [c], and [c] says so. *)
Definition issued_by (i c : certificate) : bool :=
  bool_decide (c_issuer c = c_subject i) && bool_decide (c_signer c = c_key i).
(** [i] may issue a certificate with [n] intermediate ones below it. *)
Definition may_issue (n : Z) (i : certificate) : bool :=
  match constraints i with
  | Some (true, limit) => match limit with Some m => n <=? m | None => true end && bool_decide (str "keyCertSign" ∈ usage i)
  | _ => false
  end.
Fixpoint path_from (t n : Z) (l : list certificate) : bool :=
  match l with
  | [] => false
  | [root] => in_force t root && issued_by root root
  | c :: (i :: _) as rest =>
      in_force t c && issued_by i c && bool_decide (authority_key c = subject_key i) && may_issue n i && path_from t (n + 1) rest
  end.
(** A chain from its leaf to a root that signed itself. *)
Definition chain_valid (t : Z) (l : list certificate) : bool := path_from t 0 l.

(** A draft is filled field by field. *)
Definition with_version v c : certificate :=
  {| c_version := v; c_serial := c_serial c; c_from := c_from c; c_until := c_until c;
     c_subject := c_subject c; c_issuer := c_issuer c; c_key := c_key c; c_extensions := c_extensions c; c_signer := c_signer c |}.
Definition with_serial v c : certificate :=
  {| c_version := c_version c; c_serial := v; c_from := c_from c; c_until := c_until c;
     c_subject := c_subject c; c_issuer := c_issuer c; c_key := c_key c; c_extensions := c_extensions c; c_signer := c_signer c |}.
Definition with_from v c : certificate :=
  {| c_version := c_version c; c_serial := c_serial c; c_from := v; c_until := c_until c;
     c_subject := c_subject c; c_issuer := c_issuer c; c_key := c_key c; c_extensions := c_extensions c; c_signer := c_signer c |}.
Definition with_until v c : certificate :=
  {| c_version := c_version c; c_serial := c_serial c; c_from := c_from c; c_until := v;
     c_subject := c_subject c; c_issuer := c_issuer c; c_key := c_key c; c_extensions := c_extensions c; c_signer := c_signer c |}.
Definition with_subject v c : certificate :=
  {| c_version := c_version c; c_serial := c_serial c; c_from := c_from c; c_until := c_until c;
     c_subject := v; c_issuer := c_issuer c; c_key := c_key c; c_extensions := c_extensions c; c_signer := c_signer c |}.
Definition with_issuer v c : certificate :=
  {| c_version := c_version c; c_serial := c_serial c; c_from := c_from c; c_until := c_until c;
     c_subject := c_subject c; c_issuer := v; c_key := c_key c; c_extensions := c_extensions c; c_signer := c_signer c |}.
Definition with_key v c : certificate :=
  {| c_version := c_version c; c_serial := c_serial c; c_from := c_from c; c_until := c_until c;
     c_subject := c_subject c; c_issuer := c_issuer c; c_key := Some v; c_extensions := c_extensions c; c_signer := c_signer c |}.
Definition with_extension v c : certificate :=
  {| c_version := c_version c; c_serial := c_serial c; c_from := c_from c; c_until := c_until c;
     c_subject := c_subject c; c_issuer := c_issuer c; c_key := c_key c; c_extensions := c_extensions c ++ [v]; c_signer := c_signer c |}.
Definition with_signer v c : certificate :=
  {| c_version := c_version c; c_serial := c_serial c; c_from := c_from c; c_until := c_until c;
     c_subject := c_subject c; c_issuer := c_issuer c; c_key := c_key c; c_extensions := c_extensions c; c_signer := Some v |}.
End CertSpec.

Import CertSpec.

(** What OpenSSL keeps for this part: keys by their number, names, requests, certificates, extensions. *)
Inductive object := Key (k : Z) | Name (n : name) | Request (n : name) (k : option Z) | Cert (c : certificate) | Ext (e : extension).

Definition name_size (n : name) : Z := foldr (fun w m => size w.1 + size w.2 + m) 0 n.
Lemma name_size_nonneg n : 0 <= name_size n.
Proof. induction n; unfold name_size, size in *; cbn [foldr]; lia. Qed.
Lemma name_size_app n n' : name_size (n ++ n') = name_size n + name_size n'.
Proof. induction n; unfold name_size in *; cbn [foldr app]; lia. Qed.
(** Certificates of usual size. *)
Definition ordinary (c : certificate) : Prop :=
  0 <= c_serial c < 2 ^ 31 /\ (length (c_extensions c) <= 8)%nat /\
  name_size (c_subject c ++ c_issuer c) < 2 ^ 16 /\
  common_name_of (c_subject c) <> [].

Section Laws.
Context (F : Type -> Type) (S : Type) `{HF : Handler F S} `{HO : OsslCall -< F} `{HI : IssueCall -< F}.
(** The objects [heap s] a state holds, and how a call makes one, or changes one. *)
Context (heap : S -> gmap ptr object).
Definition makes (e : IssueCall ptr) (s : S) (o : object) : Prop := exists p s',
  handle (inj e) s = (p, s') /\ is_null p = false /\ heap s !! p = None /\ heap s' = <[p := o]> (heap s).
Definition puts {R} (e : IssueCall R) (s : S) (good : R -> Prop) (p : ptr) (o : object) : Prop := exists r s',
  handle (inj e) s = (r, s') /\ good r /\ heap s' = <[p := o]> (heap s).
Definition answers {R} (e : IssueCall R) (s : S) (good : R -> Prop) : Prop := exists r s',
  handle (inj e) s = (r, s') /\ good r /\ heap s' = heap s.
(** A handle to a part of an object. *)
Definition shows {E} `{E -< F} (e : E ptr) (s : S) (o : object) : Prop := exists p s',
  handle (inj e) s = (p, s') /\ is_null p = false /\ heap s ⊆ heap s' /\ heap s' !! p = Some o.
End Laws.

Class IssueLaws (F : Type -> Type) (S : Type) `{HF : Handler F S} `{HO : OsslCall -< F} `{HI : IssueCall -< F}
  `{OP : !OsslPaths F S} := {
  heap : S -> gmap ptr object;
  signing : S -> ptr -> option (Z * bytes);
  signs : Z -> bytes -> bytes -> Prop;
  signature_size : Z -> Z;
  der_of : certificate -> bytes;
  issue_time {R} s (e : IssueCall R) : now s <= now (snd (handle (inj e) s));
  issue_store {R} s (e : IssueCall R) st c : in_store s st c -> in_store (snd (handle (inj e) s)) st c;
  (* keys *)
  ossl_heap {R} s (e : OsslCall R) : match e with EVP_PKEY_keygen _ _ | X509_get_subject_name _ => False | _ => True end ->
    heap (snd (handle (inj e) s)) = heap s;
  pkey_new s : answers F S heap EVP_PKEY_new s (fun p => heap s !! p = None);
  rsa_new s : answers F S heap EVP_PKEY_CTX_new_id_RSA s (fun p => is_null p = false);
  keygen_init s ctx : 0 < fst (handle (inj (EVP_PKEY_keygen_init ctx)) s);
  keygen_bits s ctx : answers F S heap (EVP_PKEY_CTX_set_rsa_keygen_bits ctx 2048) s (fun rc => 0 < rc);
  keygen s ctx key : heap s !! key = None -> exists k p s', handle (inj (EVP_PKEY_keygen ctx key)) s = ((1, p), s') /\
    heap s !! p = None /\ heap s' = <[p := Key k]> (heap s);
  ctx_free s ctx : answers F S heap (EVP_PKEY_CTX_free ctx) s (fun _ => True);
  (* requests *)
  req_new s : makes F S heap X509_REQ_new s (Request [] None);
  name_new s : makes F S heap X509_NAME_new s (Name []);
  name_add s p n field text : heap s !! p = Some (Name n) ->
    puts F S heap (X509_NAME_add_entry_by_txt p field text) s (fun rc => rc = 1) p (Name (n ++ [(field, text)]));
  req_subject s p p' n n' k : heap s !! p = Some (Request n k) -> heap s !! p' = Some (Name n') ->
    puts F S heap (X509_REQ_set_subject_name p p') s (fun rc => rc = 1) p (Request n' k);
  req_key s p p' n k k' : heap s !! p = Some (Request n k) -> heap s !! p' = Some (Key k') ->
    puts F S heap (X509_REQ_set_pubkey p p') s (fun rc => rc = 1) p (Request n (Some k'));
  req_sign s p p' n k k' : heap s !! p = Some (Request n k) -> heap s !! p' = Some (Key k') ->
    answers F S heap (X509_REQ_sign p p' SHA256) s (fun rc => 0 < rc);
  req_name s p n k : heap s !! p = Some (Request n k) -> shows F S heap (X509_REQ_get_subject_name p) s (Name n);
  req_pubkey s p n k : heap s !! p = Some (Request n (Some k)) -> shows F S heap (X509_REQ_get0_pubkey p) s (Key k);
  (* certificates *)
  cert_new s : makes F S heap X509_new s (Cert blank);
  cert_version s p c v : heap s !! p = Some (Cert c) ->
    puts F S heap (X509_set_version p v) s (fun rc => rc = 1) p (Cert (with_version v c));
  cert_serial s p c v : heap s !! p = Some (Cert c) ->
    puts F S heap (X509_set_serialNumber p v) s (fun rc => rc = 1) p (Cert (with_serial v c));
  cert_from s p c adj : heap s !! p = Some (Cert c) -> exists t, now s <= t <= now (snd (handle (inj (X509_gmtime_adj_notBefore p adj)) s)) /\
    puts F S heap (X509_gmtime_adj_notBefore p adj) s (fun q => is_null q = false) p (Cert (with_from (t + adj) c));
  cert_until s p c adj : heap s !! p = Some (Cert c) -> exists t, now s <= t <= now (snd (handle (inj (X509_gmtime_adj_notAfter p adj)) s)) /\
    puts F S heap (X509_gmtime_adj_notAfter p adj) s (fun q => is_null q = false) p (Cert (with_until (t + adj) c));
  cert_subject s p p' c n : heap s !! p = Some (Cert c) -> heap s !! p' = Some (Name n) ->
    puts F S heap (X509_set_subject_name p p') s (fun rc => rc = 1) p (Cert (with_subject n c));
  cert_issuer s p p' c n : heap s !! p = Some (Cert c) -> heap s !! p' = Some (Name n) ->
    puts F S heap (X509_set_issuer_name p p') s (fun rc => rc = 1) p (Cert (with_issuer n c));
  cert_name s p c : heap s !! p = Some (Cert c) -> shows F S heap (X509_get_subject_name p) s (Name (c_subject c));
  cert_key s p p' c k : heap s !! p = Some (Cert c) -> heap s !! p' = Some (Key k) ->
    puts F S heap (X509_set_pubkey p p') s (fun rc => rc = 1) p (Cert (with_key k c));
  ext_conf s i p ci c nid text e : heap s !! i = Some (Cert ci) -> heap s !! p = Some (Cert c) -> conf ci c nid text = Some e ->
    makes F S heap (X509V3_EXT_conf_nid i p nid text) s (Ext e);
  ext_add s p p' c e : heap s !! p = Some (Cert c) -> heap s !! p' = Some (Ext e) ->
    puts F S heap (X509_add_ext p p' (-1)) s (fun rc => rc = 1) p (Cert (with_extension e c));
  cert_sign s p p' c k : heap s !! p = Some (Cert c) -> heap s !! p' = Some (Key k) ->
    puts F S heap (X509_sign p p' SHA256) s (fun rc => 0 < rc) p (Cert (with_signer k c));
  cert_length s p c : heap s !! p = Some (Cert c) -> answers F S heap (i2d_X509_length p) s (fun n => n = size (der_of c));
  cert_der s p c : heap s !! p = Some (Cert c) -> answers F S heap (i2d_X509 p) s (fun r => r = (size (der_of c), der_of c));
  (* what the certificates say *)
  der_size c : ordinary c -> size (der_of c) < 2 ^ 30;
  der_reads c : ordinary c -> is_Some (c_signer c) -> well_formed_cert (der_of c);
  der_name c : ordinary c -> common_name (subject (der_of c)) = common_name_of (c_subject c);
  der_issuer c : ordinary c -> c_subject c = c_issuer c -> subject (der_of c) = issuer (der_of c);
  der_path t leaf l root : chain_valid t (leaf :: l ++ [root]) = true -> path t (der_of leaf) (map der_of l) (der_of root);
  der_verifies c k data sig : ordinary c -> c_key c = Some k -> signs k data sig -> verifies (der_of c) data sig;
  (* signatures *)
  sign_init s ctx p k : heap s !! p = Some (Key k) ->
    exists s', handle (inj (EVP_DigestSignInit ctx SHA256 p)) s = (1, s') /\ signing s' ctx = Some (k, []);
  sign_update s ctx k d d' : signing s ctx = Some (k, d) ->
    exists s', handle (inj (EVP_DigestSignUpdate ctx d')) s = (1, s') /\ signing s' ctx = Some (k, d ++ d');
  sign_length s ctx k d : signing s ctx = Some (k, d) -> 0 <= signature_size k < 2 ^ 31 /\
    exists s', handle (inj (EVP_DigestSignFinal_length ctx)) s = ((1, signature_size k), s') /\ signing s' ctx = Some (k, d);
  sign_final s ctx k d n : signing s ctx = Some (k, d) -> signature_size k <= n -> exists sig,
    fst (handle (inj (EVP_DigestSignFinal ctx n)) s) = (1, sig) /\ size sig = signature_size k /\ signs k d sig }.

Section Issue.
Context {F : Type -> Type} {S : Type} `{HF : Handler F S} `{HO : OsslCall -< F} `{HI : IssueCall -< F}.
Context `{OP : !OsslPaths F S} `{IL : !IssueLaws F S}.
Context `{BoostBase64Laws, !BoostStringLaws}.
Import X509 CertGen.

(** [p] is [o], an object made since the heap was [h] at time [t]; what was in [h] is as it was. *)
Definition draft (h : gmap ptr object) (t : Z) (p : ptr) (o : object) (s : S) : Prop :=
  h ⊆ heap s /\ h !! p = None /\ heap s !! p = Some o /\ t <= now s.
Lemma draft_grow h t p o s s' : draft h t p o s -> heap s ⊆ heap s' -> now s <= now s' -> draft h t p o s'.
Proof. intros (? & ? & ? & ?) ? ?. split_and!; [by etrans|done|by eapply lookup_weaken|lia]. Qed.
Lemma draft_base h t h' t' p o s : draft h t p o s -> h' ⊆ h -> t' <= t -> draft h' t' p o s.
Proof. intros (? & ? & ? & ?) ? ?. split_and!; [by etrans|by eapply lookup_weaken_None|done|lia]. Qed.

(** The objects and the stores stay as they are. *)
Definition kept (s s' : S) : Prop := heap s' = heap s /\ now s <= now s' /\ forall st c, in_store s st c -> in_store s' st c.
#[local] Instance kept_trans : Transitive kept.
Proof. intros a b c (? & ? & ?) (? & ? & ?). split_and!; [congruence|lia|auto]. Qed.

Lemma draft_now h t p o s : draft h t p o s -> draft h (now s) p o s.
Proof. intros (? & ? & ? & ?). by split_and!. Qed.

Lemma next_makes {A} e s o (k : ptr -> M F S A) P : makes F S heap e s o ->
  (forall p s', is_null p = false -> draft (heap s) (now s) p o s' -> delivers (k p) s' P) -> delivers (trig e ≫= k) s P.
Proof.
  intros (p & s' & E & Hn & Hf & Hh) Hk. eapply next_call; [exact E|]. apply Hk; [done|].
  pose proof (issue_time s e) as T. rewrite E in T. cbn [snd] in T. split_and!; rewrite ?Hh; [|done| |done].
  - by apply insert_subseteq.
  - by rewrite lookup_insert_eq.
Qed.
Lemma next_puts {R A} (e : IssueCall R) h t p o o' s good (k : R -> M F S A) P : draft h t p o s ->
  puts F S heap e s good p o' -> (forall r s', good r -> draft h t p o' s' -> now (snd (handle (inj e) s)) = now s' -> delivers (k r) s' P) -> delivers (trig e ≫= k) s P.
Proof.
  intros (Hg & Hf & Ho & Ht) (r & s' & E & Hr & Hh) Hk. eapply next_call; [exact E|].
  pose proof (issue_time s e) as T. rewrite E in *. cbn [snd] in T. apply Hk; [done| |done]. split_and!; rewrite ?Hh; [|done| |lia].
  - by apply insert_subseteq_r.
  - by rewrite lookup_insert_eq.
Qed.
Lemma next_answers {R A} (e : IssueCall R) s good (k : R -> M F S A) P : answers F S heap e s good ->
  (forall r s', good r -> kept s s' -> delivers (k r) s' P) -> delivers (trig e ≫= k) s P.
Proof.
  intros (r & s' & E & Hr & Hh) Hk. eapply next_call; [exact E|]. apply Hk; [done|].
  pose proof (issue_time s e) as T. pose proof (issue_store s e) as St. rewrite E in *. by split_and!.
Qed.
Lemma next_shows {A} (e : IssueCall ptr) s o (k : ptr -> M F S A) P : shows F S heap e s o ->
  (forall p s', is_null p = false -> heap s ⊆ heap s' -> heap s' !! p = Some o -> now s <= now s' -> delivers (k p) s' P) ->
  delivers (trig e ≫= k) s P.
Proof.
  intros (p & s' & E & Hn & Hh & Ho) Hk. eapply next_call; [exact E|].
  pose proof (issue_time s e) as T. rewrite E in T. by apply Hk.
Qed.
Lemma next_ossl {R A} (e : OsslCall R) s (k : R -> M F S A) P :
  match e with EVP_PKEY_keygen _ _ | X509_get_subject_name _ => False | _ => True end ->
  (forall s', heap s' = heap s -> now s <= now s' -> delivers (k (fst (handle (inj e) s))) s' P) -> delivers (trig e ≫= k) s P.
Proof. intros He Hk. eapply next_answer; [reflexivity|]. apply Hk; [by apply ossl_heap|apply time_passes]. Qed.

Lemma delivers_generateKey s : delivers (generateKey 2048) s (fun p s' => exists k, draft (heap s) (now s) p (Key k) s').
Proof.
  unfold generateKey. eapply next_answers; [apply pkey_new|]. intros key s1 Hkey (G1 & T1 & _).
  eapply next_answers; [apply rsa_new|]. intros ctx s2 -> (G2 & T2 & _).
  eapply next_ossl; [done|]. intros s3 G3 T3. pose proof (keygen_init s2 ctx) as Hi.
  rewrite (proj2 (Z.leb_gt _ _)) by done. eapply next_answers; [apply keygen_bits|]. intros rc s4 Hrc (G4 & T4 & _).
  rewrite (proj2 (Z.leb_gt _ _)) by done. assert (G04 : heap s4 = heap s) by congruence.
  destruct (keygen s4 ctx key) as (k & p & s5 & E & Hp & G5); [by rewrite G04|].
  pose proof (time_passes s4 (EVP_PKEY_keygen ctx key)) as T5. rewrite E in T5. cbn [snd] in T5.
  eapply next_call; [exact E|]. cbn [Z.leb Z.compare]. eapply next_answers; [apply ctx_free|]. intros _ s6 _ (G6 & T6 & _).
  apply delivers_ret. exists k. rewrite G04 in *. split_and!; [|done| |lia]; rewrite G6, G5.
  - by apply insert_subseteq.
  - by rewrite lookup_insert_eq.
Qed.

Lemma must_one {A} rc w (k : unit -> M F S A) s P : rc = 1 -> delivers (k tt) s P -> delivers (must_be_one rc w ≫= k) s P.
Proof. intros -> Hk. by apply delivers_bind, delivers_ret. Qed.
Lemma must_set {A} rc w (k : unit -> M F S A) s P : 0 < rc -> delivers (k tt) s P -> delivers (must_be_set rc w ≫= k) s P.
Proof. intros Hr Hk. unfold must_be_set. rewrite (proj2 (Z.eqb_neq _ _)) by lia. by apply delivers_bind, delivers_ret. Qed.
Lemma must_some {A} p w (k : unit -> M F S A) s P : is_null p = false -> delivers (k tt) s P -> delivers (must_be_some p w ≫= k) s P.
Proof. intros Hp Hk. unfold must_be_some. rewrite Hp. by apply delivers_bind, delivers_ret. Qed.
Lemma next_field {A} h t p n s field text w (k : unit -> M F S A) P : draft h t p (Name n) s ->
  (forall s', draft h t p (Name (n ++ [(field, text)])) s' -> delivers (k tt) s' P) ->
  delivers (trig (X509_NAME_add_entry_by_txt p field text) ≫= fun rc => must_be_set rc w ≫= k) s P.
Proof.
  intros Hd Hk. eapply next_puts; [exact Hd|apply name_add, Hd|]. cbn beta. intros rc s' -> Hd' _.
  by apply must_set; [|apply Hk].
Qed.

(** The name of a request. *)
Definition request_name (cn : bytes) : name :=
  [(str "C", str "US"); (str "ST", str "State"); (str "O", str "Organization"); (str "CN", c_str cn)].
Lemma delivers_generateCSR key k cn s : heap s !! key = Some (Key k) ->
  delivers (generateCSR key cn) s (fun p s' => draft (heap s) (now s) p (Request (request_name cn) (Some k)) s').
Proof.
  intros Hkey. unfold generateCSR. eapply next_makes; [apply req_new|]. intros req s1 Hr D1.
  eapply next_makes; [apply name_new|]. intros n s2 _ N2. do 4 (eapply next_field; [eassumption|]; intros ? ?).
  match goal with D : draft _ _ n (Name ?l) ?s' |- _ => change l with (request_name cn) in D; set (s6 := s') in *; rename D into N6 end.
  assert (D6 : draft (heap s) (now s) req (Request [] None) s6) by (eapply draft_grow; [exact D1|apply N6..]).
  eapply next_puts; [exact D6|eapply req_subject; [apply D6|apply N6]|]. cbn beta. intros rc s7 -> D7 _. cbn [Z.eqb].
  assert (K7 : heap s7 !! key = Some (Key k)) by (by eapply lookup_weaken; [|apply D7]).
  eapply next_puts; [exact D7|eapply req_key; [apply D7|exact K7]|]. cbn beta. intros rc s8 -> D8 _.
  apply must_set; [done|]. assert (K8 : heap s8 !! key = Some (Key k)) by (by eapply lookup_weaken; [|apply D8]).
  eapply next_answers; [eapply req_sign; [apply D8|exact K8]|]. cbn beta. intros rc s9 Hrc (G9 & T9 & _).
  apply must_set; [done|]. apply delivers_ret. eapply draft_grow; [exact D8|by rewrite G9|done].
Qed.

Lemma delivers_extension h t p i c ci nid text w e s : draft h t p (Cert c) s -> heap s !! i = Some (Cert ci) ->
  conf ci c nid text = Some e -> delivers (add_extension p i nid text w) s (fun _ s' => draft h t p (Cert (with_extension e c)) s').
Proof.
  intros D Hi He. unfold add_extension. eapply next_makes; [eapply ext_conf; [exact Hi|apply D|exact He]|].
  intros x s1 Hx X. rewrite Hx. assert (D1 : draft h t p (Cert c) s1) by (eapply draft_grow; [exact D|apply X..]).
  eapply next_puts; [exact D1|eapply ext_add; [apply D1|apply X]|]. cbn beta. intros rc s2 -> D2 _. by apply delivers_ret.
Qed.

(** The extensions of a certificate for the key [k], issued by the key [ik] or by itself. *)
Definition extensions (is_ca : bool) (limit : option Z) (k : Z) (ik : option Z) : list extension :=
  [BasicConstraints is_ca limit; KeyUsage (items (key_usage is_ca)); SubjectKeyId k] ++
  match ik with Some ik => [AuthorityKeyId ik] | None => [] end.
Definition with_extensions (l : list extension) (c : certificate) : certificate := foldl (fun c e => with_extension e c) c l.
Lemma with_extensions_app l c : with_extensions l c =
  {| c_version := c_version c; c_serial := c_serial c; c_from := c_from c; c_until := c_until c;
     c_subject := c_subject c; c_issuer := c_issuer c; c_key := c_key c; c_extensions := c_extensions c ++ l; c_signer := c_signer c |}.
Proof.
  unfold with_extensions. revert c. induction l as [|e l IH]; intros c; cbn [foldl]; [rewrite app_nil_r; by destruct c|].
  rewrite IH. destruct c; cbn [c_version c_serial c_from c_until c_subject c_issuer c_key c_extensions c_signer with_extension].
  by rewrite <- app_assoc.
Qed.
(** The text of the basic constraints is read as it is meant. *)
Definition limited (is_ca : bool) (pathlen : Z) (limit : option Z) : Prop :=
  forall ci c, conf ci c NID_basic_constraints (basic_constraints is_ca pathlen) = Some (BasicConstraints is_ca limit).

Lemma delivers_addExtensions h t p c k is_ca pathlen limit (other : option (ptr * certificate * Z)) s :
  draft h t p (Cert c) s -> c_key c = Some k -> limited is_ca pathlen limit -> is_null p = false ->
  match other with Some (i, ci, ik) => h !! i = Some (Cert ci) /\ is_null i = false /\ subject_key ci = Some ik | None => True end ->
  delivers (addExtensions p (match other with Some (i, _, _) => i | None => p end) is_ca pathlen) s (fun _ s' =>
    draft h t p (Cert (with_extensions (extensions is_ca limit k (snd <$> other)) c)) s').
Proof.
  intros D Hk Hl Hp Hi. unfold addExtensions.
  set (i := match other with Some (i, _, _) => i | None => p end).
  assert (Hin : forall s' c', draft h t p (Cert c') s' -> exists ci, heap s' !! i = Some (Cert ci) /\
    match other with Some (_, _, ik) => subject_key ci = Some ik | None => True end).
  { intros s' c' D'. subst i. destruct other as [[[i ci] ik]|]; [|by exists c'; split; [apply D'|]].
    destruct Hi as (Hh & _ & Hs). exists ci. split; [by eapply lookup_weaken; [|apply D']|done]. }
  destruct (Hin s c D) as (c0 & I0 & _). eapply next_run; [by eapply delivers_extension; [exact D|exact I0|apply Hl]|]. intros [] s1 D1. cbn beta in D1.
  destruct (Hin s1 _ D1) as (c1 & I1 & _). eapply next_run; [by eapply delivers_extension; [exact D1|exact I1|reflexivity]|]. intros [] s2 D2. cbn beta in D2.
  destruct (Hin s2 _ D2) as (c2 & I2 & _). eapply next_run.
  { eapply delivers_extension; [exact D2|exact I2|]. unfold conf. cbn [Z.eqb Pos.eqb NID_subject_key_identifier NID_basic_constraints NID_key_usage].
    cbn [c_key with_extension]. by rewrite Hk. }
  intros [] s3 D3. cbn beta in D3. destruct (Hin s3 _ D3) as (c3 & I3 & Hs).
  destruct other as [[[i' ci] ik]|]; subst i; cbn [fmap option_fmap option_map snd].
  - destruct Hi as (Hh & Hn & _). rewrite Hn. cbn [negb andb].
    replace (i' =? p)%N with false; [|symmetry; apply N.eqb_neq; intros ->; destruct D as (_ & Hf & _); congruence].
    cbn [negb]. eapply delivers_extension; [exact D3|exact I3|].
    unfold conf. cbn [Z.eqb Pos.eqb NID_subject_key_identifier NID_basic_constraints NID_key_usage NID_authority_key_identifier]. by rewrite Hs.
  - rewrite N.eqb_refl, andb_false_r. by apply delivers_ret.
Qed.

(** The certificate for a request by [n] with the key [k], issued by [i] with the key [ik]. *)
Definition issued (serial : Z) (n i : name) (from until k : Z) (l : list extension) (ik : Z) : certificate :=
  {| c_version := 2; c_serial := serial; c_from := from; c_until := until; c_subject := n; c_issuer := i; c_key := Some k;
     c_extensions := l; c_signer := Some ik |}.
Lemma delivers_issuer_name req n k (other : option (ptr * certificate * Z)) h t p c s :
  draft h t p (Cert c) s -> h !! req = Some (Request n (Some k)) ->
  match other with Some (i, ci, ik) => h !! i = Some (Cert ci) /\ is_null i = false /\ subject_key ci = Some ik | None => True end ->
  let issuerCert := match other with Some (i, _, _) => i | None => null end in
  delivers (if is_null issuerCert then
         name ← trig (X509_REQ_get_subject_name req);
         rc ← trig (X509_set_issuer_name p name);
         must_be_one rc "Failed to set issuer name for self-signed certificate"
       else
         name ← trig (X509_get_subject_name issuerCert);
         rc ← trig (X509_set_issuer_name p name);
         must_be_one rc "Failed to set issuer name") s (fun _ s' =>
    draft h t p (Cert (with_issuer (match other with Some (_, ci, _) => c_subject ci | None => n end) c)) s').
Proof.
  intros D Hreq Ho issuerCert. subst issuerCert. destruct other as [[[i ci] ik]|].
  - destruct Ho as (Hi & Hn & _). rewrite Hn. assert (I : heap s !! i = Some (Cert ci)) by (by eapply lookup_weaken; [|apply D]).
    destruct (cert_name s i ci I) as (q & s1 & E & _ & Hg & Hq). eapply next_call; [exact E|].
    pose proof (time_passes s (X509_get_subject_name i)) as T. rewrite E in T. pose proof (draft_grow _ _ _ _ _ _ D Hg T) as D1.
    eapply next_puts; [exact D1|eapply cert_issuer; [apply D1|exact Hq]|]. cbn beta. intros rc s2 -> D2 _. by apply delivers_ret.
  - cbn [null is_null N.eqb]. assert (R : heap s !! req = Some (Request n (Some k))) by (by eapply lookup_weaken; [|apply D]).
    eapply next_shows; [by eapply req_name|]. intros q s1 _ Hg Hq T. pose proof (draft_grow _ _ _ _ _ _ D Hg T) as D1.
    eapply next_puts; [exact D1|eapply cert_issuer; [apply D1|exact Hq]|]. cbn beta. intros rc s2 -> D2 _. by apply delivers_ret.
Qed.
Lemma delivers_signCertificate req n k ikey ik (other : option (ptr * certificate * Z)) serial days is_ca pathlen limit s :
  heap s !! req = Some (Request n (Some k)) -> heap s !! ikey = Some (Key ik) -> limited is_ca pathlen limit ->
  match other with Some (i, ci, sk) => heap s !! i = Some (Cert ci) /\ is_null i = false /\ subject_key ci = Some sk | None => True end ->
  delivers (signCertificate req ikey (match other with Some (i, _, _) => i | None => null end) serial days is_ca pathlen) s
    (fun p s' => is_null p = false /\ exists t1 t2, t1 <= now s' /\ now s <= t2 /\ draft (heap s) (now s) p
      (Cert (issued serial n (match other with Some (_, ci, _) => c_subject ci | None => n end) t1 (t2 + 60 * 60 * 24 * days) k
        (extensions is_ca limit k (snd <$> other)) ik)) s').
Proof.
  intros Hreq Hkey Hl Ho. unfold signCertificate. eapply next_makes; [apply cert_new|]. intros p s1 Hp D1.
  eapply next_puts; [exact D1|apply cert_version, D1|]. cbn beta. intros rc s2 -> D2 _. apply must_one; [done|].
  eapply next_puts; [exact D2|apply cert_serial, D2|]. cbn beta. intros rc s3 -> D3 _. apply must_one; [done|].
  destruct (cert_from s3 p _ 0 ltac:(apply D3)) as (t1 & [_ T1] & P1). eapply next_puts; [exact D3|exact P1|]. cbn beta.
  intros q s4 Hq D4 T4. rewrite T4 in T1. apply must_some; [done|]. assert (Hle : now s <= now s4) by apply D4. apply draft_now in D4.
  destruct (cert_until s4 p _ (60 * 60 * 24 * days) ltac:(apply D4)) as (t2 & [T2 _] & P2). eapply next_puts; [exact D4|exact P2|]. cbn beta.
  intros q' s5 Hq' D5 _. apply must_some; [done|].
  assert (R5 : heap s5 !! req = Some (Request n (Some k))) by (by eapply lookup_weaken; [|apply D5]).
  eapply next_shows; [by eapply req_name|]. intros q6 s6 _ G6 Q6 T6. pose proof (draft_grow _ _ _ _ _ _ D5 G6 T6) as D6.
  eapply next_puts; [exact D6|eapply cert_subject; [apply D6|exact Q6]|]. cbn beta. intros rc s7 -> D7 _. apply must_one; [done|].
  eapply next_run; [by eapply delivers_issuer_name|]. intros [] s8 D8. cbn beta in D8.
  assert (R8 : heap s8 !! req = Some (Request n (Some k))) by (by eapply lookup_weaken; [|apply D8]).
  eapply next_shows; [by eapply req_pubkey|]. intros q9 s9 Hq9 G9 Q9 T9. pose proof (draft_grow _ _ _ _ _ _ D8 G9 T9) as D9. rewrite Hq9.
  eapply next_puts; [exact D9|eapply cert_key; [apply D9|exact Q9]|]. cbn beta. intros rc s10 -> D10 _. apply must_one; [done|].
  replace (if is_null _ then p else _) with (match other with Some (i, _, _) => i | None => p end)
    by (destruct other as [[[i ci] sk]|]; [destruct Ho as (_ & -> & _)|]; done).
  eapply next_run; [by eapply delivers_addExtensions|]. intros [] s11 D11. cbn beta in D11.
  assert (K11 : heap s11 !! ikey = Some (Key ik)) by (by eapply lookup_weaken; [|apply D11]).
  eapply next_puts; [exact D11|eapply cert_sign; [apply D11|exact K11]|]. cbn beta. intros rc s12 Hrc D12 _. apply must_set; [done|].
  apply delivers_ret. split; [done|]. exists t1, t2. rewrite Z.add_0_r in D12. split_and!; [etrans; [exact T1|apply D12]|lia|].
  rewrite with_extensions_app in D12. eapply draft_base; [exact D12|done|done].
Qed.

(** ** The chain *)

Definition root_of (k f u : Z) : certificate :=
  issued 1 (request_name (str "Root CA")) (request_name (str "Root CA")) f u k (extensions true (Some 1) k None) k.
Definition intermediate_of (k ik f u : Z) : certificate :=
  issued 2 (request_name (str "Intermediate CA")) (request_name (str "Root CA")) f u k (extensions true (Some 0) k (Some ik)) ik.
Definition leaf_of (k ik f u : Z) : certificate :=
  issued 3 (request_name (str "eastus" ++ X509_SUBJECT_NAME_SUFFIX)) (request_name (str "Intermediate CA")) f u k
    (extensions false None k (Some ik)) ik.
Lemma chain_is_valid t k1 k2 k3 f1 f2 f3 u1 u2 u3 : f1 <= t <= u1 -> f2 <= t <= u2 -> f3 <= t <= u3 ->
  chain_valid t [leaf_of k3 k2 f3 u3; intermediate_of k2 k1 f2 u2; root_of k1 f1 u1] = true.
Proof.
  intros [T1 U1] [T2 U2] [T3 U3]. unfold chain_valid, path_from, in_force, issued_by.
  cbn [leaf_of intermediate_of root_of issued c_version c_serial c_from c_until c_subject c_issuer c_key c_extensions c_signer].
  rewrite !(proj2 (Z.leb_le _ _)) by done.
  replace (may_issue 0 _) with true by by vm_compute. replace (may_issue (0 + 1) _) with true by by vm_compute.
  rewrite !(bool_decide_eq_false_2 (request_name _ = [])) by done. by rewrite !bool_decide_eq_true_2 by done.
Qed.
Lemma all_ordinary k ik f u : ordinary (root_of k f u) /\ ordinary (intermediate_of k ik f u) /\ ordinary (leaf_of k ik f u).
Proof. unfold ordinary. split_and!; vm_compute; first [reflexivity | discriminate | lia]. Qed.

(** Loading certificates makes no object of this part. *)
Definition keeps {A} (m : M F S A) : Prop := forall s, wp m s (fun _ s' _ => kept s s').
Lemma keeps_ossl {R} (e : OsslCall R) :
  match e with EVP_PKEY_keygen _ _ | X509_get_subject_name _ => False | _ => True end -> keeps (trig e).
Proof.
  intros He s. wp_step. pose proof (ossl_heap s e He) as G. pose proof (time_passes s e) as T. pose proof (store_kept s e) as St.
  match goal with E : handle _ _ = _ |- _ => rewrite E in G, T, St end. by split_and!.
Qed.
Lemma keeps_bind {A B} (m : M F S A) (k : A -> M F S B) : keeps m -> (forall a, keeps (k a)) -> keeps (m ≫= k).
Proof.
  intros Hm Hk s. apply wp_bind. eapply wp_mono; [apply Hm|]. intros [a|e|f] s1 t K1; [|done..].
  eapply wp_mono; [apply Hk|]. intros o s2 t2 K2. by etrans.
Qed.
Lemma keeps_pure {A} (m : M F S A) : (forall s, exists o, m s = Res o s []) -> keeps m.
Proof. intros Hm s. unfold wp. destruct (Hm s) as [o ->]. by split_and!. Qed.
Ltac keeps_go :=
  repeat first [apply keeps_bind; [|intros ?] | by apply keeps_ossl
    | apply keeps_pure; intros ?; unfold require, lift; repeat case_match; by eexists
    | match goal with |- keeps (let '(_, _) := ?p in _) => destruct p end].
Lemma keeps_load_roots st l : keeps (load_roots st l).
Proof. induction l as [|r l IH]; cbn [load_roots]; unfold LoadCertificate; keeps_go; exact IH. Qed.
Lemma keeps_new l : keeps (new_OsslX509 l).
Proof. unfold new_OsslX509. do 5 (apply keeps_bind; [keeps_go; apply keeps_load_roots|intros ?]). keeps_go. Qed.
Lemma keeps_intermediate x text : keeps (LoadIntermediateCertificate x text).
Proof. unfold LoadIntermediateCertificate, LoadCertificate. keeps_go. Qed.
Lemma keeps_leaf x text : keeps (LoadLeafCertificate x text).
Proof. unfold LoadLeafCertificate, LoadCertificate. keeps_go. Qed.
Lemma next_keeps {A B} (m : M F S A) (k : A -> M F S B) s Q P : delivers m s Q -> keeps m ->
  (forall a s', Q a s' -> kept s s' -> delivers (k a) s' P) -> delivers (m ≫= k) s P.
Proof.
  intros Hm Hk HP. apply delivers_bind. specialize (Hk s). unfold delivers, wp in *.
  destruct (m s) as [[a|e|f] s1 t1]; [|done..]. by apply HP.
Qed.

(** What is made stays as it is, and time passes. *)
Definition later (s s' : S) : Prop := heap s ⊆ heap s' /\ now s <= now s'.
#[local] Instance later_trans : Transitive later.
Proof. intros a b c [? ?] [? ?]. split; [by etrans|lia]. Qed.
Lemma draft_later s p o s' : draft (heap s) (now s) p o s' -> later s s' /\ heap s' !! p = Some o.
Proof. intros (? & _ & ? & ?). by split. Qed.
Lemma kept_later s s' : kept s s' -> later s s'.
Proof. intros (E & ? & _). split; [by rewrite E|done]. Qed.
Lemma later_lookup s s' p o : later s s' -> heap s !! p = Some o -> heap s' !! p = Some o.
Proof. intros [? _] ?. by eapply lookup_weaken. Qed.

(** A key, a request and a certificate: [issuer] has the key and the certificate of who signs. *)
Lemma next_certificate {A} cn (issuer : option (ptr * (ptr * certificate * Z))) serial days is_ca pathlen limit s (k : ptr -> ptr -> M F S A) P :
  limited is_ca pathlen limit ->
  match issuer with
  | Some (ikey, (ic, ci, ik)) => heap s !! ikey = Some (Key ik) /\ heap s !! ic = Some (Cert ci) /\ is_null ic = false /\ subject_key ci = Some ik
  | None => True
  end ->
  (forall key cert s' n f u, later s s' -> heap s' !! key = Some (Key n) -> is_null cert = false ->
    heap s' !! cert = Some (Cert (issued serial (request_name cn) (match issuer with Some (_, (_, ci, _)) => c_subject ci | None => request_name cn end)
      f u n (extensions is_ca limit n (snd <$> (snd <$> issuer))) (match issuer with Some (_, (_, _, ik)) => ik | None => n end))) ->
    f <= now s' -> now s + 60 * 60 * 24 * days <= u -> delivers (k key cert) s' P) ->
  delivers (key ← generateKey 2048; req ← generateCSR key cn;
    cert ← signCertificate req (match issuer with Some (ikey, _) => ikey | None => key end)
      (match issuer with Some (_, (ic, _, _)) => ic | None => null end) serial days is_ca pathlen; k key cert) s P.
Proof.
  intros Hl Hi Hk. eapply next_run; [apply delivers_generateKey|]. intros key s1 [n D1]. apply draft_later in D1 as [L1 K1].
  eapply next_run; [by apply delivers_generateCSR|]. intros req s2 D2. apply draft_later in D2 as [L2 R2].
  assert (L : later s s2) by (by etrans). assert (K2 : heap s2 !! key = Some (Key n)) by (by eapply later_lookup; [exact L2|]).
  pose (other := snd <$> issuer).
  assert (Ho : match other with Some (i, ci, sk) => heap s2 !! i = Some (Cert ci) /\ is_null i = false /\ subject_key ci = Some sk | None => True end).
  { destruct issuer as [[ikey [[ic ci] ik]]|]; [|done]. destruct Hi as (_ & Hc & Hn & Hs). split_and!; [by eapply later_lookup; [exact L|]|done..]. }
  assert (KI : heap s2 !! (match issuer with Some (ikey, _) => ikey | None => key end) = Some (Key (match issuer with Some (_, (_, _, ik)) => ik | None => n end))).
  { destruct issuer as [[ikey [[ic ci] ik]]|]; [|done]. eapply later_lookup; [exact L|apply Hi]. }
  pose proof (delivers_signCertificate req _ _ _ _ other serial days is_ca pathlen limit s2 R2 KI Hl Ho) as Hs. subst other.
  assert (L' : now s <= now s2) by apply L.
  destruct issuer as [[ikey [[ic ci] ik]]|]; (eapply next_run; [exact Hs|]); intros cert s3 (Hn & t1 & t2 & T1 & T2 & D3);
    apply draft_later in D3 as [L3 C3]; (apply (Hk key cert s3 n t1 (t2 + 60 * 60 * 24 * days));
      [by etrans|by eapply later_lookup; [exact L3|]|done|done|done|lia]).
Qed.

Lemma delivers_der p c s : heap s !! p = Some (Cert c) -> ordinary c ->
  delivers (getDerEncodedCertificate p) s (fun text s' => text = Encoders.base64_encode (der_of c) /\ kept s s').
Proof.
  intros Hp Ho. pose proof (der_size c Ho) as Hs. assert (Hnn : 0 <= size (der_of c)) by (unfold size; lia).
  unfold getDerEncodedCertificate. eapply next_answers; [by apply cert_length|]. intros n s1 -> K1. cbn beta.
  rewrite (proj2 (Z.ltb_ge _ _)) by done. eapply next_lift.
  { unfold resize. rewrite (proj2 (Z.ltb_ge _ _)) by (unfold vector_max_size; lia). reflexivity. }
  eapply next_answers; [apply cert_der; by destruct K1 as [-> _]|]. intros r s2 -> K2. cbn beta iota. rewrite (proj2 (Z.ltb_ge _ _)) by done.
  rewrite take_nil, Nat.sub_0_r. cbn [app]. apply delivers_bind. unfold over.
  rewrite (proj2 (Z.ltb_ge _ _)) by (unfold size; rewrite length_replicate; lia).
  rewrite drop_ge by (rewrite length_replicate; unfold size; lia). rewrite app_nil_r. apply delivers_ret, delivers_ret.
  split; [done|by etrans].
Qed.
Lemma issued_text c : ordinary c -> is_Some (c_signer c) -> cert_text (Encoders.base64_encode (der_of c)) (der_of c).
Proof.
  intros Ho Hs. pose proof (der_size c Ho). split; [|by apply der_reads]. rewrite c_str_plain by apply encoded_plain.
  apply encoders_round_trip. unfold vector_max_size. lia.
Qed.

Lemma delivers_SignData x k data s : heap s !! leaf_key x = Some (Key k) ->
  delivers (SignData x data) s (fun sig _ => signs k data sig).
Proof.
  intros Hk. unfold SignData. eapply next_answer; [reflexivity|]. rewrite Accepts.md_new. set (ctx := fst _).
  destruct (sign_init (snd (handle (inj EVP_MD_CTX_new) s)) ctx (leaf_key x) k) as (s2 & E2 & G2); [by rewrite (ossl_heap s EVP_MD_CTX_new I)|].
  eapply next_call; [exact E2|]. apply must_one; [done|].
  destruct (sign_update s2 ctx k [] data G2) as (s3 & E3 & G3). eapply next_call; [exact E3|]. apply must_one; [done|].
  destruct (sign_length s3 ctx k _ G3) as (Hn & s4 & E4 & G4). eapply next_call; [exact E4|]. cbn beta iota. apply must_one; [done|].
  eapply next_lift. { unfold resize. rewrite (proj2 (Z.ltb_ge _ _)) by (unfold vector_max_size; lia). reflexivity. }
  destruct (sign_final s4 ctx k _ (signature_size k) G4 (Z.le_refl _)) as (sig & E5 & Hs & Hsig). eapply next_answer; [exact E5|].
  cbn beta iota. apply must_one; [done|]. unfold over. rewrite take_nil, Nat.sub_0_r. cbn [app].
  rewrite (proj2 (Z.ltb_ge _ _)) by (rewrite Hs; unfold size; rewrite length_replicate; lia).
  rewrite drop_ge by (rewrite length_replicate; unfold size in Hs; lia). by rewrite app_nil_r.
Qed.

Lemma cert_text_fun text d d' : cert_text text d -> cert_text text d' -> d = d'.
Proof. intros [E _] [E' _]. congruence. Qed.
Lemma loaded_kept s s' roots x l leaf : ossl_loaded roots s x l leaf -> kept s s' -> ossl_loaded roots s' x l leaf.
Proof. intros (Hst & ? & ? & ?) (_ & _ & Hk). split_and!; auto. Qed.
Lemma delivers_load_chain cert1 cert2 cert3 key k1 k2 k3 f1 f2 f3 u1 u2 u3 s :
  heap s !! cert1 = Some (Cert (root_of k1 f1 u1)) -> heap s !! cert2 = Some (Cert (intermediate_of k2 k1 f2 u2)) ->
  heap s !! cert3 = Some (Cert (leaf_of k3 k2 f3 u3)) -> heap s !! key = Some (Key k3) ->
  delivers (root ← getDerEncodedCertificate cert1; x ← new_OsslX509 [root];
    intermediate ← getDerEncodedCertificate cert2; x ← LoadIntermediateCertificate x intermediate;
    leaf ← getDerEncodedCertificate cert3; x ← LoadLeafCertificate x leaf; mret (SetLeafKey x key)) s
    (fun x s' => kept s s' /\ heap s' !! leaf_key x = Some (Key k3) /\ exists text l,
      ossl_loaded [der_of (root_of k1 f1 u1)] s' x [l] (Some text) /\
      cert_text l (der_of (intermediate_of k2 k1 f2 u2)) /\ cert_text text (der_of (leaf_of k3 k2 f3 u3))).
Proof.
  intros C1 C2 C3 K3. pose proof (all_ordinary k1 k1 f1 u1) as (O1 & _ & _). pose proof (all_ordinary k2 k1 f2 u2) as (_ & O2 & _).
  pose proof (all_ordinary k3 k2 f3 u3) as (_ & _ & O3).
  assert (T : forall c, ordinary c -> is_Some (c_signer c) -> cert_text (Encoders.base64_encode (der_of c)) (der_of c)) by exact issued_text.
  eapply next_run; [by apply delivers_der|]. intros root s1 [-> L1]. eapply next_keeps; [apply (delivers_new _ [der_of (root_of k1 f1 u1)])|apply keeps_new|].
  { repeat constructor; by apply T. }
  intros x s2 X2 L2. assert (H2 : kept s s2) by (by etrans).
  eapply next_run; [apply delivers_der; [by destruct H2 as [-> _]|done]|]. intros inter s3 [-> L3].
  eapply next_keeps; [eapply delivers_intermediate; [by eapply loaded_kept; [exact X2|]|by apply T]|apply keeps_intermediate|].
  intros x' s4 X4 L4. assert (H4 : kept s s4) by (by do 2 (etrans; [eassumption|])).
  eapply next_run; [apply delivers_der; [by destruct H4 as [-> _]|done]|]. intros leaf s5 [-> L5].
  eapply next_keeps; [eapply delivers_leaf; [by eapply loaded_kept; [exact X4|]|by apply T]|apply keeps_leaf|].
  intros x'' s6 X6 L6. apply delivers_ret. assert (H6 : kept s s6) by (by do 2 (etrans; [eassumption|])).
  split; [done|split; [by destruct H6 as [-> _]|]]. eexists _, _. split_and!; [exact X6|by apply T..].
Qed.

(** C17: the chain that [generateCertChain] makes is one the library accepts. Whatever keys and times OpenSSL picks,
    as long as the clock does not pass the 365 days of the leaf: [generateCertChain] returns an object
    for which [VerifyCertChain] with the provisioning suffix is true - its three certificates name and sign each
    other, carry the key identifiers, usages and path lengths that RFC 5280 asks of them, and end at the object's
    own root - and at any later time [VerifySignature] accepts what [SignData] signs with it, for all data. *)
Theorem generated_chain_accepted s :
  (forall s', now s' <= now s + 60 * 60 * 24 * 365) ->
  delivers generateCertChain s (fun x s' =>
    delivers (VerifyCertChain x X509_SUBJECT_NAME_SUFFIX) s' (fun ok _ => ok = true) /\
    forall data s1, heap s' ⊆ heap s1 -> delivers (SignData x data) s1 (fun sig _ =>
      forall s2, delivers (VerifySignature x data sig) s2 (fun ok _ => ok = true))).
Proof.
  intros Hnow. unfold generateCertChain.
  eapply (next_certificate _ None _ _ _ _ (Some 1)); [done|done|]. intros key1 cert1 s1 k1 f1 u1 L1 K1 N1 C1 F1 U1.
  eapply (next_certificate _ (Some (key1, (cert1, root_of k1 f1 u1, k1))) _ _ _ _ (Some 0)); [done|done|].
  intros key2 cert2 s2 k2 f2 u2 L2 K2 N2 C2 F2 U2.
  eapply (next_certificate _ (Some (key2, (cert2, intermediate_of k2 k1 f2 u2, k2))) _ _ _ _ None); [done|done|].
  intros key3 cert3 s3 k3 f3 u3 L3 K3 N3 C3 F3 U3.
  assert (L13 : later s1 s3) by (by etrans). assert (L : later s s3) by (by etrans).
  eapply delivers_mono; [apply (delivers_load_chain cert1 cert2 cert3 key3 k1 k2 k3 f1 f2 f3 u1 u2 u3);
    [by eapply later_lookup; [exact L13|]|by eapply later_lookup; [exact L3|]|done|done]|].
  intros x s4 (H4 & K4 & text & l & X & Hl & Hleaf). split.
  - eapply delivers_chain; [exact X|]. split; [done|]. intros der ders Hder Hders.
    pose proof (all_ordinary k1 k1 f1 u1) as (O1 & _ & _). pose proof (all_ordinary k3 k2 f3 u3) as (_ & _ & O3).
    rewrite (cert_text_fun text der (der_of (leaf_of k3 k2 f3 u3))) by done. apply Forall2_cons_inv_l in Hders as (d2 & l2 & Hd & Hnil & ->).
    apply Forall2_nil_inv_l in Hnil as ->. rewrite (cert_text_fun l d2 (der_of (intermediate_of k2 k1 f2 u2))) by done.
    rewrite der_name by done. split_and!; [done|by vm_compute|]. exists (der_of (root_of k1 f1 u1)). split_and!; [|by left|by apply der_issuer].
    intros s' Hs'. apply (der_path (now s') (leaf_of k3 k2 f3 u3) [intermediate_of k2 k1 f2 u2] (root_of k1 f1 u1)).
    specialize (Hnow s'). destruct L as [_ L], L1 as [_ L1], L2 as [_ L2], L3 as [_ L3], H4 as (_ & H4 & _). apply chain_is_valid; lia.
  - intros data s5 H5. eapply delivers_mono; [eapply delivers_SignData; by eapply lookup_weaken|]. intros sig s6 Hsig s7.
    destruct X as (_ & _ & _ & Hn & Htext). eapply delivers_signature; [exact Hn|reflexivity|].
    rewrite (cert_text_fun text (cert_of (leaf_cert x)) (der_of (leaf_of k3 k2 f3 u3))) by done.
    pose proof (all_ordinary k3 k2 f3 u3) as (_ & _ & O3). by eapply der_verifies.
Qed.
End Issue.

(** ** Witness: an OpenSSL with one key *)

(** The DER of a certificate has the common names of its subject and issuer. *)
Fixpoint cn_encode (w : bytes) : bytes := match w with [] => [x00] | b :: w' => x01 :: b :: cn_encode w' end.
Fixpoint cn_decode (l : bytes) : bytes * bytes :=
  match l with
  | x01 :: b :: l' => let '(w, r) := cn_decode l' in (b :: w, r)
  | _ :: l' => ([], l')
  | [] => ([], [])
  end.
Lemma cn_decode_encode w r : cn_decode (cn_encode w ++ r) = (w, r).
Proof. induction w as [|b w IH]; [done|]. cbn [cn_encode app cn_decode]. by rewrite IH. Qed.
Lemma cn_encode_size w : size (cn_encode w) = 2 * size w + 1.
Proof. induction w as [|b w IH]; [done|]. unfold size in *. cbn [cn_encode length]. lia. Qed.
Definition toy_der (c : certificate) : bytes := cn_encode (common_name_of (c_subject c)) ++ cn_encode (common_name_of (c_issuer c)).
Definition toy_subject (der : bytes) : bytes := (cn_decode der).1.
Definition toy_issuer (der : bytes) : bytes := (cn_decode (cn_decode der).2).1.
Definition toy_end (leaf : bytes) (l : list bytes) : bytes :=
  let w := toy_issuer (default leaf (last l)) in cn_encode w ++ cn_encode w.
Lemma toy_names c : toy_subject (toy_der c) = common_name_of (c_subject c) /\ toy_issuer (toy_der c) = common_name_of (c_issuer c).
Proof.
  unfold toy_subject, toy_issuer, toy_der. rewrite cn_decode_encode. cbn [snd].
  rewrite <- (app_nil_r (cn_encode (common_name_of (c_issuer c)))), cn_decode_encode. done.
Qed.
Lemma common_name_size n : size (common_name_of n) <= name_size n.
Proof.
  unfold common_name_of, find_map, name_size. induction n as [|[f w] n IH]; [done|]. cbn [omap list_omap foldr fst snd].
  case_decide; cbn [head default from_option id]; [|etrans; [exact IH|unfold size; lia]].
  pose proof (name_size_nonneg n). unfold name_size, size in *. lia.
Qed.
Lemma path_from_tail t n c d l : path_from t n (c :: d :: l) = true -> path_from t (n + 1) (d :: l) = true.
Proof. intros Hp. cbn [path_from] in *. rewrite andb_true_iff in Hp. apply Hp. Qed.
Lemma toy_path t leaf l root : chain_valid t (leaf :: l ++ [root]) = true -> toy_end (toy_der leaf) (map toy_der l) = toy_der root.
Proof.
  unfold chain_valid. generalize 0 as n. intros n Hv.
  assert (Hlast : forall l c n, path_from t n (c :: l ++ [root]) = true ->
    c_issuer (default c (last l)) = c_subject root /\ c_issuer root = c_subject root).
  { clear. induction l as [|d l IH]; intros c n; cbn [app].
    - cbn [path_from]. rewrite !andb_true_iff. intros [[[[_ Hi] _] _] [_ Hr]]. unfold issued_by in *.
      rewrite andb_true_iff in *. destruct Hi as [Hi%bool_decide_eq_true_1 _], Hr as [Hr%bool_decide_eq_true_1 _]. done.
    - intros Hp%path_from_tail. destruct (IH d _ Hp) as [H1 H2]. split; [|done]. rewrite last_cons. by destruct (last l). }
  destruct (Hlast l leaf n Hv) as [H1 H2]. unfold toy_end.
  replace (default (toy_der leaf) (last (map toy_der l))) with (toy_der (default leaf (last l))) by (rewrite (fmap_last toy_der l : last (map toy_der l) = _); by destruct (last l)).
  rewrite (proj2 (toy_names _)), H1. unfold toy_der. by rewrite H2.
Qed.

Record gen_state := {
  g_heap : gmap ptr object; g_certs : list (ptr * bytes); g_verify : verify_stage; g_digest : option (bytes * bytes); g_sign : option (Z * bytes) }.
Definition GenCall : Type -> Type := sumE OsslCall IssueCall.
Definition set_g_heap h s := {| g_heap := h; g_certs := g_certs s; g_verify := g_verify s; g_digest := g_digest s; g_sign := g_sign s |}.
Definition set_g_certs l s := {| g_heap := g_heap s; g_certs := l; g_verify := g_verify s; g_digest := g_digest s; g_sign := g_sign s |}.
Definition set_g_verify v s := {| g_heap := g_heap s; g_certs := g_certs s; g_verify := v; g_digest := g_digest s; g_sign := g_sign s |}.
Definition set_g_digest d s := {| g_heap := g_heap s; g_certs := g_certs s; g_verify := g_verify s; g_digest := d; g_sign := g_sign s |}.
Definition set_g_sign d s := {| g_heap := g_heap s; g_certs := g_certs s; g_verify := g_verify s; g_digest := g_digest s; g_sign := d |}.

(** Handles carry what they stand for, and a number that makes them new. *)
Definition handle_of (w : bytes) (i : N) : ptr := N.pos (encode (w, i)).
Definition meaning (p : ptr) : bytes * N := match p with N.pos q => default ([], 0%N) (decode q) | N0 => ([], 0%N) end.
Lemma meaning_of w i : meaning (handle_of w i) = (w, i).
Proof. unfold meaning, handle_of. by rewrite decode_encode. Qed.
Definition next_number (h : gmap ptr object) : N := map_fold (fun p _ n => N.max n (N.succ (meaning p).2)) 0%N h.
Lemma next_above h p o : h !! p = Some o -> ((meaning p).2 < next_number h)%N.
Proof.
  unfold next_number. revert p o. apply (map_fold_weak_ind (fun r h => forall p o, h !! p = Some o -> ((meaning p).2 < r)%N)).
  - intros p o Hp. by rewrite lookup_empty in Hp.
  - intros q x h' r Hq IH p o Hp. destruct (decide (p = q)) as [->|Hne]; [lia|].
    rewrite lookup_insert_ne in Hp by done. specialize (IH p o Hp). lia.
Qed.
Definition new_handle (w : bytes) (s : gen_state) : ptr := handle_of w (next_number (g_heap s)).
Lemma new_handle_fresh w s : g_heap s !! new_handle w s = None.
Proof.
  destruct (g_heap s !! new_handle w s) as [o|] eqn:E; [|done]. apply next_above in E. unfold new_handle in E. rewrite meaning_of in E.
  cbn [snd] in E. lia.
Qed.
Definition gen_cert (p : ptr) : bytes := (meaning p).1.
Definition alloc (w : bytes) (o : object) (s : gen_state) : ptr * gen_state :=
  (new_handle w s, set_g_heap (<[new_handle w s := o]> (g_heap s)) s).
Definition update (p : ptr) (f : object -> option object) (s : gen_state) : gen_state :=
  match g_heap s !! p ≫= f with Some o => set_g_heap (<[p := o]> (g_heap s)) s | None => s end.
Definition on_cert (f : certificate -> certificate) (o : object) : option object := match o with Cert c => Some (Cert (f c)) | _ => None end.
Definition name_at (s : gen_state) (p : ptr) : name := match g_heap s !! p with Some (Name n) => n | _ => [] end.
Definition key_at (s : gen_state) (p : ptr) : Z := match g_heap s !! p with Some (Key k) => k | _ => 0 end.
Definition cert_obj (s : gen_state) (p : ptr) : certificate := match g_heap s !! p with Some (Cert c) => c | _ => blank end.
Definition gen_ossl (R : Type) (e : OsslCall R) (s : gen_state) : R * gen_state :=
  match e in OsslCall T return T -> T * gen_state with
  | EVP_PKEY_keygen_init _ => fun _ => (1, s)
  | EVP_PKEY_keygen _ key => fun _ =>
      ((1, key), match g_heap s !! key with None => set_g_heap (<[key := Key 0]> (g_heap s)) s | Some _ => s end)
  | d2i_X509 der => fun _ => (handle_of der 0, s)
  | X509_STORE_new | sk_X509_new_null | X509_STORE_CTX_new | EVP_MD_CTX_new => fun _ => (1%N, s)
  | X509_STORE_add_cert st c => fun _ => (1, set_g_certs ((st, gen_cert c) :: g_certs s) s)
  | sk_X509_push _ _ => fun _ => (1, s)
  | X509_get_subject_name c => fun _ =>
      match g_heap s !! c with
      | Some (Cert d) => alloc (toy_subject (gen_cert c)) (Name (c_subject d)) s
      | _ => (handle_of (toy_subject (gen_cert c)) 0, s)
      end
  | X509_get_issuer_name c => fun _ => (handle_of (toy_issuer (gen_cert c)) 0, s)
  | X509_dup c | X509_get_pubkey c | X509_NAME_get_entry c _ => fun _ => (c, s)
  | X509_STORE_CTX_init _ st leaf l => fun _ => (1, set_g_verify (Ready st (gen_cert leaf) (map gen_cert l)) s)
  | X509_STORE_CTX_set_flags _ _ => fun _ => (tt, s)
  | X509_verify_cert _ => fun _ =>
      (1, match g_verify s with Ready _ leaf l => set_g_verify (Verified (toy_end leaf l)) s | _ => s end)
  | X509_STORE_CTX_get0_chain _ => fun _ => (match g_verify s with Verified a => Some [handle_of a 0] | _ => None end, s)
  | X509_NAME_cmp _ _ | X509_cmp _ _ | X509_NAME_get_index_by_NID _ _ _ => fun _ => (0, s)
  | X509_NAME_ENTRY_get_data c => fun _ => (Some (gen_cert c), s)
  | EVP_DigestVerifyInit _ _ k => fun _ => (1, set_g_digest (Some (gen_cert k, [])) s)
  | EVP_DigestVerifyUpdate _ d => fun _ =>
      (1, set_g_digest (match g_digest s with Some (k, d0) => Some (k, d0 ++ d) | None => None end) s)
  | EVP_DigestVerifyFinal _ _ => fun _ => (1, s)
  | _ => fun r => (r, s)
  end (toy_ossl R e toy_start).1.
Definition gen_issue (R : Type) (e : IssueCall R) (s : gen_state) : R * gen_state :=
  match e in IssueCall T return T * gen_state with
  | EVP_PKEY_new => (new_handle [] s, s)
  | EVP_PKEY_CTX_new_id_RSA => (1%N, s)
  | EVP_PKEY_free _ | EVP_PKEY_CTX_free _ => (tt, s)
  | EVP_PKEY_CTX_set_rsa_keygen_bits _ _ => (1, s)
  | X509_REQ_new => alloc [] (Request [] None) s
  | X509_NAME_new => alloc [] (Name []) s
  | X509_NAME_add_entry_by_txt p f w => (1, update p (fun o => match o with Name n => Some (Name (n ++ [(f, w)])) | _ => None end) s)
  | X509_REQ_set_subject_name p q => (1, update p (fun o => match o with Request _ k => Some (Request (name_at s q) k) | _ => None end) s)
  | X509_REQ_set_pubkey p q => (1, update p (fun o => match o with Request n _ => Some (Request n (Some (key_at s q))) | _ => None end) s)
  | X509_REQ_sign _ _ _ => (1, s)
  | X509_REQ_get_subject_name p => alloc [] (Name (match g_heap s !! p with Some (Request n _) => n | _ => [] end)) s
  | X509_REQ_get0_pubkey p => alloc [] (Key (match g_heap s !! p with Some (Request _ (Some k)) => k | _ => 0 end)) s
  | X509V3_EXT_conf_nid i p nid text =>
      alloc [] (Ext (default (KeyUsage []) (conf (cert_obj s i) (cert_obj s p) nid text))) s
  | X509_add_ext p q _ => (1, update p (on_cert (match g_heap s !! q with Some (Ext x) => with_extension x | _ => fun c => c end)) s)
  | X509_new => alloc [] (Cert blank) s
  | X509_set_version p v => (1, update p (on_cert (with_version v)) s)
  | X509_set_serialNumber p v => (1, update p (on_cert (with_serial v)) s)
  | X509_gmtime_adj_notBefore p a => (1%N, update p (on_cert (with_from a)) s)
  | X509_gmtime_adj_notAfter p a => (1%N, update p (on_cert (with_until a)) s)
  | X509_set_subject_name p q => (1, update p (on_cert (with_subject (name_at s q))) s)
  | X509_set_issuer_name p q => (1, update p (on_cert (with_issuer (name_at s q))) s)
  | X509_set_pubkey p q => (1, update p (on_cert (with_key (key_at s q))) s)
  | X509_sign p q _ => (1, update p (on_cert (with_signer (key_at s q))) s)
  | i2d_X509_length p => (size (toy_der (cert_obj s p)), s)
  | i2d_X509 p => ((size (toy_der (cert_obj s p)), toy_der (cert_obj s p)), s)
  | BIO_new_mem => (1%N, s)
  | X509_NAME_print_ex _ _ => (1, s)
  | BIO_get_mem_data _ => ([], s)
  | BIO_free _ => (tt, s)
  | EVP_DigestSignInit _ _ p => (1, set_g_sign (Some (key_at s p, [])) s)
  | EVP_DigestSignUpdate _ d => (1, set_g_sign (match g_sign s with Some (k, d0) => Some (k, d0 ++ d) | None => None end) s)
  | EVP_DigestSignFinal_length _ => ((1, 0), s)
  | EVP_DigestSignFinal _ _ => ((1, []), s)
  end.
#[export] Instance toy_gen : Handler GenCall gen_state := fun R e s =>
  match e with InL o => gen_ossl R o s | InR i => gen_issue R i s end.

#[local] Arguments handle_of : simpl never.
#[local] Arguments toy_end : simpl never.
#[local] Arguments toy_start : simpl never.
#[local] Arguments new_handle : simpl never.
Lemma gen_certs_kept {R} (e : OsslCall R) s x : x ∈ g_certs s -> x ∈ g_certs (gen_ossl R e s).2.
Proof. intros Hx. destruct e; try exact Hx; simpl; [by right|..]; repeat case_match; exact Hx. Qed.
Lemma gen_cert_handle w i : gen_cert (handle_of w i) = w.
Proof. unfold gen_cert. by rewrite meaning_of. Qed.
Lemma subject_handle s c : let n := (gen_ossl ptr (X509_get_subject_name c) s).1 in
  is_null n = false /\ gen_cert n = toy_subject (gen_cert c).
Proof. simpl. repeat case_match; (split; [done|]); simpl; try apply gen_cert_handle. Qed.
#[refine, export]
Instance toy_gen_paths : OsslPaths GenCall gen_state :=
  {| cert_of := gen_cert; name_of := gen_cert; well_formed_cert _ := True; subject := toy_subject; issuer := toy_issuer;
     common_name c := c; path _ leaf l a := toy_end leaf l = a; verifies _ _ _ := True;
     in_store s st c := (st, c) ∈ g_certs s; now _ := 0; verifying s _ := g_verify s; digesting s _ := g_digest s |}.
Proof.
  - done.
  - intros R s e st c. apply gen_certs_kept.
  - done.
  - done.
  - intros s der _. split; [done|apply gen_cert_handle].
  - intros s st c. eexists. split; [reflexivity|]. by left.
  - done.
  - done.
  - done.
  - intros s x st leaf l. by eexists.
  - done.
  - intros s x st leaf l anchor Hv Hp _. eexists. split; [reflexivity|]. cbn in Hv. cbn. by rewrite Hv, Hp.
  - intros R s e x He. destruct e; try done. unfold handle. simpl. by repeat case_match.
  - intros s x anchor Hv. exists [handle_of anchor 0], (handle_of anchor 0). cbn in Hv. unfold handle. simpl. rewrite Hv.
    split_and!; [done..|apply gen_cert_handle].
  - intros s c _. apply subject_handle.
  - intros s c _. split; [done|apply gen_cert_handle].
  - done.
  - done.
  - done.
  - intros s n i Hn. by split.
  - by intros s c Hc.
  - done.
  - intros s x k. by eexists.
  - intros s x k d d' Hd. eexists. split; [reflexivity|]. cbn in Hd. cbn. by rewrite Hd.
  - done.
Defined.

Lemma makes_alloc (e : IssueCall ptr) w o s : gen_issue ptr e s = alloc w o s -> makes GenCall gen_state g_heap e s o.
Proof. intros E. exists (new_handle w s). eexists. change (handle (inj e) s) with (gen_issue _ e s). rewrite E. split_and!; [reflexivity|done|apply new_handle_fresh|done]. Qed.
Lemma shows_alloc {E} `{E -< GenCall} (e : E ptr) w o s : handle (inj e) s = alloc w o s -> shows GenCall gen_state g_heap e s o.
Proof.
  intros Ha. exists (new_handle w s). eexists. rewrite Ha. split_and!; [reflexivity|done| |].
  - cbn. apply insert_subseteq, new_handle_fresh.
  - cbn. by rewrite lookup_insert_eq.
Qed.
Lemma puts_update {R} (e : IssueCall R) s (good : R -> Prop) r p f o o' : g_heap s !! p = Some o -> gen_issue R e s = (r, update p f s) ->
  f o = Some o' -> good r -> puts GenCall gen_state g_heap e s good p o'.
Proof. intros Hp E Hf Hr. exists r. eexists. change (handle (inj e) s) with (gen_issue _ e s). rewrite E. unfold update. rewrite Hp. cbn [mbind option_bind]. by rewrite Hf. Qed.
Lemma answers_same {R} (e : IssueCall R) s (good : R -> Prop) r : gen_issue R e s = (r, s) -> good r -> answers GenCall gen_state g_heap e s good.
Proof. intros E Hr. exists r, s. change (handle (inj e) s) with (gen_issue _ e s). by rewrite E. Qed.
#[refine, export]
Instance toy_issue : IssueLaws GenCall gen_state :=
  {| heap := g_heap; signing s _ := g_sign s; signs _ _ _ := True; signature_size _ := 0; der_of := toy_der |}.
Proof.
  - done.
  - intros R s e st c Hin. cbn in *. destruct e; try exact Hin; cbn; unfold update; repeat case_match; exact Hin.
  - intros R s e He. destruct e; try done; cbn; unfold update; by repeat case_match.
  - intros s. eapply answers_same; [reflexivity|apply new_handle_fresh].
  - intros s. by eapply answers_same.
  - done.
  - intros s ctx. by eapply answers_same.
  - intros s ctx key Hk. exists 0, key. eexists. split_and!; [reflexivity|done|]. cbn. by rewrite Hk.
  - intros s ctx. by eapply answers_same.
  - intros s. by eapply makes_alloc.
  - intros s. by eapply makes_alloc.
  - intros s p n f w Hp. by eapply puts_update; [exact Hp|reflexivity|..].
  - intros s p q n n' k Hp Hq. eapply puts_update; [exact Hp|reflexivity| |done]; cbn. unfold name_at. by rewrite Hq.
  - intros s p q n k k' Hp Hq. eapply puts_update; [exact Hp|reflexivity| |done]; cbn. unfold key_at. by rewrite Hq.
  - intros s p q n k k' _ _. by eapply answers_same.
  - intros s p n k Hp. eapply shows_alloc. cbn. by rewrite Hp.
  - intros s p n k Hp. eapply shows_alloc. cbn. by rewrite Hp.
  - intros s. by eapply makes_alloc.
  - intros s p c v Hp. by eapply puts_update; [exact Hp|reflexivity|..].
  - intros s p c v Hp. by eapply puts_update; [exact Hp|reflexivity|..].
  - intros s p c v Hp. exists 0. split; [done|]. by eapply puts_update; [exact Hp|reflexivity|..].
  - intros s p c v Hp. exists 0. split; [done|]. by eapply puts_update; [exact Hp|reflexivity|..].
  - intros s p q c n Hp Hq. eapply puts_update; [exact Hp|reflexivity| |done]; cbn. unfold name_at. by rewrite Hq.
  - intros s p q c n Hp Hq. eapply puts_update; [exact Hp|reflexivity| |done]; cbn. unfold name_at. by rewrite Hq.
  - intros s p c Hp. eapply shows_alloc. cbn. by rewrite Hp.
  - intros s p q c k Hp Hq. eapply puts_update; [exact Hp|reflexivity| |done]; cbn. unfold key_at. by rewrite Hq.
  - intros s i p ci c nid w x Hi Hp Hx. eapply makes_alloc. cbn. unfold cert_obj. by rewrite Hi, Hp, Hx.
  - intros s p q c x Hp Hq. eapply puts_update; [exact Hp|reflexivity| |done]; cbn. by rewrite Hq.
  - intros s p q c k Hp Hq. eapply puts_update; [exact Hp|reflexivity| |done]; cbn. unfold key_at. by rewrite Hq.
  - intros s p c Hp. eapply answers_same; [reflexivity|]. unfold cert_obj. by rewrite Hp.
  - intros s p c Hp. eapply answers_same; [reflexivity|]. unfold cert_obj. by rewrite Hp.
  - intros c (_ & _ & Hn & _). cbn. rewrite name_size_app in Hn. unfold toy_der. rewrite size_app, !cn_encode_size.
    pose proof (common_name_size (c_subject c)). pose proof (common_name_size (c_issuer c)). unfold name_size in *. lia.
  - done.
  - intros c _. cbn. apply toy_names.
  - intros c _ Hc. cbn. destruct (toy_names c) as [-> ->]. by rewrite Hc.
  - intros t leaf l root Hv. cbn. by eapply toy_path.
  - done.
  - intros s ctx p k Hp. eexists. split; [reflexivity|]. cbn. unfold key_at. by rewrite Hp.
  - intros s ctx k d d' Hs. eexists. split; [reflexivity|]. cbn in Hs. cbn. by rewrite Hs.
  - intros s ctx k d Hs. split; [done|]. by eexists.
  - intros s ctx k d n _ _. by exists [].
Defined.

Definition gen_start : gen_state :=
  {| g_heap := ∅; g_certs := []; g_verify := NoVerify; g_digest := None; g_sign := None |}.
Lemma generated_chain_accepted_witness :
  delivers (CertGen.generateCertChain (F := GenCall)) gen_start (fun x s' =>
    delivers (X509.VerifyCertChain (F := GenCall) x X509_SUBJECT_NAME_SUFFIX) s' (fun ok _ => ok = true) /\
    forall data s1, heap s' ⊆ heap s1 -> delivers (CertGen.SignData (F := GenCall) x data) s1 (fun sig _ =>
      forall s2, delivers (X509.VerifySignature (F := GenCall) x data sig) s2 (fun ok _ => ok = true))).
Proof. apply (generated_chain_accepted (F := GenCall)). intros s'. done. Defined.
