(* ===== verification/WinSecrets.v ===== *)
(** * The release of a secret on Windows

    The Windows branches of System.cpp (the UUID of the machine in the SMBIOS table) and of
    [decrypt_secret] (SecretsProvisioningLibrary.cpp) over the wrappers of Bcrypt.v and WinCrypt.v, with
    the destructors of its objects. The TCTI calls of [new_TssCtx] are those of tss2-tcti-tbs here. The AES
    wrapper outlives the [try]: it is a local variable of the computation, destroyed after the handlers. *)

From S2P Require Import Prelude Base64 ReturnCodes Json Ossl Bcrypt WinCrypt Esys SecretsTpm Secrets.
#[local] Open Scope Z_scope.

(** The table RSMB with room for [room] bytes: the size it has, and what was written. *)
Inductive FirmwareCall : Type -> Type :=
| GetSystemFirmwareTable (room : Z) : FirmwareCall (Z * bytes).

(** ** System.cpp *)

Module WinSystem.
(** [RawSMBIOSData]: four bytes, the size of the table, the table; and [offsetof(SystemInfo, UUID)] *)
Definition raw_header : Z := 8.
Definition uuid_offset : Z := 8.
Definition SmBiosStructure_size : Z := 4.

(** [smbiosData->SMBIOSTableData[i]] *)
Definition table_byte (buf : bytes) (i : Z) : outcome byte :=
  b ← read_bytes buf (raw_header + i) 1; Ret (default x00 (head b)).
(** The position after the next two zero bytes, if the table has them; [i] is a [ULONG]. *)
Fixpoint find_end (n : nat) (buf : bytes) (sz i : Z) : outcome (option Z) :=
  match n with
  | O => Fault OutOfFuel
  | S n' =>
      if u32 (i + 1) <? sz then
        a ← table_byte buf i;
        if bool_decide (a = x00) then
          b ← table_byte buf (u32 (i + 1));
          if bool_decide (b = x00) then Ret (Some (u32 (i + 2))) else find_end n' buf sz (u32 (i + 1))
        else find_end n' buf sz (u32 (i + 1))
      else Ret None
  end.
(** The first structure of type 1. *)
Fixpoint find_system (n : nat) (buf : bytes) (sz i : Z) : outcome (option Z) :=
  match n with
  | O => Fault OutOfFuel
  | S n' =>
      if i + SmBiosStructure_size <? sz then
        type ← table_byte buf i;
        len ← table_byte buf (u32 (i + 1));
        next ← find_end (S (length buf)) buf sz (u32 (i + z_of_byte len));
        if bool_decide (type = x01) then Ret (Some i)
        else match next with Some i => find_system n' buf sz i | None => Ret None end
      else Ret None
  end.

(** [std::setw(w)] with zeros in upper-case hex, for values below [16^w] *)
Definition hex_upper (d : Z) : byte := if d <? 10 then byte_of_z (48 + d) else byte_of_z (55 + d).
Definition hex_field (w : nat) (z : Z) : bytes :=
  map (fun k => hex_upper (Z.shiftr z (4 * Z.of_nat k) mod 16)) (rev (seq 0 w)).
(** Sixteen bytes of a [UUID]; [unsigned long] has 32 bits. *)
Definition uuid_text (d : bytes) : bytes :=
  let num off n := le (take n (drop off d)) in
  hex_field 8 (num 0 4)%nat ++ str "-" ++ hex_field 4 (num 4 2)%nat ++ str "-" ++ hex_field 4 (num 6 2)%nat ++ str "-" ++
  flat_map (fun b => hex_field 2 (z_of_byte b)) (take 2 (drop 8 d)) ++ str "-" ++
  flat_map (fun b => hex_field 2 (z_of_byte b)) (take 6 (drop 10 d)).

(** The buffer is never freed, so the pointer into it stays valid: the size, and the buffer with
    the structure found in it. *)
Inductive smbios := NoTable | Table (buffer : bytes) (structure : option Z).
Definition formatUUID (uuid : smbios) : outcome bytes :=
  match uuid with
  | NoTable => Ret []
  | Table _ None => Fault UndefinedBehaviour
  | Table buf (Some i) => d ← read_bytes buf (raw_header + i + uuid_offset) 16; Ret (uuid_text d)
  end.

Section Ops.
Context {F : Type -> Type} {S : Type} `{Handler F S} `{FirmwareCall -< F}.

Definition GetSystemSmBios : M F S smbios :=
  '(actualSize, _) ← trig (GetSystemFirmwareTable 0);
  if actualSize =? 0 then mret NoTable
  else
    '(_, smbiosBuffer) ← trig (GetSystemFirmwareTable actualSize);
    _ ← (if actualSize <? size smbiosBuffer then fault_with UndefinedBehaviour else mret tt);
    sz ← lift (read_u32 smbiosBuffer 4);
    found ← lift (find_system (Datatypes.S (length smbiosBuffer)) smbiosBuffer sz 0);
    mret (Table smbiosBuffer found).
Definition GetSystemUuid : M F S bytes :=
  uuid ← GetSystemSmBios; t_uuid ← lift (formatUUID uuid); mret (map X509.tolower t_uuid).
End Ops.
End WinSystem.

(** ** SecretsProvisioningLibrary.cpp *)

Module WinSecrets.
Section Ops.
Context {F : Type -> Type} {S : Type} `{Handler F S}.
Context `{BcryptCall -< F} `{CryptCall -< F} `{EsysCall -< F} `{FirmwareCall -< F}.
Context `{BoostBase64, BoostString, NlohmannJson}.

(** [if (h != nullptr) release(h);] *)
Definition release (h : ptr) (call : M F S Z) : M F S unit :=
  if is_null h then mret tt else _ ← call; mret tt.
(** The destructors; they look at no status. *)
Definition drop_ECDiffieHellman (d : WinEcdh.BcryptECDiffieHellman) : M F S unit :=
  _ ← release (WinEcdh.hSharedSecret d) (trig (BCryptDestroySecret (WinEcdh.hSharedSecret d)));
  _ ← release (WinEcdh.hEccKeyHandle d) (trig (BCryptDestroyKey (WinEcdh.hEccKeyHandle d)));
  release (WinEcdh.hEcHandle d) (trig (BCryptCloseAlgorithmProvider (WinEcdh.hEcHandle d))).
Definition drop_HKDF (k : Bcrypt.BcryptHKDF) : M F S unit :=
  _ ← release (Bcrypt.secret k) (trig (BCryptDestroySecret (Bcrypt.secret k)));
  release (Bcrypt.hAlg k) (trig (BCryptCloseAlgorithmProvider (Bcrypt.hAlg k))).
(** [~GcmWrapper] throws when a call fails; in a destructor that ends the process. The key of an earlier
    [SetKey] is not destroyed. *)
Definition drop_GcmWrapper (w : Bcrypt.GcmWrapper) : M F S unit :=
  _ ← (if is_null (Bcrypt.hAesHandle w) then mret tt
       else
         st ← trig (BCryptCloseAlgorithmProvider (Bcrypt.hAesHandle w));
         Bcrypt.success st "BCryptCloseAlgorithmProvider failed" LibraryError_Bcrypt_handleError);
  if is_null (Bcrypt.hAesKey w) then mret tt
  else
    st ← trig (BCryptDestroyKey (Bcrypt.hAesKey w));
    Bcrypt.success st "BCryptDestroyKey failed" LibraryError_Bcrypt_handleError.
(** An exception of [m] leaves the scope of objects with the destructors [d]. *)
Definition unwinding {A} (m : M F S A) (d : M F S unit) : M F S A :=
  try_all m (fun e => _ ← d; throw e).

(** The catch clauses on Windows; [OsslError] does not exist there. *)
Definition decrypt_error (e : exn) : ErrorCode + Z :=
  match e with
  | BcryptErr _ _ librc | WinCryptErr _ _ librc => inr librc
  | _ => Secrets.decrypt_error e
  end.

Definition aes_decrypt (w : Bcrypt.GcmWrapper) (nonce ciphertext : bytes) : M F S bytes :=
  aesChainingInfo ← Bcrypt.SetChainingInfo w nonce; Bcrypt.Decrypt w ciphertext aesChainingInfo.
(** The variable [aesWrapper] lives outside the [try]: what it holds at the end is destroyed last. *)
Local Notation MA := (M F (S * option Bcrypt.GcmWrapper)).
Definition set_wrapper (w : Bcrypt.GcmWrapper) : MA Bcrypt.GcmWrapper := _ ← put_local (Some w); mret w.

Definition drop_both (p q : WinEcdh.BcryptECDiffieHellman) : M F S unit := _ ← drop_ECDiffieHellman q; drop_ECDiffieHellman p.
(** From the private key of the guest to the secret of the HKDF; the objects are destroyed in the reverse order. *)
Definition agree_keys (encodedEcdhPrivate exportedPublicKeyData : bytes) : M F S (Bcrypt.BcryptHKDF * (WinEcdh.BcryptECDiffieHellman * WinEcdh.BcryptECDiffieHellman)) :=
  p ← WinEcdh.new_BcryptECDiffieHellman;
  q ← unwinding WinEcdh.new_BcryptECDiffieHellman (drop_ECDiffieHellman p);
  p ← unwinding (WinEcdh.ImportPkcs8PrivateKey p encodedEcdhPrivate) (drop_both p q);
  q ← unwinding (WinEcdh.ImportSubjectPublicKeyInfo q exportedPublicKeyData) (drop_both p q);
  '(secret, p) ← unwinding (WinEcdh.DeriveSecret p q) (drop_both p q);
  hkdf ← unwinding (Bcrypt.new_BcryptHKDF secret) (drop_both p q);
  mret (hkdf, (p, q)).
Definition agree_and_decrypt (aesWrapper : Bcrypt.GcmWrapper) (encodedEcdhPrivate exportedPublicKeyData
    salt infoData dataNonce encryptedSecret : bytes) : MA bytes :=
  '(hkdf, (p, q)) ← zoom (agree_keys encodedEcdhPrivate exportedPublicKeyData);
  finally (
    aesKey ← zoom (Bcrypt.DeriveKey hkdf salt infoData 32);
    aesWrapper ← zoom (Bcrypt.SetKey aesWrapper aesKey) ≫= set_wrapper;
    zoom (aes_decrypt aesWrapper dataNonce encryptedSecret))
  (zoom (_ ← drop_HKDF hkdf; drop_both p q)).

Definition decrypt_steps (claims : json) (infoData : bytes) (paddingScheme : RsaPaddingScheme)
  : MA (Z * bytes) :=
  _ ← lift (json_dump claims);
  salt ← lift (Secrets.claim_bytes claims "salt");
  dataNonce ← lift (Secrets.claim_bytes claims "dataNonce");
  wrappingNonce ← lift (Secrets.claim_bytes claims "keyNonce");
  wrappedAesKey ← lift (Secrets.claim_bytes claims "wrappedAesTransportKey");
  encryptedSecret ← lift (Secrets.claim_bytes claims "encryptedSecret");
  encryptedEcdhPrivate ← lift (Secrets.claim_bytes claims "encryptedGuestEcdhPrivateKey");
  exportedPublicKeyData ← lift (Secrets.claim_bytes claims "ephemeralEcdhPublicKey");
  _ ← zoom SecretsTpm.new_TssCtx;
  finally (
    aesKey ← zoom (SecretsTpm.RsaDecrypt wrappedAesKey paddingScheme);
    if size aesKey =? 0 then mret (error_code UnknownError, [])
    else
      aesWrapper ← zoom Bcrypt.new_GcmWrapper ≫= set_wrapper;
      aesWrapper ← zoom (Bcrypt.SetKey aesWrapper aesKey) ≫= set_wrapper;
      encodedEcdhPrivate ← zoom (aes_decrypt aesWrapper wrappingNonce encryptedEcdhPrivate);
      if size encodedEcdhPrivate =? 0 then mret (error_code UnknownError, [])
      else
        plaintextData ← agree_and_decrypt aesWrapper encodedEcdhPrivate exportedPublicKeyData
                          salt infoData dataNonce encryptedSecret;
        if size plaintextData =? 0 then mret (error_code UnknownError, [])
        else mret (0, plaintextData))
  (zoom (trig Esys_Finalize)).
Definition decrypt_secret (claims : json) (paddingScheme : RsaPaddingScheme) : M F S (Z * bytes) :=
  infoString ← WinSystem.GetSystemUuid;
  scoped None
    (try_all (decrypt_steps claims infoString paddingScheme)
       (fun e => mret (Secrets.code_of (decrypt_error e), [])))
    (fun w => match w with Some w => drop_GcmWrapper w | None => mret tt end).
End Ops.
End WinSecrets.
