(* ===== verification/WinSecretsFacts.v ===== *)
(** * What the release of a secret on Windows guarantees

    The UUID is that of the first system structure of the SMBIOS table; [decrypt_secret] computes
    the specification of SecretSpec.v; the agreed secret is destroyed twice. *)

From S2P Require Import Prelude Base64 ReturnCodes Json Ossl Bcrypt BcryptFacts WinCrypt WinFacts Esys SecretsTpm Secrets SecretSpec WinSecrets.
#[local] Open Scope Z_scope.

(** ** SMBIOS tables *)

(** A structure: its type, what follows the two first bytes of the formatted area, and its strings, which
    are not empty and hold no zero. *)
Record smbios_structure := { s_type : byte; s_body : bytes; s_strings : list bytes }.
Definition string_area (l : list bytes) : bytes :=
  match l with [] => [x00; x00] | _ => concat (map (fun w => w ++ [x00]) l) ++ [x00] end.
Definition encode_structure (st : smbios_structure) : bytes :=
  s_type st :: byte_of_z (2 + size (s_body st)) :: s_body st ++ string_area (s_strings st).
Definition smbios_table (l : list smbios_structure) : bytes := concat (map encode_structure l).
(** [RawSMBIOSData] *)
Definition raw_table (version : bytes) (l : list smbios_structure) : bytes :=
  version ++ u32_bytes (size (smbios_table l)) ++ smbios_table l.
Definition structure_ok (st : smbios_structure) : Prop :=
  2 <= size (s_body st) < 254 /\ Forall (fun w => w <> [] /\ Forall (fun c => c <> x00) w) (s_strings st).

Section Smbios.
Import WinSystem.

(** The position after the first two zero bytes in a row. *)
Fixpoint double_zero (l : bytes) : option Z :=
  match l with
  | a :: (b :: _) as l' =>
      if bool_decide (a = x00) && bool_decide (b = x00) then Some 2 else (Z.add 1) <$> double_zero l'
  | _ => None
  end.

Lemma double_zero_step a b l : double_zero (a :: b :: l) =
  if bool_decide (a = x00) && bool_decide (b = x00) then Some 2 else Z.add 1 <$> double_zero (b :: l).
Proof. done. Qed.
Lemma shift_one p (o : option Z) : Z.add (p + 1) <$> o = Z.add p <$> (Z.add 1 <$> o).
Proof. destruct o as [z|]; [|done]. simpl. f_equal. lia. Qed.
Lemma table_byte_at hd pre c l : size hd = 8 -> table_byte (hd ++ pre ++ c :: l) (size pre) = Ret c.
Proof.
  intros Hh. unfold table_byte, raw_header. rewrite app_assoc. replace (8 + size pre) with (size (hd ++ pre)) by (rewrite size_app; lia).
  pose proof (read_middle (hd ++ pre) [c] l) as Hr. change (size [c]) with 1 in Hr. simpl app in Hr. by rewrite Hr.
Qed.
Lemma find_end_spec hd l : forall n pre,
  size hd = 8 -> (length l < n)%nat -> size pre + size l + 2 < 2 ^ 32 ->
  find_end n (hd ++ pre ++ l) (size (pre ++ l)) (size pre) = Ret (Z.add (size pre) <$> double_zero l).
Proof.
  induction l as [|a l IH]; intros n pre Hh Hn Hs; (destruct n as [|n]; [simpl in Hn; lia|]); cbn [find_end].
  - rewrite u32_small, app_nil_r by (unfold size in *; simpl in *; lia). rewrite (proj2 (Z.ltb_ge _ _)) by lia. done.
  - assert (Hp : 0 <= size pre) by apply size_nonneg. assert (Hl : 0 <= size l) by apply size_nonneg.
    assert (Hc : size (a :: l) = 1 + size l) by (unfold size; simpl; lia).
    rewrite u32_small, size_app, Hc by lia.
    specialize (IH n (pre ++ [a]) Hh ltac:(simpl in Hn; lia)). rewrite <- !app_assoc in IH. simpl app in IH.
    replace (size (pre ++ [a])) with (size pre + 1) in IH by (rewrite size_app; done).
    rewrite size_app, Hc in IH.
    destruct l as [|b l].
    { change (size []) with 0. rewrite (proj2 (Z.ltb_ge _ _)) by lia. done. }
    rewrite (proj2 (Z.ltb_lt _ _)) by (unfold size in *; simpl in *; lia). rewrite table_byte_at by done. cbn [mbind outcome_bind].
    assert (Hb : table_byte (hd ++ pre ++ a :: b :: l) (size pre + 1) = Ret b).
    { pose proof (table_byte_at hd (pre ++ [a]) b l Hh) as Hb. rewrite size_app, <- app_assoc in Hb. exact Hb. }
    specialize (IH ltac:(lia)). cbn [double_zero]. destruct (bool_decide (a = x00)); cbn [andb].
    + rewrite Hb. cbn [mbind outcome_bind]. destruct (bool_decide (b = x00)) eqn:Eb.
      * rewrite u32_small by lia. done.
      * rewrite IH, shift_one. cbn [double_zero]. by rewrite Eb.
    + by rewrite IH, shift_one.
Qed.
(** The strings of a structure end at its terminator, whatever follows. *)
Lemma double_zero_word w l : Forall (fun c => c <> x00) w -> w <> [] ->
  double_zero (w ++ x00 :: l) = Z.add (size w) <$> double_zero (x00 :: l).
Proof.
  intros Hw Hne. destruct w as [|c w]; [done|]. clear Hne. revert c Hw.
  induction w as [|c' w IH]; intros c Hw; apply Forall_cons in Hw as [Hc Hw].
  - cbn [app double_zero]. by rewrite bool_decide_eq_false_2.
  - specialize (IH c' Hw). cbn [app] in *. cbn [double_zero] in *. rewrite (bool_decide_eq_false_2 _ Hc). cbn [andb].
    rewrite IH. destruct (match l with [] => None | _ => _ end) as [z|]; [|done]. simpl. f_equal. unfold size. simpl. lia.
Qed.
Lemma double_zero_strings ws l : Forall (fun w => w <> [] /\ Forall (fun c => c <> x00) w) ws ->
  double_zero (string_area ws ++ l) = Some (size (string_area ws)).
Proof.
  destruct ws as [|w ws]; [done|]. unfold string_area. set (a := concat _). intros Hw.
  assert (Hg : forall ws, Forall (fun w => w <> [] /\ Forall (fun c => c <> x00) w) ws ->
    double_zero (x00 :: concat (map (fun w => w ++ [x00]) ws) ++ x00 :: l) = Some (2 + size (concat (map (fun w => w ++ [x00]) ws)))).
  { clear. induction ws as [|w ws IH]; intros Hw; [done|]. apply Forall_cons in Hw as [[Hne Hw] Hws]. specialize (IH Hws).
    cbn [map concat]. rewrite <- !app_assoc. cbn [app]. destruct w as [|c w]; [done|].
    apply Forall_cons in Hw as Hc. destruct Hc as [Hc _].
    pose proof (double_zero_word (c :: w) (concat (map (fun w => w ++ [x00]) ws) ++ x00 :: l) Hw Hne) as Hd.
    cbn [app] in *. rewrite double_zero_step, (bool_decide_eq_false_2 (c = x00)), andb_false_r by done.
    rewrite Hd, IH. unfold size. simpl. f_equal. rewrite !length_app. simpl. lia. }
  apply Forall_cons in Hw as [[Hne Hw] Hws]. unfold a. cbn [map concat]. rewrite <- !app_assoc. cbn [app].
  rewrite (double_zero_word w _ Hw Hne), (Hg ws Hws). unfold size. simpl. f_equal. rewrite !length_app. simpl.
  rewrite length_app. simpl. lia.
Qed.
(** Where the first structure of type 1 begins. *)
Fixpoint system_at (l : list smbios_structure) : option Z :=
  match l with
  | [] => None
  | st :: l' => if bool_decide (s_type st = x01) then Some 0 else Z.add (size (encode_structure st)) <$> system_at l'
  end.
Lemma area_size ws : 2 <= size (string_area ws).
Proof.
  destruct ws as [|w ws]; [done|]. unfold string_area, size. simpl. rewrite !length_app. simpl. lia.
Qed.
Lemma find_system_spec hd l : forall n pre,
  size hd = 8 -> Forall structure_ok l -> (length l < n)%nat -> size pre + size (smbios_table l) + 8 < 2 ^ 32 ->
  find_system n (hd ++ pre ++ smbios_table l) (size (pre ++ smbios_table l)) (size pre) = Ret (Z.add (size pre) <$> system_at l).
Proof.
  induction l as [|st l IH]; intros n pre Hh Hl Hn Hs; (destruct n as [|n]; [simpl in Hn; lia|]); cbn [find_system].
  - rewrite app_nil_r, (proj2 (Z.ltb_ge _ _)) by (unfold SmBiosStructure_size; lia). done.
  - apply Forall_cons in Hl as [[Hb Hw] Hl]. assert (Ha := area_size (s_strings st)). assert (Hp := size_nonneg pre).
    assert (Ht := size_nonneg (smbios_table l)). unfold smbios_table in *. cbn [map concat] in *. fold (smbios_table l) in *.
    specialize (IH n (pre ++ encode_structure st) Hh Hl ltac:(simpl in Hn; lia)). rewrite <- !app_assoc in IH.
    rewrite (size_app pre) in IH. rewrite size_app in Hs. specialize (IH ltac:(lia)).
    set (body := s_body st) in *. set (ws := s_strings st) in *. set (b := byte_of_z (2 + size body)).
    assert (He : encode_structure st = [s_type st; b] ++ body ++ string_area ws) by done.
    assert (Hse : size (encode_structure st) = 2 + size body + size (string_area ws))
      by (rewrite He, !size_app; change (size [s_type st; b]) with 2; lia).
    rewrite (proj2 (Z.ltb_lt _ _)) by (rewrite !size_app, Hse; unfold SmBiosStructure_size; lia).
    pose proof (table_byte_at hd pre (s_type st) (b :: body ++ string_area ws ++ smbios_table l) Hh) as H1.
    pose proof (table_byte_at hd (pre ++ [s_type st]) b (body ++ string_area ws ++ smbios_table l) Hh) as H2.
    rewrite size_app, <- app_assoc in H2. change (size [s_type st]) with 1 in H2.
    set (pre2 := pre ++ [s_type st; b] ++ body).
    assert (Hpre2 : size pre2 = size pre + (2 + size body)) by (unfold pre2; rewrite !size_app; change (size [s_type st; b]) with 2; lia).
    assert (Hbuf : pre ++ encode_structure st ++ smbios_table l = pre2 ++ string_area ws ++ smbios_table l)
      by (unfold pre2; rewrite He, <- !app_assoc; done).
    assert (H1' : table_byte (hd ++ pre ++ encode_structure st ++ smbios_table l) (size pre) = Ret (s_type st))
      by (rewrite <- H1, He, <- !app_assoc; done).
    assert (H2' : table_byte (hd ++ pre ++ encode_structure st ++ smbios_table l) (size pre + 1) = Ret b)
      by (rewrite <- H2, He, <- !app_assoc; done).
    rewrite (u32_small (size pre + 1)), H1', H2' by lia. cbn [mbind outcome_bind].
    unfold b. rewrite z_of_byte_of_z by (unfold size in *; lia). rewrite u32_small, <- Hpre2 by lia.
    rewrite Hbuf. rewrite find_end_spec; [|done| |].
    2: { rewrite !length_app. lia. }
    2: { rewrite Hpre2, size_app. lia. }
    rewrite double_zero_strings by done. cbn [mbind outcome_bind fmap option_fmap option_map system_at].
    destruct (bool_decide (s_type st = x01)); [cbn; do 2 f_equal; lia|].
    rewrite <- Hbuf. replace (size pre2 + size (string_area ws)) with (size pre + size (encode_structure st)) by lia.
    rewrite IH. destruct (system_at l) as [z|]; [|done]. cbn [fmap option_fmap option_map]. do 2 f_equal. lia.
Qed.
Definition system_structure (l : list smbios_structure) : option smbios_structure :=
  head (filter (fun st => s_type st = x01) l).
Lemma system_at_split l :
  match system_structure l with
  | Some st => exists l1 l2, l = l1 ++ st :: l2 /\ system_at l = Some (size (smbios_table l1))
  | None => system_at l = None
  end.
Proof.
  unfold system_structure. induction l as [|st l IH]; [done|]. cbn [system_at].
  destruct (decide (s_type st = x01)) as [E|E].
  - rewrite filter_cons_True by done. exists [], l. by rewrite bool_decide_eq_true_2.
  - rewrite filter_cons_False, bool_decide_eq_false_2 by done.
    destruct (head _) as [st'|]; [|by rewrite IH]. destruct IH as (l1 & l2 & -> & ->). exists (st :: l1), l2. split; [done|].
    unfold smbios_table. cbn [map concat]. cbn [fmap option_fmap option_map]. by rewrite size_app.
Qed.
Lemma smbios_table_app l1 l2 : smbios_table (l1 ++ l2) = smbios_table l1 ++ smbios_table l2.
Proof. unfold smbios_table. by rewrite map_app, concat_app. Qed.

Section Uuid.
Context {F : Type -> Type} {S : Type} `{Handler F S} `{FirmwareCall -< F}.

Lemma raw_split version l : size version = 4 -> exists hd,
  raw_table version l = hd ++ smbios_table l /\ size hd = 8 /\ hd = version ++ u32_bytes (size (smbios_table l)).
Proof.
  intros Hv. exists (version ++ u32_bytes (size (smbios_table l))). split_and!; [|by rewrite size_app, Hv|done].
  unfold raw_table. by rewrite <- app_assoc.
Qed.
Lemma table_length l : (length l <= length (smbios_table l))%nat.
Proof.
  unfold smbios_table. induction l as [|st l IH]; [done|]. simpl. rewrite length_app. simpl. lia.
Qed.
Lemma delivers_GetSystemSmBios version l s n w s1 r s2 :
  size version = 4 -> Forall structure_ok l -> size (smbios_table l) + 8 < 2 ^ 32 ->
  handle (inj (GetSystemFirmwareTable 0)) s = ((n, w), s1) ->
  handle (inj (GetSystemFirmwareTable n)) s1 = ((r, raw_table version l), s2) -> n = size (raw_table version l) ->
  delivers GetSystemSmBios s (fun x _ => x = Table (raw_table version l) (system_at l)).
Proof.
  intros Hv Hl Hs H1 H2 Hn. destruct (raw_split version l Hv) as (hd & Hr & Hh & _).
  assert (Ht := size_nonneg (smbios_table l)). apply delivers_bind. eapply delivers_trig; [exact H1|]. cbn beta iota.
  rewrite (proj2 (Z.eqb_neq _ _)) by (rewrite Hn, Hr, size_app; lia). apply delivers_bind.
  eapply delivers_trig; [exact H2|]. cbn beta iota. rewrite Hn, Z.ltb_irrefl. apply delivers_bind, delivers_ret, delivers_bind.
  eapply delivers_lift.
  { unfold read_u32, raw_table. pose proof (read_middle version (u32_bytes (size (smbios_table l))) (smbios_table l)) as Hm.
    rewrite Hv in Hm. change (size (u32_bytes (size (smbios_table l)))) with 4 in Hm. rewrite Hm.
    cbn [mbind outcome_bind]. by rewrite le_u32 by lia. }
  cbn beta. apply delivers_bind. eapply delivers_lift; [|by apply delivers_ret]. rewrite Hr.
  pose proof (find_system_spec hd l (Datatypes.S (length (hd ++ smbios_table l))) [] Hh Hl) as Hf. cbn [app] in Hf.
  change (size []) with 0 in Hf. rewrite Hf; [by destruct (system_at l)| |lia].
  rewrite length_app. pose proof (table_length l). lia.
Qed.

(** C35: The UUID of the machine is found wherever it is. For every well-formed SMBIOS table - structures
    of any types, lengths and strings in any order - [GetSystemUuid] returns the canonical lower-case text
    of the UUID of the first system structure; the UUID is empty when the firmware has no table, and
    without a system structure the program follows a null pointer. *)
Theorem smbios_uuid version l s n w s1 r s2 :
  size version = 4 -> Forall structure_ok l -> size (smbios_table l) + 8 < 2 ^ 32 ->
  handle (inj (GetSystemFirmwareTable 0)) s = ((n, w), s1) ->
  handle (inj (GetSystemFirmwareTable n)) s1 = ((r, raw_table version l), s2) ->
  (n = 0 -> res (GetSystemUuid s) = Ret []) /\
  (n = size (raw_table version l) ->
   (forall st, system_structure l = Some st -> 22 <= size (s_body st) ->
      res (GetSystemUuid s) = Ret (map X509.tolower (uuid_text (take 16 (drop 6 (s_body st)))))) /\
   (system_structure l = None -> res (GetSystemUuid s) = Fault UndefinedBehaviour)).
Proof.
  intros Hv Hl Hs H1 H2. split.
  { intros ->. apply delivers_after, delivers_bind. eapply delivers_trig; [exact H1|]. by apply delivers_ret. }
  intros Hn. pose proof (delivers_GetSystemSmBios version l s n w s1 r s2 Hv Hl Hs H1 H2 Hn) as Hd.
  pose proof (system_at_split l) as Hsp.
  split; [intros st Hst Hb|intros Hst]; rewrite Hst in Hsp; unfold GetSystemUuid; apply delivers_after;
    (eapply delivers_mono; [exact Hd|]); intros x s' ->; cbn beta.
  2: { by rewrite Hsp. }
  destruct Hsp as (l1 & l2 & Hl12 & ->). destruct (raw_split version l Hv) as (hd & Hr & Hh & _).
  cbn [formatUUID]. unfold raw_header, uuid_offset. set (b := s_body st) in *. set (len := byte_of_z (2 + size b)).
  set (d := take 16 (drop 6 b)).
  assert (Hrd : raw_table version l = (hd ++ smbios_table l1 ++ [s_type st; len] ++ take 6 b) ++
    d ++ drop 16 (drop 6 b) ++ string_area (s_strings st) ++ smbios_table l2).
  { rewrite Hr, Hl12, smbios_table_app. change (smbios_table (st :: l2)) with (encode_structure st ++ smbios_table l2).
    unfold encode_structure. fold b len. rewrite <- (take_drop 6 b) at 1. rewrite <- (take_drop 16 (drop 6 b)) at 1.
    rewrite <- !app_assoc. cbn [app]. by rewrite <- !app_assoc. }
  assert (Ho : size (hd ++ smbios_table l1 ++ [s_type st; len] ++ take 6 b) = 8 + size (smbios_table l1) + 8).
  { rewrite !size_app, Hh. change (size [s_type st; len]) with 2.
    assert (size (take 6 b) = 6) by (unfold size in *; rewrite length_take; lia). lia. }
  assert (Hd16 : size d = 16) by (unfold d, size in *; rewrite length_take, length_drop; lia).
  pose proof (read_middle (hd ++ smbios_table l1 ++ [s_type st; len] ++ take 6 b) d
    (drop 16 (drop 6 b) ++ string_area (s_strings st) ++ smbios_table l2)) as Hm.
  rewrite <- Hrd, Ho, Hd16 in Hm. by rewrite Hm.
Qed.
End Uuid.
End Smbios.

(** ** Refinement *)

(** bcrypt and wincrypt compute the algorithms of [Crypto]; [sym_key], [priv_of] and [pub_of] are what
    the handles of keys stand for, [win_foreign] holds of encodings of keys on other curves. *)
Class WinCryptoLaws (F : Type -> Type) (S : Type) `{Handler F S} `{BcryptCall -< F} `{CryptCall -< F}
    `{!HmacLaws F S} `{!GcmLaws F S} `{Crypto} := {
  win_foreign : bytes -> Prop;
  sym_key : ptr -> bytes;
  priv_of : ptr -> bytes;
  pub_of : ptr -> bytes * bytes;
  hmac_is k d : hmac k d = hmac256 k d;
  tag_is_16 : gcm_tag_size = 16;
  block_is_16 : gcm_block = 16;
  ctr_is k n d : size n = 12 -> ctr k n 0 d = gcm_ctr (sym_key k) n d;
  tag_is k n c : size n = 12 -> gcm_tag k n c = gcm_mac (sym_key k) n c;
  open_alg s a h : exists p, fst (handle (inj (BCryptOpenAlgorithmProvider a h)) s) = (0, p);
  close_alg s h : fst (handle (inj (BCryptCloseAlgorithmProvider h)) s) = 0;
  destroy_key s h : fst (handle (inj (BCryptDestroyKey h)) s) = 0;
  set_gcm s h : fst (handle (inj (BCryptSetProperty_GCM h)) s) = 0;
  object_length s h : exists n, fst (handle (inj (BCryptGetProperty_object_length h)) s) = (0, n);
  gen_key s h n k : size k = 32 ->
    exists p, fst (handle (inj (BCryptGenerateSymmetricKey h n k)) s) = (0, p) /\ sym_key p = k;
  dec_private s der : ~ win_foreign der ->
    match parse_private der with
    | Some k => exists info, fst (handle (inj (CryptDecode_PrivateKeyInfo der)) s) = Some info /\
        forall s', fst (handle (inj (CryptDecode_EccPrivateKey info)) s')
          = Some (number k, match point k with Some (x, y) => x04 :: x ++ y | None => [] end)
    | None => fst (handle (inj (CryptDecode_PrivateKeyInfo der)) s) = None \/
        exists info, fst (handle (inj (CryptDecode_PrivateKeyInfo der)) s) = Some info /\
          forall s', fst (handle (inj (CryptDecode_EccPrivateKey info)) s') = None
    end;
  dec_public s der : ~ win_foreign der ->
    fst (handle (inj (CryptDecode_PublicKeyInfo der)) s)
    = match parse_public der with Some (x, y) => Some (x04 :: x ++ y) | None => None end;
  import_private s h der k x y : parse_private der = Some k -> point k = Some (x, y) ->
    exists p, fst (handle (inj (BCryptImportKeyPair h true
      (ec_blob WinEcdh.BCRYPT_ECDH_PRIVATE_P256_MAGIC (size (number k)) (padded (size (number k)) x)
         (padded (size (number k)) y) (number k)))) s) = (0, p) /\ priv_of p = number k;
  import_public s h der x y : parse_public der = Some (x, y) ->
    exists p, fst (handle (inj (BCryptImportKeyPair h false
      (ec_blob WinEcdh.BCRYPT_ECDH_PUBLIC_P256_MAGIC (size x) x y []))) s) = (0, p) /\ pub_of p = (x, y);
  secret_agreement s p q : exists z, fst (handle (inj (BCryptSecretAgreement p q)) s) = (0, z) /\
    is_null z = false /\ kdf z = sha256_of (agree (priv_of p) (pub_of q)) }.

(** The layout the import of keys depends on (see [win_import_layout]). *)
Record key_layout (private : option bytes) (public : bytes) `{Crypto} : Prop := {
  private_layout : forall der k, private = Some der -> parse_private der = Some k ->
    exists x y, point k = Some (x, y) /\ size x = size y /\ 0 < size x <= size (number k) /\ size (number k) < 2 ^ 29;
  public_layout : forall x y, parse_public public = Some (x, y) -> size x = size y /\ 0 < size x < 2 ^ 29 }.

Section WinRefinement.
Context {F : Type -> Type} {S : Type} `{Handler F S} `{HB : BcryptCall -< F} `{HC : CryptCall -< F}.
Context `{HE : EsysCall -< F} `{HW : FirmwareCall -< F} `{BoostBase64, BoostString, NlohmannJson}.
Context `{!HmacLaws F S} `{!GcmLaws F S} `{CryptoLaws} `{!WinCryptoLaws F S}.
Context {rsa_open : rsa_scheme -> bytes -> option bytes} `{!GuestKeyLaws F S rsa_open}.
Import WinEcdh WinSecrets.

(** Exceptions that become a failure, where the specification [spec] has no secret. *)
Let X (spec : option bytes) (e : exn) : Prop :=
  spec = None /\ failure (Secrets.code_of (decrypt_error e)).

Lemma delivers_SetKey w k s : size k = 32 -> Bcrypt.blockLength w = 16 -> Bcrypt.dwMaxLength w = 16 ->
  delivers (Bcrypt.SetKey w k) s (fun w' _ => sym_key (Bcrypt.hAesKey w') = k /\ Bcrypt.blockLength w' = 16 /\ Bcrypt.dwMaxLength w' = 16).
Proof.
  intros Hk Hb Hm. apply delivers_bind. destruct (gen_key s (Bcrypt.hAesHandle w) (Bcrypt.objectLength w) k Hk) as (p & E & Hp).
  eapply delivers_answer; [exact E|]. intros s1. cbn beta iota. apply delivers_ok. by apply delivers_ret.
Qed.
Lemma delivers_new_GcmWrapper s :
  delivers Bcrypt.new_GcmWrapper s (fun w _ => Bcrypt.blockLength w = 16 /\ Bcrypt.dwMaxLength w = 16).
Proof.
  unfold Bcrypt.new_GcmWrapper, Bcrypt.bcrypt_success. apply delivers_bind.
  destruct (open_alg s (str "AES") false) as (h & E).
  eapply delivers_answer; [exact E|]. intros s1. cbn beta iota. apply delivers_ok, delivers_bind.
  eapply delivers_answer; [apply set_gcm|]. intros s2. apply delivers_bind, delivers_require; [done|]. apply delivers_bind.
  eapply delivers_answer; [apply tag_length|]. intros s3. cbn beta iota. apply delivers_bind, delivers_require; [done|].
  apply delivers_bind. eapply delivers_answer; [apply block_length|]. intros s4. cbn beta iota.
  apply delivers_bind, delivers_require; [done|]. apply delivers_bind. destruct (object_length s4 h) as (n & E5).
  eapply delivers_answer; [exact E5|]. intros s5. cbn beta iota. apply delivers_bind, delivers_require; [done|].
  apply delivers_ret. split; [apply block_is_16|apply tag_is_16].
Qed.

Lemma meets_aes_decrypt w n c s (Q : bytes -> S -> Prop) (Y : exn -> Prop) :
  Bcrypt.blockLength w = 16 -> Bcrypt.dwMaxLength w = 16 -> size n = 12 -> size c + 16 < 2 ^ 31 ->
  match gcm_open (sym_key (Bcrypt.hAesKey w)) n c with
  | Some p => forall s', Q p s'
  | None => forall e, failure (Secrets.code_of (decrypt_error e)) -> Y e
  end -> meets (aes_decrypt w n c) s Q Y.
Proof.
  intros Hb Hm Hn Hc HQ. unfold aes_decrypt. apply meets_bind, meets_delivers.
  eapply delivers_mono; [apply (delivers_SetChainingInfo w n s); by rewrite Hb, block_is_16|].
  intros ci s1 [Hf Hnonce]. assert (Hc0 := size_nonneg c). unfold gcm_open in HQ. destruct (16 <=? size c) eqn:E.
  - apply Z.leb_le in E. set (ct := take (length c - 16) c) in *. set (tag := drop (length c - 16) c) in *.
    assert (Htag : size tag = 16) by (unfold tag, size in *; rewrite length_drop; lia).
    assert (Hct : size ct <= size c) by (unfold ct, size in *; rewrite length_take; lia).
    assert (Hs : ct ++ tag = c) by apply take_drop.
    pose proof (decrypt_result w ct tag ci s1 Hf ltac:(by rewrite Hm, tag_is_16) ltac:(by rewrite Htag, tag_is_16)
      ltac:(rewrite block_is_16; lia)) as Hr.
    cbn zeta in Hr. rewrite Hs, Hnonce, ctr_is, tag_is in Hr by done. cbn [andb] in HQ.
    eapply meets_res; [exact Hr|]. destruct (bool_decide _); [exact HQ|]. apply HQ. by apply failure_code.
  - apply Z.leb_gt in E. cbn [andb] in HQ. unfold Bcrypt.Decrypt. rewrite Hm. apply meets_bind.
    unfold Bcrypt.vector_of_size, u64, vector_max_size.
    rewrite <- (Z.mod_unique_pos (size c - 16) (2 ^ 64) (-1) (size c - 16 + 2 ^ 64)) by lia.
    rewrite (proj2 (Z.ltb_lt _ _)) by lia. apply HQ. by apply failure_code.
Qed.

Lemma delivers_release h (m : M F S Z) s : (forall s', delivers m s' (fun _ _ => True)) ->
  delivers (release h m) s (fun _ _ => True).
Proof.
  intros Hm. unfold release. destruct (is_null h); [by apply delivers_ret|]. apply delivers_bind.
  eapply delivers_mono; [apply Hm|]. intros a s' _. by apply delivers_ret.
Qed.
Lemma delivers_any {R} `{E' -< F} (e : E' R) s : delivers (trig e) s (fun (_ : R) (_ : S) => True).
Proof. by eapply delivers_answer. Qed.
Lemma delivers_then (m k : M F S unit) : (forall s, delivers m s (fun _ _ => True)) ->
  (forall s, delivers k s (fun _ _ => True)) -> forall s, delivers (_ ← m; k) s (fun _ _ => True).
Proof. intros Hm Hk s. apply delivers_bind. eapply delivers_mono; [apply Hm|]. intros [] s1 _. apply Hk. Qed.
Lemma delivers_drop d : forall s, delivers (drop_ECDiffieHellman d) s (fun _ _ => True).
Proof. repeat apply delivers_then; intros s; apply delivers_release; intros s'; apply delivers_any. Qed.
Lemma delivers_drop_both p q : forall s, delivers (drop_both p q) s (fun _ _ => True).
Proof. apply delivers_then; apply delivers_drop. Qed.
Lemma delivers_drop_GcmWrapper w : forall s, delivers (drop_GcmWrapper w) s (fun _ _ => True).
Proof.
  apply delivers_then; intros s; [destruct (is_null (Bcrypt.hAesHandle w))|destruct (is_null (Bcrypt.hAesKey w))];
    try by apply delivers_ret.
  - apply delivers_bind. eapply delivers_answer; [apply close_alg|]. intros s1. by apply delivers_require.
  - apply delivers_bind. eapply delivers_answer; [apply destroy_key|]. intros s1. by apply delivers_require.
Qed.
Lemma delivers_drop_HKDF k : forall s, delivers (drop_HKDF k) s (fun _ _ => True).
Proof. apply delivers_then; intros s; apply delivers_release; intros s'; apply delivers_any. Qed.
Lemma meets_unwinding {A} (m : M F S A) d s (Q : A -> S -> Prop) (Y : exn -> Prop) :
  (forall s', delivers d s' (fun _ _ => True)) -> meets m s Q Y -> meets (unwinding m d) s Q Y.
Proof.
  intros Hd Hm. unfold unwinding. eapply meets_try_all; [exact Hm|done|]. intros e s' He.
  apply meets_bind, meets_delivers. eapply delivers_mono; [apply Hd|]. intros [] s1 _. by apply meets_throw.
Qed.

Lemma meets_checked_none {A B} w c s (k : A -> M F S B) (Q : B -> S -> Prop) (Y : exn -> Prop) :
  (forall e, Y (WinCryptErr (str w) e (error_code c))) -> meets (checked None w c ≫= k) s Q Y.
Proof. intros HY. apply meets_bind. unfold checked, wincrypt_error. eapply meets_answer; [reflexivity|]. intros s1. apply HY. Qed.

Lemma meets_ImportPkcs8 p der s spec :
  ~ win_foreign der -> (parse_private der = None -> spec = None) ->
  (forall k, parse_private der = Some k -> exists x y, point k = Some (x, y) /\ size x = size y /\
    0 < size x <= size (number k) /\ size (number k) < 2 ^ 29) ->
  meets (ImportPkcs8PrivateKey p der) s
    (fun p' _ => exists k, parse_private der = Some k /\ priv_of (hEccKeyHandle p') = number k) (X spec).
Proof.
  intros Hf Hn Hl. unfold ImportPkcs8PrivateKey. pose proof (dec_private s der Hf) as Hd.
  destruct (parse_private der) as [k|] eqn:Ek.
  - destruct Hd as (info & E1 & E2). destruct (Hl k eq_refl) as (x & y & Hp & Hxy & Hx & Hk). rewrite Hp in E2.
    eapply meets_answer; [exact E1|]. intros s1. cbn [checked]. apply meets_bind, meets_ret.
    eapply meets_answer; [apply E2|]. intros s2. cbn [checked]. apply meets_bind, meets_ret. cbn beta iota.
    apply meets_bind. eapply meets_lift; [by apply private_blob_ok|]. cbn beta.
    destruct (import_private s2 (hEcHandle p) der k x y Ek Hp) as (h & E3 & Hh).
    eapply meets_answer; [exact E3|]. intros s3. cbn beta iota. apply meets_bind, meets_ret, meets_ret. by exists k.
  - specialize (Hn eq_refl). assert (HX : forall w e c, c <> Success -> X spec (WinCryptErr w e (error_code c)))
      by (intros w e c Hc; split; [done|by apply failure_code]).
    destruct Hd as [E1|(info & E1 & E2)]; (eapply meets_answer; [exact E1|]; intros s1).
    + apply meets_checked_none. intros e. by apply HX.
    + cbn [checked]. apply meets_bind, meets_ret. eapply meets_answer; [apply E2|]. intros s2.
      apply meets_checked_none. intros e. by apply HX.
Qed.
Lemma meets_ImportSpki q der s spec :
  ~ win_foreign der -> (parse_public der = None -> spec = None) ->
  (forall x y, parse_public der = Some (x, y) -> size x = size y /\ 0 < size x < 2 ^ 29) ->
  meets (ImportSubjectPublicKeyInfo q der) s
    (fun q' _ => parse_public der = Some (pub_of (hEccKeyHandle q'))) (X spec).
Proof.
  intros Hf Hn Hl. unfold ImportSubjectPublicKeyInfo. pose proof (dec_public s der Hf) as Hd.
  destruct (parse_public der) as [[x y]|] eqn:Ek.
  - destruct (Hl x y eq_refl) as (Hxy & Hx). eapply meets_answer; [exact Hd|]. intros s1. cbn [checked].
    apply meets_bind, meets_ret, meets_bind. eapply meets_lift; [apply public_blob_ok; [done|lia|lia]|]. cbn beta.
    destruct (import_public s1 (hEcHandle q) der x y Ek) as (h & E3 & Hh).
    eapply meets_answer; [exact E3|]. intros s3. cbn beta iota. apply meets_bind, meets_ret, meets_ret. cbn. by rewrite Hh.
  - eapply meets_answer; [exact Hd|]. intros s1. apply meets_checked_none. intros e.
    split; [by apply Hn|by apply failure_code].
Qed.

Lemma meets_new_ecdh s (Y : exn -> Prop) : meets new_BcryptECDiffieHellman s (fun _ _ => True) Y.
Proof.
  unfold new_BcryptECDiffieHellman. destruct (open_alg s (str "ECDH_P256") false) as (h & E).
  eapply meets_answer; [exact E|]. intros s1. cbn beta iota. by apply meets_bind, meets_ret, meets_ret.
Qed.
Lemma meets_DeriveSecret p q s (Y : exn -> Prop) :
  meets (WinEcdh.DeriveSecret p q) s (fun x _ => is_null (fst x) = false /\
    kdf (fst x) = sha256_of (agree (priv_of (hEccKeyHandle p)) (pub_of (hEccKeyHandle q)))) Y.
Proof.
  unfold WinEcdh.DeriveSecret. destruct (secret_agreement s (hEccKeyHandle p) (hEccKeyHandle q)) as (z & E & Hz & Hk).
  eapply meets_answer; [exact E|]. intros s1. cbn beta iota. by apply meets_bind, meets_ret, meets_ret.
Qed.
Lemma meets_new_BcryptHKDF secret s (Y : exn -> Prop) : is_null secret = false ->
  meets (Bcrypt.new_BcryptHKDF secret) s (fun k _ => Bcrypt.secret k = secret) Y.
Proof.
  intros Hn. unfold Bcrypt.new_BcryptHKDF. rewrite Hn. destruct (open_alg s Bcrypt.SHA256_ALG true) as (h & E).
  eapply meets_answer; [exact E|]. intros s1. cbn beta iota. by apply meets_bind, meets_ret, meets_ret.
Qed.
Lemma rfc_ext mac1 mac2 a k i n : (forall x y, mac1 x y = mac2 x y) -> rfc_hkdf mac1 a k i n = rfc_hkdf mac2 a k i n.
Proof.
  intros Hm. unfold rfc_hkdf, rfc_expand. rewrite Hm. f_equal. generalize (mac2 a k), (@nil byte), 1. 
  induction (Z.to_nat ((n + 31) / 32)) as [|m IH]; intros prk prev c; [done|]. simpl. by rewrite Hm, IH.
Qed.

Lemma meets_set w s (Q : Bcrypt.GcmWrapper -> S * option Bcrypt.GcmWrapper -> Prop) (Y : exn -> Prop) :
  Q w (fst s, Some w) -> meets (set_wrapper (F := F) w) s Q Y.
Proof. done. Qed.
(** The keys of both sides, and the secret they agree on. *)
Lemma meets_agree_keys der pub s spec (rest : bytes -> option bytes) :
  ~ win_foreign der -> ~ win_foreign pub -> key_layout (Some der) pub ->
  spec = (d ← parse_private der; q ← parse_public pub; rest (sha256_of (agree (number d) q))) ->
  meets (agree_keys der pub) s (fun x _ => spec = rest (kdf (Bcrypt.secret (fst x)))) (X spec).
Proof.
  intros Hf Hfq [Hpriv Hpub] Hspec. unfold agree_keys. apply meets_bind.
  eapply meets_mono; [apply meets_new_ecdh|]. intros p0 s1 _. apply meets_bind.
  eapply meets_mono; [apply meets_unwinding; [apply delivers_drop|apply meets_new_ecdh]|]. intros q0 s2 _. cbn zeta.
  apply meets_bind. eapply meets_mono.
  { apply meets_unwinding; [apply delivers_drop_both|]. apply (meets_ImportPkcs8 p0 der s2 spec Hf).
    - intros E. by rewrite Hspec, E.
    - intros k Hk. by apply (Hpriv der). }
  intros p1 s3 (k & Hk & Hp). rewrite Hk in Hspec. cbn [mbind option_bind] in Hspec. apply meets_bind. eapply meets_mono.
  { apply meets_unwinding; [apply delivers_drop_both|]. apply (meets_ImportSpki q0 pub s3 spec Hfq); [|exact Hpub].
    intros E. by rewrite Hspec, E. }
  intros q1 s4 Hq. rewrite Hq in Hspec. cbn [mbind option_bind] in Hspec. apply meets_bind. eapply meets_mono.
  { apply meets_unwinding; [apply delivers_drop_both|apply meets_DeriveSecret]. }
  intros [z p2] s5 [Hz Hkdf]. cbn [fst] in *. rewrite Hp in Hkdf. apply meets_bind. eapply meets_mono.
  { apply meets_unwinding; [apply delivers_drop_both|by apply meets_new_BcryptHKDF]. }
  intros h s6 Hh. apply meets_ret. cbn [fst]. by rewrite Hh, Hkdf.
Qed.
(** Whatever the wrapper variable holds at first, and to the end. *)
Lemma meets_agree_and_decrypt w der pub a uuid n c s spec :
  Bcrypt.blockLength w = 16 -> Bcrypt.dwMaxLength w = 16 -> size n = 12 -> size c + 16 < 2 ^ 31 ->
  ~ win_foreign der -> ~ win_foreign pub -> key_layout (Some der) pub ->
  spec = (d ← parse_private der; q ← parse_public pub;
          gcm_open (rfc_hkdf hmac256 a (sha256_of (agree (number d) q)) uuid 32) n c ≫= nonempty) ->
  meets (agree_and_decrypt w der pub a uuid n c) s (fun p _ => spec = nonempty p) (X spec).
Proof.
  intros Hb Hm Hn Hc Hf Hfq Hl Hspec. unfold agree_and_decrypt. apply meets_bind, meets_zoom.
  eapply meets_mono; [by apply (meets_agree_keys der pub _ spec (fun z => gcm_open (rfc_hkdf hmac256 a z uuid 32) n c ≫= nonempty))|].
  intros [h [p q]] s6 Hk. cbn [fst] in Hk. apply meets_finally; [|done|].
  { intros [s' l]. apply delivers_zoom, delivers_then; [apply delivers_drop_HKDF|apply delivers_drop_both]. }
  apply meets_bind, meets_zoom, meets_delivers. eapply delivers_mono; [apply delivers_DeriveKey; lia|]. intros key s7 ->.
  rewrite (rfc_ext hmac hmac256) by apply hmac_is. set (key := rfc_hkdf _ _ _ _ _) in *.
  assert (Hkey : size key = 32) by (apply rfc_hkdf_size; [apply hmac256_size|lia]).
  apply meets_bind, meets_bind, meets_zoom, meets_delivers. eapply delivers_mono; [by apply delivers_SetKey|]. intros w' s8 (Hsk & Hb' & Hm').
  apply meets_set, meets_zoom, meets_aes_decrypt; [done..|]. rewrite Hsk. destruct (gcm_open key n c) as [p'|]; [by intros s9|].
  intros e He. by split.
Qed.

(** The body of the [try]. *)
Lemma meets_decrypt_steps claims m sch uuid s spec :
  read_message claims = Ret m -> returns (json_dump claims) ->
  message_sizes rsa_open (SecretsTpm.MakeRsaScheme sch) m ->
  key_layout (open_private rsa_open (SecretsTpm.MakeRsaScheme sch) m) (ephemeralEcdhPublicKey m) ->
  (forall der, open_private rsa_open (SecretsTpm.MakeRsaScheme sch) m = Some der -> ~ win_foreign der) ->
  ~ win_foreign (ephemeralEcdhPublicKey m) ->
  spec = open_message rsa_open (SecretsTpm.MakeRsaScheme sch) uuid m ->
  meets (decrypt_steps claims uuid sch) s (fun r _ => carries_out r spec) (X spec).
Proof.
  intros Hmsg (txt & Hdump) [Hw Htk Hdn Hkn Hpf Hsf] Hl Hf Hfq Hspec.
  destruct (read_message_fields _ _ Hmsg) as (E1 & E2 & E3 & E4 & E5 & E6 & E7).
  unfold decrypt_steps. rewrite Hdump, E1, E2, E3, E4, E5, E6, E7.
  do 8 (apply meets_bind; eapply meets_lift; [reflexivity|]).
  apply meets_bind, meets_zoom, meets_new_TssCtx. intros s2. cbn beta. apply meets_finally; [|done|].
  { intros s'. apply delivers_zoom. by eapply delivers_answer. }
  apply meets_bind, meets_zoom, meets_RsaDecrypt; [done|]. unfold open_message, open_private in Hspec. unfold open_private in Hl, Hf.
  destruct (rsa_open _ _) as [k|] eqn:Ek.
  2: { intros r Hr. split; [by rewrite Hspec|]. by apply failure_code. }
  intros s3. rewrite size_zero. destruct (Htk k eq_refl) as [->|Hk].
  { subst spec. apply meets_ret. split; [apply failure_unknown|done]. }
  destruct k as [|b k']; [done|]. cbn [mbind option_bind nonempty] in Hspec, Hl, Hf. set (k := b :: k') in *.
  apply meets_bind, meets_bind, meets_zoom, meets_delivers. eapply delivers_mono; [apply delivers_new_GcmWrapper|]. intros w0 s4 [Hb0 Hm0]. apply meets_set.
  apply meets_bind, meets_bind, meets_zoom, meets_delivers. eapply delivers_mono; [by apply delivers_SetKey|]. intros w s5 (Hsk & Hb & Hm'). apply meets_set.
  apply meets_bind, meets_zoom, meets_aes_decrypt; [done..|]. rewrite Hsk. destruct (gcm_open k _ _) as [der|] eqn:Eg.
  2: { intros e He. split; [by rewrite Hspec|done]. }
  intros s6. rewrite size_zero. destruct der as [|b' der']; [subst spec; apply meets_ret; split; [apply failure_unknown|done]|].
  set (der := b' :: der') in *. apply meets_bind.
  eapply meets_mono; [apply (meets_agree_and_decrypt w der _ _ uuid _ _ _ spec); try done; by apply Hf|].
  intros p s7 Hp. rewrite size_zero. destruct p; apply meets_ret; rewrite Hp; [split; [apply failure_unknown|done]|done].
Qed.

(** C6: On Windows the release of a secret computes what it should. For every token whose fields decode to a
    message of the sizes of the protocol, with keys in the layout the import depends on, on a
    working TPM, bcrypt and wincrypt, [decrypt_secret] returns 0 with the secret that [open_message]
    finds, and a failure code without data whenever a tag, a key or a part of the message is wrong - the
    same function as on Linux, through code that shares none of its cryptography. *)
Theorem win_release_refines claims m sch uuid s :
  read_message claims = Ret m -> returns (json_dump claims) ->
  delivers WinSystem.GetSystemUuid s (fun u _ => u = uuid) ->
  message_sizes rsa_open (SecretsTpm.MakeRsaScheme sch) m ->
  key_layout (open_private rsa_open (SecretsTpm.MakeRsaScheme sch) m) (ephemeralEcdhPublicKey m) ->
  (forall der, open_private rsa_open (SecretsTpm.MakeRsaScheme sch) m = Some der -> ~ win_foreign der) ->
  ~ win_foreign (ephemeralEcdhPublicKey m) ->
  exists r, res (decrypt_secret claims sch s) = Ret r /\
    carries_out r (open_message rsa_open (SecretsTpm.MakeRsaScheme sch) uuid m).
Proof.
  intros Hmsg Hdump Hu Hsize Hl Hf Hfq. remember (open_message _ _ uuid m) as spec eqn:Hspec.
  assert (Hmeets : meets (decrypt_secret claims sch) s (fun r _ => carries_out r spec) (fun _ => False)).
  2: { destruct (meets_total _ _ _ Hmeets) as (r & Hr & s' & Hd). by exists r. }
  unfold decrypt_secret. apply meets_bind, meets_delivers. eapply delivers_mono; [exact Hu|]. intros u s0 ->.
  apply (meets_scoped None _ _ _ (fun r => carries_out r spec)).
  { intros [w|] s'; [apply delivers_drop_GcmWrapper|by apply delivers_ret]. }
  eapply (meets_try_all _ _ _ (fun r _ => carries_out r spec) _ (X spec)).
  2: { done. }
  2: { intros e s2 [Hn He]. apply meets_ret. rewrite Hn. by split. }
  by apply (meets_decrypt_steps claims m).
Qed.
End WinRefinement.

(** ** The agreed secret is destroyed twice *)

Section Twice.
Context {F : Type -> Type} {S : Type} `{Handler F S} `{HB : BcryptCall -< F} `{HC : CryptCall -< F}.
Context `{HE : EsysCall -< F} `{HW : FirmwareCall -< F} `{BoostBase64, BoostString, NlohmannJson}.
Import WinEcdh WinSecrets.

(** A call that gives a handle back. *)
Definition frees (e : event F) : Prop :=
  (exists h r, e = Ev (inj (BCryptDestroySecret h)) r) \/ (exists h r, e = Ev (inj (BCryptDestroyKey h)) r) \/
  (exists h r, e = Ev (inj (BCryptCloseAlgorithmProvider h)) r).
(** A secret handle is destroyed, and destroyed again before any call that could make a handle. *)
Definition destroyed_twice (t : list (event F)) : Prop :=
  exists secret r1 r2 t1 t2 t3, is_null secret = false /\ Forall frees t2 /\
    t = t1 ++ Ev (inj (BCryptDestroySecret secret)) r1 :: t2 ++ Ev (inj (BCryptDestroySecret secret)) r2 :: t3.
Lemma destroyed_twice_grows {A} : grows (fun (_ : A) => destroyed_twice).
Proof.
  intros _ ta t tb (z & r1 & r2 & t1 & t2 & t3 & Hz & Hf & ->). exists z, r1, r2, (ta ++ t1), t2, (t3 ++ tb).
  split_and!; [done..|]. rewrite <- !app_assoc. simpl. rewrite <- !app_assoc. done.
Qed.

Lemma emits_release h (m : M F S Z) : emits frees m -> emits frees (release h m).
Proof. intros Hm. unfold release. destruct (is_null h); [apply emits_ret|]. apply emits_bind; [done|]. intros a. apply emits_ret. Qed.
Lemma frees_secret h : emits frees (trig (S := S) (BCryptDestroySecret h)).
Proof. apply emits_trig. intros r. left. by exists h, r. Qed.
Lemma frees_key h : emits frees (trig (S := S) (BCryptDestroyKey h)).
Proof. apply emits_trig. intros r. right. left. by exists h, r. Qed.
Lemma frees_alg h : emits frees (trig (S := S) (BCryptCloseAlgorithmProvider h)).
Proof. apply emits_trig. intros r. do 2 right. by exists h, r. Qed.
Create HintDb frees.
Hint Resolve emits_release frees_secret frees_key frees_alg emits_bind : frees.
Lemma emits_drop d : emits frees (drop_ECDiffieHellman (S := S) d).
Proof. unfold drop_ECDiffieHellman. eauto 10 with frees. Qed.

(** A destructor that starts with the destruction of a secret. *)
Lemma ends_destroys h (k : M F S unit) : is_null h = false -> emits frees k ->
  ends (fun _ t => exists r t', t = Ev (inj (BCryptDestroySecret h)) r :: t' /\ Forall frees t')
    (_ ← release h (trig (BCryptDestroySecret h)); k).
Proof.
  intros Hh Hk s [] _. unfold release. rewrite Hh. unfold trig, call, mbind, M_bind.
  destruct (handle (inj (BCryptDestroySecret h)) s) as [r s1]. simpl. specialize (Hk s1).
  destruct (k s1) as [o s2 t2]. simpl. by exists r, t2.
Qed.
Lemma ends_finally_do {S' A} (P : list (event F) -> Prop) (m : M F S' A) d :
  grows (fun (_ : unit) => P) -> ends (fun _ => P) d -> ends (fun _ => P) (finally m d).
Proof.
  intros HP Hd s a. unfold finally. destruct (m s) as [[x|e|x] s1 t1]; simpl; try done; specialize (Hd s1 tt);
    destruct (d s1) as [[[]|e'|x'] s2 t2]; simpl in *; try done.
  intros _. apply (grows_l (fun (_ : unit) => P) tt); auto.
Qed.
Lemma ends_drop_all k p q : Bcrypt.secret k = hSharedSecret p -> is_null (hSharedSecret p) = false ->
  ends (fun _ => destroyed_twice) (_ ← drop_HKDF k; drop_both (S := S) p q).
Proof.
  intros Hk Hp. unfold drop_both, drop_HKDF. rewrite Hk. eapply ends_bind.
  { apply (ends_destroys (hSharedSecret p)); [done|]. eauto with frees. }
  intros [] t1 (r1 & t1' & -> & Ht1). apply (ends_bind (fun _ t => Forall frees t)).
  { intros s a _. apply emits_drop. }
  intros [] t2 Ht2. eapply ends_mono; [apply ends_destroys; [done|]|].
  { eauto 10 with frees. }
  intros [] t3 (r2 & t3' & -> & Ht3). exists (hSharedSecret p), r1, r2, [], (t1' ++ t2), t3'.
  split_and!; [done|by apply Forall_app|]. simpl. by rewrite <- !app_assoc.
Qed.
Lemma yields_unwinding {A} (Y : A -> Prop) (m : M F S A) d : yields Y m -> yields Y (unwinding m d).
Proof.
  intros Hm. unfold unwinding. apply yields_try_all; [done|]. intros e. apply yields_bind. intros [] s a. done.
Qed.
Lemma ends_agree_keys der pub : ends (fun x _ => Bcrypt.secret (fst x) = hSharedSecret (fst (snd x)) /\
  is_null (hSharedSecret (fst (snd x))) = false) (agree_keys (S := S) der pub).
Proof.
  apply ends_yields. unfold agree_keys. do 4 (apply yields_bind; intros ?).
  apply (yields_bind_strong (fun x => hSharedSecret (snd x) = fst x)).
  { apply yields_unwinding. unfold WinEcdh.DeriveSecret. apply yields_bind. intros [st z].
    apply yields_bind. intros _. by apply yields_ret. }
  intros [z p] Hz. cbn [fst snd] in Hz.
  apply (yields_bind_strong (fun k => Bcrypt.secret k = z /\ is_null z = false)).
  { apply yields_unwinding. unfold Bcrypt.new_BcryptHKDF. destruct (is_null z) eqn:Ez; [by intros s x|].
    apply yields_bind. intros [st h]. apply yields_bind. intros _. by apply yields_ret. }
  intros k [Hk Hn]. apply yields_ret. cbn [fst snd]. split; congruence.
Qed.
Lemma ends_agree_and_decrypt w der pub a uuid n c :
  ends (fun _ => destroyed_twice) (agree_and_decrypt (S := S) w der pub a uuid n c).
Proof.
  unfold agree_and_decrypt. eapply ends_bind; [apply ends_zoom, ends_agree_keys|]. intros [k [p q]] t [Hk Hn]. cbn [fst snd] in Hk, Hn.
  apply ends_lead; [apply destroyed_twice_grows|]. apply ends_finally_do; [apply destroyed_twice_grows|].
  by apply ends_zoom, ends_drop_all.
Qed.

(** C14: Every secret released on Windows leaves a double free behind. Whenever [decrypt_secret] hands out a
    secret, the handle of the agreed secret was destroyed by the destructor of the HKDF object and then,
    before any call that could have made it valid again, by the destructor of the key-agreement object. *)
Theorem win_secret_destroyed_twice claims sch s code out :
  res (decrypt_secret claims sch s) = Ret (code, out) -> out <> [] -> destroyed_twice (evs (decrypt_secret claims sch s)).
Proof.
  set (P := fun (r : Z * bytes) (t : list (event F)) => snd r <> [] -> destroyed_twice t).
  assert (HP : grows P) by (intros r t1 t t2 Ht Hr; by apply (destroyed_twice_grows tt), Ht).
  assert (He : ends P (decrypt_secret (S := S) claims sch)); [|intros Hs; exact (He s (code, out) Hs)].
  apply ends_after; [done|]. intros u. apply ends_scoped; [done|]. apply ends_try_all; [done| |intros e; apply ends_ret; by intros []].
  unfold decrypt_steps. do 8 (apply ends_after; [done|]; intros ?).
  apply ends_after; [done|]. intros _. apply ends_finally; [done|]. apply ends_after; [done|]. intros k.
  destruct (size k =? 0); [apply ends_ret; by intros []|]. do 3 (apply ends_after; [done|]; intros ?).
  destruct (size _ =? 0); [apply ends_ret; by intros []|]. eapply ends_bind; [apply ends_agree_and_decrypt|]. intros p t Ht.
  destruct (size p =? 0); apply ends_ret; intros _; rewrite ?app_nil_r; done.
Qed.
End Twice.

(** ** Witnesses: a machine with an SMBIOS table, bcrypt and wincrypt over the algorithms of SecretSpec.v *)

(** A number for 32 bytes, as the handle of the key they are. *)
Fixpoint unle (n : nat) (z : Z) : bytes :=
  match n with O => [] | Datatypes.S n' => byte_of_z z :: unle n' (z / 256) end.
Lemma unle_le l : unle (length l) (le l) = l.
Proof.
  induction l as [|b l IH]; [done|]. cbn [length unle le]. assert (Hb := z_of_byte_range b).
  assert (0 <= le l) by (clear; induction l as [|c l IH]; cbn [le]; [done|]; pose proof (z_of_byte_range c); lia).
  replace ((z_of_byte b + 256 * le l) / 256) with (le l) by (Z.to_euclidean_division_equations; lia). rewrite IH. f_equal.
  replace (byte_of_z (z_of_byte b + 256 * le l)) with (byte_of_z (z_of_byte b)); [apply byte_of_z_of_byte|].
  unfold byte_of_z. assert ((z_of_byte b + 256 * le l) mod 256 = z_of_byte b mod 256) as ->; [|done].
  rewrite Z.mul_comm. apply Z_mod_plus_full.
Qed.
Lemma le_nonneg l : 0 <= le l.
Proof. induction l as [|c l IH]; cbn [le]; [done|]. pose proof (z_of_byte_range c). lia. Qed.
Definition win_key (p : ptr) : bytes := unle 32 (Z.of_N p).
Definition win_tag (k : ptr) (c : bytes) : bytes := gcm_mac (win_key k) [] c.
(** Two keys in one number: a secret handle stands for the agreement of them. *)
Definition key_code (p : ptr) : N := if decide (toy_key p = []) then 999 else p.
Definition secret_handle (p q : ptr) : ptr := (1 + (key_code p * 1000 + key_code q))%N.
Definition secret_of_handle (z : ptr) : bytes :=
  sha256_of (agree (toy_key ((z - 1) / 1000)) (toy_key ((z - 1) mod 1000), [])).
Lemma key_code_ok p : (key_code p < 1000)%N /\ toy_key (key_code p) = toy_key p.
Proof.
  unfold key_code. destruct (decide _) as [E|E]; [by rewrite E|]. split; [|done]. unfold toy_key in E.
  destruct (Byte.of_N (p - 1)) as [b|] eqn:Eb; [|done]. apply Byte.to_of_N in Eb. pose proof (z_of_byte_range b) as Hb.
  unfold z_of_byte in Hb. lia.
Qed.
Lemma secret_handle_ok p q : secret_of_handle (secret_handle p q) = sha256_of (agree (toy_key p) (toy_key q, toy_key q)).
Proof.
  destruct (key_code_ok p) as [_ Hp], (key_code_ok q) as [Hq1 Hq]. unfold secret_of_handle, secret_handle.
  replace (1 + (key_code p * 1000 + key_code q) - 1)%N with (key_code q + key_code p * 1000)%N by lia.
  rewrite N.div_add, N.Div0.mod_add, N.div_small, N.mod_small by done. rewrite N.add_0_l, Hp, Hq. reflexivity.
Qed.

Definition win_start : Type := option (bytes * bytes).
Definition WinCall : Type -> Type := sumE BcryptCall (sumE CryptCall (sumE EsysCall FirmwareCall)).
Definition win_bcrypt (R : Type) (e : BcryptCall R) (s : win_start) : R * win_start :=
  match e in BcryptCall T return T * win_start -> T * win_start with
  | BCryptGenerateSymmetricKey _ _ k => fun _ => ((0, Z.to_N (le k)), s)
  | BCryptDeriveKey z _ => fun _ => ((0, secret_of_handle z), s)
  | BCryptDecrypt k d i _ => fun _ =>
      let c := drop 16 (pbMacContext i) ++ d in
      ((if chain_calls i then 0
        else if bool_decide (pbTag i = win_tag k c) then 0 else STATUS_AUTH_TAG_MISMATCH, toy_step d i), s)
  | BCryptEncrypt k d i _ => fun _ =>
      let c := drop 16 (pbMacContext i) ++ d in
      let '(o, i', iv) := toy_step d i in
      ((0, (o, if chain_calls i then i' else Bcrypt.with_tag i' (win_tag k c), iv)), s)
  | _ => fun r => r
  end (toy_bcrypt R e s).
Definition win_crypt (R : Type) (e : CryptCall R) : R :=
  match e in CryptCall T return T -> T with
  | CryptDecode_PrivateKeyInfo der => fun _ => match der with b :: _ => Some [b] | [] => None end
  | CryptDecode_EccPrivateKey info => fun _ => Some (info, x04 :: info ++ info)
  | CryptDecode_PublicKeyInfo der => fun _ => match der with b :: _ => Some [x04; b; b] | [] => None end
  | BCryptImportKeyPair _ _ blob => fun _ => (0, toy_handle (drop 8 blob))
  | BCryptSecretAgreement p q => fun _ => (0, secret_handle p q)
  | _ => fun r => r
  end (fst (toy_crypt R e tt)).
(** A BIOS structure with two strings, the system structure, and the end of the table. *)
Definition toy_uuid_bytes : bytes := map byte_of_z [0; 1; 2; 3; 4; 5; 6; 7; 8; 9; 0xab; 0xcd; 0xef; 0xff; 0x10; 0x20].
Definition toy_structures : list smbios_structure :=
  [{| s_type := x00; s_body := replicate 22 x00; s_strings := [str "vendor"; str "1.0"] |};
   {| s_type := x01; s_body := replicate 6 x00 ++ toy_uuid_bytes ++ [x06; x00; x00]; s_strings := [str "Virtual Machine"] |};
   {| s_type := x7f; s_body := [x00; x00]; s_strings := [] |}].
Definition toy_raw : bytes := raw_table [x00; x03; x00; x00] toy_structures.
#[export] Instance toy_windows : Handler WinCall win_start := fun R e s =>
  match e with
  | InL b => win_bcrypt R b s
  | InR (InL c) => (win_crypt R c, s)
  | InR (InR (InL t)) => (esys_accept toy_plain R t, s)
  | InR (InR (InR f)) =>
      (match f in FirmwareCall T return T with
       | GetSystemFirmwareTable room => (size toy_raw, if room =? 0 then [] else toy_raw) end, s)
  end.
#[refine, export]
Instance toy_win_hmac : HmacLaws WinCall win_start :=
  {| hmac := toy_hmac; kdf := secret_of_handle; acc s _ := s |}.
Proof.
  2-7: intros; unfold handle; simpl in *; subst; eauto.
  - intros k d. exact (@hmac256_size toy_crypto toy_crypto_laws k d).
  - done.
Defined.
Lemma win_tag_size k c : size (win_tag k c) = 16.
Proof. change (size (take 16 (take 8 (win_key k) ++ c ++ replicate 16 x00)) = 16). rewrite app_assoc. apply (toy_size 16). Qed.
#[refine, export]
Instance toy_win_gcm : GcmLaws WinCall win_start :=
  {| gcm_block := 16; gcm_tag_size := 16; ctr _ _ _ d := d; gcm_tag k _ c := win_tag k c;
     progress _ _ mac _ c := drop 16 mac = c /\ (16 <= length mac)%nat |}.
Proof.
  1-4,6-8: done.
  - intros k n c. apply win_tag_size.
  - intros s k i iv c d Hp Hc _. exists (pbMacContext i ++ d), [], s. unfold handle; simpl. rewrite Hc.
    split; [done|by apply toy_grows].
  - intros s k i iv c d [Hm Hl] Hc. exists (pbMacContext i ++ d), [], s. unfold handle; simpl. by rewrite Hc, Hm.
  - intros s k i iv c d Hp Hc _. exists (pbMacContext i ++ d), [], s. unfold handle; simpl. rewrite Hc.
    split; [done|by apply toy_grows].
  - intros s k i iv c d [Hm Hl] Hc. exists (with_mac i (pbMacContext i ++ d)), [], s. unfold handle; simpl.
    by rewrite Hc, Hm.
Defined.
#[refine, export]
Instance toy_win_crypto : WinCryptoLaws WinCall win_start :=
  {| win_foreign _ := False; sym_key := win_key; priv_of := toy_key; pub_of p := (toy_key p, toy_key p) |}.
Proof.
  all: try done; intros; unfold handle; simpl; eauto.
  - exists (Z.to_N (le k)). split; [done|]. unfold win_key. rewrite Z2N.id by apply le_nonneg.
    replace 32%nat with (length k) by (unfold size in *; lia). apply unle_le.
  - destruct der as [|b der]; [by left|]. by exists [b].
  - by destruct der.
  - match goal with Hd : parse_private _ = _, Hp : point _ = _ |- _ => rename Hd into Hder; rename Hp into Hpt end.
    destruct der as [|b der]; [done|]. injection Hder as <-. injection Hpt as <- <-. eexists. split; [done|]. apply toy_key_handle.
  - match goal with Hd : parse_public _ = _ |- _ => rename Hd into Hder end.
    destruct der as [|b der]; [done|]. injection Hder as <- <-. eexists. split; [done|].
    change (toy_handle _) with (1 + Byte.to_N b)%N. by rewrite toy_key_handle.
  - exists (secret_handle p q). split; [done|]. split; [|apply secret_handle_ok]. unfold secret_handle, is_null.
    apply N.eqb_neq. lia.
Defined.
#[refine, export]
Instance toy_win_guest_key : GuestKeyLaws WinCall win_start (fun _ _ => Some toy_plain) := {| guest_key _ := True |}.
Proof. all: intros; unfold handle; simpl; eauto. Defined.

Definition win_uuid : bytes := str "03020100-0504-0706-0809-abcdefff1020".
Lemma smbios_uuid_witness :
  res (WinSystem.GetSystemUuid (F := WinCall) (S := win_start) None) = Ret win_uuid.
Proof.
  assert (Hok : Forall structure_ok toy_structures).
  { repeat constructor; try done. }
  assert (Hs : size (smbios_table toy_structures) + 8 < 2 ^ 32) by (vm_compute; reflexivity).
  destruct (smbios_uuid (F := WinCall) (S := win_start) [x00; x03; x00; x00] toy_structures None (size toy_raw) [] None
    (size toy_raw) None eq_refl Hok Hs eq_refl eq_refl) as [_ Hu].
  destruct (Hu eq_refl) as [Hf _]. rewrite (Hf _ eq_refl ltac:(vm_compute; discriminate)). vm_eq.
Defined.

Section WinWitness.
#[local] Notation good := (toy_message win_uuid id).
#[local] Notation bad := (damaged win_uuid).
#[local] Notation opened := (fun (_ : rsa_scheme) (_ : bytes) => Some toy_plain).
Lemma win_sizes m : m = good \/ m = bad -> message_sizes opened (SecretsTpm.MakeRsaScheme Rsaes) m.
Proof. intros [-> | ->]; (split; try reflexivity; [by vm_compute|]); intros k [= <-]; by right. Qed.
Lemma win_layout o : key_layout o [x08].
Proof.
  split.
  - intros [|b der] k _; [done|]. intros [= <-]. exists [b], [b]. split_and!; done.
  - intros x y [= <- <-]. done.
Qed.
Lemma win_release_refines_witness :
  let run m := WinSecrets.decrypt_secret (F := WinCall) (toy_claims m) Rsaes (None : win_start) in
  res (run good) = Ret (0, str "secret!") /\
  exists c, failure c /\ res (run bad) = Ret (c, []).
Proof.
  intros run.
  assert (Hj : returns (json_dump (toy_claims good))) by (exists (dump_tree (toy_claims good)); vm_eq).
  assert (Hj' : returns (json_dump (toy_claims bad))) by (exists (dump_tree (toy_claims bad)); vm_eq).
  assert (Hm : read_message (toy_claims good) = Ret good) by vm_eq.
  assert (Hm' : read_message (toy_claims bad) = Ret bad) by vm_eq.
  assert (Hu : delivers (WinSystem.GetSystemUuid (F := WinCall)) (None : win_start) (fun u _ => u = win_uuid))
    by (vm_compute; reflexivity).
  assert (Hf : forall m der, open_private opened (SecretsTpm.MakeRsaScheme Rsaes) m = Some der -> ~ False)
    by (intros m der _ []). assert (Hq : ~ False) by (intros []). split.
  - destruct (win_release_refines (F := WinCall) (WinCryptoLaws0 := toy_win_crypto) (GuestKeyLaws0 := toy_win_guest_key)
      _ _ Rsaes win_uuid None Hm Hj Hu (win_sizes _ (or_introl eq_refl)) (win_layout _) (Hf _) Hq) as (r & Hr & Hc).
    assert (Hs : open_message opened (SecretsTpm.MakeRsaScheme Rsaes) win_uuid good = Some (str "secret!")) by vm_eq.
    unfold carries_out in Hc. rewrite Hs in Hc. subst r. exact Hr.
  - destruct (win_release_refines (F := WinCall) (WinCryptoLaws0 := toy_win_crypto) (GuestKeyLaws0 := toy_win_guest_key)
      _ _ Rsaes win_uuid None Hm' Hj' Hu (win_sizes _ (or_intror eq_refl)) (win_layout _) (Hf _) Hq) as ([c out] & Hr & Hc).
    assert (Hs : open_message opened (SecretsTpm.MakeRsaScheme Rsaes) win_uuid bad = None) by vm_eq.
    unfold carries_out in Hc. rewrite Hs in Hc. destruct Hc as [Hfail Ho]. exists c. simpl in Ho. subst out.
    split; [exact Hfail|exact Hr].
Defined.
Lemma win_secret_destroyed_twice_witness :
  destroyed_twice (F := WinCall) (evs (WinSecrets.decrypt_secret (F := WinCall) (toy_claims good) Rsaes (None : win_start))).
Proof.
  assert (Hr : res (WinSecrets.decrypt_secret (F := WinCall) (toy_claims good) Rsaes (None : win_start)) = Ret (0, str "secret!"))
    by vm_eq.
  apply (win_secret_destroyed_twice (F := WinCall) (toy_claims good) Rsaes None 0 (str "secret!") Hr). discriminate.
Defined.
(** When bcrypt fails to close the AES provider the destructor of the wrapper throws, and the process ends
    although the secret was decrypted. *)
#[local] Instance close_fails : Handler WinCall win_start := fun R e s =>
  match e with
  | InL b => match b in BcryptCall T return T * win_start -> T * win_start with
             | BCryptCloseAlgorithmProvider _ => fun _ => (0xC0000008, s)
             | _ => fun r => r
             end (win_bcrypt R b s)
  | _ => toy_windows R e s
  end.
Example failed_close_terminates :
  res (WinSecrets.decrypt_secret (H := close_fails) (F := WinCall) (toy_claims good) Rsaes (None : win_start)) = Fault StdTerminate.
Proof. vm_eq. Qed.
End WinWitness.
