(* ===== verification/WinRelease.v ===== *)
(** * The entry points of the secrets library on Windows

    The Windows build is that of Secrets.v with the certificates of WindowsX509.v and the decryption
    of WinSecrets.v. This file gives the decryption the interface the entry points rely on, so the
    theorems of Jwt.v and Secrets.v hold of Windows too, and shows what is particular to it: a
    signature counts only under the one root of the default constructor. *)

From S2P Require Import Prelude Base64 ReturnCodes Json Ossl Bcrypt BcryptFacts WinCrypt WinFacts BaseX509 WindowsX509 Jwt Policy Esys SecretsTpm Secrets SecretSpec WinSecrets WinSecretsFacts.
#[local] Open Scope Z_scope.

#[export] Instance WindowsDecryptor {F S} `{Handler F S} `{BcryptCall -< F} `{CryptCall -< F} `{EsysCall -< F}
  `{FirmwareCall -< F} `{BoostBase64, BoostString, NlohmannJson} : Decryptor F S :=
  {| platform_decrypt := WinSecrets.decrypt_secret; long_bits := 32 |}.

Section Codes.
Context {F : Type -> Type} {S : Type} `{HF : Handler F S} `{HB : BcryptCall -< F} `{HC : CryptCall -< F}.
Context `{HE : EsysCall -< F} `{HW : FirmwareCall -< F}.
Context `{Bb : BoostBase64, Bs : BoostString, NJ : NlohmannJson} `{!BoostBase64Laws, !NlohmannLaws}.
Import SecretsFacts WinSecrets.

(** *** The status codes in the exceptions of the wrappers *)

Lemma coded_bcrypt st w code : code <> Success -> throws coded (Bcrypt.bcrypt_success (F := F) (S := S) st w code).
Proof. intros Hc. unfold Bcrypt.bcrypt_success. coded_go. Qed.
Lemma coded_success st w code : code <> Success -> throws coded (Bcrypt.success (F := F) (S := S) st w code).
Proof. intros Hc. unfold Bcrypt.success. coded_go. Qed.
Lemma coded_hashed st w code : code <> Success -> throws coded (Bcrypt.hashed (F := F) (S := S) st w code).
Proof. intros Hc. unfold Bcrypt.hashed. coded_go. Qed.
Lemma coded_vector n : othrows coded (Bcrypt.vector_of_size n).
Proof. unfold Bcrypt.vector_of_size. destruct (_ <? _); [by apply othrows_throw|apply othrows_ret]. Qed.
Lemma coded_read buf o n : othrows coded (read_bytes buf o n).
Proof. unfold read_bytes. by case_match. Qed.
Hint Resolve coded_vector coded_overwrite coded_read coded_decode coded_claim coded_dump coded_rsa_decrypt
  coded_tss_ctx : throws.
Hint Extern 1 (throws coded (Bcrypt.bcrypt_success _ _ _)) => (by apply coded_bcrypt) : throws.
Hint Extern 1 (throws coded (Bcrypt.success _ _ _)) => (by apply coded_success) : throws.
Hint Extern 1 (throws coded (Bcrypt.hashed _ _ _)) => (by apply coded_hashed) : throws.
Hint Extern 1 (throws coded (checked _ _ _)) => (by apply coded_checked) : throws.
Hint Extern 1 (throws coded (WinCrypt.status_ok _ _ _)) => (by apply coded_status) : throws.

Lemma coded_gcm_new : throws coded (Bcrypt.new_GcmWrapper (F := F) (S := S)).
Proof. unfold Bcrypt.new_GcmWrapper. coded_go. Qed.
Lemma coded_set_key w k : throws coded (Bcrypt.SetKey (F := F) (S := S) w k).
Proof. unfold Bcrypt.SetKey. coded_go. Qed.
Lemma coded_decrypt_blocks n k w c r i iv a b :
  throws coded (Bcrypt.decrypt_blocks (F := F) (S := S) n k w c r i iv a b).
Proof. revert k r i iv a b. induction n; intros; simpl; coded_go. Qed.
Hint Resolve coded_decrypt_blocks : throws.
Lemma coded_win_aes_decrypt w n c : throws coded (aes_decrypt (F := F) (S := S) w n c).
Proof. unfold aes_decrypt, Bcrypt.SetChainingInfo, Bcrypt.new_GcmChainingInfo, Bcrypt.Decrypt. coded_go. Qed.
Lemma coded_expand_rounds n i k prk info room b c :
  throws coded (Bcrypt.expand_rounds (F := F) (S := S) n i k prk info room b c).
Proof. revert i b c. induction n; intros; simpl; coded_go. Qed.
Hint Resolve coded_expand_rounds : throws.
Lemma coded_win_derive k a i n : throws coded (Bcrypt.DeriveKey (F := F) (S := S) k a i n).
Proof. unfold Bcrypt.DeriveKey, Bcrypt.Extract, Bcrypt.Expand. coded_go. Qed.
Lemma coded_unwinding {A} (m : M F S A) d : throws coded m -> throws coded d -> throws coded (unwinding m d).
Proof.
  intros Hm Hd. unfold unwinding, try_all. apply (throws_caught coded); [done|]. intros e He. cbn.
  apply throws_bind; [done|]. intros _. by apply throws_throw.
Qed.
Hint Resolve coded_gcm_new coded_set_key coded_win_aes_decrypt coded_win_derive coded_unwinding : throws.

Lemma coded_release h (c : M F S Z) : throws coded c -> throws coded (release (F := F) (S := S) h c).
Proof. intros Hc. unfold release. coded_go. Qed.
Hint Resolve coded_release throws_trig : throws.
Lemma coded_drop_ecdh d : throws coded (drop_ECDiffieHellman (F := F) (S := S) d).
Proof. unfold drop_ECDiffieHellman. coded_go. Qed.
Lemma coded_drop_hkdf k : throws coded (drop_HKDF (F := F) (S := S) k).
Proof. unfold drop_HKDF. coded_go. Qed.
Lemma coded_win_ecdh_new : throws coded (WinEcdh.new_BcryptECDiffieHellman (F := F) (S := S)).
Proof. unfold WinEcdh.new_BcryptECDiffieHellman. coded_go. Qed.
Lemma coded_new_blob m k n : othrows coded (WinEcdh.new_blob m k n).
Proof. apply coded_overwrite. Qed.
Lemma coded_copy_public b p k n : othrows coded (WinEcdh.copy_public b p k n).
Proof.
  unfold WinEcdh.copy_public. cbn zeta. destruct (_ <? _); [|apply othrows_ret].
  destruct (_ =? _); repeat (apply othrows_bind; [auto with throws|intros ?]); auto with throws.
Qed.
Hint Resolve coded_drop_ecdh coded_drop_hkdf coded_win_ecdh_new coded_new_blob coded_copy_public : throws.
Lemma coded_invalid_blob c : c <> Success -> coded (WinEcdh.invalid_blob c).
Proof. apply failure_code. Qed.
Lemma coded_private_blob d q : othrows coded (WinEcdh.private_blob d q).
Proof.
  unfold WinEcdh.private_blob. apply othrows_bind.
  { destruct q as [|b q]; [apply othrows_ret|]. destruct (WinEcdh.known_form b); [apply othrows_ret|].
    apply othrows_throw. coded_leaf. }
  intros n. do 3 (apply othrows_bind; [auto with throws|intros ?]).
  destruct (WinEcdh.right_size _ _); [apply othrows_ret|]. apply othrows_throw. by apply coded_invalid_blob.
Qed.
Lemma coded_public_blob q : othrows coded (WinEcdh.public_blob q).
Proof.
  unfold WinEcdh.public_blob. do 2 (apply othrows_bind; [auto with throws|intros ?]).
  destruct (WinEcdh.right_size _ _); [apply othrows_ret|]. apply othrows_throw. by apply coded_invalid_blob.
Qed.
Hint Resolve coded_private_blob coded_public_blob : throws.
Lemma coded_win_import d der : throws coded (WinEcdh.ImportPkcs8PrivateKey (F := F) (S := S) d der).
Proof. unfold WinEcdh.ImportPkcs8PrivateKey. coded_go. Qed.
Lemma coded_win_import_public d der : throws coded (WinEcdh.ImportSubjectPublicKeyInfo (F := F) (S := S) d der).
Proof. unfold WinEcdh.ImportSubjectPublicKeyInfo. coded_go. Qed.
Lemma coded_win_agree d q : throws coded (WinEcdh.DeriveSecret (F := F) (S := S) d q).
Proof. unfold WinEcdh.DeriveSecret. coded_go. Qed.
Lemma coded_win_hkdf z : throws coded (Bcrypt.new_BcryptHKDF (F := F) (S := S) z).
Proof. unfold Bcrypt.new_BcryptHKDF. coded_go. Qed.
Hint Resolve coded_win_import coded_win_import_public coded_win_agree coded_win_hkdf : throws.
Lemma coded_drop_both p q : throws coded (drop_both (F := F) (S := S) p q).
Proof. unfold drop_both. coded_go. Qed.
Hint Resolve coded_drop_both : throws.
Lemma coded_agree_keys der pub : throws coded (agree_keys (F := F) (S := S) der pub).
Proof. unfold agree_keys. coded_go. Qed.
Lemma coded_set_wrapper w : throws coded (set_wrapper (F := F) (S := S) w).
Proof. by intros s e. Qed.
Hint Resolve coded_agree_keys coded_set_wrapper coded_new_ctx throws_zoom : throws.
Lemma coded_agree_and_decrypt w der pub a u n c : throws coded (agree_and_decrypt (F := F) (S := S) w der pub a u n c).
Proof. unfold agree_and_decrypt. coded_go. Qed.
Hint Resolve coded_agree_and_decrypt : throws.
Lemma coded_win_decrypt_steps claims u k : throws coded (decrypt_steps (F := F) (S := S) claims u k).
Proof. unfold decrypt_steps. coded_go. Qed.

Lemma win_error_failure e : coded e -> failure (Secrets.code_of (decrypt_error e)).
Proof. destruct_exn e; intros He; try coded_leaf; exact He. Qed.
Lemma win_steps_status claims u k : yields SecretsFacts.status_ok (decrypt_steps (F := F) (S := S) claims u k).
Proof.
  unfold decrypt_steps. yields_go; try (right; by apply failure_code).
  left. split; [done|]. cbn. intros ->. done.
Qed.
(** Reading the SMBIOS table throws nothing. *)
Lemma coded_table_byte buf i : othrows coded (WinSystem.table_byte buf i).
Proof. unfold WinSystem.table_byte. apply othrows_bind; [apply coded_read|]. intros b. apply othrows_ret. Qed.
Lemma coded_find_end n buf sz i : othrows coded (WinSystem.find_end n buf sz i).
Proof.
  revert i. induction n as [|n IH]; intros i; simpl; [done|]. destruct (_ <? _); [|apply othrows_ret].
  apply othrows_bind; [apply coded_table_byte|]. intros a. case_bool_decide; [|apply IH].
  apply othrows_bind; [apply coded_table_byte|]. intros b. case_bool_decide; [apply othrows_ret|apply IH].
Qed.
Lemma coded_find_system n buf sz i : othrows coded (WinSystem.find_system n buf sz i).
Proof.
  revert i. induction n as [|n IH]; intros i; [done|]. cbn [WinSystem.find_system]. destruct (_ <? _); [|apply othrows_ret].
  do 2 (apply othrows_bind; [apply coded_table_byte|intros ?]).
  apply othrows_bind; [apply coded_find_end|]. intros next.
  case_bool_decide; [apply othrows_ret|]. destruct next; [apply IH|apply othrows_ret].
Qed.
Lemma coded_read_u32 buf o : othrows coded (read_u32 buf o).
Proof. unfold read_u32. apply othrows_bind; [apply coded_read|]. intros b. apply othrows_ret. Qed.
Lemma coded_formatUUID u : othrows coded (WinSystem.formatUUID u).
Proof.
  destruct u as [|buf [i|]]; simpl; [apply othrows_ret| |done].
  apply othrows_bind; [apply coded_read|]. intros d. apply othrows_ret.
Qed.
Hint Resolve coded_find_system coded_read_u32 coded_formatUUID : throws.
Lemma coded_uuid : throws coded (WinSystem.GetSystemUuid (F := F) (S := S)).
Proof. unfold WinSystem.GetSystemUuid, WinSystem.GetSystemSmBios. coded_go. Qed.
#[export] Instance windows_decryptor_laws : DecryptorLaws F S.
Proof.
  split; [intros claims k..|left];
    cbn [platform_decrypt WindowsDecryptor]; unfold decrypt_secret.
  - apply yields_bind. intros u.
    apply yields_scoped, (yields_try_throws coded); [apply win_steps_status|apply coded_win_decrypt_steps|].
    intros e He. apply yields_ret. right. by apply win_error_failure.
  - apply throws_bind; [apply coded_uuid|]. intros u. apply throws_scoped, throws_try_all. intros e. apply throws_ret.
Qed.
End Codes.

(** ** What a signature is worth on Windows *)
Section Roots.
Context {F : Type -> Type} {S : Type} `{HF : Handler F S} `{HB : BcryptCall -< F} `{HC : CryptCall -< F}.
Context `{HE : EsysCall -< F} `{HW : FirmwareCall -< F} `{HK : ClockCall -< F} `{Fu : Fuel}.
Context `{Bb : BoostBase64, Bs : BoostString, NJ : NlohmannJson, U8 : Policy.Utf8}.
Import Secrets SecretsFacts.

(** A chain was found to end at the self-issued certificate [CCME_ROOTCERT_PEM]. *)
Definition chained_to_ccme (t : list (event F)) : Prop :=
  exists der cert root, Encoders.base64_decode (c_str CCME_ROOTCERT_PEM) = Ret der /\
    Ev (inj (CertCreateCertificateContext der)) cert ∈ t /\
    Ev (inj (CertCompareCertificateName root)) true ∈ t /\
    Ev (inj (CertComparePublicKeyInfo root cert)) true ∈ t /\
    Ev (inj (CertCompareCertificate root cert)) true ∈ t.

Lemma verified_by_ccme text t : text_verified text t -> chained_to_ccme t.
Proof.
  intros (last & sig & h & _ & _ & x & Hroots & _ & (c & _ & root & r & _ & Hr & _ & _ & Hn & Hk & Hc) & _).
  destruct (Hroots r Hr) as (der & Hd & Hev). by exists der, r, (pCertContext root).
Qed.


(** A [long] of 32 bits: a legacy text of 2 GiB or more is handed out with a negative return value, which
    the caller takes for a failure. *)
Lemma win_legacy_negative jwt policy s :
  Jwt.isRealJwt jwt Policy.requiredFields = Ret false -> Z.testbit policy 2 = true -> 2 ^ 31 <= size jwt < 2 ^ 32 ->
  exists r, res (unprotect_secret (F := F) jwt policy s) = Ret r /\ output_secret r = Some jwt /\
    ret r = size jwt - 2 ^ 32.
Proof.
  intros Hl Hp Hs. rewrite legacy_pass_through by done. rewrite Hp.
  destruct jwt as [|b l]; [change (size []) with 0 in Hs; lia|]. eexists. split; [done|]. split; [done|]. cbn [marshal_output ret]. unfold to_long, wrap_signed.
  cbn [long_bits WindowsDecryptor]. fold (size (b :: l)). cbv zeta. rewrite Z.mod_small by lia.
  destruct (size (b :: l) <? 2 ^ (32 - 1)) eqn:E; lia.
Qed.
End Roots.

(** ** Witnesses: the world of WinSecretsFacts.v with a clock *)

Definition WinEntryCall : Type -> Type := sumE ClockCall WinCall.
#[local] Instance win_entry : Handler WinEntryCall win_start := fun R e s =>
  match e with
  | InL c => match c in ClockCall T return T * win_start with time0 => (1700000000, s) end
  | InR e => handle e s
  end.
#[local] Instance win_fuel : Fuel := 4%nat.
#[local] Instance win_utf8 : Policy.Utf8 :=
  {| Policy.utf8_to_bytes l := Some (map byte_of_z l); Policy.utf8_from_bytes l := Some (map z_of_byte l) |}.
Definition win_header : jtree :=
  JObj [(str "alg", JStr (str "RS256")); (str "x-az-cvm-purpose", JStr (str "secrets-provisioning"));
        (str "x5c", JArr [JStr (str "AQID"); JStr (str "BAUG")])].
Definition win_token : bytes :=
  match Jwt.CreateToken (F := WinEntryCall) (@Jwt.Build_JsonWebToken json_tree win_header
          (toy_claims (toy_message win_uuid id)) [x09]) (None : win_start) with
  | Res (Ret (_, tok)) _ _ => tok
  | _ => []
  end.
Definition win_released : Secrets.UnprotectResult byte :=
  Secrets.Build_UnprotectResult 7 (Some (str "secret!")) (Some 3).

