(* ===== verification/WinGen.v ===== *)
(** * A certificate authority on Windows

    The part of Windows/WincryptX509.cpp that makes a chain of certificates: [GeneratedCert],
    [computeExpiryTime], [createKeyPair], [createRootCACert], [createSignedCert], [convertToBcryptKey],
    [getCertBase64] and [generateCertChain]; also [printCertInfo] and the destructor of WincryptX509. WinGenFacts.v has the theorems. *)

From S2P Require Import Prelude Base64 Loggers ReturnCodes Ossl Bcrypt WinCrypt.
#[local] Open Scope Z_scope.

(** What is signed: names, keys and constraints are encoded structures; times count 100 ns from 1601. *)
Record CERT_INFO := {
  SerialNumber : bytes; Issuer : bytes; NotBefore : Z; NotAfter : Z; Subject : bytes; SubjectPublicKeyInfo : bytes;
  (* the extension of basic constraints, critical *)
  constraints : bytes }.
(** The algorithm is [szOID_RSA_SHA256RSA] throughout. An acquired context and a generated key come with
    what the call leaves in the variable, also when it fails. *)
Inductive GenCall : Type -> Type :=
| CryptAcquireContext_delete (container : bytes) : GenCall (bool * ptr)
| CryptAcquireContext_new (container : bytes) : GenCall (bool * ptr)
| CryptReleaseContext (prov : ptr) : GenCall unit
| CryptGenKey_signature (prov : ptr) (flags : Z) : GenCall (bool * ptr)
| CryptDestroyKey (key : ptr) : GenCall unit
| CertFreeCertificateContext (cert : ptr) : GenCall unit
(* in milliseconds from 1601 *)
| GetSystemTime : GenCall Z
| CertStrToName (name : bytes) (room : Z) : GenCall (option bytes)
| CryptEncode_BasicConstraints2 (ca : bool) (pathLen : option Z) : GenCall (option (ptr * bytes))
| LocalFree (p : ptr) : GenCall unit
| CertCreateSelfSignCertificate (prov : ptr) (subject container : bytes) (expiry : Z) (constraints : bytes) : GenCall ptr
| CryptExportPublicKeyInfo_size (prov : ptr) : GenCall (option Z)
| CryptExportPublicKeyInfo (prov : ptr) (room : Z) : GenCall (option bytes)
| cert_Subject (cert : ptr) : GenCall bytes
| CryptSignAndEncodeCertificate_size (prov : ptr) (info : CERT_INFO) : GenCall (option Z)
| CryptSignAndEncodeCertificate (prov : ptr) (info : CERT_INFO) (room : Z) : GenCall (option bytes)
| cert_encoded (cert : ptr) : GenCall bytes
| CryptExportKey_private_size (key : ptr) : GenCall (option Z)
| CryptExportKey_private (key : ptr) (room : Z) : GenCall (option bytes)
| BCryptImportKeyPair_rsa (alg : ptr) (blob : bytes) : GenCall (Z * ptr)
| CertCloseStore (store : ptr) : GenCall unit
(* for printing: at most 32 bytes, names of the subject or the issuer, both ends of the time, and year to second *)
| CertGetCertificateContextProperty_sha256 (cert : ptr) : GenCall (option bytes)
| CertGetNameString (cert : ptr) (issuer : bool) : GenCall (option bytes)
| cert_Validity (cert : ptr) : GenCall (Z * Z)
| calendar (t : Z) : GenCall (Z * Z * Z * Z * Z * Z).

Module WinGen.
Definition TEMPBUF_SIZE : Z := 1024.
(** wincrypt.h and bcrypt.h: 2048 bits, exportable; the sizes of PUBLICKEYSTRUC and RSAPUBKEY, and the
    header of a bcrypt key *)
Definition keyLength : Z := 0x08000000.
Definition CRYPT_EXPORTABLE : Z := 1.
Definition sizeof_PUBLICKEYSTRUC : Z := 8.
Definition sizeof_RSAPUBKEY : Z := 12.
Definition sizeof_BCRYPT_RSAKEY_BLOB : Z := 24.
Definition BCRYPT_RSAPRIVATE_MAGIC : Z := 0x32415352.

(** *** Times *)
Definition SystemTimeToFileTime (ms : Z) : Z := ms * 10000.
(** Past 2^63 the call fails, and the variable has no value. *)
Definition FileTimeToSystemTime (t : Z) : outcome Z :=
  if t <? 2 ^ 63 then Ret (t / 10000) else Fault UndefinedBehaviour.
(** [(ULONGLONG)days * 24 * 60 * 60 * 10000000ULL] *)
Definition expiry_of (now days : Z) : outcome Z :=
  FileTimeToSystemTime (u64 (SystemTimeToFileTime now + u64 (u64 days * 24 * 60 * 60 * 10000000))).

(** *** The key in the form of bcrypt *)
(** [for (i = 0; i < cb; i++) pDst[cb - 1 - i] = pSrc[i];] from [i] on, with [n] rounds to go. *)
Fixpoint reverse_into (n : nat) (i : Z) (src : bytes) (pSrc : Z) (dst : bytes) (pDst cb : Z) : outcome bytes :=
  match n with
  | O => Ret dst
  | Datatypes.S n' =>
      b ← read_bytes src (pSrc + i) 1;
      dst ← overwrite dst (pDst + cb - 1 - i) b;
      reverse_into n' (i + 1) src pSrc dst pDst cb
  end.
Definition rsa_private_blob (keyBlob : bytes) : outcome bytes :=
  bitLen ← read_u32 keyBlob (sizeof_PUBLICKEYSTRUC + 4);
  let byteLen := bitLen / 8 in
  let cbPublicExp := 4 in
  let cbModulus := byteLen in
  let cbPrime1 := byteLen / 2 in
  let cbPrime2 := byteLen / 2 in
  let cbBcryptBlob := u32 (sizeof_BCRYPT_RSAKEY_BLOB + cbPublicExp + cbModulus + cbPrime1 + cbPrime2) in
  let bcryptBlob := replicate (Z.to_nat cbBcryptBlob) x00 in
  bcryptBlob ← overwrite bcryptBlob 0 (u32_bytes BCRYPT_RSAPRIVATE_MAGIC ++ u32_bytes bitLen ++ u32_bytes cbPublicExp
                                       ++ u32_bytes cbModulus ++ u32_bytes cbPrime1 ++ u32_bytes cbPrime2);
  let pDst := sizeof_BCRYPT_RSAKEY_BLOB in
  pubExp ← read_u32 keyBlob (sizeof_PUBLICKEYSTRUC + 8);
  bcryptBlob ← reverse_into (Z.to_nat cbPublicExp) 0 (u32_bytes pubExp) 0 bcryptBlob pDst cbPublicExp;
  let pDst := pDst + cbPublicExp in
  let pSrc := sizeof_PUBLICKEYSTRUC + sizeof_RSAPUBKEY in
  bcryptBlob ← reverse_into (Z.to_nat cbModulus) 0 keyBlob pSrc bcryptBlob pDst cbModulus;
  let pSrc := pSrc + cbModulus in
  let pDst := pDst + cbModulus in
  bcryptBlob ← reverse_into (Z.to_nat cbPrime1) 0 keyBlob pSrc bcryptBlob pDst cbPrime1;
  let pSrc := pSrc + cbPrime1 in
  let pDst := pDst + cbPrime1 in
  reverse_into (Z.to_nat cbPrime2) 0 keyBlob pSrc bcryptBlob pDst cbPrime2.

(** *** [printCertInfo] *)
(** [%0nd] for a number that is not negative *)
Definition padded (n : nat) (z : Z) : bytes := let d := digits z in replicate (n - length d) "0"%byte ++ d.
Definition time_text : Z * Z * Z * Z * Z * Z -> bytes := fun '(y, mo, d, h, mi, s) =>
  padded 4 y ++ str "-" ++ padded 2 mo ++ str "-" ++ padded 2 d ++ str " " ++ padded 2 h ++ str ":" ++ padded 2 mi ++ str ":" ++ padded 2 s.
Definition DEBUG_SEPARATOR : bytes := str ", ".

(** *** Certificates being made *)
Record GeneratedCert := { cert : ptr; hProv : ptr; hKey : ptr; containerName : bytes }.
Definition set_cert (p : ptr) (g : GeneratedCert) : GeneratedCert :=
  {| cert := p; hProv := hProv g; hKey := hKey g; containerName := containerName g |}.
Definition set_prov (p : ptr) (g : GeneratedCert) : GeneratedCert :=
  {| cert := cert g; hProv := p; hKey := hKey g; containerName := containerName g |}.
Definition set_key (p : ptr) (g : GeneratedCert) : GeneratedCert :=
  {| cert := cert g; hProv := hProv g; hKey := p; containerName := containerName g |}.
(** The four bytes of [serialNum], the lowest first. *)
Definition serialBytes (serialNum : Z) : bytes := u32_bytes serialNum.

Section Ops.
Context {F : Type -> Type} {S : Type} `{Handler F S} `{BcryptCall -< F} `{CryptCall -< F} `{GenCall -< F}.
Context `{BoostBase64, BoostString}.
(** The state of the program: the static [serialNum], and the [GeneratedCert]s that are alive, the last made
    first: what is destroyed at the end, or when an exception leaves. *)
Local Notation MG := (M F ((S * Z) * list GeneratedCert)).
Definition set_last (f : GeneratedCert -> GeneratedCert) : MG unit :=
  l ← get_local; put_local (match l with g :: l' => f g :: l' | [] => [] end).
(** [serialNum++] *)
Definition next_serial : MG Z := fun '((s, serialNum), l) => Res (Ret serialNum) ((s, u32 (serialNum + 1)), l) [].

Definition fail_with {A} (w : string) : MG A :=
  e ← trig GetLastError; throw (WinCryptErr (str w) e (error_code GeneralError)).
Definition must {A} (r : option A) (w : string) : MG A := match r with Some a => mret a | None => fail_with w end.

Definition computeExpiryTime (days : Z) : MG Z := now ← trig GetSystemTime; lift (expiry_of now days).

(** [make_unique<GeneratedCert>()] with the name of its container *)
Definition new_GeneratedCert (container : bytes) : MG unit :=
  l ← get_local; put_local ({| cert := null; hProv := null; hKey := null; containerName := container |} :: l).
Definition createKeyPair (containerName : bytes) : MG (ptr * ptr) :=
  '(_, p) ← trig (CryptAcquireContext_delete containerName);
  _ ← set_last (set_prov p);
  '(ok, hProv) ← trig (CryptAcquireContext_new containerName);
  _ ← set_last (set_prov hProv);
  if negb ok then fail_with "CryptAcquireContext failed."
  else
    '(ok, hKey) ← trig (CryptGenKey_signature hProv (Z.lor keyLength CRYPT_EXPORTABLE));
    _ ← set_last (set_key hKey);
    if negb ok then
      _ ← trig (CryptReleaseContext hProv);
      _ ← set_last (set_prov null);
      fail_with "CryptGenKey failed."
    else mret (hProv, hKey).

Definition createRootCACert (subjectName : bytes) (validityDays : Z) : MG GeneratedCert :=
  let containerName := str "TestRootCAContainer" in
  _ ← new_GeneratedCert containerName;
  '(hProv, hKey) ← createKeyPair containerName;
  r ← trig (CertStrToName subjectName TEMPBUF_SIZE);
  subject ← must r "CertStrToName failed for root CA.";
  stExpiry ← computeExpiryTime validityDays;
  r ← trig (CryptEncode_BasicConstraints2 true (Some 1));
  '(pbEncoded, encoded) ← must r "CryptEncodeObjectEx failed for basic constraints.";
  cert ← trig (CertCreateSelfSignCertificate hProv subject containerName stExpiry encoded);
  _ ← set_last (set_cert cert);
  _ ← trig (LocalFree pbEncoded);
  if is_null cert then fail_with "CertCreateSelfSignCertificate failed for root CA."
  else mret {| cert := cert; hProv := hProv; hKey := hKey; containerName := containerName |}.

(** [pathLen] is -1 for none. *)
Definition createSignedCert (subjectName containerName : bytes) (issuer : GeneratedCert) (validityDays : Z)
    (isCA : bool) (pathLen : Z) : MG GeneratedCert :=
  _ ← new_GeneratedCert containerName;
  '(prov, key) ← createKeyPair containerName;
  r ← trig (CryptExportPublicKeyInfo_size prov);
  cbPubKeyInfo ← must r "CryptExportPublicKeyInfo size failed.";
  r ← trig (CryptExportPublicKeyInfo prov cbPubKeyInfo);
  pubKeyInfo ← must r "CryptExportPublicKeyInfo failed.";
  r ← trig (CertStrToName subjectName TEMPBUF_SIZE);
  subject ← must r "CertStrToName failed.";
  serialNum ← next_serial;
  issuerName ← trig (cert_Subject (cert issuer));
  stNow ← trig GetSystemTime;
  stExpiry ← computeExpiryTime validityDays;
  r ← trig (CryptEncode_BasicConstraints2 isCA (if isCA && (0 <=? pathLen) then Some pathLen else None));
  '(pbBasicConstraints, basicConstraints) ← must r "CryptEncodeObjectEx failed for basic constraints.";
  let certInfo := {| SerialNumber := serialBytes serialNum; Issuer := issuerName; NotBefore := SystemTimeToFileTime stNow;
                     NotAfter := SystemTimeToFileTime stExpiry; Subject := subject; SubjectPublicKeyInfo := pubKeyInfo;
                     constraints := basicConstraints |} in
  r ← trig (CryptSignAndEncodeCertificate_size (hProv issuer) certInfo);
  match r with
  | None => _ ← trig (LocalFree pbBasicConstraints); fail_with "CryptSignAndEncodeCertificate size failed."
  | Some cbEncodedCert =>
      r ← trig (CryptSignAndEncodeCertificate (hProv issuer) certInfo cbEncodedCert);
      match r with
      | None => _ ← trig (LocalFree pbBasicConstraints); fail_with "CryptSignAndEncodeCertificate failed."
      | Some encodedCert =>
          _ ← trig (LocalFree pbBasicConstraints);
          cert ← trig (CertCreateCertificateContext encodedCert);
          _ ← set_last (set_cert cert);
          if is_null cert then fail_with "CertCreateCertificateContext failed."
          else mret {| cert := cert; hProv := prov; hKey := key; containerName := containerName |}
      end
  end.

Definition convertToBcryptKey (hCryptKey : ptr) : MG ptr :=
  r ← trig (CryptExportKey_private_size hCryptKey);
  dwKeyBlobLen ← must r "CryptExportKey size failed.";
  r ← trig (CryptExportKey_private hCryptKey dwKeyBlobLen);
  exported ← must r "CryptExportKey failed.";
  keyBlob ← lift (overwrite (replicate (Z.to_nat dwKeyBlobLen) x00) 0 exported);
  '(st, hRsaAlg) ← trig (BCryptOpenAlgorithmProvider (str "RSA") false);
  _ ← status_ok st (str "BCryptOpenAlgorithmProvider for RSA") LibraryError_Bcrypt_providerError;
  bcryptBlob ← lift (rsa_private_blob keyBlob);
  '(st, hBcryptKey) ← trig (BCryptImportKeyPair_rsa hRsaAlg bcryptBlob);
  _ ← trig (BCryptCloseAlgorithmProvider hRsaAlg);
  _ ← status_ok st (str "BCryptImportKeyPair") LibraryError_Bcrypt_keyError;
  mret hBcryptKey.

Definition getCertBase64 (cert : ptr) : MG bytes := der ← trig (cert_encoded cert); mret (Encoders.base64_encode der).

(** What the log says of a certificate; the calls that log leave it out. *)
Definition printCertInfo {S'} `{Handler F S'} (pCertContext : ptr) (label : bytes) : M F S' bytes :=
  hash ← trig (CertGetCertificateContextProperty_sha256 pCertContext);
  subject ← trig (CertGetNameString pCertContext false);
  issuer ← trig (CertGetNameString pCertContext true);
  '(NotBefore, NotAfter) ← trig (cert_Validity pCertContext);
  stNotBefore ← trig (calendar NotBefore);
  stNotAfter ← trig (calendar NotAfter);
  mret (match hash with Some h => str "Thumbprint (SHA256): " ++ formatHexBuffer h ++ DEBUG_SEPARATOR | None => [] end
        ++ match subject with
           | Some n => label ++ str " Certificate Details: " ++ str "Subject: " ++ c_str n ++ DEBUG_SEPARATOR
           | None => []
           end
        ++ match issuer with Some n => str "Issuer:  " ++ c_str n ++ DEBUG_SEPARATOR | None => [] end
        ++ str "Valid from: " ++ time_text stNotBefore ++ DEBUG_SEPARATOR
        ++ str "Valid until: " ++ time_text stNotAfter ++ DEBUG_SEPARATOR).
(** [~WincryptX509]: the contexts of the certificates and of the chain are not freed. *)
Definition destroy_WincryptX509 {S'} `{Handler F S'} (x : WinX509.WincryptX509) : M F S' unit :=
  _ ← (if is_null (WinX509.leafPrivateKey x) then mret tt
       else _ ← trig (BCryptDestroyKey (WinX509.leafPrivateKey x)); mret tt);
  if is_null (WinX509.hStore x) then mret tt else trig (CertCloseStore (WinX509.hStore x)).

(** [~GeneratedCert] *)
Definition destroy (g : GeneratedCert) : M F (S * Z) unit :=
  _ ← (if is_null (cert g) then mret tt else trig (CertFreeCertificateContext (cert g)));
  _ ← (if is_null (hKey g) then mret tt else trig (CryptDestroyKey (hKey g)));
  _ ← (if is_null (hProv g) then mret tt else trig (CryptReleaseContext (hProv g)));
  match containerName g with [] => mret tt | name => _ ← trig (CryptAcquireContext_delete name); mret tt end.

Definition X509_SUBJECT_NAME_SUFFIX : bytes := str ".SecureCPSProvisioning.cloudapp.net".
(** An exception destroys [certChain], which has no leaf key yet. *)
Definition make_chain : MG WinX509.WincryptX509 :=
  rootCA ← createRootCACert (str "CN=Test Root CA") 3650;
  intermediateCA ← createSignedCert (str "CN=Test Intermediate CA") (str "TestIntermediateCAContainer") rootCA 1825 true 0;
  leafCert ← createSignedCert (str "CN=eastus" ++ X509_SUBJECT_NAME_SUFFIX) (str "TestLeafCertContainer") intermediateCA 365
               false (-1);
  rootCertBase64 ← getCertBase64 (cert rootCA);
  intermediateCertBase64 ← getCertBase64 (cert intermediateCA);
  leafCertBase64 ← getCertBase64 (cert leafCert);
  hBcryptKey ← convertToBcryptKey (hKey leafCert);
  certChain ← WinX509.new_WincryptX509 [rootCertBase64];
  try_all (_ ← WinX509.LoadIntermediateCertificate certChain intermediateCertBase64;
           certChain ← WinX509.LoadLeafCertificate certChain leafCertBase64;
           mret (WinX509.SetLeafKey certChain hBcryptKey))
    (fun e => _ ← destroy_WincryptX509 certChain; throw e).
(** The handler rethrows. *)
Definition generateCertChain : M F (S * Z) WinX509.WincryptX509 := scoped [] make_chain (fun l => for_each l destroy).
End Ops.
End WinGen.
