(* ===== verification/WinGenFacts.v ===== *)
(** * The chain made on Windows

    Theorems on WinGen.v. [key_converted]: a key exported by the old interface is the same key in the form of
    bcrypt. [chain_linked]: in a chain that is returned each certificate is signed with the key of the one above. *)

From S2P Require Import Prelude Base64 ReturnCodes Ossl Bcrypt BcryptFacts WinCrypt WinFacts WindowsX509 SampleFacts WinGen.
#[local] Open Scope Z_scope.

(** ** The two forms of a key *)

Record rsa_key := { bits : Z; exponent : Z; modulus : Z; prime1 : Z; prime2 : Z }.
(** wincrypt.h: a header, the magic number RSA2, the bits and the exponent; then numbers that start with the lowest byte.
    Exponents and the coefficient follow. *)
Definition capi_blob (k : rsa_key) (blob : bytes) : Prop := exists header n p q rest,
  blob = header ++ u32_bytes 0x32415352 ++ u32_bytes (bits k) ++ u32_bytes (exponent k) ++ n ++ p ++ q ++ rest /\
  size header = 8 /\ size n = bits k / 8 /\ size p = bits k / 16 /\ size q = bits k / 16 /\
  0 <= bits k < 2 ^ 32 /\ 0 <= exponent k < 2 ^ 32 /\ modulus k = le n /\ prime1 k = le p /\ prime2 k = le q.
(** bcrypt.h: the sizes in a header, and numbers that start with the highest byte. *)
Definition be (l : bytes) : Z := le (rev l).
Definition cng_blob (k : rsa_key) (blob : bytes) : Prop := exists e n p q,
  blob = u32_bytes 0x32415352 ++ u32_bytes (bits k) ++ u32_bytes (size e) ++ u32_bytes (size n) ++ u32_bytes (size p) ++ u32_bytes (size q)
         ++ e ++ n ++ p ++ q /\
  size e = 4 /\ size n = bits k / 8 /\ size p = bits k / 16 /\ size q = bits k / 16 /\
  exponent k = be e /\ modulus k = be n /\ prime1 k = be p /\ prime2 k = be q.

Import WinGen.

Lemma size_rev (l : bytes) : size (rev l) = size l.
Proof. unfold size. by rewrite length_rev. Qed.
Lemma be_rev l : be (rev l) = le l.
Proof. unfold be. by rewrite rev_involutive. Qed.
Lemma size_u32 z : size (u32_bytes z) = 4.
Proof. reflexivity. Qed.

Lemma reverse_rest d2 : forall d1 s1 s2 a z c, length z = length d2 ->
  reverse_into (length d2) (size d1) (s1 ++ d1 ++ d2 ++ s2) (size s1) (a ++ z ++ c) (size a) (size d1 + size d2) =
  Ret (a ++ rev d2 ++ c).
Proof.
  induction d2 as [|x d2 IH]; intros d1 s1 s2 a z c Hz; cbn [reverse_into length].
  { destruct z; [|done]. by rewrite !app_nil_l. }
  destruct z as [|y z' _] using rev_ind; [done|].
  rewrite length_app in Hz. cbn in Hz.
  pose proof (read_middle (s1 ++ d1) [x] (d2 ++ s2)) as Hr. cbn [app] in Hr. rewrite <- app_assoc in Hr.
  rewrite size_app in Hr. change (size [x]) with 1 in Hr. cbn [app]. rewrite Hr. cbn [mbind outcome_bind].
  replace (size a + (size d1 + size (x :: d2)) - 1 - size d1) with (size (a ++ z')) by (rewrite size_app; unfold size; cbn; lia).
  replace (a ++ (z' ++ [y]) ++ c) with ((a ++ z') ++ y :: c) by by rewrite <- !app_assoc.
  rewrite overwrite_at by (unfold size; cbn; lia). cbn [mbind outcome_bind length drop].
  specialize (IH (d1 ++ [x]) s1 s2 a z' (x :: c)). rewrite <- !app_assoc, size_app in IH. cbn [app] in IH.
  change (size [x]) with 1 in IH. cbn [rev]. rewrite <- !app_assoc. cbn [app].
  replace (size d1 + size (x :: d2)) with (size d1 + 1 + size d2) by (unfold size; cbn; lia). apply IH. lia.
Qed.
(** The bytes [d] of the source are turned around into zeros of the destination. *)
Lemma reversed d s1 s2 a c src pSrc dst pDst cb : src = s1 ++ d ++ s2 -> pSrc = size s1 ->
  dst = a ++ replicate (length d) x00 ++ c -> pDst = size a -> cb = size d ->
  reverse_into (Z.to_nat cb) 0 src pSrc dst pDst cb = Ret (a ++ rev d ++ c).
Proof.
  intros -> -> -> -> ->. pose proof (reverse_rest d [] s1 s2 a (replicate (length d) x00) c) as Hr.
  rewrite length_replicate in Hr. unfold size at 1. rewrite Nat2Z.id. by apply Hr.
Qed.
Lemma read_u32_at a z c blob off : blob = a ++ u32_bytes z ++ c -> off = size a -> 0 <= z < 2 ^ 32 -> read_u32 blob off = Ret z.
Proof.
  intros -> -> Hz. unfold read_u32. pose proof (read_middle a (u32_bytes z) c) as Hr. rewrite size_u32 in Hr. rewrite Hr.
  cbn [mbind outcome_bind]. by rewrite le_u32.
Qed.
Lemma overwrite_start o z c : length z = length o -> overwrite (z ++ c) 0 o = Ret (o ++ c).
Proof.
  intros Hz. etrans; [apply (overwrite_at []); unfold size; rewrite length_app; lia|]. rewrite <- Hz. f_equal. cbn [app]. f_equal. apply drop_app_length.
Qed.

(** Both sides are the same parts, or have the same size. *)
Ltac solve_parts H H' := first [reflexivity | unfold sizeof_BCRYPT_RSAKEY_BLOB, sizeof_PUBLICKEYSTRUC, sizeof_RSAPUBKEY;
  rewrite ?size_app, ?size_rev, ?size_u32, ?H, ?H'; lia | by rewrite <- ?app_assoc, ?app_nil_r].

(** C34: the key a chain's leaf signs with is the key that was exported: for every RSA key in the format of
    CryptoAPI (PRIVATEKEYBLOB, numbers lowest byte first, anything after the primes) [convertToBcryptKey] builds,
    within the bounds of both buffers, the blob of the same key - bits, exponent, modulus, both
    primes - in the format of bcrypt (BCRYPT_RSAPRIVATE_BLOB, highest byte first, sizes in the header). *)
Theorem key_converted (k : rsa_key) (blob : bytes) :
  capi_blob k blob -> exists b, rsa_private_blob blob = Ret b /\ cng_blob k b.
Proof.
  intros (hd & n & p & q & rest & -> & Hhd & Hn & Hp & Hq & Hb & He & Em & E1 & E2).
  assert (Hh : bits k / 8 / 2 = bits k / 16) by (rewrite Z.div_div by lia; done).
  assert (Hnn : 0 <= bits k / 8 < 2 ^ 29) by (split; [apply Z.div_pos|apply Z.div_lt_upper_bound]; lia).
  assert (Hpp : 0 <= bits k / 16 < 2 ^ 28) by (split; [apply Z.div_pos|apply Z.div_lt_upper_bound]; lia).
  set (header := u32_bytes BCRYPT_RSAPRIVATE_MAGIC ++ u32_bytes (bits k) ++ u32_bytes 4 ++ u32_bytes (size n) ++ u32_bytes (size p) ++ u32_bytes (size p)).
  exists (header ++ rev (u32_bytes (exponent k)) ++ rev n ++ rev p ++ rev q). split.
  2: { exists (rev (u32_bytes (exponent k))), (rev n), (rev p), (rev q). rewrite !size_rev, !be_rev, le_u32 by done.
       unfold header. rewrite <- !app_assoc. split_and!; try done. by rewrite Hq, <- Hp. }
  set (exported := hd ++ _). assert (Hsz : size header = 24) by reflexivity.
  assert (R1 : read_u32 exported (sizeof_PUBLICKEYSTRUC + 4) = Ret (bits k)).
  { apply (read_u32_at (hd ++ u32_bytes 0x32415352) _ (u32_bytes (exponent k) ++ n ++ p ++ q ++ rest)); [by rewrite <- app_assoc| |done].
    by rewrite size_app, Hhd. }
  assert (R2 : read_u32 exported (sizeof_PUBLICKEYSTRUC + 8) = Ret (exponent k)).
  { apply (read_u32_at (hd ++ u32_bytes 0x32415352 ++ u32_bytes (bits k)) _ (n ++ p ++ q ++ rest)); [by rewrite <- !app_assoc| |done].
    by rewrite !size_app, Hhd. }
  unfold rsa_private_blob. rewrite R1. cbn [mbind outcome_bind]. rewrite Hh.
  replace (Z.to_nat (u32 _)) with (length header + (length (u32_bytes (exponent k)) + (length n + (length p + length q))))%nat.
  2: { rewrite u32_small; change (length header) with 24%nat; change (length (u32_bytes (exponent k))) with 4%nat;
       unfold sizeof_BCRYPT_RSAKEY_BLOB, size in *; lia. }
  rewrite !replicate_add, <- Hp, <- Hn. fold header. rewrite overwrite_start by by rewrite length_replicate.
  cbn [mbind outcome_bind]. rewrite R2. cbn [mbind outcome_bind].
  rewrite (reversed (u32_bytes (exponent k)) [] [] header (replicate (length n) x00 ++ replicate (length p) x00 ++ replicate (length q) x00))
    by (reflexivity || by rewrite app_nil_r).
  cbn [mbind outcome_bind].
  rewrite (reversed n (hd ++ u32_bytes 0x32415352 ++ u32_bytes (bits k) ++ u32_bytes (exponent k)) (p ++ q ++ rest)
    (header ++ rev (u32_bytes (exponent k))) (replicate (length p) x00 ++ replicate (length q) x00))
    by solve_parts Hhd Hsz.
  cbn [mbind outcome_bind].
  rewrite (reversed p (hd ++ u32_bytes 0x32415352 ++ u32_bytes (bits k) ++ u32_bytes (exponent k) ++ n) (q ++ rest)
    (header ++ rev (u32_bytes (exponent k)) ++ rev n) (replicate (length q) x00)) by solve_parts Hhd Hsz.
  cbn [mbind outcome_bind].
  rewrite (reversed q (hd ++ u32_bytes 0x32415352 ++ u32_bytes (bits k) ++ u32_bytes (exponent k) ++ n ++ p) rest
    (header ++ rev (u32_bytes (exponent k)) ++ rev n ++ rev p) []) by (solve_parts Hhd Hsz || by rewrite Hq, <- Hp).
  by rewrite <- !app_assoc, app_nil_r.
Qed.

(** ** Who signed what *)

Section Chain.
Context {F : Type -> Type} {S : Type} `{HF : Handler F S} `{HB : BcryptCall -< F} `{HC : CryptCall -< F} `{HG : GenCall -< F}.
Context `{Bb : BoostBase64, Bs : BoostString, !BoostBase64Laws}.
Local Notation MG := (M F ((S * Z) * list GeneratedCert)).

(** [g] has a new 2048-bit key of its own. *)
Definition new_key (g : GeneratedCert) (t : list (event F)) : Prop :=
  Ev (inj (CryptAcquireContext_new (containerName g))) (true, hProv g) ∈ t /\
  Ev (inj (CryptGenKey_signature (hProv g) (Z.lor keyLength CRYPT_EXPORTABLE))) (true, hKey g) ∈ t.
(** The name, the constraints and the end of the time are those asked for. *)
Definition described (subjectName : bytes) (days : Z) (ca : bool) (pathLen : option Z) (subject : bytes) (notAfter : Z)
    (constraints : bytes) (t : list (event F)) : Prop := exists p now,
  Ev (inj (CertStrToName subjectName TEMPBUF_SIZE)) (Some subject) ∈ t /\
  Ev (inj GetSystemTime) now ∈ t /\ expiry_of now days = Ret notAfter /\
  Ev (inj (CryptEncode_BasicConstraints2 ca pathLen)) (Some (p, constraints)) ∈ t.
Definition self_signed (g : GeneratedCert) (subjectName : bytes) (days pathLen : Z) (t : list (event F)) : Prop :=
  new_key g t /\ exists subject notAfter constraints, described subjectName days true (Some pathLen) subject notAfter constraints t /\
    Ev (inj (CertCreateSelfSignCertificate (hProv g) subject (containerName g) notAfter constraints)) (cert g) ∈ t.
(** The certificate of [g] has the public key of [g] and the name of the issuer's certificate, and the issuer's key signed it. *)
Definition signed_by (issuer g : GeneratedCert) (subjectName : bytes) (days : Z) (ca : bool) (pathLen : option Z)
    (t : list (event F)) : Prop :=
  new_key g t /\ exists info notAfter from room1 room2 der,
    described subjectName days ca pathLen (Subject info) notAfter (constraints info) t /\
    NotAfter info = SystemTimeToFileTime notAfter /\ NotBefore info = SystemTimeToFileTime from /\ Ev (inj GetSystemTime) from ∈ t /\
    Ev (inj (CryptExportPublicKeyInfo (hProv g) room1)) (Some (SubjectPublicKeyInfo info)) ∈ t /\
    Ev (inj (cert_Subject (cert issuer))) (Issuer info) ∈ t /\
    Ev (inj (CryptSignAndEncodeCertificate (hProv issuer) info room2)) (Some der) ∈ t /\
    Ev (inj (CertCreateCertificateContext der)) (cert g) ∈ t.
(** [key] is the one of [g], imported. *)
Definition key_of (g : GeneratedCert) (key : ptr) (t : list (event F)) : Prop := exists room exported blob b alg,
  Ev (inj (CryptExportKey_private (hKey g) room)) (Some exported) ∈ t /\
  overwrite (replicate (Z.to_nat room) x00) 0 exported = Ret blob /\ rsa_private_blob blob = Ret b /\
  Ev (inj (BCryptImportKeyPair_rsa alg b)) (0, key) ∈ t.
(** [c] was read back from the text of the certificate of [g]. *)
Definition reread (g : GeneratedCert) (c : ptr) (t : list (event F)) : Prop := exists der d,
  Ev (inj (cert_encoded (cert g))) der ∈ t /\ (size der + 2 <= vector_max_size -> d = der) /\
  Ev (inj (CertCreateCertificateContext d)) c ∈ t.
Definition linked (x : WinX509.WincryptX509) (t : list (event F)) : Prop := exists root intermediate leaf rc ic lc chain,
  self_signed root (str "CN=Test Root CA") 3650 1 t /\
  signed_by root intermediate (str "CN=Test Intermediate CA") 1825 true (Some 0) t /\
  signed_by intermediate leaf (str "CN=eastus.SecureCPSProvisioning.cloudapp.net") 365 false None t /\
  WinX509.rootCertContexts x = [rc] /\ reread root rc t /\
  reread intermediate ic t /\ Ev (inj (CertAddCertificateContextToStore (WinX509.hStore x) ic)) true ∈ t /\
  WinX509.pLeafCertContext x = Some lc /\ reread leaf lc t /\
  WinX509.chainContext x = WinX509.Chain chain /\ Ev (inj (CertGetCertificateChain lc (WinX509.hStore x) WinX509.chain_flags)) (Some chain) ∈ t /\
  key_of leaf (WinX509.leafPrivateKey x) t.

(** What is known of a trace is known of a longer one. *)
Definition within (t t' : list (event F)) : Prop := forall e, e ∈ t -> e ∈ t'.
Lemma new_key_within g t t' : within t t' -> new_key g t -> new_key g t'.
Proof. intros Ht []. split; auto. Qed.
Lemma described_within n d ca pl s e c t t' : within t t' -> described n d ca pl s e c t -> described n d ca pl s e c t'.
Proof. intros Ht (p & now & ? & ? & ? & ?). exists p, now. auto. Qed.
Hint Resolve new_key_within described_within : core.
Lemma self_signed_within g n d pl t t' : within t t' -> self_signed g n d pl t -> self_signed g n d pl t'.
Proof. intros Ht (? & s & e & c & ? & ?). split; [eauto|]. exists s, e, c. eauto. Qed.
Lemma signed_by_within i g n d ca pl t t' : within t t' -> signed_by i g n d ca pl t -> signed_by i g n d ca pl t'.
Proof.
  intros Ht (? & info & e & f & r1 & r2 & der & ? & ? & ? & ? & ? & ? & ? & ?). split; [eauto|].
  exists info, e, f, r1, r2, der. split_and!; eauto.
Qed.
Lemma key_of_within g k t t' : within t t' -> key_of g k t -> key_of g k t'.
Proof. intros Ht (r & e & b & b' & a & ? & ? & ? & ?). exists r, e, b, b', a. auto. Qed.
Lemma reread_within g c t t' : within t t' -> reread g c t -> reread g c t'.
Proof. intros Ht (der & d & ? & ? & ?). exists der, d. auto. Qed.
Hint Resolve self_signed_within signed_by_within key_of_within reread_within : core.
Lemma linked_grows : grows linked.
Proof.
  intros x t1 t t2 (root & inter & leaf & rc & ic & lc & chain & Hl).
  assert (Ht : within t (t1 ++ t ++ t2)) by (intros e He; eauto with trace).
  exists root, inter, leaf, rc, ic, lc, chain. destruct_and! Hl. split_and!; eauto.
Qed.
Lemma within_l t t1 t2 : within t t1 -> within t (t1 ++ t2).
Proof. intros Ht e He. eauto with trace. Qed.
Lemma within_r t t1 t2 : within t t2 -> within t (t1 ++ t2).
Proof. intros Ht e He. eauto with trace. Qed.
Lemma within_cons t e t2 : within t t2 -> within t (e :: t2).
Proof. intros Ht x Hx. right. auto. Qed.
Lemma within_refl t : within t t.
Proof. by intros e. Qed.
(** A part of [t1 ++ t2 ++ ...] *)
Ltac part := first [apply within_refl | apply within_l; apply within_refl | apply within_r; part | apply within_cons; part].
Lemma elem_within e t t' : e ∈ t -> within t t' -> e ∈ t'.
Proof. auto. Qed.

Lemma ends_fail {A} (P : A -> list (event F) -> Prop) w : ends P (fail_with (S := S) w).
Proof. unfold fail_with. apply (ends_bind (fun _ _ => True)); [done|]. intros e t _. by apply ends_lift. Qed.
Lemma ends_must {A} (r : option A) w : ends (fun a t => r = Some a /\ t = []) (must (S := S) r w).
Proof. destruct r; [by apply ends_ret|apply ends_fail]. Qed.
(** A call, and its answer where it must be there. *)
Lemma ends_called {E S' R A} `{Handler F S'} `{E -< F} (e : E R) (k : R -> M F S' A) (P : A -> list (event F) -> Prop) :
  (forall r, ends (fun a t => P a (Ev (inj e) r :: t)) (k r)) -> ends P (trig e ≫= k).
Proof. intros Hk. apply (ends_bind (fun r t => t = [Ev (inj e) r])); [by apply ends_trig|]. intros r ? ->. apply Hk. Qed.
Lemma ends_there {E R A} `{E -< F} (e : E (option R)) w (k : R -> MG A) (P : A -> list (event F) -> Prop) :
  (forall r, ends (fun a t => P a (Ev (inj e) (Some r) :: t)) (k r)) -> ends P (r ← trig e; r ← must r w; k r).
Proof.
  intros Hk. apply ends_called. intros r. eapply ends_bind; [apply ends_must|]. intros a ? [-> ->]. apply Hk.
Qed.
Lemma ends_skip {S' A B} (m : M F S' A) (k : A -> M F S' B) (P : B -> list (event F) -> Prop) :
  (forall a t, ends (fun b t2 => P b (t ++ t2)) (k a)) -> ends P (m ≫= k).
Proof. intros Hk. apply (ends_bind (fun _ _ => True)); [done|]. auto. Qed.

Lemma ends_createKeyPair container :
  ends (fun p t => forall c, new_key {| cert := c; hProv := p.1; hKey := p.2; containerName := container |} t) (createKeyPair (S := S) container).
Proof.
  unfold createKeyPair. apply ends_skip. intros [ok p] t1. apply ends_skip. intros _ t2. apply ends_called. intros [ok1 prov].
  apply ends_skip. intros _ t3. destruct ok1; [|apply ends_fail]. cbn [negb]. apply ends_called. intros [ok2 key].
  apply ends_skip. intros _ t4. destruct ok2; cbn [negb]; [|do 2 (apply ends_skip; intros ??); apply ends_fail].
  apply ends_ret. intros c. split; cbn [containerName hProv hKey fst snd]; eauto 8 with trace.
Qed.
Lemma ends_computeExpiryTime days :
  ends (fun m t => exists now, Ev (inj GetSystemTime) now ∈ t /\ expiry_of now days = Ret m) (computeExpiryTime (S := S) days).
Proof. unfold computeExpiryTime. apply ends_called. intros now. apply ends_lift. intros m Hm. exists now. split; [by left|done]. Qed.
Lemma ends_createRootCACert name days :
  ends (fun g t => self_signed g name days 1 t) (createRootCACert (S := S) name days).
Proof.
  unfold createRootCACert. apply ends_skip. intros _ t0. eapply ends_bind; [apply ends_createKeyPair|]. intros [prov key] t1 Hk. cbn [fst snd] in Hk.
  apply ends_there. intros subject. eapply ends_bind; [apply ends_computeExpiryTime|]. intros m t2 (now & Hn & Hm).
  apply ends_there. intros [p c]. apply ends_called. intros cert. do 2 (apply ends_skip; intros ??).
  destruct (is_null cert); [apply ends_fail|]. apply ends_ret. split; [eapply new_key_within; [|apply Hk]; part|].
  exists subject, m, c. split; [exists p, now|]; cbn [containerName hProv WinGen.cert]; split_and?; eauto 12 with trace.
Qed.

Lemma ends_createSignedCert name container issuer days ca pl :
  ends (fun g t => signed_by issuer g name days ca (if ca && (0 <=? pl) then Some pl else None) t)
    (createSignedCert (S := S) name container issuer days ca pl).
Proof.
  unfold createSignedCert. apply ends_skip. intros _ t0. eapply ends_bind; [apply ends_createKeyPair|]. intros [prov key] t1 Hk. cbn [fst snd] in Hk.
  apply ends_there. intros room1. apply ends_there. intros public. apply ends_there. intros subject.
  apply ends_skip. intros serial t2. apply ends_called. intros issuerName. apply ends_called. intros from.
  eapply ends_bind; [apply ends_computeExpiryTime|]. intros m t3 (now & Hn & Hm). apply ends_there. intros [p c].
  set (info := Build_CERT_INFO _ _ _ _ _ _ _). apply ends_called. intros [room2|]; [|apply ends_skip; intros ??; apply ends_fail].
  apply ends_called. intros [der|]; (apply ends_skip; intros [] t4); [|apply ends_fail].
  apply ends_called. intros cert. apply ends_skip. intros _ t5.
  destruct (is_null cert); [apply ends_fail|]. apply ends_ret. split; [eapply new_key_within; [|apply Hk]; part|].
  exists info, m, from, room1, room2, der. cbn [hProv WinGen.cert info Subject constraints NotAfter NotBefore SubjectPublicKeyInfo Issuer].
  split_and!; try reflexivity; [exists p, now; split_and!|..]; eauto 25 with trace.
Qed.

Lemma ends_convertToBcryptKey g : ends (fun k t => key_of g k t) (convertToBcryptKey (S := S) (hKey g)).
Proof.
  unfold convertToBcryptKey. apply ends_there. intros room. apply ends_there. intros exported.
  apply (ends_bind (fun b t => overwrite (replicate (Z.to_nat room) x00) 0 exported = Ret b /\ t = [])); [by apply ends_lift|]. intros blob ? [Ho ->].
  apply ends_called. intros [st alg]. apply ends_skip. intros _ t1.
  apply (ends_bind (fun b t => rsa_private_blob blob = Ret b /\ t = [])); [by apply ends_lift|]. intros b ? [Hb ->].
  apply ends_called. intros [st2 key]. apply ends_skip. intros _ t2.
  eapply ends_bind; [apply ends_status|]. intros _ ? [-> ->]. apply ends_ret.
  exists room, exported, blob, b, alg. split_and!; eauto 12 with trace.
Qed.
Lemma ends_getCertBase64 c : ends (fun text t => exists der, text = Encoders.base64_encode der /\ Ev (inj (cert_encoded c)) der ∈ t)
  (getCertBase64 (S := S) c).
Proof. unfold getCertBase64. apply ends_called. intros der. apply ends_ret. exists der. eauto with trace. Qed.
(** [c] is the certificate in [text]. *)
Definition read_from (text : bytes) (c : ptr) (t : list (event F)) : Prop := exists d,
  Encoders.base64_decode (c_str text) = Ret d /\ Ev (inj (CertCreateCertificateContext d)) c ∈ t.
Lemma read_again g text c t t' t1 : (exists der, text = Encoders.base64_encode der /\ Ev (inj (cert_encoded (cert g))) der ∈ t1) ->
  read_from text c t -> within t1 t' -> within t t' -> reread g c t'.
Proof.
  intros (der & -> & He) (d & Hd & Hc) H1' Ht. exists der, d. split_and!; [auto| |auto]. intros Hs.
  rewrite c_str_plain in Hd by apply encoded_plain. destruct (encoders_round_trip der Hs) as [E _]. congruence.
Qed.
Import WinX509.
Section Loads.
Context {S' : Type} `{Handler F S'}.
Lemma ends_made_store text : ends (fun x t => exists c, rootCertContexts x = [c] /\ read_from text c t)
  (new_WincryptX509 (F := F) (S := S') [text]).
Proof.
  unfold new_WincryptX509. apply ends_skip. intros store t1. destruct (is_null store); [apply ends_error|].
  apply (ends_bind (fun rs t => exists c, rs = [c] /\ read_from text c t)).
  - cbn [load_roots]. eapply ends_bind; [apply ends_decode|]. intros d ? [Hd ->].
    eapply ends_bind; [apply ends_LoadCertificate|]. intros c t2 Hc. apply ends_skip. intros _ t3.
    apply (ends_bind (fun rs t => rs = [] /\ t = [])); [by apply ends_ret|]. intros rs ? [-> ->]. apply ends_ret.
    exists c. split; [done|]. exists d. eauto 8 with trace.
  - intros rs t2 (c & -> & d & Hd & Hc). apply ends_ret. exists c. split; [done|]. exists d. eauto 8 with trace.
Qed.
Lemma ends_loaded_intermediate x text : ends (fun _ t => exists c, read_from text c t /\
    Ev (inj (CertAddCertificateContextToStore (hStore x) c)) true ∈ t) (LoadIntermediateCertificate (F := F) (S := S') x text).
Proof.
  unfold LoadIntermediateCertificate. eapply ends_bind; [apply ends_decode|]. intros d ? [Hd ->].
  eapply ends_bind; [apply ends_LoadCertificate|]. intros c t2 Hc. unfold add_to_store. apply ends_called. intros added.
  destruct added; [|apply ends_error]. apply ends_ret. exists c. split; [exists d|]; eauto 8 with trace.
Qed.
Lemma ends_loaded_leaf x text : ends (fun x' t => hStore x' = hStore x /\ rootCertContexts x' = rootCertContexts x /\
    exists c chain, pLeafCertContext x' = Some c /\ chainContext x' = Chain chain /\ read_from text c t /\
      Ev (inj (CertGetCertificateChain c (hStore x) chain_flags)) (Some chain) ∈ t) (LoadLeafCertificate (F := F) (S := S') x text).
Proof.
  unfold LoadLeafCertificate. eapply ends_bind; [apply ends_decode|]. intros d ? [Hd ->].
  eapply ends_bind; [apply ends_LoadCertificate|]. intros c t2 Hc. apply ends_called. intros r.
  eapply ends_bind; [apply ends_answered|]. intros chain ? [-> ->]. apply ends_ret.
  split_and!; [done..|]. exists c, chain. split_and!; [done..|exists d|]; eauto 8 with trace.
Qed.
End Loads.

Lemma ends_make_chain : ends linked (make_chain (S := S)).
Proof.
  unfold make_chain.
  eapply ends_bind; [apply ends_createRootCACert|]. intros root t1 H1'.
  eapply ends_bind; [apply ends_createSignedCert|]. intros inter t2 H2'.
  eapply ends_bind; [apply ends_createSignedCert|]. intros leaf t3 H3'.
  eapply ends_bind; [apply ends_getCertBase64|]. intros rtext t4 H4'.
  eapply ends_bind; [apply ends_getCertBase64|]. intros itext t5 H5'.
  eapply ends_bind; [apply ends_getCertBase64|]. intros ltext t6 H6'.
  eapply ends_bind; [apply ends_convertToBcryptKey|]. intros key t7 H7'.
  eapply ends_bind; [apply ends_made_store|]. intros x t8 (rc & Hrc & H8'). apply ends_rethrow.
  eapply ends_bind; [apply ends_loaded_intermediate|]. intros _ t9 (ic & H9' & Hic).
  eapply ends_bind; [apply ends_loaded_leaf|]. intros x' t10 (Hs & Hr & lc & chain & Hl & Hc & H10' & Hch).
  apply ends_ret. exists root, inter, leaf, rc, ic, lc, chain.
  cbn [rootCertContexts hStore pLeafCertContext chainContext leafPrivateKey SetLeafKey]. rewrite Hr, Hs.
  split_and!; try assumption.
  - eapply self_signed_within; [|exact H1']. part.
  - eapply signed_by_within; [|exact H2']. part.
  - eapply signed_by_within; [|exact H3']. part.
  - eapply (read_again _ _ _ _ _ _ H4' H8'); part.
  - eapply (read_again _ _ _ _ _ _ H5' H9'); part.
  - eapply elem_within; [exact Hic|]. part.
  - eapply (read_again _ _ _ _ _ _ H6' H10'); part.
  - eapply elem_within; [exact Hch|]. part.
  - eapply key_of_within; [|exact H7']. part.
Qed.

(** C18: a chain that is returned on Windows is what its name says. The root signed itself, with a path length of 1, for 3650
    days; the intermediate certificate was signed with the root's key and has its name as the issuer, with a path length
    of 0, for 1825 days; the leaf was signed with the intermediate's key, is no authority, and has the name of the provisioning
    service, for 365 days; each holds the public key of a new key pair of its own. The object holds these
    three, read back from their texts, and signs with the private key of the leaf. *)
Theorem chain_linked s x : res (generateCertChain (S := S) s) = Ret x -> linked x (evs (generateCertChain (S := S) s)).
Proof.
  apply (ends_scoped linked); [apply linked_grows|apply ends_make_chain].
Qed.
End Chain.

(** ** Witnesses *)

(** A key of 32 bits and what follows its primes. *)
Definition demo_key : rsa_key := {| bits := 32; exponent := 65537; modulus := 0xC0FFEE01; prime1 := 0xBEEF; prime2 := 0xCAFE |}.
Definition demo_blob : bytes :=
  replicate 8 x07 ++ u32_bytes 0x32415352 ++ u32_bytes 32 ++ u32_bytes 65537 ++ [x01; xee; xff; xc0] ++ [xef; xbe] ++ [xfe; xca] ++ [x99].
Lemma key_converted_witness : capi_blob demo_key demo_blob /\ exists b, rsa_private_blob demo_blob = Ret b /\ cng_blob demo_key b.
Proof.
  assert (Hk : capi_blob demo_key demo_blob).
  { exists (replicate 8 x07), [x01; xee; xff; xc0], [xef; xbe], [xfe; xca], [x99]. repeat split; vm_compute; congruence. }
  split; [exact Hk|]. exact (key_converted demo_key demo_blob Hk).
Defined.

(** A system that names a context by the length of the container, a key by the context and 100, and a certificate by its encoding. *)
Definition demo_gen (R : Type) (e : GenCall R) : R :=
  match e in GenCall T return T with
  | CryptAcquireContext_delete _ => (false, null)
  | CryptAcquireContext_new c => (true, N.of_nat (length c))
  | CryptReleaseContext _ | CryptDestroyKey _ | CertFreeCertificateContext _ | LocalFree _ => tt
  | CryptGenKey_signature p _ => (true, (p + 100)%N)
  | GetSystemTime => 13000000000000
  | CertStrToName n _ => Some n
  | CryptEncode_BasicConstraints2 ca _ => Some (1%N, if ca then [x01] else [x00])
  | CertCreateSelfSignCertificate p _ _ _ _ => 77%N
  | CryptExportPublicKeyInfo_size _ => Some 8
  | CryptExportPublicKeyInfo p _ => Some (u32_bytes (Z.of_N p))
  | cert_Subject c => u32_bytes (Z.of_N c)
  | CryptSignAndEncodeCertificate_size _ info => Some 100
  | CryptSignAndEncodeCertificate p info _ => Some (SubjectPublicKeyInfo info)
  | cert_encoded c => u32_bytes (Z.of_N c)
  | CryptExportKey_private_size _ => Some (size demo_blob)
  | CryptExportKey_private _ _ => Some demo_blob
  | BCryptImportKeyPair_rsa _ b => (0, 55%N)
  | CertCloseStore _ => tt
  | CertGetCertificateContextProperty_sha256 _ | CertGetNameString _ _ => None
  | cert_Validity _ => (0, 0)
  | calendar _ => (1601, 1, 1, 0, 0, 0)
  end.
Definition DemoCall : Type -> Type := sumE BcryptCall (sumE CryptCall GenCall).
#[local] Instance demo_windows : Handler DemoCall unit := fun R e s =>
  match e with
  | InL b => (fst (toy_bcrypt R b None), s)
  | InR (InL c) => toy_crypt R c s
  | InR (InR g) => (demo_gen R g, s)
  end.
Definition demo_chain : WinX509.WincryptX509 :=
  {| WinX509.leafPrivateKey := 55%N; WinX509.hStore := 4%N; WinX509.rootCertContexts := [5%N];
     WinX509.pLeafCertContext := Some 5%N; WinX509.chainContext := WinX509.Chain toy_chain |}.
Lemma chain_linked_witness :
  res (generateCertChain (F := DemoCall) (tt, 2)) = Ret demo_chain /\
  linked demo_chain (evs (generateCertChain (F := DemoCall) (tt, 2))).
Proof.
  assert (Hr : res (generateCertChain (F := DemoCall) (tt, 2)) = Ret demo_chain) by vm_eq.
  split; [exact Hr|exact (chain_linked (F := DemoCall) (tt, 2) demo_chain Hr)].
Defined.
