(* ===== verification/GuestTpmFacts.v ===== *)
(** * What the LinuxTpm library guarantees

    NV storage against a law-abiding TPM ([NvLaws], [sim]), PCR selections and PCR
    reads ([PcrLaws]). *)

From stdpp Require Import gmap sorting.
From S2P Require Import Prelude Ossl Esys GuestTpm.
Import TpmUtil TpmSession GuestTpm.
#[local] Open Scope Z_scope.

(** ** NV storage

    What the TPM promises of NV indices: [nv] are the defined indices with their
    contents, [tr] the open handles. Only what a call of at most 512 bytes inside
    the index does is promised. *)
Class NvLaws (F : Type -> Type) (S : Type) `{Handler F S} `{EsysCall -< F} := {
  nv : S -> gmap TPM2_HANDLE bytes;
  tr : S -> gmap ESYS_TR TPM2_HANDLE;
  nv_max : Z;
  nv_max_u16 : nv_max < 2 ^ 16;
  nv_open s i d : nv s !! i = Some d ->
    exists h s', handle (inj (Esys_TR_FromTPMPublic i)) s = ((TSS2_RC_SUCCESS, h), s') /\
      nv s' = nv s /\ tr s' = <[h := i]> (tr s);
  nv_close s h : exists r s', handle (inj (Esys_TR_Close h)) s = (r, s') /\ nv s' = nv s;
  nv_size s h i d : tr s !! h = Some i -> nv s !! i = Some d ->
    exists s', handle (inj (Esys_NV_ReadPublic h)) s = ((TSS2_RC_SUCCESS, size d), s') /\
      nv s' = nv s /\ tr s' = tr s;
  nv_get s h i d n o : tr s !! h = Some i -> nv s !! i = Some d ->
    0 <= n <= MAX_NV_BUFFER_SIZE -> 0 <= o -> o + n <= size d ->
    exists s', handle (inj (Esys_NV_Read h n o)) s =
        ((TSS2_RC_SUCCESS, take (Z.to_nat n) (drop (Z.to_nat o) d)), s') /\
      nv s' = nv s /\ tr s' = tr s;
  nv_put s h i d x o : tr s !! h = Some i -> nv s !! i = Some d ->
    size x <= MAX_NV_BUFFER_SIZE -> 0 <= o -> o + size x <= size d ->
    exists s', handle (inj (Esys_NV_Write h x o)) s = (TSS2_RC_SUCCESS, s') /\
      nv s' = <[i := take (Z.to_nat o) d ++ x ++ drop (Z.to_nat o + length x) d]> (nv s) /\
      tr s' = tr s;
  nv_undefine s h i : tr s !! h = Some i -> is_Some (nv s !! i) ->
    exists s', handle (inj (Esys_NV_UndefineSpace h)) s = (TSS2_RC_SUCCESS, s') /\
      nv s' = delete i (nv s);
  nv_define s i a n : nv s !! i = None -> 0 <= n <= nv_max ->
    exists r d s', handle (inj (Esys_NV_DefineSpace i a n)) s = ((TSS2_RC_SUCCESS, r), s') /\
      size d = n /\ nv s' = <[i := d]> (nv s) }.

Section Nv.
Context {F : Type -> Type} {S : Type} `{Handler F S} `{EsysCall -< F} `{!NvLaws F S} `{Fuel}.

Lemma wp_trig_det {R} (e : EsysCall R) s r s' (Q : post_cond F S R) :
  handle (inj e) s = (r, s') -> Q (Ret r) s' [Ev (inj e) r] -> wp (trig e) s Q.
Proof. intros He HQ. apply wp_trig. rewrite He. by intros ?? [= <- <-]. Qed.

Lemma wp_close h s (Q : post_cond F S unit) :
  (forall s' t, nv s' = nv s -> Q (Ret tt) s' t) -> wp (close_handle h) s Q.
Proof.
  intros HQ. unfold close_handle. destruct (h =? 0); [by apply wp_ret, HQ|].
  apply wp_bind. destruct (nv_close s h) as (r & s' & Hh & Hnv).
  eapply wp_trig_det; [done|]. simpl. by apply wp_ret, HQ.
Qed.

(** A client of an index that exists. *)
Lemma wp_HandleToEsys {A} i d (k : ESYS_TR -> M F S A) s (Q : post_cond F S A) a m :
  nv s !! i = Some d ->
  (forall h s', nv s' = nv s -> tr s' !! h = Some i ->
     wp (k h) s' (fun o s'' _ => o = Ret a /\ nv s'' = m)) ->
  (forall s' t, nv s' = m -> Q (Ret a) s' t) ->
  wp (HandleToEsys i k) s Q.
Proof.
  intros Hi Hk HQ. unfold HandleToEsys. apply wp_bind.
  destruct (nv_open s i d Hi) as (h & s' & Hh & Hnv & Htr).
  eapply wp_trig_det; [done|]. simpl. apply wp_finally.
  unfold check, require, TSS2_RC_SUCCESS. simpl. apply wp_bind, wp_ret.
  eapply wp_mono; [apply (Hk h s' Hnv); rewrite Htr; apply lookup_insert_eq|].
  simpl. intros o s'' t (-> & Hm). apply wp_close. intros s3 t3 H3. apply HQ. congruence.
Qed.

(** [n] rounds read up to [512 * n] bytes. *)
Lemma wp_nv_read_loop n h i d : forall s acc o,
  nv s !! i = Some d -> tr s !! h = Some i -> size d <= nv_max -> (o <= length d)%nat ->
  size d - Z.of_nat o <= 512 * Z.of_nat n ->
  wp (nv_read_loop n h acc (size d - Z.of_nat o) (Z.of_nat o)) s
     (fun r s' _ => r = Ret (acc ++ drop o d) /\ nv s' = nv s).
Proof.
  assert (Hmax := nv_max_u16). unfold size.
  induction n as [|n IH]; intros s acc o Hi Hh Hd Ho Hn; simpl;
    destruct (_ <=? 0) eqn:E; try lia.
  1,2: apply wp_ret; split; [|done]; by rewrite drop_ge, app_nil_r by lia.
  set (c := if MAX_NV_BUFFER_SIZE <? _ then _ else _).
  assert (Hc : 0 < c <= 512 /\ c <= Z.of_nat (length d) - Z.of_nat o /\
               (c < Z.of_nat (length d) - Z.of_nat o -> c = 512)).
  { unfold c, MAX_NV_BUFFER_SIZE. case_match; lia. }
  rewrite !u16_small by lia. apply wp_bind.
  destruct (nv_get s h i d c (Z.of_nat o)) as (s' & Hg & Hnv & Htr);
    [done|done|unfold MAX_NV_BUFFER_SIZE; lia|lia|unfold size; lia|].
  eapply wp_trig_det; [done|]. simpl. apply wp_bind, wp_ret.
  rewrite Nat2Z.id.
  assert (Hl : size (take (Z.to_nat c) (drop o d)) = c).
  { unfold size. rewrite length_take, length_drop. lia. }
  rewrite Hl.
  replace (Z.of_nat (length d) - Z.of_nat o - c)
    with (Z.of_nat (length d) - Z.of_nat (o + Z.to_nat c)) by lia.
  replace (Z.of_nat o + c) with (Z.of_nat (o + Z.to_nat c)) by lia.
  eapply wp_mono; [apply IH; try congruence; lia|].
  simpl. intros r s2 t [-> Hs2]. split; [|congruence].
  by rewrite <- app_assoc, <- drop_drop, take_drop.
Qed.

Lemma wp_NvRead s i d (Q : post_cond F S bytes) :
  nv s !! i = Some d -> size d <= nv_max -> size d <= 512 * Z.of_nat fuel ->
  (forall s' t, nv s' = nv s -> Q (Ret d) s' t) -> wp (NvRead i) s Q.
Proof.
  intros Hi Hd Hf HQ. unfold NvRead.
  eapply (wp_HandleToEsys i d); [done| |exact HQ]. intros h s' Hnv Hh. apply wp_bind.
  rewrite <- Hnv in Hi. destruct (nv_size s' h i d Hh Hi) as (s2 & Hz & Hnv2 & Htr).
  eapply wp_trig_det; [done|]. simpl. apply wp_bind, wp_ret, wp_bind.
  rewrite <- (Z.sub_0_r (size d)) at 1.
  eapply wp_mono; [apply (wp_nv_read_loop fuel h i d s2 [] 0%nat); try congruence; lia|].
  simpl. intros o s3 t [-> Hs3]. rewrite drop_0.
  apply wp_lift. split; [|congruence].
  rewrite <- (app_nil_r d) at 1. apply resize_shrink. rewrite app_nil_r.
  assert (Hmax := nv_max_u16). unfold size, vector_max_size in *. lia.
Qed.

Lemma wp_nv_write_loop n h i c : forall s o d,
  nv s !! i = Some d -> tr s !! h = Some i -> length d = length c -> size c <= nv_max ->
  (o <= length c)%nat -> take o d = take o c ->
  (length c - o <= n)%nat ->
  wp (nv_write_loop n h c (size c - Z.of_nat o) (Z.of_nat o)) s
     (fun r s' _ => r = Ret tt /\ nv s' = <[i := c]> (nv s)).
Proof.
  assert (Hmax := nv_max_u16). unfold size.
  induction n as [|n IH]; intros s o d Hi Hh Hd Hc Ho Hpre Hn; simpl;
    destruct (_ <=? 0) eqn:E; try lia.
  1,2: apply wp_ret; split; [done|]; rewrite !take_ge in Hpre by lia; subst d;
       by rewrite insert_id.
  set (b := if MAX_NV_BUFFER_SIZE <? _ then _ else _).
  assert (Hb : 0 < b <= 512 /\ b <= Z.of_nat (length c) - Z.of_nat o).
  { unfold b, MAX_NV_BUFFER_SIZE. case_match; lia. }
  rewrite u16_small by lia. rewrite Nat2Z.id. set (x := take (Z.to_nat b) (drop o c)).
  assert (Hx : length x = Z.to_nat b).
  { unfold x. rewrite length_take, length_drop. lia. }
  apply wp_bind. destruct (nv_put s h i d x (Z.of_nat o)) as (s' & Hp & Hnv & Htr);
    [done|done|unfold size, MAX_NV_BUFFER_SIZE; lia|lia|unfold size; lia|].
  eapply wp_trig_det; [done|]. simpl. apply wp_bind, wp_ret.
  rewrite Nat2Z.id, Hpre, Hx in Hnv.
  replace (Z.of_nat (length c) - Z.of_nat o - b)
    with (Z.of_nat (length c) - Z.of_nat (o + Z.to_nat b)) by lia.
  replace (Z.of_nat o + b) with (Z.of_nat (o + Z.to_nat b)) by lia.
  eapply wp_mono; [eapply IH; [rewrite Hnv; apply lookup_insert_eq|congruence|..]; try lia|].
  - rewrite !length_app, length_take, length_drop. lia.
  - rewrite app_assoc, take_app_length'; [|rewrite length_app, length_take; lia].
    unfold x. by rewrite take_take_drop.
  - simpl. intros r s2 t [-> Hs2]. split; [done|]. rewrite Hs2, Hnv. apply insert_insert_eq.
Qed.

Lemma wp_NvWrite s i d c (Q : post_cond F S unit) :
  nv s !! i = Some d -> length d = length c -> size c <= nv_max ->
  (forall s' t, nv s' = <[i := c]> (nv s) -> Q (Ret tt) s' t) -> wp (NvWrite i c) s Q.
Proof.
  intros Hi Hd Hc HQ. unfold NvWrite.
  eapply (wp_HandleToEsys i d); [done| |exact HQ]. intros h s' Hnv Hh.
  assert (Hs : s32 (size c) = size c - Z.of_nat 0).
  { assert (Hmax := nv_max_u16). unfold size in *. rewrite s32_small; lia. }
  rewrite Hs. eapply wp_mono; [eapply (wp_nv_write_loop _ h i c s' 0%nat d); try congruence; try lia|].
  1: by rewrite !take_0.
  simpl. intros o s2 t [-> Hs2]. split; [done|]. congruence.
Qed.

Lemma wp_NvUndefine s i d (Q : post_cond F S unit) :
  nv s !! i = Some d -> (forall s' t, nv s' = delete i (nv s) -> Q (Ret tt) s' t) ->
  wp (NvUndefineSpace i) s Q.
Proof.
  intros Hi HQ. unfold NvUndefineSpace.
  eapply (wp_HandleToEsys i d); [done| |exact HQ]. intros h s' Hnv Hh. apply wp_bind.
  destruct (nv_undefine s' h i Hh) as (s2 & Hu & Hs2); [rewrite Hnv, Hi; eauto|].
  eapply wp_trig_det; [done|]. simpl. apply wp_ret. split; [done|]. congruence.
Qed.

Lemma wp_NvDefine s i n (Q : post_cond F S unit) :
  nv s !! i = None -> 0 <= n <= nv_max ->
  (forall s' t d, size d = n -> nv s' = <[i := d]> (nv s) -> Q (Ret tt) s' t) ->
  wp (NvDefineSpace i n) s Q.
Proof.
  intros Hi Hn HQ. unfold NvDefineSpace. apply wp_bind.
  assert (Hmax := nv_max_u16). rewrite u16_small by lia.
  destruct (nv_define s i nv_attributes n Hi Hn) as (r & d & s' & Hh & Hd & Hnv).
  eapply wp_trig_det; [done|]. simpl. apply wp_ret. by eapply HQ.
Qed.

(** The bound is the size of an index, at most 65535 bytes. *)
Lemma write_then_read s old c :
  nv s !! AIK_CERT_INDEX = Some old -> size c <= nv_max -> size c <= 512 * Z.of_nat fuel ->
  wp (WriteAikCert c) s (fun o s1 _ =>
    o = Ret tt /\ nv s1 = <[AIK_CERT_INDEX := c]> (nv s) /\
    wp GetAIKCert s1 (fun o s2 _ => o = Ret c /\ nv s2 = nv s1)).
Proof.
  intros Hi Hc Hf. unfold WriteAikCert. apply wp_bind.
  eapply wp_NvUndefine; [done|]. intros s1 t1 E1. apply wp_bind.
  assert (Hs : s32 (size c) = size c).
  { assert (Hmax := nv_max_u16). unfold size in *. rewrite s32_small; lia. }
  rewrite Hs. eapply wp_NvDefine; [rewrite E1; apply lookup_delete_eq|unfold size in *; lia|].
  intros s2 t2 d Hd E2. eapply wp_NvWrite; [rewrite E2; apply lookup_insert_eq| |done|].
  { unfold size in *. lia. }
  intros s3 t3 E3. assert (E4 : nv s3 = <[AIK_CERT_INDEX := c]> (nv s)).
  { rewrite E3, E2, insert_insert_eq, E1. apply insert_delete_eq. }
  split_and!; [done|done|]. unfold GetAIKCert.
  eapply wp_NvRead; [rewrite E4; apply lookup_insert_eq|done|done|]. auto.
Qed.

End Nv.

(** A TPM with NV storage of up to 2048 bytes an index that obeys the laws; the
    other calls are answered as [esys_accept] does. *)
Record sim := Sim { sim_nv : gmap TPM2_HANDLE bytes; sim_tr : gmap ESYS_TR TPM2_HANDLE;
                    sim_next : Z }.
Definition sim_find (s : sim) (h : ESYS_TR) : option (TPM2_HANDLE * bytes) :=
  i ← sim_tr s !! h; d ← sim_nv s !! i; Some (i, d).
Definition sim_set (s : sim) (m : gmap TPM2_HANDLE bytes) : sim := Sim m (sim_tr s) (sim_next s).
#[export] Instance sim_handler : Handler EsysCall sim := fun R e s =>
  match e in EsysCall T return T * sim with
  | Esys_TR_FromTPMPublic i =>
      match sim_nv s !! i with
      | Some _ => ((0, sim_next s), Sim (sim_nv s) (<[sim_next s := i]> (sim_tr s)) (sim_next s + 1))
      | None => ((0x18b, 0), s)
      end
  | Esys_TR_Close h => (0, Sim (sim_nv s) (delete h (sim_tr s)) (sim_next s))
  | Esys_NV_ReadPublic h =>
      match sim_find s h with Some (_, d) => ((0, size d), s) | None => ((0x184, 0), s) end
  | Esys_NV_Read h n o =>
      match sim_find s h with
      | Some (_, d) =>
          if (n <=? 512) && (o + n <=? size d)
          then ((0, take (Z.to_nat n) (drop (Z.to_nat o) d)), s) else ((0x146, []), s)
      | None => ((0x184, []), s)
      end
  | Esys_NV_Write h x o =>
      match sim_find s h with
      | Some (i, d) =>
          if (size x <=? 512) && (o + size x <=? size d)
          then (0, sim_set s (<[i := take (Z.to_nat o) d ++ x
                               ++ drop (Z.to_nat o + length x) d]> (sim_nv s)))
          else (0x146, s)
      | None => (0x184, s)
      end
  | Esys_NV_UndefineSpace h =>
      match sim_find s h with
      | Some (i, _) => (0, sim_set s (delete i (sim_nv s)))
      | None => (0x184, s)
      end
  | Esys_NV_DefineSpace i _ n =>
      match sim_nv s !! i with
      | Some _ => ((0x14c, 0), s)
      | None => if n <=? 2048 then ((0, 0), sim_set s (<[i := replicate (Z.to_nat n) xff]> (sim_nv s)))
                else ((0x1d5, 0), s)
      end
  | e => (esys_accept [] _ e, s)
  end.

Lemma sim_find_Some s h i d :
  sim_tr s !! h = Some i -> sim_nv s !! i = Some d -> sim_find s h = Some (i, d).
Proof. intros Hh Hi. unfold sim_find. by rewrite Hh; simpl; rewrite Hi. Qed.

#[export] Program Instance sim_laws : NvLaws EsysCall sim :=
  {| nv := sim_nv; tr := sim_tr; nv_max := 2048 |}.
Next Obligation. done. Qed.
Next Obligation.
  intros s i d Hi. exists (sim_next s). eexists. unfold inj, sub_refl, handle, sim_handler.
  by rewrite Hi.
Qed.
Next Obligation. intros s h. do 2 eexists. done. Qed.
Next Obligation.
  intros s h i d Hh Hi. eexists. unfold inj, sub_refl, handle, sim_handler.
  by rewrite (sim_find_Some _ _ _ _ Hh Hi).
Qed.
Next Obligation.
  intros s h i d n o Hh Hi Hn Ho Hl. eexists. unfold inj, sub_refl, handle, sim_handler.
  rewrite (sim_find_Some _ _ _ _ Hh Hi). unfold MAX_NV_BUFFER_SIZE in *.
  rewrite (proj2 (Z.leb_le n 512)), (proj2 (Z.leb_le _ _)) by lia. done.
Qed.
Next Obligation.
  intros s h i d x o Hh Hi Hn Ho Hl. eexists. unfold inj, sub_refl, handle, sim_handler.
  rewrite (sim_find_Some _ _ _ _ Hh Hi). unfold MAX_NV_BUFFER_SIZE in *.
  rewrite !(proj2 (Z.leb_le _ _)) by lia. done.
Qed.
Next Obligation.
  intros s h i Hh [d Hi]. eexists. unfold inj, sub_refl, handle, sim_handler.
  by rewrite (sim_find_Some _ _ _ _ Hh Hi).
Qed.
Next Obligation.
  intros s i a n Hi Hn. exists 0, (replicate (Z.to_nat n) xff). eexists.
  unfold inj, sub_refl, handle, sim_handler. rewrite Hi, (proj2 (Z.leb_le n 2048)) by lia.
  unfold size. rewrite length_replicate. split_and!; [done|lia|done].
Qed.

(** ** PCR selections *)

Definition octet_bit (octets : list Z) (i : Z) : bool :=
  Z.testbit (nth (Z.to_nat (i / 8)) octets 0) (i mod 8).
(** The PCRs a selection names, in ascending order. *)
Definition selected (octets : list Z) : list Z := filter (fun i => octet_bit octets i = true) (seqZ 0 24).
Definition wf_octets (octets : list Z) : Prop :=
  exists a b c, octets = [a; b; c; 0] /\ 0 <= a < 256 /\ 0 <= b < 256 /\ 0 <= c < 256.

Lemma pcr_mask_spec count l : forall m,
  Forall (fun p => 0 <= index p < count) l -> count <= 32 -> 0 <= m < 2 ^ 32 ->
  exists m', pcr_mask count m l = Ret m' /\ 0 <= m' < 2 ^ 32 /\
    forall i, 0 <= i -> Z.testbit m' i = Z.testbit m i || existsb (fun p => index p =? i) l.
Proof.
  induction l as [|p l IH]; intros m Hl Hc Hm; simpl.
  - exists m. split_and!; [done|lia|lia|]. intros. by rewrite orb_false_r.
  - apply Forall_cons in Hl as [Hp Hl].
    rewrite (proj2 (Z.ltb_ge _ 0)), (proj2 (Z.leb_gt count _)), (proj2 (Z.leb_gt 32 _)) by lia.
    simpl. assert (Hs : u32 (Z.shiftl 1 (index p)) = 2 ^ index p).
    { rewrite Z.shiftl_1_l. apply Z.mod_small. split; [lia|]. apply Z.pow_lt_mono_r; lia. }
    rewrite Hs. destruct (IH (Z.lor m (2 ^ index p)) Hl Hc) as (m' & -> & Hr & Hb).
    { assert (0 <= Z.lor m (2 ^ index p)) by (apply Z.lor_nonneg; lia).
      split; [done|]. destruct (decide (Z.lor m (2 ^ index p) = 0)) as [->|]; [lia|].
      apply Z.log2_lt_pow2; [lia|]. rewrite Z.log2_lor by lia. apply Z.max_lub_lt.
      - destruct (decide (m = 0)) as [->|]; [done|]. apply Z.log2_lt_pow2; lia.
      - rewrite Z.log2_pow2; lia. }
    exists m'. split_and!; [done|lia|lia|]. intros i Hi.
    rewrite Hb, Z.lor_spec, Z.pow2_bits_eqb by lia. by rewrite orb_assoc.
Qed.

Lemma octet_bits m k : 0 <= m < 2 ^ 32 -> 0 <= k ->
  forall j, 0 <= j < 8 ->
    Z.testbit (Z.shiftr (Z.land m (Z.shiftl 0xff k)) k) j = Z.testbit m (k + j).
Proof.
  intros Hm Hk j Hj. rewrite Z.shiftr_spec, Z.land_spec, Z.shiftl_spec by lia.
  replace (j + k - k) with j by lia. change 0xff with (Z.ones 8).
  rewrite Z.ones_spec_low by lia. rewrite andb_true_r. f_equal. lia.
Qed.

Lemma octet_range m k : 0 <= k -> 0 <= Z.shiftr (Z.land m (Z.shiftl 0xff k)) k < 256.
Proof.
  intros Hk. change 0xff with (Z.ones 8).
  assert (E : Z.shiftr (Z.land m (Z.shiftl (Z.ones 8) k)) k = Z.land (Z.shiftr m k) (Z.ones 8)).
  { rewrite Z.shiftr_land, Z.shiftr_shiftl_l, Z.sub_diag, Z.shiftl_0_r by lia. done. }
  rewrite E, Z.land_ones by lia. change 256 with (2 ^ 8). apply Z.mod_pos_bound. lia.
Qed.

(** The octets of the selection carry the bits of the mask. *)
Lemma mask_octets_bit m i : 0 <= m < 2 ^ 32 -> 0 <= i < 32 ->
  octet_bit (mask_octets m) i = Z.testbit m i.
Proof.
  intros Hm Hi. unfold octet_bit, mask_octets.
  assert (Hd : i = 8 * (i / 8) + i mod 8) by (apply Z.div_mod; lia).
  assert (Hmod : 0 <= i mod 8 < 8) by (apply Z.mod_pos_bound; lia).
  assert (Hq : i / 8 = 0 \/ i / 8 = 1 \/ i / 8 = 2 \/ i / 8 = 3) by lia.
  rewrite Hd at 3. generalize dependent (i mod 8). intros j Hd Hj.
  destruct Hq as [-> | [-> | [-> | ->]]]; cbn [nth Z.to_nat Pos.to_nat Pos.iter_op Nat.add].
  - rewrite <- (octet_bits m 0) by lia. by rewrite Z.shiftr_0_r.
  - rewrite <- (octet_bits m 8) by lia. done.
  - rewrite <- (octet_bits m 16) by lia. done.
  - rewrite <- (octet_bits m 24) by lia. done.
Qed.

Lemma mask_octets_wf m : 0 <= m < 2 ^ 32 -> (forall i, 24 <= i < 32 -> Z.testbit m i = false) ->
  wf_octets (mask_octets m).
Proof.
  intros Hm Hhi. unfold wf_octets, mask_octets.
  assert (H3 : Z.shiftr (Z.land m 0xff000000) 24 = 0).
  { assert (Hr := octet_range m 24). apply Z.bits_inj_0. intros j.
    destruct (decide (0 <= j)); [|apply Z.testbit_neg_r; lia].
    destruct (decide (j < 8)).
    - change 0xff000000 with (Z.shiftl 0xff 24). rewrite octet_bits by lia. apply Hhi. lia.
    - apply (Z.bits_above_log2 _ j).
      + change 0xff000000 with (Z.shiftl 0xff 24). lia.
      + change 0xff000000 with (Z.shiftl 0xff 24).
        destruct (decide (Z.shiftr (Z.land m (Z.shiftl 255 24)) 24 = 0)) as [->|]; [simpl; lia|].
        apply Z.le_lt_trans with 7; [|lia]. apply Z.lt_succ_r, Z.log2_lt_pow2; lia. }
  rewrite H3. do 3 eexists. split; [reflexivity|].
  assert (R0 := octet_range m 0). rewrite Z.shiftr_0_r in R0. simpl in R0.
  split_and!; try (apply R0; lia); try (apply (octet_range m 8); lia); apply (octet_range m 16); lia.
Qed.

Lemma filter_ext_elem {A} (P Q : A -> Prop) `{forall x, Decision (P x)} `{forall x, Decision (Q x)} (l : list A) :
  (forall x, x ∈ l -> (P x <-> Q x)) -> filter P l = filter Q l.
Proof.
  induction l as [|x l IH]; intros HPQ; [done|]. rewrite !filter_cons, IH by (intros; apply HPQ; by constructor).
  assert (P x <-> Q x) by (apply HPQ; by constructor). do 2 case_decide; tauto.
Qed.
Lemma filter_none {A} (l : list A) : filter (fun _ => False) l = [].
Proof. by induction l. Qed.
Lemma filter_all {A} (l : list A) : filter (fun _ => True) l = l.
Proof. induction l; [done|]. rewrite filter_cons_True by done. by f_equal. Qed.
Lemma elem_of_selected o i : i ∈ selected o <-> octet_bit o i = true /\ 0 <= i < 24.
Proof. unfold selected. by rewrite list_elem_of_filter, elem_of_seqZ, Z.add_0_l. Qed.
Lemma selected_NoDup o : NoDup (selected o).
Proof. apply NoDup_filter, NoDup_seqZ. Qed.

Lemma byte_bits_0 v : 0 <= v < 256 -> (forall i, 0 <= i < 8 -> Z.testbit v i = false) -> v = 0.
Proof.
  intros Hr Hv. apply Z.bits_inj_0. intros j.
  destruct (decide (0 <= j)); [|apply Z.testbit_neg_r; lia].
  destruct (decide (j < 8)); [by apply Hv; lia|].
  destruct (decide (v = 0)) as [->|]; [apply Z.bits_0|].
  apply Z.bits_above_log2; [lia|]. apply Z.le_lt_trans with 7; [|lia].
  apply Z.lt_succ_r, Z.log2_lt_pow2; lia.
Qed.

Lemma selected_nil x y z : 0 <= x < 256 -> 0 <= y < 256 -> 0 <= z < 256 ->
  (selected [x; y; z; 0] = [] <-> x + y + z = 0).
Proof.
  intros Hx Hy Hz. split; [|intros; by replace x with 0 by lia; replace y with 0 by lia;
                             replace z with 0 by lia].
  intros Hn. assert (Hb : forall i, 0 <= i < 24 -> octet_bit [x; y; z; 0] i = false).
  { intros i Hi. destruct (octet_bit _ i) eqn:E; [|done].
    assert (Hin : i ∈ selected [x; y; z; 0]) by by apply elem_of_selected.
    rewrite Hn in Hin. by apply not_elem_of_nil in Hin. }
  assert (B : forall n i, 0 <= i < 8 -> (8 * n + i) / 8 = n /\ (8 * n + i) mod 8 = i).
  { intros n i Hi. split; [symmetry; apply (Z.div_unique _ _ _ i); lia
                          |symmetry; apply (Z.mod_unique _ _ n); lia]. }
  rewrite (byte_bits_0 x), (byte_bits_0 y), (byte_bits_0 z); try done; intros i Hi.
  1: specialize (Hb (8 * 2 + i)). 2: specialize (Hb (8 * 1 + i)). 3: specialize (Hb (8 * 0 + i)).
  all: unfold octet_bit in Hb; rewrite (proj1 (B _ i Hi)), (proj2 (B _ i Hi)) in Hb; apply Hb; lia.
Qed.

(** Clearing what was read leaves the others. *)
Lemma clear_octets_spec a b :
  wf_octets a -> wf_octets b ->
  exists c sum, clear_octets a b 3 = Ret (c, sum) /\ wf_octets c /\
    selected c = filter (fun i => i ∉ selected b) (selected a) /\ (sum = 0 <-> selected c = []).
Proof.
  intros (a0 & a1 & a2 & -> & A0 & A1 & A2) (b0 & b1 & b2 & -> & B0 & B1 & B2).
  assert (R : forall x y, 0 <= x < 256 -> 0 <= y -> 0 <= Z.ldiff x y < 256).
  { intros x y Hx Hy. assert (E : Z.ldiff x y = Z.ldiff x y mod 2 ^ 8).
    { rewrite <- (Z.mod_small x (2 ^ 8)) at 1 by lia. rewrite <- !Z.land_ones by lia.
      by rewrite !Z.ldiff_land, <- !Z.land_assoc, (Z.land_comm (Z.ones 8)). }
    rewrite E. apply Z.mod_pos_bound. lia. }
  exists [Z.ldiff a0 b0; Z.ldiff a1 b1; Z.ldiff a2 b2; 0]. eexists.
  assert (W : wf_octets [Z.ldiff a0 b0; Z.ldiff a1 b1; Z.ldiff a2 b2; 0]).
  { do 3 eexists. split; [done|]. split_and!; apply R; lia. }
  assert (Hbit : forall i, 0 <= i < 24 ->
    octet_bit [Z.ldiff a0 b0; Z.ldiff a1 b1; Z.ldiff a2 b2; 0] i =
    octet_bit [a0; a1; a2; 0] i && negb (octet_bit [b0; b1; b2; 0] i)).
  { intros i Hi. unfold octet_bit.
    assert (Hmod : 0 <= i mod 8 < 8) by (apply Z.mod_pos_bound; lia).
    assert (Hd : i = 8 * (i / 8) + i mod 8) by (apply Z.div_mod; lia).
    assert (Hq : i / 8 = 0 \/ i / 8 = 1 \/ i / 8 = 2) by lia. clear Hd.
    destruct Hq as [-> | [-> | ->]]; simpl; apply Z.ldiff_spec; lia. }
  split_and!; [reflexivity|done| |].
  - change (selected [a0; a1; a2; 0]) with
      (filter (fun i => octet_bit [a0; a1; a2; 0] i = true) (seqZ 0 24)).
    rewrite list_filter_filter. apply filter_ext_elem.
    intros i Hi%elem_of_seqZ. rewrite elem_of_selected, Hbit by lia.
    destruct (octet_bit _ i), (octet_bit _ i); simpl; split; intuition congruence.
  - rewrite selected_nil by (apply R; lia). simpl. lia.
Qed.

(** ** Reading PCRs

    A TPM with 24 PCRs answers a read with the values of the first few selected
    PCRs, in ascending order, and says which they were. *)
Class PcrLaws (F : Type -> Type) (S : Type) `{Handler F S} `{EsysCall -< F} := {
  bank : S -> Z -> Z -> bytes;
  pcr_count s : exists s', handle (inj (Esys_GetCapability TPM2_PT_PCR_COUNT)) s =
      ((TSS2_RC_SUCCESS, [(TPM2_PT_PCR_COUNT, 24)]), s') /\ bank s' = bank s;
  pcr_read s sel : wf_octets (pcrSelect sel) -> sizeofSelect sel = 3 ->
    exists k sel' s', (1 <= k)%nat /\
      handle (inj (Esys_PCR_Read sel)) s =
        ((TSS2_RC_SUCCESS, Some (sel', map (bank s (sel_hash sel))
                                           (take k (selected (pcrSelect sel))))), s') /\
      wf_octets (pcrSelect sel') /\ sizeofSelect sel' = 3 /\
      selected (pcrSelect sel') = take k (selected (pcrSelect sel)) /\ bank s' = bank s }.

Lemma append_digests_spec ds : forall l first, (first + length ds <= length l)%nat ->
  exists l', append_digests l first ds = Ret l' /\
    forall n, l' !! n = (fun p => match (if decide (first <= n)%nat then ds !! (n - first)%nat else None) with
                                  | Some d => {| index := index p; digest := digest p ++ d |}
                                  | None => p
                                  end) <$> l !! n.
Proof.
  induction ds as [|d ds IH]; intros l first Hl; simpl in *.
  - exists l. split; [done|]. intros n. destruct (decide _); simpl; by rewrite option_fmap_id.
  - destruct (lookup_lt_is_Some_2 l first) as [p Hp]; [lia|]. rewrite Hp.
    destruct (IH (<[first := {| index := index p; digest := digest p ++ d |}]> l) (Datatypes.S first))
      as (l' & -> & Hl'); [rewrite length_insert; lia|].
    exists l'. split; [done|]. intros n. rewrite Hl'. destruct (decide (n = first)) as [->|].
    + rewrite list_lookup_insert_eq by lia. rewrite decide_False, decide_True by lia.
      rewrite Hp, Nat.sub_diag. done.
    + rewrite list_lookup_insert_ne by done.
      destruct (decide (first <= n)%nat).
      * rewrite decide_True by lia. by replace (n - first)%nat with (Datatypes.S (n - Datatypes.S first)) by lia.
      * by rewrite decide_False by lia.
Qed.

Section Pcr.
Context {F : Type -> Type} {S : Type} `{Handler F S} `{EsysCall -< F} `{!PcrLaws F S} `{Fuel}.

Lemma wp_det {R} (e : EsysCall R) s r s' (Q : post_cond F S R) :
  handle (inj e) s = (r, s') -> Q (Ret r) s' [Ev (inj e) r] -> wp (trig e) s Q.
Proof. intros He HQ. apply wp_trig. rewrite He. by intros ?? [= <- <-]. Qed.

(** The entries of the set once the first [c] values have arrived. *)
Definition filled (bk : Z -> bytes) (ixs js : list Z) (c : nat) : list PcrValue :=
  imap (fun n i => {| index := i;
                      digest := if decide (n < c)%nat then bk (nth n js 0) else [] |}) ixs.

Lemma filled_append bk ixs js c k :
  length ixs = length js -> (c <= length js)%nat ->
  append_digests (filled bk ixs js c) c (map bk (take k (drop c js))) =
  Ret (filled bk ixs js (c + length (take k (drop c js)))).
Proof.
  intros Hl Hc. destruct (append_digests_spec (map bk (take k (drop c js))) (filled bk ixs js c) c)
    as (l' & -> & Hl').
  { unfold filled. rewrite length_imap, length_map, length_take, length_drop. lia. }
  f_equal. apply list_eq. intros n. rewrite Hl'. unfold filled. rewrite !list_lookup_imap.
  destruct (ixs !! n) as [i|] eqn:Hi; [|done]. simpl. f_equal.
  assert (Hn : (n < length js)%nat) by (rewrite <- Hl; by eapply lookup_lt_Some).
  rewrite length_take, length_drop. destruct (decide (c <= n)%nat).
  - rewrite (decide_False (P := (n < c)%nat)) by lia. rewrite list_lookup_fmap.
    destruct (decide (n - c < k)%nat).
    + rewrite lookup_take_lt, lookup_drop by lia. replace (c + (n - c))%nat with n by lia.
      destruct (lookup_lt_is_Some_2 js n Hn) as [j Hj]. rewrite Hj. simpl.
      rewrite decide_True by lia. by rewrite (nth_lookup_Some _ _ _ _ Hj).
    + rewrite lookup_take_ge by lia. simpl. by rewrite decide_False by lia.
  - by rewrite (decide_True (P := (n < c)%nat)), decide_True by lia.
Qed.

Lemma filter_drop (l : list Z) k : NoDup l ->
  filter (fun i => i ∉ take k l) l = drop k l.
Proof.
  intros Hl. transitivity (filter (fun i => i ∉ take k l) (take k l ++ drop k l));
    [by rewrite take_drop|]. rewrite <- (take_drop k l) in Hl.
  apply NoDup_app in Hl as (_ & Hd & _). rewrite filter_app.
  rewrite (filter_ext_elem _ (fun _ => False) (take k l)) by naive_solver.
  rewrite (filter_ext_elem _ (fun _ => True) (drop k l)) by naive_solver.
  rewrite filter_none, filter_all. done.
Qed.

(** Every round reads at least one of the PCRs left. *)
Lemma wp_pcr_read_loop ixs js : length ixs = length js -> NoDup js -> forall n s sel c mask,
  wf_octets (pcrSelect sel) -> sizeofSelect sel = 3 -> (c <= length js)%nat ->
  selected (pcrSelect sel) = drop c js -> (mask = 0 \/ (c < length js)%nat) ->
  (length js - c < n)%nat ->
  let bk := bank s (sel_hash sel) in
  wp (pcr_read_loop n sel (filled bk ixs js c) c mask) s
     (fun o s' _ => o = Ret (filled bk ixs js (length js)) /\ bank s' = bank s).
Proof.
  intros Hij Hnd n. induction n as [|n IH]; intros s sel c mask Hwf Hsz Hc Hsel Hmask Hn bk; [lia|].
  assert (Hndc : NoDup (drop c js)).
  { rewrite <- (take_drop c js) in Hnd. by apply NoDup_app in Hnd as (_ & _ & ?). }
  simpl. apply wp_bind.
  destruct (pcr_read s sel Hwf Hsz) as (k & sel' & s' & Hk & Hh & Hwf' & Hsz' & Hsel' & Hbk).
  eapply wp_det; [done|]. simpl. apply wp_bind, wp_ret. rewrite Hsel in Hh, Hsel' |- *.
  destruct (map _ (take k (drop c js))) as [|v vs] eqn:Hv.
  { assert (Hd : drop c js = []).
    { destruct (drop c js); [done|]. destruct k; [lia|discriminate]. }
    assert (c = length js) as ->.
    { apply (f_equal length) in Hd. rewrite length_drop in Hd. simpl in Hd. lia. }
    destruct Hmask as [->|]; [|lia]. simpl. by apply wp_ret. }
  rewrite <- Hv. apply wp_bind. rewrite filled_append by done. apply wp_lift, wp_bind.
  rewrite Hsz'. destruct (clear_octets_spec _ _ Hwf Hwf') as (o & sum & -> & Hwo & Hso & Hsum).
  apply wp_lift. rewrite Hso, Hsel, Hsel', filter_drop in Hsum by done.
  rewrite Hsel, Hsel', filter_drop, drop_drop in Hso by done.
  assert (Hlt : (c < length js)%nat).
  { destruct (decide (c < length js)%nat); [done|].
    rewrite drop_ge, take_nil in Hv by lia. discriminate. }
  rewrite length_map. set (c' := length (take k (drop c js))).
  assert (Hc' : c' = (k `min` (length js - c))%nat).
  { unfold c'. by rewrite length_take, length_drop. }
  destruct (sum =? 0) eqn:Es.
  - apply wp_ret. apply Z.eqb_eq, Hsum in Es. apply (f_equal length) in Es.
    rewrite !length_drop in Es. simpl in Es. split; [|done]. do 2 f_equal. lia.
  - assert (Hne : (c + k < length js)%nat).
    { apply Z.eqb_neq in Es. destruct (decide (c + k < length js)%nat); [done|].
      exfalso. apply Es, Hsum. rewrite drop_drop. apply drop_ge. lia. }
    replace (c + c')%nat with (c + k)%nat by lia.
    unfold bk. rewrite <- Hbk.
    eapply wp_mono.
    { apply (IH s' {| sel_hash := sel_hash sel; sizeofSelect := sizeofSelect sel; pcrSelect := o |}
                (c + k)%nat sum); simpl; try done; lia. }
    simpl. intros r s2 t [-> Hs2]. split; [done|congruence].
Qed.
End Pcr.

(** The PCRs of a list, in ascending order: what a list in that order is itself. *)
Definition ascending (l : list Z) : list Z := filter (fun i => i ∈ l) (seqZ 0 24).

Lemma StronglySorted_filter {A} (R : A -> A -> Prop) (P : A -> Prop) `{forall x, Decision (P x)}
  (l : list A) : StronglySorted R l -> StronglySorted R (filter P l).
Proof.
  induction 1 as [|x l Hl IH Hx]; [constructor|]. rewrite filter_cons.
  case_decide; [|done]. constructor; [done|]. apply Forall_forall.
  intros y [_ Hy]%list_elem_of_filter. rewrite Forall_forall in Hx. auto.
Qed.
Lemma seqZ_sorted : StronglySorted Z.lt (seqZ 0 24).
Proof. vm_compute. repeat constructor. Qed.
Lemma selected_sorted o : StronglySorted Z.lt (selected o).
Proof. apply StronglySorted_filter, seqZ_sorted. Qed.
Lemma sorted_take (l : list Z) k : StronglySorted Z.lt l -> StronglySorted Z.lt (take k l).
Proof.
  intros Hl. rewrite <- (take_drop k l) in Hl. by apply StronglySorted_app_1_l in Hl.
Qed.
Lemma sorted_NoDup (l : list Z) : StronglySorted Z.lt l -> NoDup l.
Proof.
  induction 1 as [|x l Hl IH Hx]; constructor; [|done].
  rewrite Forall_forall in Hx. intros Hin. specialize (Hx x Hin). lia.
Qed.

Lemma ascending_perm l : NoDup l -> Forall (fun i => 0 <= i < 24) l -> ascending l ≡ₚ l.
Proof.
  intros Hn Hl. apply NoDup_Permutation; [apply NoDup_filter, NoDup_seqZ|done|].
  intros i. unfold ascending. rewrite list_elem_of_filter, elem_of_seqZ.
  rewrite Forall_forall in Hl. split; [tauto|]. intros Hi. split; [done|]. apply Hl in Hi. lia.
Qed.
Lemma ascending_sorted l :
  Forall (fun i => 0 <= i < 24) l -> StronglySorted Z.lt l -> ascending l = l.
Proof.
  intros Hl Hs. assert (AntiSymm (=) Z.lt) by (intros x y; lia).
  apply (StronglySorted_unique Z.lt); [apply StronglySorted_filter, seqZ_sorted|done|].
  by apply ascending_perm; [apply sorted_NoDup|].
Qed.

(** The selection of a mask whose bits are the elements of [l]. *)
Lemma selected_mask m l : 0 <= m < 2 ^ 32 ->
  (forall i, 0 <= i -> Z.testbit m i = true <-> i ∈ l) -> selected (mask_octets m) = ascending l.
Proof.
  intros Hm Hb. apply filter_ext_elem. intros i Hi%elem_of_seqZ.
  rewrite mask_octets_bit by lia. apply Hb. lia.
Qed.
Lemma mask_of_list l : Forall (fun i => 0 <= i < 24) l ->
  exists m, pcr_mask 24 0 (map (fun i => {| index := i; digest := [] |}) l) = Ret m /\
    wf_octets (mask_octets m) /\ selected (mask_octets m) = ascending l.
Proof.
  intros Hl. destruct (pcr_mask_spec 24 (map (fun i => {| index := i; digest := [] |}) l) 0)
    as (m & Hm & Hr & Hb); [by apply Forall_map|lia|lia|].
  assert (Hin : forall i, 0 <= i -> Z.testbit m i = true <-> i ∈ l).
  { intros i Hi. rewrite Hb, Z.bits_0 by done. simpl. rewrite existsb_exists.
    setoid_rewrite in_map_iff. setoid_rewrite <- list_elem_of_In.
    split; [intros (p & (j & <- & Hj) & <-%Z.eqb_eq); done|].
    intros Hi'. eexists. split; [exists i; split; [reflexivity|done]|]. apply Z.eqb_refl. }
  exists m. split_and!; [done| |by apply selected_mask].
  apply mask_octets_wf; [done|]. intros i Hi. apply not_true_iff_false. rewrite Hin by lia.
  intros Hx. rewrite Forall_forall in Hl. specialize (Hl i Hx). lia.
Qed.

Section Values.
Context {F : Type -> Type} {S : Type} `{Handler F S} `{EsysCall -< F} `{!PcrLaws F S} `{Fuel}.

Lemma filled_0 bk ixs js : filled bk ixs js 0 = map (fun i => {| index := i; digest := [] |}) ixs.
Proof.
  unfold filled. apply list_eq. intros n. rewrite list_lookup_imap, list_lookup_fmap.
  by destruct (ixs !! n).
Qed.
Lemma filled_all bk ixs js : length ixs = length js ->
  filled bk ixs js (length js) = zip_with (fun i j => {| index := i; digest := bk j |}) ixs js.
Proof.
  intros Hl. unfold filled. apply list_eq. intros n.
  rewrite list_lookup_imap, lookup_zip_with.
  destruct (ixs !! n) as [i|] eqn:Hi; [|done]. simpl.
  assert (Hn : (n < length js)%nat) by (rewrite <- Hl; by eapply lookup_lt_Some).
  rewrite decide_True by done. destruct (lookup_lt_is_Some_2 js n Hn) as [j Hj].
  rewrite Hj. simpl. by rewrite (nth_lookup_Some _ _ _ _ Hj).
Qed.

Lemma wp_GetPCRValues l a alg s :
  NoDup l -> Forall (fun i => 0 <= i < 24) l -> GetTssHashAlg a = Ret alg ->
  (length l < fuel)%nat ->
  wp (GetPCRValues l a) s (fun o s' _ =>
    o = Ret {| hashAlg := a; pcrs := zip_with (fun i j => {| index := i; digest := bank s alg j |})
                                       l (ascending l) |} /\ bank s' = bank s).
Proof.
  intros Hnd Hl Ha Hf. unfold GetPCRValues, PopulateCurrentPcrs, select. simpl.
  assert (Hp := ascending_perm l Hnd Hl). assert (Hlen := Permutation_length Hp).
  destruct (mask_of_list l Hl) as (m & Hm & Hwf & Hsel). unfold GetTssPcrSelection, GetPcrCount.
  do 3 apply wp_bind. destruct (pcr_count s) as (s1 & Hc & Hb1).
  eapply wp_det; [done|]. simpl. apply wp_bind, wp_ret. simpl. apply wp_ret, wp_bind.
  change (24 mod 2 ^ 8) with 24. rewrite Hm. apply wp_lift, wp_bind. rewrite Ha. apply wp_lift, wp_ret. apply wp_bind.
  rewrite <- (filled_0 (bank s1 alg) l (ascending l)).
  eapply wp_mono.
  { apply (wp_pcr_read_loop l (ascending l) (eq_sym Hlen) (NoDup_filter _ _ (NoDup_seqZ _ _)) fuel
             s1 {| sel_hash := alg; sizeofSelect := 24 / 8; pcrSelect := mask_octets m |} 0 0);
      simpl; try done; lia. }
  simpl. intros o s2 t [-> Hs2]. apply wp_ret. rewrite filled_all by done. rewrite Hb1 in *.
  split; [done|congruence].
Qed.
End Values.

(** A TPM that reads up to eight PCRs a call, and whose PCR [i] holds the byte [i]. *)
Definition octets_of (l : list Z) : list Z :=
  match pcr_mask 24 0 (map (fun i => {| index := i; digest := [] |}) l) with
  | Ret m => mask_octets m
  | _ => [0; 0; 0; 0]
  end.
Definition sim_bank (i : Z) : bytes := [byte_of_z i].
#[export] Instance pcr_handler : Handler EsysCall unit := fun R e s =>
  (match e in EsysCall T return T with
   | Esys_PCR_Read sel =>
       let l := take 8 (selected (pcrSelect sel)) in
       (0, Some ({| sel_hash := sel_hash sel; sizeofSelect := 3; pcrSelect := octets_of l |},
                 map sim_bank l))
   | e => esys_accept [] _ e
   end, s).

Lemma octets_of_spec o k : wf_octets (octets_of (take k (selected o))) /\
  selected (octets_of (take k (selected o))) = take k (selected o).
Proof.
  assert (Hs := sorted_take _ k (selected_sorted o)).
  assert (Hr : Forall (fun i => 0 <= i < 24) (take k (selected o))).
  { apply Forall_take, Forall_forall. intros i Hi. by apply elem_of_selected in Hi as [_ Hi]. }
  unfold octets_of. destruct (mask_of_list _ Hr) as (m & -> & Hwf & Hm).
  split; [done|]. by rewrite Hm, ascending_sorted.
Qed.

#[export] Program Instance pcr_sim_laws : PcrLaws EsysCall unit :=
  {| bank := fun _ _ => sim_bank |}.
Next Obligation. intros []. by exists tt. Qed.
Next Obligation.
  intros [] sel Hwf Hsz. exists 8%nat. do 2 eexists. split; [lia|].
  split; [reflexivity|]. split_and!; [apply octets_of_spec|done|apply octets_of_spec|done].
Qed.

(** ** The properties *)

Section Properties.
Context {F : Type -> Type} {S : Type} `{Handler F S} `{EsysCall -< F} `{Fuel}.

(** Against a TPM that keeps the NV laws, [WriteAikCert] replaces the certificate index
    by one that holds exactly the certificate, in chunks of at most 512 bytes, and
    [GetAIKCert] reads the same bytes back; no other index changes. *)
Theorem aik_cert_round_trip `{!NvLaws F S} (s : S) old c :
  nv s !! AIK_CERT_INDEX = Some old -> size c <= nv_max -> size c <= 512 * Z.of_nat fuel ->
  exists s1 t1 s2 t2, WriteAikCert c s = Res (Ret tt) s1 t1 /\
    nv s1 = <[AIK_CERT_INDEX := c]> (nv s) /\ GetAIKCert s1 = Res (Ret c) s2 t2 /\ nv s2 = nv s1.
Proof.
  intros Hi Hc Hf. assert (Hw := write_then_read s old c Hi Hc Hf). unfold wp in Hw.
  destruct (WriteAikCert c s) as [o1 s1 t1]. simpl in Hw. destruct Hw as (-> & Hnv & Hr).
  destruct (GetAIKCert s1) as [o2 s2 t2] eqn:E. simpl in Hr. destruct Hr as [-> Hnv2].
  by exists s1, t1, s2, t2.
Qed.

(** C38: [GetPCRValues] of distinct PCRs terminates with one digest each, in the order in
    which the TPM answers: the n-th entry of the list gets the value of the n-th smallest
    PCR. For a list in ascending order that is its own value. *)
Theorem GetPCRValues_spec `{!PcrLaws F S} (s : S) l a alg :
  NoDup l -> Forall (fun i => 0 <= i < 24) l -> GetTssHashAlg a = Ret alg -> (length l < fuel)%nat ->
  res (GetPCRValues l a s) =
    Ret {| hashAlg := a;
           pcrs := zip_with (fun i j => {| index := i; digest := bank s alg j |}) l (ascending l) |} /\
  (StronglySorted Z.lt l ->
   res (GetPCRValues l a s) =
     Ret {| hashAlg := a; pcrs := map (fun i => {| index := i; digest := bank s alg i |}) l |}).
Proof.
  intros Hn Hl Ha Hf. destruct (wp_GetPCRValues l a alg s Hn Hl Ha Hf) as [-> _].
  split; [done|]. intros Hs. rewrite (ascending_sorted l Hl Hs). do 2 f_equal.
  clear. induction l; simpl; [done|]. by f_equal.
Qed.

(** The selection built for a list of PCRs: an index the TPM does not have is refused,
    and otherwise bit [i mod 8] of octet [i / 8] is set exactly for the PCRs of the list. *)
Theorem GetTssPcrSelection_spec (s s' : S) pcrSet a alg count :
  handle (inj (Esys_GetCapability TPM2_PT_PCR_COUNT)) s =
    ((TSS2_RC_SUCCESS, [(TPM2_PT_PCR_COUNT, count)]), s') ->
  0 <= count <= 32 -> GetTssHashAlg a = Ret alg ->
  (Forall (fun p => 0 <= index p < count) (pcrs pcrSet) ->
   exists m, res (GetTssPcrSelection pcrSet a s) =
       Ret {| sel_hash := alg; sizeofSelect := count / 8; pcrSelect := mask_octets m |} /\
     forall i, 0 <= i < 32 ->
       octet_bit (mask_octets m) i = existsb (fun p => index p =? i) (pcrs pcrSet)) /\
  (Exists (fun p => index p < 0 \/ count <= index p) (pcrs pcrSet) ->
   res (GetTssPcrSelection pcrSet a s) = Throw (runtime_error "PCR index out of range")).
Proof.
  intros Hcap Hc Ha.
  assert (Hrun : res (GetTssPcrSelection pcrSet a s) =
    (m ← pcr_mask count 0 (pcrs pcrSet);
     Ret {| sel_hash := alg; sizeofSelect := count / 8; pcrSelect := mask_octets m |})).
  { unfold GetTssPcrSelection, GetPcrCount, trig, call, mbind, M_bind, outcome_bind. rewrite Hcap.
    simpl. rewrite Ha. rewrite Z.mod_small by lia. by destruct (pcr_mask count 0 (pcrs pcrSet)). }
  rewrite Hrun. split.
  - intros Hl. destruct (pcr_mask_spec count (pcrs pcrSet) 0 Hl) as (m & -> & Hr & Hb); [lia..|].
    exists m. split; [done|]. intros i Hi. rewrite mask_octets_bit, Hb, Z.bits_0 by lia. done.
  - intros Hx. assert (Hm : forall m, pcr_mask count m (pcrs pcrSet) =
        Throw (runtime_error "PCR index out of range")).
    { clear Hrun. induction (pcrs pcrSet) as [|p l IH]; [by apply Exists_nil in Hx|]. intros m. simpl.
      apply Exists_cons in Hx. destruct (_ || _) eqn:E; [done|].
      apply orb_false_iff in E as [E1 E2]. destruct Hx as [Hx|Hx]; [lia|].
      rewrite (proj2 (Z.leb_gt 32 _)) by lia. by apply IH. }
    by rewrite Hm.
Qed.

(** [GenerateAndPersistEk] hands [Esys_EvictControl] an empty handle, not the created
    key. Where the TPM refuses that, [GetEkPub] only ever returns a key that was already
    persistent. *)
Theorem GetEkPub_needs_persistent :
  (forall s : S, (handle (inj (Esys_EvictControl ESYS_TR_RH_OWNER 0 EK_PUB_INDEX)) s).1.1
                 <> TSS2_RC_SUCCESS) ->
  forall (s : S) b, res (GetEkPub s) = Ret b -> res (GetPublicObject EK_PUB_INDEX s) = Ret b.
Proof.
  intros He s b. unfold GetEkPub, try_catch.
  destruct (GetPublicObject EK_PUB_INDEX s) as [[a|e|x] s1 t1]; simpl; [done| |done].
  destruct (is_std_exception e); simpl; [|done].
  assert (Hn : yields (S := S) (fun _ => False) (pub ← GenerateAndPersistEk; CheckAndMarshalEkPub pub)).
  { eapply (yields_bind_strong (fun _ => False)); [|done]. unfold GenerateAndPersistEk.
    apply yields_bind. intros p. eapply (yields_bind_strong (fun '(ret, _) => ret <> TSS2_RC_SUCCESS)).
    - intros s' [ret h]. unfold trig, call. specialize (He s').
      destruct (handle _ s') as [[ret' h'] s2]. simpl in *. by intros [= <- <-].
    - intros [ret h] Hret. apply yields_finally. unfold check, require.
      rewrite (proj2 (Z.eqb_neq ret TSS2_RC_SUCCESS)) by done. by intros s' x. }
  specialize (Hn s1 b). intros Hb. exfalso. apply Hn.
  destruct ((pub ← GenerateAndPersistEk; CheckAndMarshalEkPub pub) s1). exact Hb.
Qed.

End Properties.

(** *** Witnesses *)

Definition sim_start : sim := Sim {[ AIK_CERT_INDEX := [x01] ]} ∅ 1.
Definition pcr_set (l : list Z) : PcrSet := select l Sha256.

Theorem aik_cert_round_trip_witness :
  exists s1 t1 s2 t2,
    @WriteAikCert _ _ sim_handler _ (replicate 700 x41) sim_start = Res (Ret tt) s1 t1 /\
    nv s1 = <[AIK_CERT_INDEX := replicate 700 x41]> (nv sim_start) /\
    @GetAIKCert _ _ sim_handler _ 2%nat s1 = Res (Ret (replicate 700 x41)) s2 t2 /\ nv s2 = nv s1.
Proof.
  apply (@aik_cert_round_trip _ _ sim_handler _ 2%nat sim_laws sim_start [x01]).
  - reflexivity.
  - vm_compute. discriminate.
  - vm_compute. discriminate.
Defined.

(** PCR 7 listed before PCR 3 is given the value of PCR 3. *)
Theorem GetPCRValues_spec_witness :
  res (@GetPCRValues _ _ pcr_handler _ 12%nat [7; 3] Sha1 tt) =
    Ret {| hashAlg := Sha1; pcrs := [ {| index := 7; digest := [x03] |};
                                      {| index := 3; digest := [x07] |} ] |} /\
  res (@GetPCRValues _ _ pcr_handler _ 12%nat [0; 1; 2; 3; 4; 5; 6; 7; 23] Sha1 tt) =
    Ret {| hashAlg := Sha1;
           pcrs := map (fun i => {| index := i; digest := sim_bank i |}) [0; 1; 2; 3; 4; 5; 6; 7; 23] |}.
Proof.
  split.
  - apply (@GetPCRValues_spec _ _ pcr_handler _ 12%nat pcr_sim_laws tt [7; 3] Sha1 TPM2_ALG_SHA1).
    + repeat constructor; set_solver.
    + repeat constructor; lia.
    + reflexivity.
    + vm_compute. lia.
  - apply (@GetPCRValues_spec _ _ pcr_handler _ 12%nat pcr_sim_laws tt _ Sha1 TPM2_ALG_SHA1).
    + repeat constructor; set_solver.
    + repeat constructor; lia.
    + reflexivity.
    + vm_compute. lia.
    + repeat constructor; lia.
Defined.

Theorem GetTssPcrSelection_spec_witness :
  (exists m, res (@GetTssPcrSelection _ _ pcr_handler _ (pcr_set [23; 3]) Sha256 tt) =
       Ret {| sel_hash := TPM2_ALG_SHA256; sizeofSelect := 24 / 8; pcrSelect := mask_octets m |} /\
     forall i, 0 <= i < 32 ->
       octet_bit (mask_octets m) i = existsb (fun p => index p =? i) (pcrs (pcr_set [23; 3]))) /\
  res (@GetTssPcrSelection _ _ pcr_handler _ (pcr_set [24]) Sha256 tt) =
    Throw (runtime_error "PCR index out of range").
Proof.
  split.
  - apply (GetTssPcrSelection_spec (F := EsysCall) tt tt (pcr_set [23; 3]) Sha256 TPM2_ALG_SHA256 24).
    + reflexivity.
    + lia.
    + reflexivity.
    + repeat constructor; simpl; lia.
  - apply (GetTssPcrSelection_spec (F := EsysCall) tt tt (pcr_set [24]) Sha256 TPM2_ALG_SHA256 24).
    + reflexivity.
    + lia.
    + reflexivity.
    + constructor. simpl. lia.
Defined.

(** A TPM that has a persistent key and refuses to evict what is not one. *)
Definition evict_handler : Handler EsysCall unit := fun R e s =>
  (match e in EsysCall T return T with
   | Esys_EvictControl _ h _ => (if h =? 0 then 0x84 else 0, 0)
   | Esys_ReadPublic _ => (0, Some zero_public)
   | e => esys_accept [x2a] _ e
   end, s).
Theorem GetEkPub_needs_persistent_witness :
  res (@GetEkPub _ _ evict_handler _ 1%nat tt) = Ret [] /\
  res (@GetPublicObject _ _ evict_handler _ EK_PUB_INDEX tt) = Ret [].
Proof.
  assert (Hr : res (@GetEkPub _ _ evict_handler _ 1%nat tt) = Ret []) by vm_eq.
  split; [exact Hr|].
  apply (@GetEkPub_needs_persistent _ _ evict_handler _ 1%nat); [|exact Hr].
  intros s. vm_compute. discriminate.
Defined.
