(* ===== verification/TpmHandles.v ===== *)
(** * The life of sessions and keys in the TPM

    A policy session or a transient key takes one of the few slots of the TPM until
    it is flushed. [live] are the handles created and not yet flushed after a trace;
    [owns] and [holds] say what a computation may leave live, when it returns and
    when it throws. *)

From stdpp Require Import gmap.
From S2P Require Import Prelude Ossl Jwt Esys GuestTpm.
Import TpmUtil TpmSession GuestTpm.
#[local] Open Scope Z_scope.

Notation TpmE := (sumE EsysCall OsslCall) (only parsing).

(** The handle an event creates, or flushes. *)
Definition created_by {R} (e : EsysCall R) : R -> option Z :=
  match e in EsysCall T return T -> option Z with
  | Esys_StartAuthSession _ => fun '(_, h) => if h =? 0 then None else Some h
  | Esys_CreatePrimary _ _ => fun '(ret, (h, _)) => if ret =? 0 then Some h else None
  | _ => fun _ => None
  end.
Definition created (e : event TpmE) : option Z :=
  match e with @Ev _ R e r => match e with InL e => created_by e r | InR _ => None end end.
Definition flushed (e : event TpmE) : option Z :=
  match e with
  | Ev (InL (Esys_FlushContext h)) _ => Some h
  | Ev _ _ => None
  end.
(** The handles that are live after a trace. *)
Fixpoint live (t : list (event TpmE)) (L : gset Z) : gset Z :=
  match t with
  | [] => L
  | e :: t' =>
      live t' (match created e with
               | Some h => {[h]} ∪ L
               | None => match flushed e with Some h => L ∖ {[h]} | None => L end
               end)
  end.
Definition still (e : event TpmE) : Prop := created e = None /\ flushed e = None.

Lemma live_app t1 t2 L : live (t1 ++ t2) L = live t2 (live t1 L).
Proof. revert L. induction t1; intros L; simpl; auto. Qed.
Lemma live_still t L : Forall still t -> live t L = L.
Proof. induction 1 as [|e t [H1 H2] _ IH] in L |- *; simpl; [done|]. by rewrite H1, H2. Qed.

(** What a session body may still own besides its session: [K] before, [Kr] after
    returning, [Kt] after throwing. [cur] is the session's handle, if any. *)
Definition cur (h : Z) : gset Z := if h =? 0 then ∅ else {[h]}.
Definition owns {S A} (K : gset Z) (P : Z -> Prop) (m : M TpmE (S * Z) A)
    (Kr : gset Z) (Q : A -> Z -> Prop) (Kt : gset Z) : Prop :=
  forall s h L, P h -> L ⊆ cur h ∪ K ->
    let r := m (s, h) in
    match res r with
    | Ret a => Q a (snd (post r)) /\ live (evs r) L ⊆ cur (snd (post r)) ∪ Kr
    | Throw _ => live (evs r) L ⊆ cur (snd (post r)) ∪ Kt
    | Fault _ => True
    end.

Section Quiet.
Context {S : Type} `{Handler TpmE S}.

(** Leaves a local variable alone, and creates and flushes nothing. *)
Definition quiet {L A} (m : M TpmE (S * L) A) : Prop :=
  forall s, snd (post (m s)) = snd s /\ Forall still (evs (m s)).

Context {L : Type}.

Lemma quiet_ret {A} (a : A) : quiet (L := L) (mret a).
Proof. by split. Qed.
Lemma quiet_lift {A} (o : outcome A) : quiet (L := L) (lift o).
Proof. by split. Qed.
Lemma quiet_require b e : quiet (L := L) (require b e).
Proof. destruct b; by split. Qed.
Lemma quiet_get : quiet (L := L) get_local.
Proof. by split. Qed.
Lemma quiet_trig {R} {E : Type -> Type} `{!E -< TpmE} (e : E R) :
  (forall r, still (Ev (inj e) r)) -> quiet (L := L) (trig e).
Proof.
  intros Hq s. unfold trig, call, handle, handler_local.
  destruct (handle (inj e) (fst s)) as [r s']. simpl. split; [done|]. apply Forall_singleton, Hq.
Qed.
Lemma quiet_bind {A B} (m : M TpmE (S * L) A) (k : A -> M TpmE (S * L) B) :
  quiet m -> (forall a, quiet (k a)) -> quiet (m ≫= k).
Proof.
  intros Hm Hk s. unfold mbind, M_bind. specialize (Hm s).
  destruct (m s) as [[a|e|x] s1 t1]; simpl in *; try done.
  specialize (Hk a s1). destruct (k a s1); simpl in *.
  destruct Hm as [<- ?], Hk as [<- ?]. split; [done|]. by apply Forall_app.
Qed.
Lemma quiet_for_each {A} (l : list A) (m : A -> M TpmE (S * L) unit) :
  (forall a, quiet (m a)) -> quiet (for_each l m).
Proof. intros Hm. induction l as [|a l IH]; [apply quiet_ret|]. by apply quiet_bind. Qed.
End Quiet.

Ltac quiet_step :=
  cbn beta iota;
  lazymatch goal with
  | |- quiet (mbind _ _) => apply quiet_bind; [|intros ?]
  | |- quiet (trig _) => apply quiet_trig; intros ?; try (split; reflexivity)
  | |- quiet (mret _) => apply quiet_ret
  | |- quiet (lift _) => apply quiet_lift
  | |- quiet (throw _) => apply quiet_lift
  | |- quiet (fault_with _) => apply quiet_lift
  | |- quiet (require _ _) => apply quiet_require
  | |- quiet (check _ _) => apply quiet_require
  | |- quiet (check_s _ _) => apply quiet_require
  | |- quiet get_local => apply quiet_get
  | |- quiet (for_each _ _) => apply quiet_for_each; intros ?
  | |- quiet (if ?b then _ else _) => destruct b
  | |- quiet (match ?x with _ => _ end) => destruct x
  end.
Ltac quiet_go := repeat quiet_step.

Section Owns.
Context {S : Type} `{Handler TpmE S} `{Fuel}.

Lemma quiet_GeneratePcrDigest p a : quiet (S := S) (L := Z) (GeneratePcrDigest p a).
Proof. unfold GeneratePcrDigest, check_ssl, get_openssl_err. quiet_go. Qed.
Lemma quiet_GetTssPcrSelection p a : quiet (S := S) (L := Z) (GetTssPcrSelection p a).
Proof. unfold GetTssPcrSelection, GetPcrCount. quiet_go. Qed.
Lemma quiet_policy d sel au :
  quiet (S := S) (PolicyPcr d sel) /\ quiet (S := S) (PolicySecret au) /\ quiet (S := S) GetDigest.
Proof. unfold PolicyPcr, PolicySecret, GetDigest. split_and!; quiet_go. Qed.

(** Rules *)
Lemma owns_quiet {A} K P (m : M TpmE (S * Z) A) : quiet m -> owns K P m K (fun _ => P) K.
Proof.
  intros Hq s h L HP HL r. destruct (Hq (s, h)) as [Hs Ht]. fold r in Hs, Ht. simpl in Hs.
  rewrite Hs, live_still by done. by destruct (res r).
Qed.
(** A call never throws. *)
Lemma owns_trig {R} K P Kt (e : EsysCall R) : (forall r, still (Ev (InL e) r)) ->
  owns (S := S) K P (trig e) K (fun _ => P) Kt.
Proof.
  intros Hq s h L HP HL r. unfold r, trig, call, handle, handler_local. simpl.
  destruct (handle (inj e) s) as [x s']. simpl. split; [done|].
  destruct (Hq x) as [Hc Hf]. unfold inj, sub_left. simpl in *. by rewrite Hc, Hf.
Qed.
Lemma owns_get K P Kt : owns (S := S) K P get_local K (fun _ => P) Kt.
Proof. by intros s h L. Qed.
Lemma owns_ret {A} K P Kt (a : A) : owns (S := S) K P (mret a) K (fun _ => P) Kt.
Proof. by intros s h L. Qed.
Lemma owns_throw {A} K P Kr Q e : owns (S := S) (A := A) K P (throw e) Kr Q K.
Proof. by intros s h L. Qed.
Lemma owns_bind {A B} K P K1 Q K2 R Kt (m : M TpmE (S * Z) A) (k : A -> M TpmE (S * Z) B) :
  owns K P m K1 Q Kt -> (forall a, owns K1 (Q a) (k a) K2 R Kt) -> owns K P (m ≫= k) K2 R Kt.
Proof.
  intros Hm Hk s h L HP HL. specialize (Hm s h L HP HL). unfold mbind, M_bind. simpl in *.
  destruct (m (s, h)) as [[a|e|x] [s1 h1] t1]; simpl in *; try done.
  destruct Hm as [HQ HL1]. specialize (Hk a s1 h1 _ HQ HL1). simpl in Hk.
  destruct (k a (s1, h1)) as [[b|e|x] s2 t2]; simpl in *; rewrite ?live_app; auto.
Qed.
Lemma owns_try {A} K P K1 Q Kt Kt' (m : M TpmE (S * Z) A) h :
  owns K P m K1 Q Kt -> (forall e, owns Kt (fun _ => True) (h e) K1 Q Kt') ->
  owns K P (try_all m h) K1 Q Kt'.
Proof.
  intros Hm Hk s l L HP HL. specialize (Hm s l L HP HL). unfold try_all, try_catch. simpl in *.
  destruct (m (s, l)) as [[a|e|x] [s1 h1] t1]; simpl in *; try done.
  specialize (Hk e s1 h1 _ I Hm). simpl in Hk.
  destruct (h e (s1, h1)) as [[b|e'|x] s2 t2]; simpl in *; rewrite ?live_app; auto.
Qed.
Lemma owns_finally {A} K P K1 Q Kt (m : M TpmE (S * Z) A) d :
  owns K P m K1 Q Kt -> quiet d -> owns K P (finally m d) K1 Q Kt.
Proof.
  intros Hm Hd s h L HP HL. specialize (Hm s h L HP HL). unfold finally. simpl in *.
  destruct (m (s, h)) as [[a|e|x] [s1 h1] t1]; simpl in *; try done.
  all: destruct (Hd (s1, h1)) as [Hp Ht]; destruct (d (s1, h1)) as [[?|?|?] [s2 h2] t2]; simpl in *;
    try done; subst h2; by rewrite live_app, (live_still t2).
Qed.
Lemma owns_Start K st : owns (S := S) K (fun h => h = 0) (Start st) K (fun _ _ => True) K.
Proof.
  intros s h L -> HL r. unfold r, Start, trig, call, mbind, M_bind, handle, handler_local. simpl.
  destruct (handle (inj (Esys_StartAuthSession st)) s) as [[ret h'] s']. simpl.
  assert (Hl : (if (h' =? 0) then L else {[h']} ∪ L) ⊆ cur h' ∪ K).
  { unfold cur in *. simpl in HL. destruct (h' =? 0); set_solver. }
  unfold check_s, require. destruct (ret =? TSS2_RC_SUCCESS); simpl; unfold inj, sub_left; simpl;
    destruct (h' =? 0); simpl; auto.
Qed.
Lemma owns_Flush K P : owns (S := S) K P Flush K (fun _ h => h = 0) K.
Proof.
  intros s h L _ HL r. unfold r, Flush, get_local. unfold mbind, M_bind. simpl.
  destruct (h =? 0) eqn:Eh; simpl; [split; [lia|done]|].
  unfold trig, call, handle, handler_local. simpl.
  destruct (handle (inj (Esys_FlushContext h)) s) as [ret s']. simpl.
  assert (Hl : L ∖ {[h]} ⊆ K) by (unfold cur in HL; rewrite Eh in HL; set_solver).
  unfold check_s, require. destruct (ret =? TSS2_RC_SUCCESS); simpl.
  - split; [done|]. unfold inj, sub_left. simpl. unfold cur. simpl. set_solver.
  - unfold inj, sub_left. simpl. set_solver.
Qed.
Lemma owns_Restart K P st : owns (S := S) K P (Restart st) K (fun _ _ => True) K.
Proof. eapply owns_bind; [apply owns_Flush|]. intros []. apply owns_Start. Qed.
Lemma owns_FlushObject K P ph :
  owns (S := S) ({[ph]} ∪ K) P (FlushObjectContext ph) K (fun _ => P) K.
Proof.
  intros s h L HP HL r. unfold r, FlushObjectContext, trig, call, mbind, M_bind, handle, handler_local.
  simpl. destruct (handle (inj (Esys_FlushContext ph)) s) as [ret s']. simpl.
  assert (Hl : L ∖ {[ph]} ⊆ cur h ∪ K) by set_solver.
  unfold check, require. by destruct (ret =? TSS2_RC_SUCCESS); simpl; unfold inj, sub_left; simpl.
Qed.
Lemma owns_mono {A} K P K1 (Q Q' : A -> Z -> Prop) Kt Kt' (m : M TpmE (S * Z) A) :
  owns K P m K1 Q Kt -> (forall a h, Q a h -> Q' a h) -> Kt ⊆ Kt' -> owns K P m K1 Q' Kt'.
Proof.
  intros Hm HQ HK s h L HP HL. specialize (Hm s h L HP HL). simpl in *.
  destruct (res (m (s, h))); [naive_solver|set_solver|done].
Qed.
End Owns.

(** The same outside the scope of a session. *)
Definition holds {S A} (K : gset Z) (m : M TpmE S A) (Kr : A -> gset Z) (Kt : gset Z) : Prop :=
  forall s L, L ⊆ K ->
    let r := m s in
    match res r with
    | Ret a => live (evs r) L ⊆ Kr a
    | Throw _ => live (evs r) L ⊆ Kt
    | Fault _ => True
    end.

Section Holds.
Context {S : Type} `{Handler TpmE S} `{Fuel}.

Lemma holds_still {A} K (m : M TpmE S A) : emits still m -> holds K m (fun _ => K) K.
Proof. intros Hm s L HL r. rewrite live_still by apply Hm. by destruct (res r). Qed.
Lemma holds_throw {A} K Kr e : holds (S := S) (A := A) K (throw e) Kr K.
Proof. by intros s L. Qed.
Lemma holds_mono {A} K Kr Kr' Kt Kt' (m : M TpmE S A) :
  holds K m Kr Kt -> (forall a, Kr a ⊆ Kr' a) -> Kt ⊆ Kt' -> holds K m Kr' Kt'.
Proof.
  intros Hm HKr HKt s L HL. specialize (Hm s L HL). simpl in *.
  destruct (res (m s)); [etrans; eauto|etrans; eauto|done].
Qed.
Lemma holds_bind {A B} K K1 K2 Kt (m : M TpmE S A) (k : A -> M TpmE S B) :
  holds K m K1 Kt -> (forall a, holds (K1 a) (k a) K2 Kt) -> holds K (m ≫= k) K2 Kt.
Proof.
  intros Hm Hk s L HL. specialize (Hm s L HL). unfold mbind, M_bind. simpl in *.
  destruct (m s) as [[a|e|x] s1 t1]; simpl in *; try done.
  specialize (Hk a s1 _ Hm). simpl in Hk.
  destruct (k a s1) as [[b|e|x] s2 t2]; simpl in *; rewrite ?live_app; auto.
Qed.
Lemma holds_finally {A} K K1 Kt (m : M TpmE S A) d :
  holds K m K1 Kt -> emits still d -> holds K (finally m d) K1 Kt.
Proof.
  intros Hm Hd s L HL. specialize (Hm s L HL). unfold finally. simpl in *.
  destruct (m s) as [[a|e|x] s1 t1]; simpl in *; try done.
  all: specialize (Hd s1); destruct (d s1) as [[?|?|?] s2 t2]; simpl in *; try done;
    by rewrite live_app, (live_still t2).
Qed.
Lemma holds_Flush K ph : holds (S := S) ({[ph]} ∪ K) (FlushObjectContext ph) (fun _ => K) K.
Proof.
  intros s L HL r. unfold r, FlushObjectContext, trig, call, mbind, M_bind.
  destruct (handle (inj (Esys_FlushContext ph)) s) as [ret s']. simpl.
  assert (Hl : L ∖ {[ph]} ⊆ K) by set_solver.
  unfold check, require. by destruct (ret =? TSS2_RC_SUCCESS); simpl; unfold inj, sub_left; simpl.
Qed.
(** The destructor takes the session away. *)
Lemma holds_session {A} K Kr Q Kt (body : M TpmE (S * Z) A) :
  owns K (fun h => h = 0) body Kr Q Kt -> holds K (with_session body) (fun _ => Kr) Kt.
Proof.
  intros Hb s L HL. specialize (Hb s 0 L eq_refl). unfold with_session, scoped. simpl in *.
  specialize (Hb ltac:(set_solver)).
  destruct (body (s, 0)) as [o [s1 h1] t1]. simpl in *.
  assert (Hd : forall L' K', L' ⊆ cur h1 ∪ K' -> match res (destructor (S := S) h1 s1) with
      | Ret _ => live (evs (destructor (S := S) h1 s1)) L' ⊆ K' | _ => True end).
  { intros L' K'. unfold destructor, cur, trig, call, mbind, M_bind. destruct (h1 =? 0) eqn:E1; simpl.
    - set_solver.
    - destruct (handle (inj (Esys_FlushContext h1)) s1) as [ret s']. simpl.
      unfold require. destruct (ret =? TSS2_RC_SUCCESS); simpl; [|done].
      unfold inj, sub_left. simpl. set_solver. }
  destruct o as [a|e|x]; simpl in *; [| |done].
  1: destruct Hb as [_ Hb].
  all: specialize (Hd _ _ Hb); destruct (destructor h1 s1) as [[?|?|?] s2 t2]; simpl in *;
    rewrite ?live_app; done.
Qed.
Lemma holds_create hier p :
  holds (S := S) ∅ (trig (Esys_CreatePrimary hier p))
    (fun '(ret, (h, _)) => if ret =? 0 then {[h]} else ∅) ∅.
Proof.
  intros s L HL r. unfold r, trig, call.
  destruct (handle (inj (Esys_CreatePrimary hier p)) s) as [[ret [h p']] s']. simpl.
  unfold inj, sub_left. simpl. destruct (ret =? 0); simpl; set_solver.
Qed.
Lemma holds_HandleToEsys {A} i (k : Z -> M TpmE S A) K Kr Kt :
  (forall h, holds K (k h) Kr Kt) -> K ⊆ Kt -> holds K (HandleToEsys i k) Kr Kt.
Proof.
  intros Hk HK. unfold HandleToEsys. eapply (holds_bind K (fun _ => K)).
  { intros s L HL. unfold trig, call. by destruct (handle (inj (Esys_TR_FromTPMPublic i)) s). }
  intros [ret h]. apply holds_finally.
  - eapply (holds_bind K (fun _ => K)); [|intros; apply Hk].
    unfold check, require. destruct (_ =? _); intros s L HL; simpl; set_solver.
  - unfold close_handle. destruct (h =? 0); [apply emits_ret|].
    apply emits_bind; [apply emits_trig; by split|intros; apply emits_ret].
Qed.
End Holds.

Ltac still_go := emits_go; try (by split).

Section Bodies.
Context {S : Type} `{Handler TpmE S} `{Fuel}.

Lemma owns_quiet_any {A} K P (m : M TpmE (S * Z) A) :
  quiet m -> owns K P m K (fun _ _ => True) K.
Proof. intros Hm. eapply owns_mono; [apply (owns_quiet K P), Hm|done|done]. Qed.

Lemma owns_policy {A} K P st (m : M TpmE (S * Z) unit) (k : M TpmE (S * Z) A) :
  quiet m -> quiet k -> owns K P (Restart st) K (fun _ _ => True) K ->
  owns K P (_ ← Restart st; _ ← m; k) K (fun _ _ => True) K.
Proof.
  intros Hm Hk HR. eapply owns_bind; [exact HR|]. intros []. apply owns_quiet_any.
  by apply quiet_bind.
Qed.

Lemma owns_import K keyHandle p a b :
  owns (S := S) K (fun h => h = 0) (import_object keyHandle p a b) K (fun _ _ => True) K.
Proof.
  unfold import_object. eapply owns_bind; [apply owns_Start|]. intros [].
  apply owns_quiet_any, quiet_bind; [apply (quiet_policy [] {| sel_hash := 0; sizeofSelect := 0; pcrSelect := [] |})|].
  intros []. unfold GetHandle. quiet_go.
Qed.

Lemma quiet_close h : quiet (S := S) (L := Z) (close_handle h).
Proof. unfold close_handle. quiet_go. Qed.

Lemma owns_unseal_session K p a u :
  owns (S := S) K (fun _ => True) (unseal_session p a u) K (fun _ _ => True) K.
Proof.
  unfold unseal_session. destruct u; [|apply owns_ret].
  eapply owns_bind; [apply owns_quiet, quiet_GeneratePcrDigest|]. intros d.
  eapply owns_bind; [apply owns_quiet, quiet_GetTssPcrSelection|]. intros sel.
  apply owns_policy; [apply (quiet_policy d sel 0)|apply quiet_get|apply owns_Restart].
Qed.

Lemma holds_UnsealInternal K keyHandle p1 p2 p3 pcrSet a u :
  holds (S := S) K (UnsealInternal keyHandle p1 p2 p3 pcrSet a u) (fun _ => K) K.
Proof.
  unfold UnsealInternal, check.
  do 6 (eapply (holds_bind K (fun _ => K)); [apply holds_still; still_go|intros [] || intros [? ?]]).
  eapply (holds_session K K (fun _ _ => True)).
  eapply owns_bind; [apply owns_import|]. intros outPriv.
  eapply owns_bind; [apply owns_Restart|]. intros [].
  eapply owns_bind; [apply owns_quiet, (quiet_policy [] {| sel_hash := 0; sizeofSelect := 0; pcrSelect := [] |})|].
  intros []. eapply owns_bind; [apply owns_quiet, quiet_get|]. intros h.
  eapply owns_bind; [apply owns_quiet; quiet_go|]. intros [ret loaded].
  apply owns_finally; [|apply quiet_close].
  eapply owns_bind; [apply owns_quiet, quiet_require|]. intros [].
  eapply owns_bind; [apply owns_unseal_session|]. intros ses.
  apply owns_quiet_any. quiet_go.
Qed.

Lemma holds_policy_digest pcrSet :
  holds (S := S) ∅ (GetEphemeralKeyPolicyDigest pcrSet) (fun _ => ∅) ∅.
Proof.
  unfold GetEphemeralKeyPolicyDigest, GeneratePcrDigest, check_ssl, get_openssl_err,
    GetTssPcrSelection, GetPcrCount, check.
  eapply (holds_bind ∅ (fun _ => ∅)); [apply holds_still|intros d].
  { still_go. induction (pcrs pcrSet) as [|x l IH]; simpl; still_go. }
  eapply (holds_bind ∅ (fun _ => ∅)); [apply holds_still; still_go|intros sel].
  eapply (holds_session ∅ ∅ (fun _ _ => True)).
  eapply owns_bind; [apply owns_Start|]. intros [].
  apply owns_quiet_any, quiet_bind; [apply (quiet_policy d sel 0)|intros []].
  apply (quiet_policy d sel 0).
Qed.

Lemma holds_CreateEphemeralKey pcrSet :
  holds (S := S) ∅ (CreateEphemeralKey pcrSet) (fun '(h, _) => {[h]}) ∅.
Proof.
  unfold CreateEphemeralKey, PopulateEphemeralKeyPublicTemplate.
  eapply (holds_bind ∅ (fun _ => ∅)).
  { eapply (holds_bind ∅ (fun _ => ∅)); [apply holds_policy_digest|].
    intros d. apply holds_still. still_go. }
  intros inPub. eapply holds_bind; [apply holds_create|]. intros (ret & h & p).
  unfold check, require. change (ret =? TSS2_RC_SUCCESS) with (ret =? 0).
  destruct (ret =? 0).
  - intros s L HL. simpl. done.
  - intros s L HL. simpl. done.
Qed.

Lemma holds_GenerateEkFromSpec b :
  holds (S := S) ∅ (GenerateEkFromSpec b) (fun '(h, _) => {[h]}) ∅.
Proof.
  unfold GenerateEkFromSpec. eapply holds_bind; [apply holds_create|]. intros (ret & h & p).
  unfold check, require. change (ret =? TSS2_RC_SUCCESS) with (ret =? 0).
  destruct (ret =? 0); intros s L HL; simpl; done.
Qed.

(** [if (bad) { Flush(ph); throw e; }] *)
Lemma owns_flush_throw {A} P Q ph (e : exn) :
  owns (S := S) (A := A) {[ph]} P (_ ← FlushObjectContext ph; throw e) {[ph]} Q ∅.
Proof.
  eapply owns_bind; [rewrite <- (union_empty_r_L {[ph]}); apply owns_FlushObject|].
  intros []. apply owns_throw.
Qed.

Lemma owns_start_pcr ph pcrSet :
  owns (S := S) {[ph]} (fun h => h = 0) (start_pcr_session pcrSet ph) {[ph]} (fun _ _ => True) ∅.
Proof.
  unfold start_pcr_session. eapply owns_try; [|intros e; apply owns_flush_throw].
  eapply owns_bind; [apply owns_quiet, quiet_GeneratePcrDigest|]. intros d.
  eapply owns_bind; [apply owns_quiet, quiet_GetTssPcrSelection|]. intros sel.
  eapply owns_bind; [apply owns_Start|]. intros []. apply owns_quiet_any, (quiet_policy d sel 0).
Qed.

Lemma holds_Decrypt pcrSet blob a b :
  holds (S := S) ∅ (DecryptWithEphemeralKey pcrSet blob a b) (fun _ => ∅) ∅.
Proof.
  unfold DecryptWithEphemeralKey. eapply holds_bind; [apply holds_CreateEphemeralKey|].
  intros [ph p]. eapply (holds_session _ ∅ (fun _ _ => True)).
  eapply owns_bind; [apply owns_start_pcr|]. intros [].
  eapply (owns_bind _ _ {[ph]} (fun _ _ => True)).
  { destruct (_ <? _); [apply owns_flush_throw|apply owns_ret]. }
  intros []. eapply (owns_bind _ _ {[ph]}); [apply owns_get|]. intros h.
  eapply (owns_bind _ _ {[ph]}); [apply owns_trig; by split|]. intros [ret dec].
  eapply (owns_bind _ _ {[ph]} (fun _ _ => True)).
  { destruct (_ =? _); [apply owns_ret|apply owns_flush_throw]. }
  intros []. eapply (owns_bind _ _ ∅).
  { rewrite <- (union_empty_r_L {[ph]}). apply owns_FlushObject. }
  intros []. apply owns_ret.
Qed.

Lemma holds_certified K p ph :
  holds (S := S) ({[ph]} ∪ K) (GetCertifiedKeyAndFlushHandle p ph) (fun _ => K) ({[ph]} ∪ K).
Proof.
  assert (HF : holds (S := S) ({[ph]} ∪ K) (FlushObjectContext ph) (fun _ => K) ({[ph]} ∪ K)).
  { eapply holds_mono; [apply holds_Flush|done|set_solver]. }
  unfold GetCertifiedKeyAndFlushHandle. apply holds_HandleToEsys; [|done]. intros h.
  eapply (holds_bind _ (fun _ => {[ph]} ∪ K)); [apply holds_still; still_go|].
  intros (ret & ci & sg). eapply (holds_bind _ (fun _ => {[ph]} ∪ K)).
  { destruct (_ =? _); [by intros s L|]. eapply holds_bind; [exact HF|intros []].
    eapply holds_mono; [apply (holds_throw K (fun _ => {[ph]} ∪ K))|done|set_solver]. }
  intros []. eapply holds_bind; [exact HF|intros []].
  eapply holds_mono; [apply holds_still; unfold check; still_go|done|set_solver].
Qed.

(** What is live after a run that returns. *)
Definition frees {A} (K : gset Z) (m : M TpmE S A) (Kr : A -> gset Z) : Prop :=
  forall s L a, L ⊆ K -> res (m s) = Ret a -> live (evs (m s)) L ⊆ Kr a.
Lemma holds_frees {A} K (m : M TpmE S A) Kr Kt : holds K m Kr Kt -> frees K m Kr.
Proof. intros Hm s L a HL Ha. specialize (Hm s L HL). simpl in Hm. by rewrite Ha in Hm. Qed.
Lemma frees_bind {A B} K K1 K2 (m : M TpmE S A) (k : A -> M TpmE S B) :
  frees K m K1 -> (forall a, frees (K1 a) (k a) K2) -> frees K (m ≫= k) K2.
Proof.
  intros Hm Hk s L b HL. specialize (Hm s L). unfold mbind, M_bind. simpl in *.
  destruct (m s) as [[a|e|x] s1 t1]; simpl in *; try done.
  specialize (Hk a s1 _ b (Hm a HL eq_refl)). destruct (k a s1) as [o s2 t2]; simpl in *.
  rewrite live_app. auto.
Qed.

Lemma frees_UnsealWithEk p1 p2 p3 pcrSet a u :
  frees ∅ (UnsealWithEkFromSpec p1 p2 p3 pcrSet a u) (fun _ => ∅).
Proof.
  unfold UnsealWithEkFromSpec.
  eapply frees_bind; [eapply holds_frees, holds_GenerateEkFromSpec|]. intros [ek p].
  eapply frees_bind; [eapply holds_frees, holds_UnsealInternal|]. intros d.
  eapply (frees_bind _ (fun _ => ∅)); [|intros []; eapply holds_frees, holds_still; still_go].
  rewrite <- (union_empty_r_L {[ek]}). eapply holds_frees, holds_Flush.
Qed.
Lemma frees_certified ph p : frees {[ph]} (GetCertifiedKeyAndFlushHandle p ph) (fun _ => ∅).
Proof. rewrite <- (union_empty_r_L {[ph]}). eapply holds_frees, holds_certified. Qed.
Lemma frees_GetEphemeralKey pcrSet : frees ∅ (GetEphemeralKey pcrSet) (fun _ => ∅).
Proof.
  unfold GetEphemeralKey. eapply frees_bind; [eapply holds_frees, holds_CreateEphemeralKey|].
  intros [ph p]. apply frees_certified.
Qed.
Lemma frees_GetEkPubWithCertification : frees ∅ GetEkPubWithCertification (fun _ => ∅).
Proof.
  unfold GetEkPubWithCertification.
  eapply frees_bind; [eapply holds_frees, holds_GenerateEkFromSpec|]. intros [ph p].
  apply frees_certified.
Qed.

(** *** The endorsement key that is only read *)

Definition created_ek (inPub : TPM2B_PUBLIC) (ek : ESYS_TR) (p : TPM2B_PUBLIC) : event TpmE :=
  Ev (InL (Esys_CreatePrimary ESYS_TR_RH_ENDORSEMENT inPub)) (0, (ek, p)).
(** One key is created and nothing is flushed. *)
Definition leaves_ek (t : list (event TpmE)) : Prop := exists t1 inPub ek p t2,
  t = t1 ++ created_ek inPub ek p :: t2 /\ Forall still t1 /\ Forall still t2.
Lemma leaves_ek_live t : leaves_ek t -> exists inPub ek p, created_ek inPub ek p ∈ t /\ live t ∅ = {[ek]}.
Proof.
  intros (t1 & inPub & ek & p & t2 & -> & H1 & H2). exists inPub, ek, p. split; [set_solver|].
  rewrite live_app, (live_still t1) by done. cbn [live created created_by created_ek].
  rewrite (live_still t2) by done. change (0 =? 0) with true. cbn iota. set_solver.
Qed.
Lemma leaves_ek_more t t' : leaves_ek t -> Forall still t' -> leaves_ek (t ++ t').
Proof.
  intros (t1 & inPub & ek & p & t2 & -> & H1 & H2) H'. exists t1, inPub, ek, p, (t2 ++ t').
  split; [by rewrite <- app_assoc|]. split; [done|by apply Forall_app].
Qed.
Lemma ends_emits {A} (P : event TpmE -> Prop) (m : M TpmE S A) : emits P m -> ends (fun _ t => Forall P t) m.
Proof. intros Hm s a _. apply Hm. Qed.
Lemma ends_still_after {A B} (m : M TpmE S A) (k : A -> M TpmE S B) :
  ends (fun _ => leaves_ek) m -> (forall a, emits still (k a)) -> ends (fun _ => leaves_ek) (m ≫= k).
Proof.
  intros Hm Hk. eapply ends_bind; [exact Hm|]. intros a t Ht. eapply ends_mono; [apply ends_emits, Hk|].
  intros b t' Ht'. by apply leaves_ek_more.
Qed.
Lemma still_close h : emits still (close_handle (F := TpmE) (S := S) h).
Proof. unfold close_handle. still_go. Qed.
#[local] Hint Resolve still_close : emits.
Lemma still_nv_read n nv data sz o : emits still (nv_read_loop (F := TpmE) (S := S) n nv data sz o).
Proof.
  revert data sz o. induction n as [|n IH]; intros data sz o; cbn [nv_read_loop]; unfold check.
  all: destruct (sz <=? 0); still_go.
Qed.
#[local] Hint Resolve still_nv_read : emits.
Lemma still_NvRead i : emits still (NvRead (F := TpmE) (S := S) i).
Proof. unfold NvRead, HandleToEsys, check. still_go. Qed.
#[local] Hint Resolve still_NvRead : emits.
Lemma still_template : emits still (PopulateEkPublicInput (F := TpmE) (S := S)).
Proof.
  unfold PopulateEkPublicInput, copy_nonce, check. emits_step.
  - apply emits_try; [still_go|]. intros e k. destruct (is_no_handle e); [intros [= <-]; apply emits_ret|done].
  - apply emits_try; [still_go|]. intros e k. destruct (is_no_handle e); [intros [= <-]; apply emits_ret|done].
Qed.
Lemma still_GetPublicObject i : emits still (GetPublicObject (F := TpmE) (S := S) i).
Proof. unfold GetPublicObject, HandleToEsys, check. still_go. Qed.
Lemma ends_GenerateEk : ends (fun _ => leaves_ek) (GenerateEk (F := TpmE) (S := S)).
Proof.
  unfold GenerateEk. eapply ends_bind; [apply (ends_emits still), still_template|].
  intros inPub t1 H1. eapply (ends_bind (fun r t => t = [Ev (InL (Esys_CreatePrimary ESYS_TR_RH_ENDORSEMENT inPub)) r]));
    [by apply ends_trig|]. intros [ret [h p]] t -> s a.
  unfold finally, check, require, throw, mbind, M_bind.
  destruct (ret =? TSS2_RC_SUCCESS) eqn:E; cbn; [|by destruct (close_handle h s) as [[]]].
  apply Z.eqb_eq in E as ->. pose proof (still_close h s) as Hc.
  destruct (close_handle h s) as [[[]|e|x] s2 t2]; cbn in *; try done. intros _. by exists t1, inPub, h, p, t2.
Qed.
Lemma still_marshal p : emits still (CheckAndMarshalEkPub (F := TpmE) (S := S) p).
Proof. unfold CheckAndMarshalEkPub, check. still_go. Qed.
Lemma ends_GetEkPubWithoutPersisting : ends (fun _ => leaves_ek) (GetEkPubWithoutPersisting (F := TpmE) (S := S)).
Proof. apply ends_still_after; [apply ends_GenerateEk|intros p; apply still_marshal]. Qed.
Lemma ends_GenerateAndPersistEk : ends (fun _ => leaves_ek) (GenerateAndPersistEk (F := TpmE) (S := S)).
Proof.
  apply ends_still_after; [apply ends_GenerateEk|]. intros p. unfold check. still_go.
Qed.
Lemma ends_GetEkPub : ends (fun _ t => Forall still t \/ leaves_ek t) (GetEkPub (F := TpmE) (S := S)).
Proof.
  unfold GetEkPub. intros s a. unfold try_catch. pose proof (still_GetPublicObject EK_PUB_INDEX s) as Hr.
  destruct (GetPublicObject EK_PUB_INDEX s) as [[b|e|x] s1 t1]; cbn in *; [by left| |done].
  destruct (is_std_exception e); [|done]. intros Ha. right.
  assert (Hm : ends (fun _ => leaves_ek) (pub ← GenerateAndPersistEk; CheckAndMarshalEkPub (F := TpmE) (S := S) pub))
    by (apply ends_still_after; [apply ends_GenerateAndPersistEk|intros p; apply still_marshal]).
  specialize (Hm s1 a). destruct ((_ : M TpmE S bytes) s1) as [o s2 t2]; cbn in *. destruct (Hm Ha) as (u & inPub & ek & p & v & -> & Hu & Hv).
  exists (t1 ++ u), inPub, ek, p, v. split; [by rewrite <- app_assoc|]. split; [by apply Forall_app|done].
Qed.

(** *** The properties *)

Definition faultless {A} (r : result TpmE S A) : Prop := forall x, res r <> Fault x.


(** When the object to unseal cannot be unmarshalled, or the attestation key cannot be
    opened, the key created just before stays live in the TPM. *)
Theorem keys_leaked (s s1 s2 : S) ek p pub priv seed pcrSet a u rc inPub x :
  (handle (inj (Esys_CreatePrimary ESYS_TR_RH_ENDORSEMENT
                  (PopulateParametersEkFromSpec zero_public false))) s = ((0, (ek, p)), s1) ->
   handle (inj (MU_TPM2B_PUBLIC_Unmarshal pub)) s1 = ((rc, inPub), s2) -> rc <> 0 ->
   res (UnsealWithEkFromSpec pub priv seed pcrSet a u s) =
     Throw (tss2_exception "Failed to unmarshal TPM2B_PUBLIC" rc) /\
   live (evs (UnsealWithEkFromSpec pub priv seed pcrSet a u s)) ∅ = {[ek]}) /\
  (handle (inj (Esys_CreatePrimary ESYS_TR_RH_ENDORSEMENT
                  (PopulateParametersEkFromSpec zero_public false))) s = ((0, (ek, p)), s1) ->
   handle (inj (Esys_TR_FromTPMPublic AIK_PUB_INDEX)) s1 = ((rc, x), s2) -> rc <> 0 ->
   res (GetEkPubWithCertification s) = Throw (tss2_exception "Failed to open ESYS_TR" rc) /\
   live (evs (GetEkPubWithCertification s)) ∅ = {[ek]}).
Proof.
  split.
  - intros Hc Hu Hrc. unfold UnsealWithEkFromSpec, GenerateEkFromSpec, UnsealInternal, trig, call,
      mbind, M_bind. rewrite Hc. simpl. rewrite Hu. simpl.
    unfold check, require. rewrite (proj2 (Z.eqb_neq rc TSS2_RC_SUCCESS)) by done. simpl.
    split; [done|]. set_solver.
  - intros Hc Hu Hrc. unfold GetEkPubWithCertification, GenerateEkFromSpec,
      GetCertifiedKeyAndFlushHandle, HandleToEsys, finally, close_handle, trig, call, mbind, M_bind.
    rewrite Hc. simpl. rewrite Hu. simpl.
    unfold check, require. rewrite (proj2 (Z.eqb_neq rc TSS2_RC_SUCCESS)) by done. simpl.
    destruct (x =? 0); simpl; [split; [done|set_solver]|].
    destruct (handle (inj (Esys_TR_Close x)) s2) as [r s3]. simpl. split; [done|set_solver].
Qed.
End Bodies.

(** *** Witnesses *)

(** [bad] makes unmarshalling and opening handles fail. OpenSSL answers 1. *)
Definition demo_tpm (bad : bool) : Handler TpmE unit := fun R e s =>
  (match e with
   | InL e =>
       match e in EsysCall T return T with
       | MU_TPM2B_PUBLIC_Unmarshal d => (if bad then 0x90001 else 0, zero_public)
       | Esys_TR_FromTPMPublic _ => if bad then (0x18b, 0) else (0, 6)
       | Esys_CreatePrimary _ p => (0, (9, p))
       | e => esys_accept [x2a] _ e
       end
   | InR e => ossl_accept [] _ e
   end, s).
Definition demo_pcrs : PcrSet :=
  {| hashAlg := Sha256; pcrs := [ {| index := 7; digest := replicate 32 x01 |} ] |}.
#[local] Instance handle_fuel : Fuel := 4%nat.
Theorem keys_leaked_witness :
  live (evs (@UnsealWithEkFromSpec _ _ (demo_tpm true) _ _ [] [] [] demo_pcrs Sha256 true tt)) ∅ = {[9]} /\
  live (evs (@GetEkPubWithCertification _ _ (demo_tpm true) _ tt)) ∅ = {[9]}.
Proof.
  split.
  - destruct (@keys_leaked unit (demo_tpm true) tt tt tt 9
                (PopulateParametersEkFromSpec zero_public false) [] [] [] demo_pcrs Sha256 true
                0x90001 zero_public 0) as [Hk _].
    apply Hk; [reflexivity|reflexivity|discriminate].
  - destruct (@keys_leaked unit (demo_tpm true) tt tt tt 9
                (PopulateParametersEkFromSpec zero_public false) [] [] [] demo_pcrs Sha256 true
                0x18b zero_public 0) as [_ Hk].
    apply Hk; [reflexivity|reflexivity|discriminate].
Defined.
