(* ===== verification/TpmFacade.v ===== *)
(** * The TPM interface of the client library

    [Tpm] of LinuxTpm/lib/Tpm.cpp, the class the client library has of the TPM: it owns a
    [TssWrapper] (include/TssWrapper.h) and passes every operation on to it. The abstract class is a
    type class, [Tss2Wrapper] of GuestTpm.v its instance; [TpmErrors] is what the client relies on
    when it reports failures: an exception with a return code has one that is not success. *)

From S2P Require Import Prelude Ossl Esys GuestTpm.
#[local] Open Scope Z_scope.

(** The pure virtual operations; lists of bytes, and of the indices of PCRs, stand for the vectors. *)
Class TssWrapper (F : Type -> Type) (S : Type) := {
  tss_GetEkNvCert : M F S bytes;
  tss_GetEkPubWithoutPersisting : M F S bytes;
  tss_GetEkPub : M F S bytes;
  tss_GetAIKCert : M F S bytes;
  tss_GetAIKPub : M F S bytes;
  tss_GetPCRQuote : list Z -> HashAlg -> M F S PcrQuote;
  tss_GetPCRValues : list Z -> HashAlg -> M F S PcrSet;
  tss_GetTcgLog : M F S bytes;
  tss_GetVersion : M F S TpmVersion;
  tss_Unseal : bytes -> bytes -> bytes -> PcrSet -> HashAlg -> bool -> M F S bytes;
  tss_UnsealWithEkFromSpec : bytes -> bytes -> bytes -> PcrSet -> HashAlg -> bool -> M F S bytes;
  tss_RemovePersistentEk : M F S unit;
  tss_UnpackAiKPubToRSA : bytes -> M F S bytes;
  tss_UnpackPcrQuoteToRSA : PcrQuote -> M F S PcrQuote;
  tss_GetEphemeralKey : PcrSet -> M F S EphemeralKey;
  tss_DecryptWithEphemeralKey : PcrSet -> bytes -> Z -> Z -> M F S bytes;
  tss_WriteAikCert : bytes -> M F S unit;
  tss_GetHCLReport : M F S bytes;
  tss_GetEkPubWithCertification : M F S EphemeralKey }.

(** ** Tpm.cpp *)
Module Tpm.
Section Tpm.
Context {F : Type -> Type} {S : Type} `{TssWrapper F S}.

Definition GetAIKCert : M F S bytes := tss_GetAIKCert.
Definition GetAIKPub : M F S bytes := tss_GetAIKPub.
Definition GetPCRQuote (pcrs : list Z) (hashAlg : HashAlg) : M F S PcrQuote :=
  tss_GetPCRQuote pcrs hashAlg.
Definition GetPCRValues (pcrs : list Z) (hashAlg : HashAlg) : M F S PcrSet :=
  tss_GetPCRValues pcrs hashAlg.
Definition GetTcgLog : M F S bytes := tss_GetTcgLog.
Definition GetEkPubWithoutPersisting : M F S bytes := tss_GetEkPubWithoutPersisting.
Definition GetEkPub : M F S bytes := tss_GetEkPub.
Definition GetEkNvCert : M F S bytes := tss_GetEkNvCert.
Definition GetVersion : M F S TpmVersion := tss_GetVersion.
Definition Unseal (importablePublic importablePrivate encryptedBlob : bytes) (pcrSet : PcrSet)
    (hashAlg : HashAlg) (usePcrAuth : bool) : M F S bytes :=
  tss_Unseal importablePublic importablePrivate encryptedBlob pcrSet hashAlg usePcrAuth.
Definition UnsealWithEkFromSpec (importablePublic importablePrivate encryptedBlob : bytes)
    (pcrSet : PcrSet) (hashAlg : HashAlg) (usePcrAuth : bool) : M F S bytes :=
  tss_UnsealWithEkFromSpec importablePublic importablePrivate encryptedBlob pcrSet hashAlg usePcrAuth.
Definition RemovePersistentEk : M F S unit := tss_RemovePersistentEk.
Definition UnpackAiKPubToRSA (aikPubMarshaled : bytes) : M F S bytes :=
  tss_UnpackAiKPubToRSA aikPubMarshaled.
Definition UnpackPcrQuoteToRSA (pcrQuoteMarshaled : PcrQuote) : M F S PcrQuote :=
  tss_UnpackPcrQuoteToRSA pcrQuoteMarshaled.
Definition GetEphemeralKey (pcrSet : PcrSet) : M F S EphemeralKey := tss_GetEphemeralKey pcrSet.
Definition DecryptWithEphemeralKey (pcrSet : PcrSet) (encryptedBlob : bytes)
    (rsaWrapAlgId rsaHashAlgId : Z) : M F S bytes :=
  tss_DecryptWithEphemeralKey pcrSet encryptedBlob rsaWrapAlgId rsaHashAlgId.
Definition WriteAikCert (aikCert : bytes) : M F S unit := tss_WriteAikCert aikCert.
Definition GetHCLReport : M F S bytes := tss_GetHCLReport.
Definition GetEkPubWithCertification : M F S EphemeralKey := tss_GetEkPubWithCertification.

(** Every operation of the class satisfies [P], whatever its arguments. *)
Definition all_operations (P : forall A, M F S A -> Prop) : Prop :=
  P _ GetAIKCert /\ P _ GetAIKPub /\ (forall l a, P _ (GetPCRQuote l a)) /\
  (forall l a, P _ (GetPCRValues l a)) /\ P _ GetTcgLog /\ P _ GetEkPubWithoutPersisting /\
  P _ GetEkPub /\ P _ GetEkNvCert /\ P _ GetVersion /\
  (forall pub priv blob s a u, P _ (Unseal pub priv blob s a u)) /\
  (forall pub priv blob s a u, P _ (UnsealWithEkFromSpec pub priv blob s a u)) /\
  P _ RemovePersistentEk /\ (forall d, P _ (UnpackAiKPubToRSA d)) /\
  (forall q, P _ (UnpackPcrQuoteToRSA q)) /\ (forall s, P _ (GetEphemeralKey s)) /\
  (forall s d w a, P _ (DecryptWithEphemeralKey s d w a)) /\ (forall c, P _ (WriteAikCert c)) /\
  P _ GetHCLReport /\ P _ GetEkPubWithCertification.
End Tpm.
End Tpm.

(** ** The wrapper over tpm2-tss *)
Section Wrapper.
Context {F : Type -> Type} {S : Type} `{Handler F S} `{EsysCall -< F} `{OsslCall -< F}
        `{FileCall -< F} `{Fuel}.
#[export] Instance Tss2Wrapper : TssWrapper F S :=
  {| tss_GetEkNvCert := GuestTpm.GetEkNvCert;
     tss_GetEkPubWithoutPersisting := GuestTpm.GetEkPubWithoutPersisting;
     tss_GetEkPub := GuestTpm.GetEkPub;
     tss_GetAIKCert := GuestTpm.GetAIKCert;
     tss_GetAIKPub := GuestTpm.GetAIKPub;
     tss_GetPCRQuote := GuestTpm.GetPCRQuote;
     tss_GetPCRValues := GuestTpm.GetPCRValues;
     tss_GetTcgLog := GuestTpm.GetTcgLog;
     tss_GetVersion := GuestTpm.GetVersion;
     tss_Unseal := GuestTpm.Unseal;
     tss_UnsealWithEkFromSpec := GuestTpm.UnsealWithEkFromSpec;
     tss_RemovePersistentEk := GuestTpm.RemovePersistentEk;
     tss_UnpackAiKPubToRSA := GuestTpm.UnpackAiKPubToRSA;
     tss_UnpackPcrQuoteToRSA := GuestTpm.UnpackPcrQuoteToRSA;
     tss_GetEphemeralKey := GuestTpm.GetEphemeralKey;
     tss_DecryptWithEphemeralKey := GuestTpm.DecryptWithEphemeralKey;
     tss_WriteAikCert := GuestTpm.WriteAikCert;
     tss_GetHCLReport := GuestTpm.GetHCLReport;
     tss_GetEkPubWithCertification := GuestTpm.GetEkPubWithCertification |}.
(** [Tpm::Tpm()], a body and the destructor: the wrapper is made with its context. *)
Definition with_Tpm {A} (body : M F S A) : M F S A := GuestTpm.with_Tss2Ctx body.
End Wrapper.

(** ** Its errors *)

(** An exception of tpm2-tss carries the code of a failure; the others are runtime errors, or say that
    memory ran out. *)
Definition tpm_error (e : exn) : Prop :=
  match e with Tss2Exception _ rc => rc <> TSS2_RC_SUCCESS | RuntimeError _ | LengthError _ => True | _ => False end.
(** What the client relies on *)
Class TpmErrors (F : Type -> Type) (S : Type) `{TssWrapper F S} : Prop :=
  tpm_errors : Tpm.all_operations (fun A (m : M F S A) => throws tpm_error m).

Lemma tpm_error_check rc d : (rc =? TSS2_RC_SUCCESS) = false -> tpm_error (tss2_exception d rc).
Proof. intros H. by apply Z.eqb_neq in H. Qed.
Lemma throws_for_each {E S A} X (l : list A) (m : A -> M E S unit) :
  (forall a, throws X (m a)) -> throws X (for_each l m).
Proof. intros Hm. induction l; cbn [for_each]; throws_go. Qed.
Lemma othrows_pcr_mask n m l : othrows tpm_error (TpmUtil.pcr_mask n m l).
Proof.
  revert m. induction l as [|p l IH]; intros m; cbn [TpmUtil.pcr_mask]; [apply othrows_ret|].
  destruct (_ || _); [by apply othrows_throw|]. destruct (32 <=? index p); [done|apply IH].
Qed.
Lemma othrows_append_digests l n ds : othrows tpm_error (TpmUtil.append_digests l n ds).
Proof.
  revert l n. induction ds as [|d ds IH]; intros l n; cbn [TpmUtil.append_digests]; [apply othrows_ret|].
  destruct (l !! n); [apply IH|done].
Qed.
Lemma othrows_clear_octets a b n : othrows tpm_error (TpmUtil.clear_octets a b n).
Proof. unfold TpmUtil.clear_octets. by destruct (_ <? _). Qed.
Lemma othrows_hash_alg a : othrows tpm_error (TpmUtil.GetTssHashAlg a).
Proof. destruct a; by intros e [= <-]. Qed.
Lemma othrows_tpm_resize l n : othrows tpm_error (resize l n).
Proof. by apply othrows_resize. Qed.
#[local] Hint Resolve tpm_error_check othrows_tpm_resize othrows_pcr_mask othrows_append_digests othrows_clear_octets othrows_hash_alg : throws.
#[local] Hint Extern 1 (tpm_error (RuntimeError _)) => exact I : throws.
#[local] Hint Extern 1 (tpm_error (runtime_error _)) => exact I : throws.
#[local] Hint Extern 1 (tpm_error (openssl_exception _ _)) => exact I : throws.
#[local] Hint Extern 1 (tpm_error GuestTpm.FileNotFound) => exact I : throws.

Section Errors.
Context {F : Type -> Type} `{EsysCall -< F} `{OsslCall -< F} `{FileCall -< F} `{Fuel}.
Import TpmUtil TpmSession GuestTpm.

Section Util.
Context {S : Type} `{Handler F S}.
Lemma throws_check ret d : throws tpm_error (check (F := F) (S := S) ret d).
Proof. apply throws_require. apply tpm_error_check. Qed.
Hint Resolve throws_check : throws.
Lemma throws_HandleToEsys {A} h (k : Z -> M F S A) :
  (forall x, throws tpm_error (k x)) -> throws tpm_error (HandleToEsys h k).
Proof. intros Hk. unfold HandleToEsys. throws_go. Qed.
Lemma throws_nv_read n nv data sz o : throws tpm_error (nv_read_loop (S := S) n nv data sz o).
Proof.
  revert data sz o. induction n as [|n IH]; intros data sz o; cbn [nv_read_loop]; throws_go.
Qed.
Lemma throws_nv_write n nv data sz o : throws tpm_error (nv_write_loop (S := S) n nv data sz o).
Proof.
  revert data sz o. induction n as [|n IH]; intros data sz o; cbn [nv_write_loop]; throws_go.
Qed.
Hint Resolve throws_nv_read throws_nv_write : throws.
Lemma throws_NvRead i : throws tpm_error (NvRead (S := S) i).
Proof. apply throws_HandleToEsys. intros x. throws_go. Qed.
Lemma throws_NvWrite i d : throws tpm_error (NvWrite (S := S) i d).
Proof. apply throws_HandleToEsys. intros x. throws_go. Qed.
Lemma throws_NvUndefineSpace i : throws tpm_error (NvUndefineSpace (S := S) i).
Proof. apply throws_HandleToEsys. intros x. throws_go. Qed.
Lemma throws_NvDefineSpace i n : throws tpm_error (NvDefineSpace (S := S) i n).
Proof. unfold NvDefineSpace. throws_go. Qed.
Lemma throws_GetPublicObject i : throws tpm_error (GetPublicObject (S := S) i).
Proof. apply throws_HandleToEsys. intros x. throws_go. Qed.
Lemma throws_GetTssPcrSelection s a : throws tpm_error (GetTssPcrSelection (S := S) s a).
Proof. unfold GetTssPcrSelection, GetPcrCount. throws_go. Qed.
Lemma throws_GeneratePcrDigest s a : throws tpm_error (GeneratePcrDigest (S := S) s a).
Proof.
  unfold GeneratePcrDigest, check_ssl, get_openssl_err. throws_go. apply throws_for_each. intros p. throws_go.
Qed.
Lemma throws_pcr_read n sel l c m : throws tpm_error (pcr_read_loop (S := S) n sel l c m).
Proof. revert sel l c m. induction n as [|n IH]; intros sel l c m; cbn [pcr_read_loop]; throws_go. Qed.
Lemma throws_Flush h : throws tpm_error (FlushObjectContext (S := S) h).
Proof. unfold FlushObjectContext. throws_go. Qed.
End Util.
#[local] Hint Resolve throws_check throws_NvRead throws_NvWrite throws_NvUndefineSpace throws_NvDefineSpace
  throws_GetPublicObject throws_GetTssPcrSelection throws_GeneratePcrDigest throws_pcr_read throws_Flush : throws.

Section Wrapper.
Context {S : Type} `{Handler F S}.
Lemma throws_check_s ret d : throws tpm_error (check_s (F := F) (S := S) ret d).
Proof. apply throws_require. apply tpm_error_check. Qed.
Lemma throws_local {X A} (f : S * Z -> A) (g : S * Z -> S * Z) :
  throws X (fun s => Res (Ret (f s)) (g s) [] : result F (S * Z) A).
Proof. by intros s e. Qed.
Lemma throws_get_local X : throws X (get_local (F := F) (S := S) (L := Z)).
Proof. apply throws_local. Qed.
Lemma throws_put_local X l : throws X (put_local (F := F) (S := S) (L := Z) l).
Proof. by intros s e. Qed.
Hint Resolve throws_check_s throws_get_local throws_put_local : throws.
Lemma throws_Start t : throws tpm_error (Start (S := S) t).
Proof. unfold Start. throws_go. Qed.
Lemma throws_Flush_session : throws tpm_error (TpmSession.Flush (F := F) (S := S)).
Proof. unfold TpmSession.Flush. throws_go. Qed.
Hint Resolve throws_Start throws_Flush_session : throws.
Lemma throws_Restart t : throws tpm_error (Restart (S := S) t).
Proof. unfold Restart. throws_go. Qed.
Lemma throws_PolicySecret a : throws tpm_error (PolicySecret (S := S) a).
Proof. unfold PolicySecret. throws_go. Qed.
Lemma throws_PolicyPcr d s : throws tpm_error (PolicyPcr (S := S) d s).
Proof. unfold PolicyPcr. throws_go. Qed.
Lemma throws_GetDigest : throws tpm_error (GetDigest (S := S)).
Proof. unfold GetDigest. throws_go. Qed.
Hint Resolve throws_Restart throws_PolicySecret throws_PolicyPcr throws_GetDigest : throws.
Lemma throws_policy_digest s : throws tpm_error (GetEphemeralKeyPolicyDigest (S := S) s).
Proof. unfold GetEphemeralKeyPolicyDigest. throws_go. apply throws_scoped. throws_go. Qed.
Hint Resolve throws_policy_digest : throws.
Lemma throws_CreateEphemeralKey s : throws tpm_error (CreateEphemeralKey (S := S) s).
Proof. unfold CreateEphemeralKey, PopulateEphemeralKeyPublicTemplate. throws_go. Qed.
(** A handler of "no such handle" that goes on without a call *)
Lemma throws_or_default {A} (m : M F S A) (d : A) :
  throws tpm_error m ->
  throws tpm_error (try_catch m (fun e => if is_no_handle e then Some (mret d) else None)).
Proof.
  intros Hm. apply throws_try; [done|]. intros e k. destruct (is_no_handle e); [|done].
  intros [= <-]. apply throws_ret.
Qed.
Lemma throws_GenerateEk : throws tpm_error (GenerateEk (F := F) (S := S)).
Proof.
  unfold GenerateEk. apply throws_bind; [|intros inPub; throws_go]. unfold PopulateEkPublicInput.
  apply throws_bind; [|intros inPub]; apply throws_or_default; unfold copy_nonce; throws_go.
Qed.
Lemma throws_GenerateEkFromSpec b : throws tpm_error (GenerateEkFromSpec (F := F) (S := S) b).
Proof. unfold GenerateEkFromSpec. throws_go. Qed.
Lemma throws_marshal p : throws tpm_error (CheckAndMarshalEkPub (S := S) p).
Proof. unfold CheckAndMarshalEkPub. throws_go. Qed.
Hint Resolve throws_CreateEphemeralKey throws_GenerateEk throws_GenerateEkFromSpec throws_marshal : throws.
Lemma throws_GetEkPub : throws tpm_error (GetEkPub (F := F) (S := S)).
Proof.
  unfold GetEkPub. apply throws_try; [throws_go|]. intros e k. destruct (is_std_exception e); [|done].
  intros [= <-]. unfold GenerateAndPersistEk. throws_go.
Qed.
Lemma throws_certified p h : throws tpm_error (GetCertifiedKeyAndFlushHandle (F := F) (S := S) p h).
Proof.
  apply throws_HandleToEsys. intros x. throws_go.
Qed.
Lemma throws_unseal_session s a u : throws tpm_error (unseal_session (S := S) s a u).
Proof. unfold unseal_session, GetHandle. throws_go. Qed.
Hint Resolve throws_unseal_session : throws.
Lemma throws_UnsealInternal h p1 p2 p3 s a u :
  throws tpm_error (UnsealInternal (F := F) (S := S) h p1 p2 p3 s a u).
Proof.
  unfold UnsealInternal. throws_go. apply throws_scoped. unfold import_object, GetHandle. throws_go.
Qed.
Lemma throws_start_pcr_session s h : throws tpm_error (start_pcr_session (F := F) (S := S) s h).
Proof.
  unfold start_pcr_session. apply (throws_caught tpm_error tpm_error); [throws_go|]. intros e He. cbn beta. throws_go.
Qed.
Lemma throws_Decrypt s c w a : throws tpm_error (DecryptWithEphemeralKey (F := F) (S := S) s c w a).
Proof.
  pose proof throws_start_pcr_session as Hstart. unfold DecryptWithEphemeralKey. throws_go.
  apply throws_scoped. unfold GetHandle. throws_go.
Qed.

#[export] Instance Tss2Wrapper_errors : TpmErrors F S.
Proof.
  pose proof throws_UnsealInternal as Hunseal. pose proof throws_certified as Hcert.
  unfold TpmErrors, Tpm.all_operations. split_and!.
  - apply throws_NvRead.
  - apply throws_GetPublicObject.
  - intros l a. apply throws_HandleToEsys. intros x. throws_go.
  - intros l a. unfold Tpm.GetPCRValues. cbn. unfold GetPCRValues, PopulateCurrentPcrs. throws_go.
  - cbn. unfold GetTcgLog, GetTcgLogFromFile. throws_go.
  - cbn. unfold GetEkPubWithoutPersisting. throws_go.
  - apply throws_GetEkPub.
  - apply throws_NvRead.
  - cbn. unfold GetVersion. throws_go.
  - intros. apply throws_HandleToEsys. auto.
  - intros. cbn. unfold UnsealWithEkFromSpec. throws_go.
  - cbn. unfold RemovePersistentEk. throws_go.
  - intros. cbn. unfold UnpackAiKPubToRSA. throws_go.
  - intros. cbn. unfold UnpackPcrQuoteToRSA. throws_go.
  - intros. cbn. unfold GetEphemeralKey. throws_go.
  - apply throws_Decrypt.
  - intros. cbn. unfold WriteAikCert. throws_go.
  - apply throws_NvRead.
  - cbn. unfold GetEkPubWithCertification. throws_go.
Qed.
End Wrapper.
End Errors.

(** C31: Whatever the TPM, OpenSSL and the file system answer, what an operation of [Tpm] throws, with
    the making of its context, is an exception the client knows how to report: one of tpm2-tss, and
    then with the code of a failure, never of success, or a runtime or length error. *)
Theorem tpm_errors_coded {F : Type -> Type} {S : Type} `{Handler F S} `{EsysCall -< F} `{OsslCall -< F}
    `{FileCall -< F} `{Fuel} :
  Tpm.all_operations (fun A (m : M F S A) => throws tpm_error (with_Tpm m)).
Proof.
  assert (Hctx : forall A (m : M F S A), throws tpm_error m -> throws tpm_error (with_Tpm m)).
  { intros A m Hm. pose proof (throws_check (F := F) (S := S)) as Hc.
    unfold with_Tpm, GuestTpm.with_Tss2Ctx, GuestTpm.InitializeTcti. throws_go. }
  pose proof Tss2Wrapper_errors as He. unfold TpmErrors, Tpm.all_operations in *.
  destruct_and! He. split_and!; intros; apply Hctx; auto.
Qed.
