(* ===== verification/HclReport.v ===== *)
(** * HCL reports

    HwVmReport.h (azure-protected-vm-secrets/external/attestation) and SnpVmReport.h
    of the client library lay out packed structures over the bytes of a report; here
    a structure is its list of fields with their sizes, and a field is read at its
    offset. The two HclReportParser.cpp are [AzureHcl] and [ClientHcl]. Neither
    compares anything with the size of the buffer: a read past it is undefined. *)

From S2P Require Import Prelude Ossl Digest.
#[local] Open Scope Z_scope.

(** A packed structure: names and sizes in order. *)
Definition layout := list (string * Z).
Fixpoint sizeof (l : layout) : Z :=
  match l with [] => 0 | (_, n) :: l' => n + sizeof l' end.
Fixpoint offsetof (l : layout) (f : string) : Z :=
  match l with
  | [] => 0
  | (g, n) :: l' => if String.eqb f g then 0 else n + offsetof l' f
  end.
Fixpoint field_size (l : layout) (f : string) : Z :=
  match l with
  | [] => 0
  | (g, n) :: l' => if String.eqb f g then n else field_size l' f
  end.

Definition SNP_SIGNATURE : layout := [("RComponent", 72); ("SComponent", 72); ("RSVD", 368)]%string.
Definition SNP_VM_REPORT : layout :=
  [("SnpVersion", 4); ("SnpGuestSvn", 4); ("SnpPolicy", 8); ("SnpFamilyId", 16);
   ("SnpImageId", 16); ("SnpVMPL", 4); ("SnpSignatureAlgo", 4); ("SnpPlatformVersion", 8);
   ("SnpPlatformInfo", 8); ("SnpReportFlags", 4); ("SnpReserved1", 4); ("SnpReportData", 64);
   ("SnpMeasurement", 48); ("SnpHostData", 32); ("SnpIdKeyDigest", 48);
   ("SnpAuthorKeyDigest", 48); ("SnpReportId", 32); ("SnpReportIdMa", 32);
   ("SnpReportedTcb", 8); ("SnpReserved2", 24); ("SnpChipId", 64); ("SnpCommittedSvn", 8);
   ("SnpCommittedVersion", 8); ("SnpLaunchSvn", 8); ("SnpReserved3", 168);
   ("SnpSignature", sizeof SNP_SIGNATURE)]%string.
Definition TDX_REPORTMAC : layout :=
  [("ReportType", 1); ("ReportSubType", 1); ("ReportVersion", 1); ("ReservedTypeMbz", 1);
   ("ReservedMbz1", 12); ("CpuSvn", 16); ("TeeTcbInfoHash", 48); ("TeeInfoHash", 48);
   ("ReportData", 64); ("ReservedMbz2", 32); ("Mac", 32)]%string.
Definition TDX_TEE_TCB_INFO : layout :=
  [("TeeValid", 8); ("TeeTcbSvn", 16); ("TeeMrSeam", 48); ("TeeMrSeamSigner", 48);
   ("TeeAttributes", 8); ("TeeTcbSvn2", 16); ("TeeReserved", 95)]%string.
Definition TDX_RTMR : layout := [("RegisterData", 48)]%string.
Definition TDX_TDINFO : layout :=
  [("Attributes", 8); ("XFAM", 8); ("Mrtd", 48); ("MrConfigId", 48); ("MrOwner", 48);
   ("MrOwnerConfig", 48); ("RTRM", 4 * sizeof TDX_RTMR); ("ServTd", 48);
   ("ReservedMbz", 64)]%string.
Definition TDX_VM_REPORT : layout :=
  [("TdxReportMac", sizeof TDX_REPORTMAC); ("TdxTeeTcbInfo", sizeof TDX_TEE_TCB_INFO);
   ("TdxReserved", 17); ("TdxTdInfo", sizeof TDX_TDINFO)]%string.
(** [HW_ATTESTATION] is a union: all members at offset 0. *)
Definition HW_ATTESTATION_size : Z := Z.max (sizeof SNP_VM_REPORT) (sizeof TDX_VM_REPORT).
Definition HW_ATTESTATION_size_client : Z := sizeof SNP_VM_REPORT.

(** [VariableData] is a flexible array at the end. *)
Definition IGVM_REQUEST_DATA : layout :=
  [("DataSize", 4); ("Version", 4); ("ReportType", 4); ("ReportDataHashType", 4);
   ("VariableDataSize", 4); ("VariableData", 0)]%string.
Definition ATTESTATION_HEADER : layout :=
  [("Signature", 4); ("Version", 4); ("ReportSize", 4); ("RequestType", 4);
   ("Reserved", 16)]%string.
Definition ATTESTATION_REPORT (hw : Z) : layout :=
  [("Header", sizeof ATTESTATION_HEADER); ("HwReport", hw);
   ("HclData", sizeof IGVM_REQUEST_DATA)]%string.

Inductive IGVM_REPORT_TYPE := InvalidReport | ReservedReportType | SnpVmReport | TvmReport
                            | TdxVmReport.
Definition report_type_of (z : Z) : option IGVM_REPORT_TYPE :=
  match z with
  | 0 => Some InvalidReport | 1 => Some ReservedReportType | 2 => Some SnpVmReport
  | 3 => Some TvmReport | 4 => Some TdxVmReport | _ => None
  end.
Inductive IGVM_HASH_TYPE := InvalidHash | Sha256Hash | Sha384Hash | Sha512Hash.
Definition hash_type_of (z : Z) : option IGVM_HASH_TYPE :=
  match z with
  | 0 => Some InvalidHash | 1 => Some Sha256Hash | 2 => Some Sha384Hash | 3 => Some Sha512Hash
  | _ => None
  end.

(** [attestation_report->HclData.f], with a hardware report of [hw] bytes. *)
Definition hw_offset (hw : Z) : Z := offsetof (ATTESTATION_REPORT hw) "HwReport".
Definition hcl_offset (hw : Z) (f : string) : Z :=
  offsetof (ATTESTATION_REPORT hw) "HclData" + offsetof IGVM_REQUEST_DATA f.
Definition variable_data (hw : Z) (buf : bytes) : outcome bytes :=
  n ← read_u32 buf (hcl_offset hw "VariableDataSize");
  read_bytes buf (hcl_offset hw "VariableData") n.

Module AzureHcl.

Definition report_data (buf : bytes) (t : IGVM_REPORT_TYPE) : option (outcome bytes) :=
  let hw := hw_offset HW_ATTESTATION_size in
  match t with
  | TdxVmReport =>
      Some (read_bytes buf (hw + offsetof TDX_VM_REPORT "TdxReportMac"
                               + offsetof TDX_REPORTMAC "ReportData")
                       (field_size TDX_REPORTMAC "ReportData"))
  | SnpVmReport =>
      Some (read_bytes buf (hw + offsetof SNP_VM_REPORT "SnpReportData")
                       (field_size SNP_VM_REPORT "SnpReportData"))
  | _ => None
  end.

Definition hash_size (h : IGVM_HASH_TYPE) : option Z :=
  match h with
  | Sha256Hash => Some Hkdf.SHA256_HASH_SIZE
  | Sha384Hash => Some Hkdf.SHA384_HASH_SIZE
  | Sha512Hash => Some Hkdf.SHA512_HASH_SIZE
  | InvalidHash => None
  end.

Section Parser.
Context {F : Type -> Type} {S : Type} `{Handler F S} `{OsslCall -< F}.

Definition IsValidHclReport (hclReport : bytes) : M F S bool :=
  try_all (
    t ← lift (read_u32 hclReport (hcl_offset HW_ATTESTATION_size "ReportType"));
    match report_type_of t ≫= report_data hclReport with
    | None => mret false
    | Some rpt =>
        rpt_data ← lift rpt;
        variable_data ← lift (variable_data HW_ATTESTATION_size hclReport);
        h ← lift (read_u32 hclReport (hcl_offset HW_ATTESTATION_size "ReportDataHashType"));
        match hash_type_of h ≫= hash_size with
        | None => mret false
        | Some n =>
            let reportedHash := take (Z.to_nat n) rpt_data in
            report_hash ← Hkdf.OsslSha variable_data n;
            mret (bool_decide (report_hash = reportedHash))
        end
    end)
  (fun _ => mret false).
End Parser.
End AzureHcl.

Module ClientHcl.
(** [Ret None] is [ERROR_HCL_REPORT_EMPTY]. The catch-all around the casts has nothing
    to catch but a failed allocation. *)
Definition ExtractSnpReportAndRuntimeDataFromHclReport (hcl_report : bytes)
  : outcome (option (bytes * bytes)) :=
  match hcl_report with
  | [] => Ret None
  | _ =>
      snp_rpt ← read_bytes hcl_report (hw_offset HW_ATTESTATION_size_client) (sizeof SNP_VM_REPORT);
      data ← variable_data HW_ATTESTATION_size_client hcl_report;
      Ret (Some (snp_rpt, data))
  end.
End ClientHcl.

(** ** Facts *)

Lemma layout_sizes :
  sizeof SNP_VM_REPORT = 1184 /\ sizeof TDX_REPORTMAC = 256 /\ sizeof TDX_VM_REPORT = 1024 /\
  offsetof SNP_VM_REPORT "SnpReportData" = 80 /\ offsetof TDX_REPORTMAC "ReportData" = 128 /\
  hw_offset HW_ATTESTATION_size = 32 /\ hcl_offset HW_ATTESTATION_size "ReportType" = 1224 /\
  hcl_offset HW_ATTESTATION_size "ReportDataHashType" = 1228 /\
  hcl_offset HW_ATTESTATION_size "VariableDataSize" = 1232 /\
  hcl_offset HW_ATTESTATION_size "VariableData" = 1236.
Proof. by vm_compute. Qed.


(** The fields of a report, as long as they are inside the buffer. *)
Record fields (buf : bytes) (t : IGVM_REPORT_TYPE) (h : IGVM_HASH_TYPE) (rd vd : bytes) : Prop := {
  f_type : (z ← read_u32 buf (hcl_offset HW_ATTESTATION_size "ReportType");
            Ret (report_type_of z)) = Ret (Some t);
  f_data : AzureHcl.report_data buf t = Some (Ret rd);
  f_var : variable_data HW_ATTESTATION_size buf = Ret vd;
  f_hash : (z ← read_u32 buf (hcl_offset HW_ATTESTATION_size "ReportDataHashType");
            Ret (hash_type_of z)) = Ret (Some h) }.

Lemma outcome_map_ret {A B} (m : outcome A) (f : A -> B) b :
  (a ← m; Ret (f a)) = Ret b -> exists a, m = Ret a /\ f a = b.
Proof. destruct m; simpl; try discriminate. intros [= <-]. eauto. Qed.

Section Facts.
Context {F : Type -> Type} {S : Type} `{Handler F S} `{OsslCall -< F}.

Lemma valid_run buf t h rd vd n (s : S) : fields buf t h rd vd -> AzureHcl.hash_size h = Some n ->
  AzureHcl.IsValidHclReport buf s =
  try_all (report_hash ← Hkdf.OsslSha vd n;
           mret (bool_decide (report_hash = take (Z.to_nat n) rd))) (fun _ => mret false) s.
Proof.
  intros [Ht Hd Hv Hh] Hn. apply outcome_map_ret in Ht as (z & Hz & Ht).
  apply outcome_map_ret in Hh as (z' & Hz' & Hh).
  unfold AzureHcl.IsValidHclReport, try_all, try_catch.
  rewrite Hz, Hv, Hz', (bind_pure (lift (Ret z)) _ s z eq_refl), Ht. cbn [mbind option_bind].
  rewrite Hd, (bind_pure (lift (Ret rd)) _ s rd eq_refl), (bind_pure (lift (Ret vd)) _ s vd eq_refl),
    (bind_pure (lift (Ret z')) _ s z' eq_refl), Hh. cbn [mbind option_bind]. by rewrite Hn.
Qed.
End Facts.

(** ** The properties *)

Section Properties.
Context {F : Type -> Type} {S : Type} `{Handler F S} `{OsslCall -< F}.

(** A report whose fields lie inside the buffer is valid exactly when the first bytes
    of the hardware report data are the digest of the variable data under the announced
    algorithm; so two valid reports with the same hardware data and algorithm carry
    variable data with the same digest. *)
Theorem hcl_valid_iff `{!DigestLaws F S} (s s' : S) buf buf' t t' h rd vd vd' n m :
  fields buf t h rd vd -> fields buf' t' h rd vd' -> AzureHcl.hash_size h = Some n ->
  Hkdf.hash_md n = Some m ->
  res (AzureHcl.IsValidHclReport buf s) = Ret (bool_decide (hash_of m vd = take (Z.to_nat n) rd)) /\
  (res (AzureHcl.IsValidHclReport buf s) = Ret true ->
   res (AzureHcl.IsValidHclReport buf' s') = Ret true -> hash_of m vd = hash_of m vd').
Proof.
  assert (Hd : forall s b t vd, fields b t h rd vd -> AzureHcl.hash_size h = Some n ->
    Hkdf.hash_md n = Some m ->
    res (AzureHcl.IsValidHclReport b s) = Ret (bool_decide (hash_of m vd = take (Z.to_nat n) rd))).
  { intros s0 b t0 v Hf Hn Hm. rewrite (valid_run b t0 h rd v n s0 Hf Hn).
    apply (wp_try _ (fun _ => Some (mret false)) s0
             (fun o _ _ => o = Ret (bool_decide (hash_of m v = take (Z.to_nat n) rd)))).
    apply wp_bind. eapply wp_OsslSha; [done|]. intros s1 t1. by apply wp_ret. }
  intros Hf Hf' Hn Hm. rewrite (Hd s buf t vd), (Hd s' buf' t' vd') by done. split; [done|].
  by intros [= ->%bool_decide_eq_true] [= ->%bool_decide_eq_true].
Qed.

(** Every report type but SNP and TDX, and every hash type but the three SHA-2, is
    refused without computing a digest, whatever OpenSSL would answer. *)
Theorem hcl_unsupported (s : S) buf z :
  read_u32 buf (hcl_offset HW_ATTESTATION_size "ReportType") = Ret z ->
  (z <> 2 /\ z <> 4 -> AzureHcl.IsValidHclReport buf s = Res (Ret false) s []) /\
  (forall t rd vd z', report_type_of z = Some t -> AzureHcl.report_data buf t = Some (Ret rd) ->
     variable_data HW_ATTESTATION_size buf = Ret vd ->
     read_u32 buf (hcl_offset HW_ATTESTATION_size "ReportDataHashType") = Ret z' ->
     z' <> 1 /\ z' <> 2 /\ z' <> 3 -> AzureHcl.IsValidHclReport buf s = Res (Ret false) s []).
Proof.
  intros Hz. unfold AzureHcl.IsValidHclReport, try_all, try_catch. rewrite Hz.
  rewrite (bind_pure (lift (Ret z)) _ s z eq_refl). split.
  - intros [H2 H4].
    assert (Hn : report_type_of z ≫= AzureHcl.report_data buf = None).
    { unfold report_type_of. repeat case_match; simpl; try done; lia. }
    by rewrite Hn.
  - intros t rd vd z' Ht Hd Hv Hz' Hne. rewrite Ht. cbn [mbind option_bind]. rewrite Hd, Hv, Hz'.
    rewrite (bind_pure (lift (Ret rd)) _ s rd eq_refl), (bind_pure (lift (Ret vd)) _ s vd eq_refl),
      (bind_pure (lift (Ret z')) _ s z' eq_refl).
    assert (Hn : hash_type_of z' ≫= AzureHcl.hash_size = None).
    { unfold hash_type_of. repeat case_match; simpl; try done; lia. }
    by rewrite Hn.
Qed.

(** A supported report type and a buffer shorter than the fixed part, or a
    [VariableDataSize] that points past the end, makes both parsers read past the end of
    the buffer. *)
Theorem hcl_overread (s : S) buf z n :
  (size buf < hcl_offset HW_ATTESTATION_size "ReportType" + 4 ->
   res (AzureHcl.IsValidHclReport buf s) = Fault UndefinedBehaviour /\
   (buf <> [] -> ClientHcl.ExtractSnpReportAndRuntimeDataFromHclReport buf = Fault UndefinedBehaviour)) /\
  (read_u32 buf (hcl_offset HW_ATTESTATION_size "ReportType") = Ret z -> z = 2 \/ z = 4 ->
   read_u32 buf (hcl_offset HW_ATTESTATION_size "VariableDataSize") = Ret n ->
   size buf < hcl_offset HW_ATTESTATION_size "VariableData" + n ->
   res (AzureHcl.IsValidHclReport buf s) = Fault UndefinedBehaviour /\
   ClientHcl.ExtractSnpReportAndRuntimeDataFromHclReport buf = Fault UndefinedBehaviour).
Proof.
  destruct layout_sizes as (E1 & E2 & E3 & E4 & E5 & E6 & E7 & E8 & E9 & E10).
  assert (Hc : forall f, hcl_offset HW_ATTESTATION_size_client f = hcl_offset HW_ATTESTATION_size f)
    by done.
  assert (Hu : forall o, size buf < o + 4 -> read_u32 buf o = Fault UndefinedBehaviour).
  { intros o Ho. unfold read_u32. by rewrite read_bytes_fault. }
  split.
  - intros Hs. split.
    + unfold AzureHcl.IsValidHclReport. rewrite (Hu _ Hs). reflexivity.
    + unfold ClientHcl.ExtractSnpReportAndRuntimeDataFromHclReport, variable_data. intros Hne.
      rewrite E7 in Hs.
      rewrite (Hu (hcl_offset HW_ATTESTATION_size_client "VariableDataSize")) by (rewrite Hc, E9; lia). destruct buf; [done|].
      destruct (read_bytes _ (hw_offset _) _) eqn:Er; [done| |].
      * exfalso. by eapply read_bytes_no_throw.
      * unfold read_bytes in Er. by case_match; simplify_eq.
  - intros Hz Ht Hn Hs.
    assert (Hv : variable_data HW_ATTESTATION_size buf = Fault UndefinedBehaviour).
    { unfold variable_data. rewrite Hn. simpl. by apply read_bytes_fault. }
    assert (Hsz : hcl_offset HW_ATTESTATION_size "VariableDataSize" + 4 <= size buf).
    { destruct (decide (size buf < hcl_offset HW_ATTESTATION_size "VariableDataSize" + 4)); [|lia].
      rewrite Hu in Hn by done. discriminate. }
    split.
    + unfold AzureHcl.IsValidHclReport, try_all, try_catch.
      rewrite Hz, Hv, (bind_pure (lift (Ret z)) _ s z eq_refl).
      destruct Ht as [-> | ->]; cbn [report_type_of mbind option_bind AzureHcl.report_data];
        rewrite read_bytes_ok; try done; rewrite ?E4, ?E5, E6; rewrite E9 in Hsz;
        vm_compute (field_size _ _); change (offsetof TDX_VM_REPORT "TdxReportMac") with 0; lia.
    + unfold ClientHcl.ExtractSnpReportAndRuntimeDataFromHclReport.
      change (variable_data HW_ATTESTATION_size_client buf)
        with (variable_data HW_ATTESTATION_size buf). rewrite Hv.
      destruct buf; [exfalso; rewrite E9 in Hsz; unfold size in Hsz; simpl in Hsz; lia|].
      rewrite read_bytes_ok; [done|].
      change (hw_offset HW_ATTESTATION_size_client) with (hw_offset HW_ATTESTATION_size). lia.
Qed.

(** On an SNP report inside the buffer the two parsers agree: the runtime data the
    client extracts is the data whose digest the secrets library checks, and the hardware
    report it extracts holds the report data that digest is compared with. *)
Theorem hcl_parsers_agree buf h rd vd :
  fields buf SnpVmReport h rd vd ->
  exists snp, ClientHcl.ExtractSnpReportAndRuntimeDataFromHclReport buf = Ret (Some (snp, vd)) /\
    size snp = sizeof SNP_VM_REPORT /\
    rd = take (Z.to_nat (field_size SNP_VM_REPORT "SnpReportData"))
           (drop (Z.to_nat (offsetof SNP_VM_REPORT "SnpReportData")) snp).
Proof.
  intros [_ Hd Hv _]. destruct layout_sizes as (E1 & E2 & E3 & E4 & E5 & E6 & E7 & E8 & E9 & E10).
  assert (Hs : 1236 <= size buf).
  { unfold variable_data, read_u32, read_bytes in Hv. rewrite E9, E10 in Hv.
    destruct (1232 + 4 <=? size buf) eqn:E; [lia|discriminate]. }
  simpl in Hd. rewrite read_bytes_ok in Hd by (vm_compute (offsetof _ _);
    vm_compute (field_size _ _); vm_compute (hw_offset _); lia). injection Hd as <-.
  eexists. unfold ClientHcl.ExtractSnpReportAndRuntimeDataFromHclReport.
  change (variable_data HW_ATTESTATION_size_client buf)
    with (variable_data HW_ATTESTATION_size buf). rewrite Hv.
  destruct buf as [|b buf]; [exfalso; unfold size in Hs; simpl in Hs; lia|].
  change (hw_offset HW_ATTESTATION_size_client) with (hw_offset HW_ATTESTATION_size).
  rewrite read_bytes_ok by lia. split; [reflexivity|]. rewrite E1, E4, E6.
  change (field_size SNP_VM_REPORT "SnpReportData") with 64. split.
  - unfold size in *. rewrite length_take, length_drop. lia.
  - change (32 + 80) with 112.
    rewrite skipn_firstn_comm, drop_drop, take_take. reflexivity.
Qed.
End Properties.

(** *** Witnesses: a report built field by field *)

(** The report of type [t] and hash type [h], whose hardware report data starts with [rd],
    with variable data [vd] announced as [n] bytes. *)
Definition demo_report (t h n : Z) (rd vd : bytes) : bytes :=
  replicate 32 x00 ++ replicate 80 x00 ++ take 64 (rd ++ replicate 64 x00) ++ replicate 1040 x00 ++
  u32_bytes 0 ++ u32_bytes 1 ++ u32_bytes t ++ u32_bytes h ++ u32_bytes n ++ vd.
Definition demo_vd : bytes := str "runtime data".
Definition demo_rd : bytes := take 64 (pad_hash SHA256 demo_vd ++ replicate 64 x00).
Definition demo_snp : bytes := demo_report 2 1 12 (pad_hash SHA256 demo_vd) demo_vd.

Lemma demo_fields : fields demo_snp SnpVmReport Sha256Hash demo_rd demo_vd.
Proof. split; vm_eq. Defined.

Theorem hcl_valid_iff_witness :
  res (AzureHcl.IsValidHclReport (H := digest_sim) demo_snp None) = Ret true /\
  pad_hash SHA256 demo_vd = pad_hash SHA256 demo_vd.
Proof.
  destruct (hcl_valid_iff (H := digest_sim) None None demo_snp demo_snp SnpVmReport SnpVmReport
              Sha256Hash demo_rd demo_vd demo_vd 32 SHA256 demo_fields demo_fields eq_refl eq_refl)
    as [Hv Hb].
  assert (Ht : bool_decide (pad_hash SHA256 demo_vd = take (Z.to_nat 32) demo_rd) = true) by vm_eq.
  assert (Hr : res (AzureHcl.IsValidHclReport (H := digest_sim) demo_snp None) = Ret true).
  { rewrite Hv. exact (f_equal Ret Ht). }
  split; [exact Hr|exact (Hb Hr Hr)].
Defined.

Theorem hcl_unsupported_witness :
  AzureHcl.IsValidHclReport (H := digest_sim) (demo_report 3 1 12 [] demo_vd) None
    = Res (Ret false) None [] /\
  AzureHcl.IsValidHclReport (H := digest_sim) (demo_report 2 0 12 [] demo_vd) None
    = Res (Ret false) None [].
Proof.
  assert (H3 : read_u32 (demo_report 3 1 12 [] demo_vd) (hcl_offset HW_ATTESTATION_size "ReportType")
               = Ret 3) by vm_eq.
  assert (H2 : read_u32 (demo_report 2 0 12 [] demo_vd) (hcl_offset HW_ATTESTATION_size "ReportType")
               = Ret 2) by vm_eq.
  split.
  - apply (hcl_unsupported (H := digest_sim) None _ 3 H3). lia.
  - apply (hcl_unsupported (H := digest_sim) None _ 2 H2) with
      (t := SnpVmReport) (rd := replicate 64 x00) (vd := demo_vd) (z' := 0); try vm_eq. lia.
Defined.

Theorem hcl_overread_witness :
  res (AzureHcl.IsValidHclReport (H := digest_sim) [x00] None) = Fault UndefinedBehaviour /\
  res (AzureHcl.IsValidHclReport (H := digest_sim) (demo_report 2 1 100 [] demo_vd) None)
    = Fault UndefinedBehaviour.
Proof.
  split.
  - destruct (hcl_overread (H := digest_sim) None [x00] 0 0) as [Hs _]. apply Hs.
    vm_compute. reflexivity.
  - destruct (hcl_overread (H := digest_sim) None (demo_report 2 1 100 [] demo_vd) 2 100) as [_ Hs].
    apply Hs; [vm_eq|by left|vm_eq|by vm_compute].
Defined.

Theorem hcl_parsers_agree_witness :
  exists snp, ClientHcl.ExtractSnpReportAndRuntimeDataFromHclReport demo_snp = Ret (Some (snp, demo_vd)) /\
    size snp = sizeof SNP_VM_REPORT /\
    demo_rd = take (Z.to_nat (field_size SNP_VM_REPORT "SnpReportData"))
                (drop (Z.to_nat (offsetof SNP_VM_REPORT "SnpReportData")) snp).
Proof. exact (hcl_parsers_agree demo_snp Sha256Hash demo_rd demo_vd demo_fields). Defined.
