(* ===== verification/TpmEmits.v ===== *)
(** * The calls of the TPM operations

    Whatever holds of every call to tpm2-tss, to OpenSSL and of reading a file holds of
    every call the operations of GuestTpm.v make: the client's theorems use these lemmas
    to look past the TPM. *)

From S2P Require Import Prelude Ossl Esys GuestTpm.
#[local] Open Scope Z_scope.

Section Emits.
Context {F : Type -> Type} `{EsysCall -< F} `{OsslCall -< F} `{FileCall -< F} `{Fuel}.
Variable P : event F -> Prop.
Hypothesis on_esys : forall R (e : EsysCall R) r, P (Ev (inj e) r).
Hypothesis on_ossl : forall R (e : OsslCall R) r, P (Ev (inj e) r).
Hypothesis on_file : forall R (e : FileCall R) r, P (Ev (inj e) r).
#[local] Hint Resolve on_esys on_ossl on_file : emits.

Section Util.
Context {S : Type} `{Handler F S}.
Import TpmUtil.

Lemma emits_close h : emits P (close_handle (S := S) h).
Proof. unfold close_handle. emits_go. Qed.
Lemma emits_check ret d : emits P (check (F := F) (S := S) ret d).
Proof. apply emits_require. Qed.
Hint Resolve emits_close emits_check : emits.
Lemma emits_HandleToEsys {A} h (k : Z -> M F S A) :
  (forall x, emits P (k x)) -> emits P (HandleToEsys h k).
Proof. intros Hk. unfold HandleToEsys. emits_go. Qed.
Lemma emits_nv_read n nv data sz o : emits P (nv_read_loop (S := S) n nv data sz o).
Proof.
  revert data sz o. induction n as [|n IH]; intros data sz o; simpl.
  all: destruct (sz <=? 0); emits_go.
Qed.
Lemma emits_nv_write n nv data sz o : emits P (nv_write_loop (S := S) n nv data sz o).
Proof.
  revert data sz o. induction n as [|n IH]; intros data sz o; simpl.
  all: destruct (sz <=? 0); emits_go.
Qed.
Hint Resolve emits_nv_read emits_nv_write : emits.
Lemma emits_NvRead i : emits P (NvRead (S := S) i).
Proof. apply emits_HandleToEsys. intros x. emits_go. Qed.
Lemma emits_NvWrite i d : emits P (NvWrite (S := S) i d).
Proof. apply emits_HandleToEsys. intros x. emits_go. Qed.
Lemma emits_NvUndefineSpace i : emits P (NvUndefineSpace (S := S) i).
Proof. apply emits_HandleToEsys. intros x. emits_go. Qed.
Lemma emits_NvDefineSpace i n : emits P (NvDefineSpace (S := S) i n).
Proof. unfold NvDefineSpace. emits_go. Qed.
Lemma emits_GetPublicObject i : emits P (GetPublicObject (S := S) i).
Proof. apply emits_HandleToEsys. intros x. emits_go. Qed.
Lemma emits_GetTssPcrSelection s a : emits P (GetTssPcrSelection (S := S) s a).
Proof. unfold GetTssPcrSelection, GetPcrCount. emits_go. Qed.
Lemma emits_check_ssl ret : emits P (check_ssl (S := S) ret).
Proof. unfold check_ssl, get_openssl_err. emits_go. Qed.
Hint Resolve emits_NvRead emits_NvWrite emits_NvUndefineSpace emits_NvDefineSpace
  emits_GetPublicObject emits_GetTssPcrSelection emits_check_ssl : emits.
Lemma emits_for_each {A} (l : list A) (m : A -> M F S unit) :
  (forall a, emits P (m a)) -> emits P (for_each l m).
Proof. intros Hm. induction l; simpl; emits_go. Qed.
Lemma emits_GeneratePcrDigest s a : emits P (GeneratePcrDigest (S := S) s a).
Proof.
  unfold GeneratePcrDigest, get_openssl_err. emits_go. apply emits_for_each. intros p. emits_go.
Qed.
Lemma emits_pcr_read n sel l c m : emits P (pcr_read_loop (S := S) n sel l c m).
Proof. revert sel l c m. induction n as [|n IH]; intros sel l c m; simpl; emits_go. Qed.
Hint Resolve emits_GeneratePcrDigest emits_pcr_read : emits.
Lemma emits_PopulateCurrentPcrs s : emits P (PopulateCurrentPcrs (S := S) s).
Proof. unfold PopulateCurrentPcrs. emits_go. Qed.
Lemma emits_Flush h : emits P (FlushObjectContext (S := S) h).
Proof. unfold FlushObjectContext. emits_go. Qed.
Lemma emits_destructor h : emits P (TpmSession.destructor (S := S) h).
Proof. unfold TpmSession.destructor. emits_go. Qed.
Lemma emits_get_local : emits P (get_local (F := F) (S := S) (L := Z)).
Proof. apply (emits_local _ 0). Qed.
Lemma emits_put_local l : emits P (put_local (F := F) (S := S) (L := Z) l).
Proof. apply emits_local. Qed.
End Util.
#[local] Hint Resolve emits_close emits_check emits_NvRead emits_NvWrite emits_NvUndefineSpace
  emits_NvDefineSpace emits_GetPublicObject emits_GetTssPcrSelection emits_GeneratePcrDigest
  emits_PopulateCurrentPcrs emits_Flush emits_destructor emits_get_local emits_put_local : emits.

Section Wrapper.
Context {S : Type} `{Handler F S}.
Import TpmUtil TpmSession GuestTpm.

Ltac session_go := unfold check_s; emits_go.
Lemma emits_Start t : emits P (Start (S := S) t).
Proof. unfold Start. session_go. Qed.
Lemma emits_PolicyPcr d s : emits P (PolicyPcr (S := S) d s).
Proof. unfold PolicyPcr. session_go. Qed.
Lemma emits_GetDigest : emits P (GetDigest (S := S)).
Proof. unfold GetDigest. session_go. Qed.
Hint Resolve emits_Start emits_PolicyPcr emits_GetDigest : emits.
Lemma emits_with_session {A} (m : M F (S * Z) A) : emits P m -> emits P (with_session m).
Proof. intros Hm. unfold with_session. emits_go. Qed.
Lemma emits_policy_digest s : emits P (GetEphemeralKeyPolicyDigest (S := S) s).
Proof. unfold GetEphemeralKeyPolicyDigest. emits_go. apply emits_with_session. emits_go. Qed.
Hint Resolve emits_policy_digest : emits.
Lemma emits_CreateEphemeralKey s : emits P (CreateEphemeralKey (S := S) s).
Proof. unfold CreateEphemeralKey, PopulateEphemeralKeyPublicTemplate. emits_go. Qed.
Hint Resolve emits_CreateEphemeralKey : emits.
Lemma emits_GetEphemeralKey s : emits P (GetEphemeralKey (S := S) s).
Proof.
  unfold GetEphemeralKey, GetCertifiedKeyAndFlushHandle. emits_go.
  apply emits_HandleToEsys. intros x. emits_go.
Qed.
Lemma emits_DecryptWithEphemeralKey s c w a : emits P (DecryptWithEphemeralKey (S := S) s c w a).
Proof.
  unfold DecryptWithEphemeralKey. emits_go. apply emits_with_session.
  unfold start_pcr_session, GetHandle. emits_go.
Qed.
Lemma emits_GetPCRQuote l a : emits P (GetPCRQuote (S := S) l a).
Proof. apply emits_HandleToEsys. intros x. emits_go. Qed.
Lemma emits_UnpackPcrQuoteToRSA q : emits P (UnpackPcrQuoteToRSA (S := S) q).
Proof. unfold UnpackPcrQuoteToRSA. emits_go. Qed.
Lemma emits_GetPCRValues l a : emits P (GetPCRValues (S := S) l a).
Proof. apply emits_PopulateCurrentPcrs. Qed.
Lemma emits_WriteAikCert c : emits P (WriteAikCert (S := S) c).
Proof. unfold WriteAikCert. emits_go. Qed.
Lemma emits_GetTcgLog : emits P (GetTcgLog (S := S)).
Proof. unfold GetTcgLog, GetTcgLogFromFile. emits_go. Qed.
Lemma emits_with_Tss2Ctx {A} (m : M F S A) : emits P m -> emits P (with_Tss2Ctx m).
Proof. intros Hm. unfold with_Tss2Ctx, InitializeTcti. emits_go. Qed.
End Wrapper.
End Emits.
