(* ===== verification/JsonCpp.v ===== *)
(** * The values of jsoncpp

    The client library reads and builds JSON with the [Json::Value] of the jsoncpp
    0.10.7 under src/client-library/src/external. [Value] and its accessors are those
    of src/jsoncpp.cpp, whose failed assertions throw [Json::LogicError]; objects are
    lists sorted by key. The text formats are [JsonText]: what [Json::Reader] accepts
    and [Json::writeString] prints. *)

From S2P Require Import Prelude Json.
#[local] Open Scope Z_scope.

(** A double is kept as the text [asString] prints and its value [mant * 2 ^ expo]. *)
Inductive Value :=
| nullValue
| intValue (z : Z)
| uintValue (z : Z)
| realValue (shown : bytes) (mant expo : Z)
| stringValue (s : bytes)
| booleanValue (b : bool)
| arrayValue (l : list Value)
| objectValue (l : list (bytes * Value)).

Definition logic_error {A} (w : string) : outcome A := Throw (JsoncppError (str w)).

(** [Value::find]: of an object or null; [get] and [isMember] are made of it. *)
Definition find (v : Value) (key : bytes) : outcome (option Value) :=
  match v with
  | nullValue => Ret None
  | objectValue l => Ret (obj_lookup key l)
  | _ => logic_error "in Json::Value::find(key, end, found): requires objectValue or nullValue"
  end.
Definition get (v : Value) (key : bytes) (default : Value) : outcome Value :=
  f ← find v key; Ret (match f with Some x => x | None => default end).
Definition isMember (v : Value) (key : bytes) : outcome bool :=
  f ← find v key; Ret (match f with Some _ => true | None => false end).
Definition isNull (v : Value) : bool := match v with nullValue => true | _ => false end.

(** [v[key]] of a non-const value, read: a null member is inserted where there is none,
    and the element is what is returned here. *)
Definition resolveReference (v : Value) (key : bytes) : outcome Value :=
  match v with
  | nullValue => Ret nullValue
  | objectValue l => Ret (match obj_lookup key l with Some x => x | None => nullValue end)
  | _ => logic_error "in Json::Value::resolveReference(key, end): requires objectValue"
  end.
(** [v[index]] *)
Definition at_index (v : Value) (index : nat) : outcome Value :=
  match v with
  | nullValue => Ret nullValue
  | arrayValue l => Ret (match l !! index with Some x => x | None => nullValue end)
  | _ => logic_error "in Json::Value::operator[](ArrayIndex): requires arrayValue"
  end.
(** [v[key] = x] *)
Definition assign (v : Value) (key : bytes) (x : Value) : outcome Value :=
  match v with
  | nullValue => Ret (objectValue [(key, x)])
  | objectValue l => Ret (objectValue (obj_insert key x l))
  | _ => logic_error "in Json::Value::resolveReference(key, end): requires objectValue"
  end.

Definition asString (v : Value) : outcome bytes :=
  match v with
  | nullValue => Ret []
  | stringValue s => Ret s
  | booleanValue b => Ret (if b then str "true" else str "false")
  | intValue z | uintValue z => Ret (z_text z)
  | realValue shown _ _ => Ret shown
  | arrayValue _ | objectValue _ => logic_error "Type is not convertible to string"
  end.
Definition is_int (z : Z) : bool := (- 2 ^ 31 <=? z) && (z <=? 2 ^ 31 - 1).
Definition real_in_range (m e : Z) : bool :=
  if 0 <=? e then is_int (m * 2 ^ e)
  else (- 2 ^ 31 * 2 ^ (- e) <=? m) && (m <=? (2 ^ 31 - 1) * 2 ^ (- e)).
Definition truncated (m e : Z) : Z := if 0 <=? e then m * 2 ^ e else Z.quot m (2 ^ (- e)).
Definition asInt (v : Value) : outcome Z :=
  match v with
  | intValue z => if is_int z then Ret z else logic_error "LargestInt out of Int range"
  | uintValue z => if is_int z then Ret z else logic_error "LargestUInt out of Int range"
  | realValue _ m e =>
      if real_in_range m e then Ret (truncated m e) else logic_error "double out of Int range"
  | nullValue => Ret 0
  | booleanValue b => Ret (if b then 1 else 0)
  | _ => logic_error "Value is not convertible to Int."
  end.

(** What [begin()] to [end()] visits: keys with values; an element of an array has its
    index for key; other values have no elements. *)
Definition members (v : Value) : list (Value * Value) :=
  match v with
  | objectValue l => map (fun '(k, x) => (stringValue k, x)) l
  | arrayValue l => imap (fun n x => (uintValue (Z.of_nat n), x)) l
  | _ => []
  end.

(** [get(key, "").asString()] *)
Definition get_string (v : Value) (key : string) : outcome bytes :=
  x ← get v (str key) (stringValue []); asString x.

(** What the client library has of jsoncpp's text formats: [Json::Reader::parse], which throws a
    runtime error when the text nests too deep and counts elements in an [int], and [Json::writeString].
    JsonText.v gives the instance made of the code of both. *)
Class JsonText := {
  reader_parse : bytes -> outcome (option Value);
  writeString : Value -> bytes;
  reader_errors : forall s, othrows (fun e => is_std_exception e = true) (reader_parse s);
  reader_no_fault : forall s x, size s < 2 ^ 32 - 1 -> reader_parse s <> Fault x }.

(** ** Facts *)

Lemma find_errors v k : othrows (fun e => is_std_exception e = true) (find v k).
Proof. destruct v; intros e; simpl; try discriminate; by intros [= <-]. Qed.
Lemma asString_errors v : othrows (fun e => is_std_exception e = true) (asString v).
Proof. destruct v; intros e; simpl; try discriminate; by intros [= <-]. Qed.
Lemma get_string_errors v k : othrows (fun e => is_std_exception e = true) (get_string v k).
Proof.
  unfold get_string, get. apply othrows_bind; [|intros; apply asString_errors].
  apply othrows_bind; [apply find_errors|]. intros. apply othrows_ret.
Qed.
Lemma assign_lookup v k x v' : assign v k x = Ret v' -> find v' k = Ret (Some x).
Proof.
  destruct v; simpl; try discriminate; intros [= <-]; simpl.
  - by rewrite decide_True.
  - by rewrite obj_lookup_insert.
Qed.
