(* ===== verification/JsonDouble.v ===== *)
(** * The doubles of jsoncpp

    How [Json::Reader] reads a number it does not keep as an integer, [istringstream >> double], and
    how [valueToString] prints it, with the format [%.17g]: correctly rounded conversions of the C++
    library, on exact rationals. *)

From S2P Require Import Prelude Json JsonCpp.
#[local] Open Scope Z_scope.

(** ** Reading *)

(** [num / den] to the nearest integer, ties to the even one *)
Definition round_div (num den : Z) : Z :=
  let q := num / den in
  match 2 * (num mod den) ?= den with
  | Lt => q
  | Gt => q + 1
  | Eq => if Z.even q then q else q + 1
  end.
(** [2 ^ k <= num / den] *)
Definition pow2_le (k num den : Z) : bool :=
  if 0 <=? k then den * 2 ^ k <=? num else den <=? num * 2 ^ (- k).
(** The greatest such [k] *)
Definition log2_ratio (num den : Z) : Z :=
  let k := Z.log2 num - Z.log2 den in if pow2_le k num den then k else k - 1.
(** [num / den / 2 ^ e] rounded *)
Definition scaled (num den e : Z) : Z :=
  if 0 <=? e then round_div num (den * 2 ^ e) else round_div (num * 2 ^ (- e)) den.
(** The nearest double [m * 2 ^ e], with 53 bits, or fewer below [2 ^ -1022]; none above the largest *)
Definition nearest_double (num den : Z) : option (Z * Z) :=
  if num =? 0 then Some (0, 0)
  else
    let e := Z.max (log2_ratio num den - 52) (-1074) in
    let m := scaled num den e in
    if pow2_le 1024 (m * 2 ^ Z.max e 0) (2 ^ Z.max (- e) 0) then None else Some (m, e).

(** The decimal that is all of a text: its sign, its digits and the power of ten they stand at. A
    text without digits, or without digits after its [e], is none. *)
Definition skip_minus (text : bytes) : bool * bytes :=
  match text with "-"%byte :: t => (true, t) | _ => (false, text) end.
Definition read_fraction (whole : Z) (t : bytes) : Z * bytes * nat :=
  match t with
  | "."%byte :: t => let '(n, t') := read_digits whole t in (n, t', (length t - length t')%nat)
  | _ => (whole, t, O)
  end.
Definition read_exponent (t : bytes) : option Z :=
  match t with
  | [] => Some 0
  | ("e" | "E")%byte :: t =>
      let '(minus, d) := match t with "+"%byte :: d => (false, d) | _ => skip_minus t end in
      match read_digits 0 d, d with
      | (x, []), _ :: _ => Some (if minus then - x else x)
      | _, _ => None
      end
  | _ => None
  end.
Definition scan_decimal (text : bytes) : option (bool * Z * Z) :=
  let '(neg, t0) := skip_minus text in
  let '(whole, t1) := read_digits 0 t0 in
  let '(n, t2, fraction) := read_fraction whole t1 in
  if (length t0 - length t1 + fraction =? 0)%nat then None
  else match read_exponent t2 with
       | Some x => Some (neg, n, x - Z.of_nat fraction)
       | None => None
       end.
(** [10 ^ x * n] as a quotient *)
Definition decimal_ratio (n x : Z) : Z * Z :=
  if 0 <=? x then (n * 10 ^ x, 1) else (n, 10 ^ (- x)).

(** ** Printing *)

Fixpoint skip_zeros (l : bytes) : bytes :=
  match l with c :: l' => if decide (c = "0"%byte) then skip_zeros l' else l | [] => [] end.
Definition strip_zeros (l : bytes) : bytes := reverse (skip_zeros (reverse l)).

(** The greatest [x] with [10 ^ x <= num / den]; for quotients below one, at most [n] powers *)
Fixpoint negative_log10 (n : nat) (num den : Z) : Z :=
  match n with
  | O => 0
  | S n => if den <=? num then 0 else negative_log10 n (num * 10) den - 1
  end.
Definition log10_floor (num den : Z) : Z :=
  if den <=? num then Z.of_nat (length (digits (num / den))) - 1 else negative_log10 400 num den.
Definition decimal_exponent (x : Z) : bytes :=
  let d := digits (Z.abs x) in
  (if x <? 0 then "-" else "+")%byte :: (if (length d <? 2)%nat then "0"%byte :: d else d).
(** [%.17g] of [m * 2 ^ e], for a positive [m] *)
Definition shown_positive (m e : Z) : bytes :=
  let num := m * 2 ^ Z.max e 0 in
  let den := 2 ^ Z.max (- e) 0 in
  let x0 := log10_floor num den in
  let d0 := let '(n, d) := decimal_ratio num (16 - x0) in round_div n (d * den) in
  let '(d, x) := if d0 =? 10 ^ 17 then (10 ^ 16, x0 + 1) else (d0, x0) in
  let ds := digits d in
  let pointed whole frac :=
    match strip_zeros frac with [] => whole | f => whole ++ "."%byte :: f end in
  if (x <? -4) || (17 <=? x) then
    pointed (take 1 ds) (drop 1 ds) ++ "e"%byte :: decimal_exponent x
  else if 0 <=? x then pointed (take (S (Z.to_nat x)) ds) (drop (S (Z.to_nat x)) ds)
  else pointed [("0")%byte] (replicate (Z.to_nat (- x) - 1) "0"%byte ++ ds).
(** [valueToString(value, false, 17)] *)
Definition valueToString_double (neg : bool) (m e : Z) : bytes :=
  (if neg then [("-")%byte] else []) ++ (if m =? 0 then [("0")%byte] else shown_positive m e).

(** ** [is >> value] *)
Definition stream_double (buffer : bytes) : option Value :=
  match scan_decimal buffer with
  | None => None
  | Some (neg, n, x) =>
      let '(num, den) := decimal_ratio n x in
      match nearest_double num den with
      | None => None
      | Some (m, e) => Some (realValue (valueToString_double neg m e) (if neg then - m else m) e)
      end
  end.

(** ** Facts *)

Lemma round_div_nearest num den : 0 < den -> 2 * Z.abs (round_div num den * den - num) <= den.
Proof.
  intros Hd. unfold round_div. pose proof (Z.div_mod num den ltac:(lia)) as Hdm.
  pose proof (Z.mod_pos_bound num den Hd) as Hm. set (q := num / den) in *. set (r := num mod den) in *.
  destruct (Z.compare_spec (2 * r) den); [|nia..]. destruct (Z.even q); nia.
Qed.
Lemma round_div_nonneg num den : 0 <= num -> 0 < den -> 0 <= round_div num den.
Proof.
  intros Hn Hd. pose proof (Z.div_pos num den Hn Hd). unfold round_div. repeat case_match; lia.
Qed.
Lemma round_div_le num den b : 0 < den -> num <= b * den -> round_div num den <= b.
Proof.
  intros Hd Hb. pose proof (round_div_nearest num den Hd) as H. nia.
Qed.

(** [num / den] lies below the power of two that follows [log2_ratio]. *)
Lemma log2_ratio_above num den :
  0 < num -> 0 < den ->
  num * 2 ^ Z.max (- (log2_ratio num den + 1)) 0 < den * 2 ^ Z.max (log2_ratio num den + 1) 0.
Proof.
  intros Hn Hd. unfold log2_ratio. set (k := Z.log2 num - Z.log2 den).
  destruct (Z.log2_spec num Hn) as [Hn1 Hn2]. destruct (Z.log2_spec den Hd) as [Hd1 Hd2].
  pose proof (Z.log2_nonneg num). pose proof (Z.log2_nonneg den).
  destruct (pow2_le k num den) eqn:E.
  - destruct (Z.le_gt_cases 0 (k + 1)) as [Hk|Hk].
    + rewrite (Z.max_r (- _)), (Z.max_l (k + 1)) by lia. rewrite Z.mul_1_r.
      assert (2 ^ Z.succ (Z.log2 num) = 2 ^ Z.log2 den * 2 ^ (k + 1)) by (rewrite <- Z.pow_add_r by lia; f_equal; lia).
      pose proof (Z.pow_pos_nonneg 2 (k + 1) ltac:(lia) Hk). nia.
    + rewrite (Z.max_l (- _)), (Z.max_r (k + 1)) by lia. rewrite Z.mul_1_r.
      assert (2 ^ Z.succ (Z.log2 num) * 2 ^ (- (k + 1)) = 2 ^ Z.log2 den)
        by (rewrite <- Z.pow_add_r by lia; f_equal; lia).
      pose proof (Z.pow_pos_nonneg 2 (- (k + 1)) ltac:(lia) ltac:(lia)). nia.
  - unfold pow2_le in E. replace (k - 1 + 1) with k by lia. destruct (Z.leb_spec 0 k).
    + rewrite (Z.max_r (- _)), (Z.max_l k) by lia. lia.
    + rewrite (Z.max_l (- _)), (Z.max_r k) by lia. lia.
Qed.

Definition below (k num den : Z) : Prop := num * 2 ^ Z.max (- k) 0 < den * 2 ^ Z.max k 0.
Lemma below_scaled k j num den :
  0 <= j -> 0 < den -> 0 <= num -> below k num den ->
  if 0 <=? k - j then num < 2 ^ j * (den * 2 ^ (k - j)) else num * 2 ^ (- (k - j)) < 2 ^ j * den.
Proof.
  unfold below. intros Hj Hd Hn H. destruct (Z.leb_spec 0 (k - j)).
  - rewrite (Z.max_r (- k)), (Z.max_l k) in H by lia.
    assert (E : 2 ^ k = 2 ^ j * 2 ^ (k - j)) by (rewrite <- Z.pow_add_r by lia; f_equal; lia).
    rewrite E in H. lia.
  - destruct (Z.le_gt_cases 0 k) as [Hk|Hk].
    + rewrite (Z.max_r (- k)), (Z.max_l k) in H by lia.
      assert (E : 2 ^ j = 2 ^ k * 2 ^ (- (k - j))) by (rewrite <- Z.pow_add_r by lia; f_equal; lia).
      rewrite E. pose proof (Z.pow_pos_nonneg 2 (- (k - j)) ltac:(lia) ltac:(lia)). nia.
    + rewrite (Z.max_l (- k)), (Z.max_r k) in H by lia.
      assert (E : 2 ^ (- (k - j)) = 2 ^ (- k) * 2 ^ j) by (rewrite <- Z.pow_add_r by lia; f_equal; lia).
      rewrite E. pose proof (Z.pow_pos_nonneg 2 j ltac:(lia) ltac:(lia)). nia.
Qed.
Lemma scaled_le num den e j :
  0 < den -> (if 0 <=? e then num <= 2 ^ j * (den * 2 ^ e) else num * 2 ^ (- e) <= 2 ^ j * den) ->
  scaled num den e <= 2 ^ j.
Proof.
  intros Hd H. unfold scaled. destruct (Z.leb_spec 0 e); apply round_div_le; try lia.
Qed.
Lemma mantissa_le num den :
  0 < num -> 0 < den -> scaled num den (Z.max (log2_ratio num den - 52) (-1074)) <= 2 ^ 53.
Proof.
  intros Hn Hd. pose proof (log2_ratio_above num den Hn Hd) as Hb. set (k := log2_ratio num den + 1) in *.
  fold (below k num den) in Hb. set (e := Z.max _ _).
  destruct (Z.le_gt_cases 0 (k - e)) as [Hj|Hj].
  - apply Z.le_trans with (2 ^ (k - e)); [|apply Z.pow_le_mono_r; lia]. apply scaled_le; [done|].
    pose proof (below_scaled k (k - e) num den Hj Hd ltac:(lia) Hb) as H.
    replace (k - (k - e)) with e in H by lia. destruct (0 <=? e); lia.
  - apply scaled_le; [done|]. unfold below in Hb. destruct (Z.leb_spec 0 e); [lia|].
    rewrite (Z.max_l (- k)), (Z.max_r k) in Hb by lia.
    pose proof (Z.pow_le_mono_r 2 (- e) (- k) ltac:(lia) ltac:(lia)).
    change (2 ^ 53) with 9007199254740992. nia.
Qed.

(** What [nearest_double] finds of a quotient: 53 bits, above the smallest exponent, below the
    largest double, and no farther from it than half a unit in the last place. *)
Definition nearest (num den m e : Z) : Prop :=
  let up := 2 ^ Z.max e 0 in
  let down := 2 ^ Z.max (- e) 0 in
  0 <= m <= 2 ^ 53 /\ -1074 <= e /\ m * up < 2 ^ 1024 * down /\
  2 * Z.abs (m * up * den - num * down) <= up * den.
Lemma nearest_double_nearest num den m e :
  0 <= num -> 0 < den -> nearest_double num den = Some (m, e) -> nearest num den m e.
Proof.
  intros Hn Hd. unfold nearest_double, nearest. destruct (Z.eqb_spec num 0) as [->|Hz].
  { intros [= <- <-]. cbn. lia. }
  set (e1 := Z.max _ _). set (m1 := scaled num den e1).
  destruct (pow2_le 1024 _ _) eqn:Hov; [done|]. intros [= <- <-].
  split_and!.
  - unfold m1, scaled. destruct (Z.leb_spec 0 e1); apply round_div_nonneg; try lia;
      try (apply Z.mul_pos_pos; [lia|apply Z.pow_pos_nonneg; lia]);
      try (apply Z.mul_nonneg_nonneg; [lia|apply Z.pow_nonneg; lia]).
  - apply mantissa_le; lia.
  - lia.
  - unfold pow2_le in Hov. cbn [Z.leb Z.compare] in Hov. lia.
  - unfold m1, scaled. destruct (Z.leb_spec 0 e1).
    + rewrite (Z.max_l e1), (Z.max_r (- e1)) by lia.
      pose proof (round_div_nearest num (den * 2 ^ e1)) as H1.
      assert (0 < den * 2 ^ e1) by (apply Z.mul_pos_pos; [lia|apply Z.pow_pos_nonneg; lia]). lia.
    + rewrite (Z.max_r e1), (Z.max_l (- e1)) by lia.
      pose proof (round_div_nearest (num * 2 ^ (- e1)) den Hd) as H1. lia.
Qed.

Lemma read_digits_nonneg a l : 0 <= a -> 0 <= (read_digits a l).1.
Proof.
  revert a. induction l as [|c l IH]; intros a Ha; [done|]. cbn [read_digits]. unfold is_digit.
  destruct (_ && _) eqn:E; [|done]. apply andb_true_iff in E. apply IH. lia.
Qed.
Lemma scan_decimal_nonneg text neg n x : scan_decimal text = Some (neg, n, x) -> 0 <= n.
Proof.
  unfold scan_decimal. destruct (skip_minus text) as [neg' t0].
  pose proof (read_digits_nonneg 0 t0 ltac:(lia)) as H1.
  destruct (read_digits 0 t0) as [whole t1]. cbn [fst] in H1.
  assert (H2 : 0 <= (read_fraction whole t1).1.1).
  { unfold read_fraction. destruct t1 as [|c t1]; [done|]. destruct c; try exact H1.
    pose proof (read_digits_nonneg whole t1 H1). by destruct (read_digits whole t1). }
  destruct (read_fraction whole t1) as [[n' t2] fraction]. cbn [fst] in H2.
  case_match; [done|]. destruct (read_exponent t2); [|done]. by intros [= <- <- <-].
Qed.

(** A number that is no 64-bit integer is read as the nearest double: of the decimal the text
    writes, it has the sign, at most 53 bits, and an error of at most half of the last of them; text
    that is no decimal, or too large for a double, is an error. *)
Theorem double_read_nearest text shown m e :
  stream_double text = Some (realValue shown m e) ->
  exists neg n x num den, scan_decimal text = Some (neg, n, x) /\ decimal_ratio n x = (num, den) /\
    m = (if neg then - Z.abs m else Z.abs m) /\ nearest num den (Z.abs m) e.
Proof.
  unfold stream_double. destruct (scan_decimal text) as [[[neg n] x]|] eqn:E; [|done].
  apply scan_decimal_nonneg in E as Hn.
  assert (Hr : 0 <= (decimal_ratio n x).1 /\ 0 < (decimal_ratio n x).2).
  { unfold decimal_ratio. destruct (Z.leb_spec 0 x); cbn [fst snd]; split;
      try (apply Z.mul_nonneg_nonneg; [done|apply Z.pow_nonneg; lia]); try lia. }
  destruct (decimal_ratio n x) as [num den] eqn:Er. destruct Hr as [Hnum Hden]. cbn [fst snd] in *.
  destruct (nearest_double num den) as [[m1 e1]|] eqn:Ed; [|done]. intros [= _ <- <-].
  pose proof (nearest_double_nearest _ _ _ _ Hnum Hden Ed) as Hm.
  exists neg, n, x, num, den. assert (H0 : 0 <= m1) by apply Hm.
  assert (Ha : Z.abs (if neg then - m1 else m1) = m1) by (destruct neg; lia).
  rewrite Ha. split_and!; [done|done|by destruct neg|done..].
Qed.

Theorem double_read_nearest_witness :
  stream_double (str "0.1") = Some (realValue (str "0.10000000000000001") 7205759403792794 (-56)) /\
  nearest 1 10 7205759403792794 (-56).
Proof.
  assert (Hr : stream_double (str "0.1") = Some (realValue (str "0.10000000000000001") 7205759403792794 (-56)))
    by vm_eq.
  destruct (double_read_nearest _ _ _ _ Hr) as (neg & n & x & num & den & E1 & E2 & _ & H).
  split; [exact Hr|]. assert (E : scan_decimal (str "0.1") = Some (false, 1, -1)) by vm_eq.
  rewrite E in E1. injection E1 as <- <- <-. injection E2 as <- <-. exact H.
Defined.
