(* ===== verification/JsonReader.v ===== *)
(** * The parser of jsoncpp

    [Json::Reader] of src/client-library/src/external/jsoncpp-0.10.7/src/jsoncpp.cpp, with which the
    client library reads every text the attestation service, IMDS and the caller give it.

    A [Location] is what is left of the document from there on, and [*current_] at the end of the
    document is the NUL that ends a C string. Scanners take [current_] and return it after their
    result; the methods that also count the nesting and collect errors are computations over a
    [Reader]. What the parser writes to [currentValue()] is returned. Comments are skipped: the
    code also hangs their text on the values, for a writer, and no caller prints a parsed value. *)

From S2P Require Import Prelude Json JsonCpp JsonDouble.
#[local] Open Scope Z_scope.

(** [operator*] of a location, and [++]. *)
Definition peek (cur : bytes) : byte := match cur with c :: _ => c | [] => x00 end.

(** ** Tokens *)

Inductive TokenType :=
| tokenEndOfStream | tokenObjectBegin | tokenObjectEnd | tokenArrayBegin | tokenArrayEnd
| tokenString | tokenNumber | tokenTrue | tokenFalse | tokenNull
| tokenArraySeparator | tokenMemberSeparator | tokenComment | tokenError.
#[export] Instance TokenType_eq_dec : EqDecision TokenType.
Proof. solve_decision. Defined.

Record Token := mkToken { type_ : TokenType; start_ : bytes; end_ : bytes }.
(** [std::string(token.start_, token.end_)] *)
Definition token_text (t : Token) : bytes :=
  take (length (start_ t) - length (end_ t)) (start_ t).

Definition getNextChar (cur : bytes) : byte * bytes :=
  match cur with [] => (x00, []) | c :: cur' => (c, cur') end.

Definition is_space (c : byte) : bool :=
  bool_decide (c = " "%byte) || bool_decide (c = x09) || bool_decide (c = x0d) || bool_decide (c = x0a).
Fixpoint skipSpaces (cur : bytes) : bytes :=
  match cur with c :: cur' => if is_space c then skipSpaces cur' else cur | [] => [] end.

(** [Reader::match] *)
Definition match_ (pattern : string) (cur : bytes) : bool * bytes :=
  match strip_prefix (str pattern) cur with Some cur' => (true, cur') | None => (false, cur) end.

(** The loop of [readCStyleComment] stops before the slash that ends the comment. *)
Fixpoint skip_to_star (cur : bytes) : bytes :=
  match cur with
  | c :: cur' =>
      if decide (c = "*"%byte /\ peek cur' = "/"%byte) then cur' else skip_to_star cur'
  | [] => []
  end.
Definition readCStyleComment (cur : bytes) : bool * bytes :=
  let '(c, cur') := getNextChar (skip_to_star cur) in (bool_decide (c = "/"%byte), cur').
Fixpoint readCppStyleComment (cur : bytes) : bytes :=
  match cur with
  | c :: cur' =>
      if decide (c = x0a) then cur'
      else if decide (c = x0d) then
        match cur' with d :: cur'' => if decide (d = x0a) then cur'' else cur' | [] => [] end
      else readCppStyleComment cur'
  | [] => []
  end.
Definition readComment (cur : bytes) : bool * bytes :=
  let '(c, cur') := getNextChar cur in
  if decide (c = "*"%byte) then readCStyleComment cur'
  else if decide (c = "/"%byte) then (true, readCppStyleComment cur')
  else (false, cur').

Fixpoint skip_digits (cur : bytes) : bytes :=
  match cur with c :: cur' => if is_digit c then skip_digits cur' else cur | [] => [] end.
Definition is_sign (c : byte) : bool := bool_decide (c = "+"%byte) || bool_decide (c = "-"%byte).
Definition is_exponent (c : byte) : bool := bool_decide (c = "e"%byte) || bool_decide (c = "E"%byte).
Definition readNumber (cur : bytes) : bytes :=
  let cur := skip_digits cur in
  let cur := if decide (peek cur = "."%byte) then skip_digits (tail cur) else cur in
  if is_exponent (peek cur) then
    let cur := tail cur in
    skip_digits (if is_sign (peek cur) then tail cur else cur)
  else cur.

Fixpoint readString (cur : bytes) : bool * bytes :=
  match cur with
  | c :: cur' =>
      if decide (c = x5c) then
        match cur' with _ :: cur'' => readString cur'' | [] => (false, []) end
      else if decide (c = x22) then (true, cur')
      else readString cur'
  | [] => (false, [])
  end.

(** The switch of [readToken]: the token's type, whether it is well formed, and [current_]. *)
Definition scan_token (c : byte) (cur : bytes) : TokenType * bool * bytes :=
  let with_type ty (x : bool * bytes) := (ty, x.1, x.2) in
  match c with
  | "{" => (tokenObjectBegin, true, cur)
  | "}" => (tokenObjectEnd, true, cur)
  | "[" => (tokenArrayBegin, true, cur)
  | "]" => (tokenArrayEnd, true, cur)
  | x22 => with_type tokenString (readString cur)
  | "/" => with_type tokenComment (readComment cur)
  | "0" | "1" | "2" | "3" | "4" | "5" | "6" | "7" | "8" | "9" | "-" =>
      (tokenNumber, true, readNumber cur)
  | "t" => with_type tokenTrue (match_ "rue" cur)
  | "f" => with_type tokenFalse (match_ "alse" cur)
  | "n" => with_type tokenNull (match_ "ull" cur)
  | "," => (tokenArraySeparator, true, cur)
  | ":" => (tokenMemberSeparator, true, cur)
  | x00 => (tokenEndOfStream, true, cur)
  | _ => (tokenError, false, cur)
  end%byte.
Definition readToken (cur : bytes) : Token * bytes :=
  let start := skipSpaces cur in
  let '(c, cur') := getNextChar start in
  let '(ty, ok, cur'') := scan_token c cur' in
  (mkToken (if ok : bool then ty else tokenError) start cur'', cur'').

(** ** The reader *)

Record Features := { allowComments_ : bool; strictRoot_ : bool }.
(** [Features::all] *)
Definition all : Features := {| allowComments_ := true; strictRoot_ := false |}.

Record ErrorInfo := mkError { token_ : Token; message_ : bytes; extra_ : option bytes }.
Record Reader := mkReader {
  current_ : bytes;
  stackDepth_g : Z;
  errors_ : list ErrorInfo }.

Definition stackLimit_g : Z := 1000.

(** The parser makes no calls. *)
Variant noE : Type -> Type := .
Notation parser := (M noE Reader).

Definition scan {A} (f : bytes -> A * bytes) : parser A := fun r =>
  let '(a, cur) := f (current_ r) in Res (Ret a) (mkReader cur (stackDepth_g r) (errors_ r)) [].
Definition get_reader : parser Reader := fun r => Res (Ret r) r [].
Definition put_depth (d : Z) : parser unit := fun r =>
  Res (Ret tt) (mkReader (current_ r) d (errors_ r)) [].
(** [errors_.resize(n)], to shrink. *)
Definition put_errors (es : list ErrorInfo) : parser unit := fun r =>
  Res (Ret tt) (mkReader (current_ r) (stackDepth_g r) es) [].

(** Each round of a loop over tokens reads a character or meets the end of the document: the loop
    has as many rounds as characters are left, and one. *)
Definition token_rounds {A} (loop : nat -> parser A) : parser A :=
  r ← get_reader; loop (S (length (current_ r))).

Definition addError (message : string) (token : Token) (extra : option bytes) : parser bool :=
  r ← get_reader; put_errors (errors_ r ++ [mkError token (str message) extra]);; mret false.

Fixpoint recover_loop (skipUntilToken : TokenType) (n : nat) : parser unit :=
  match n with
  | O => fault_with OutOfFuel
  | S n =>
      skip ← scan readToken;
      if decide (type_ skip = skipUntilToken \/ type_ skip = tokenEndOfStream) then mret tt
      else recover_loop skipUntilToken n
  end.
Definition recoverFromError (skipUntilToken : TokenType) : parser bool :=
  r ← get_reader;
  let errorCount := length (errors_ r) in
  token_rounds (recover_loop skipUntilToken);;
  r ← get_reader;
  put_errors (take errorCount (errors_ r));;
  mret false.
Definition addErrorAndRecover (message : string) (token : Token) (skipUntilToken : TokenType) :
    parser bool :=
  addError message token None;; recoverFromError skipUntilToken.

(** [readToken] until the token is no comment, as [skipCommentTokens] and the loops of [readObject]
    and [readArray] do. *)
Fixpoint skip_comments (n : nat) : parser Token :=
  match n with
  | O => fault_with OutOfFuel
  | S n =>
      token ← scan readToken;
      if decide (type_ token = tokenComment) then skip_comments n else mret token
  end.
Definition skipCommentTokens (features : Features) : parser Token :=
  if allowComments_ features then token_rounds skip_comments else scan readToken.

(** ** Numbers *)

(** The loop of [decodeNumber]: [None] when the number does not fit in an integer. *)
Fixpoint decode_digits (maxIntegerValue value : Z) (cur : bytes) : option Z :=
  match cur with
  | [] => Some value
  | c :: cur' =>
      if negb (is_digit c) then None
      else
        let digit := z_of_byte c - 48 in
        let threshold := maxIntegerValue / 10 in
        if (threshold <=? value) &&
           ((threshold <? value) || negb (bool_decide (cur' = [])) || (maxIntegerValue mod 10 <? digit))
        then None
        else decode_digits maxIntegerValue (u64 (u64 (value * 10) + digit)) cur'
  end.
Definition maxLargestInt : Z := 2 ^ 63 - 1.
Definition maxLargestUInt : Z := 2 ^ 64 - 1.
Definition minLargestInt : Z := - 2 ^ 63.
Definition maxInt : Z := 2 ^ 31 - 1.

Definition decodeDouble (token : Token) : parser (option Value) :=
  match stream_double (token_text token) with
  | Some value => mret (Some value)
  | None =>
      r ← get_reader;
      put_errors (errors_ r ++ [mkError token (str "'" ++ token_text token ++ str "' is not a number.") None]);;
      mret None
  end.
Definition decodeNumber (token : Token) : parser (option Value) :=
  let text := token_text token in
  let isNegative := bool_decide (peek text = "-"%byte) in
  let maxIntegerValue := if isNegative then maxLargestInt + 1 else maxLargestUInt in
  match decode_digits maxIntegerValue 0 (if isNegative then tail text else text) with
  | None => decodeDouble token
  | Some value =>
      mret (Some (if isNegative && (value =? maxIntegerValue) then intValue minLargestInt
                  else if isNegative then intValue (- value)
                  else if value <=? maxInt then intValue value
                  else uintValue value))
  end.

(** ** Strings *)

Definition codePointToUTF8 (cp : Z) : bytes :=
  let tail_byte n := byte_of_z (Z.lor 0x80 (Z.land 0x3f (Z.shiftr cp n))) in
  if cp <=? 0x7f then [byte_of_z cp]
  else if cp <=? 0x7FF then
    [byte_of_z (Z.lor 0xC0 (Z.land 0x1f (Z.shiftr cp 6))); tail_byte 0]
  else if cp <=? 0xFFFF then
    [byte_of_z (Z.lor 0xE0 (Z.land 0xf (Z.shiftr cp 12))); tail_byte 6; tail_byte 0]
  else if cp <=? 0x10FFFF then
    [byte_of_z (Z.lor 0xF0 (Z.land 0x7 (Z.shiftr cp 18))); tail_byte 12; tail_byte 6; tail_byte 0]
  else [].

Definition hex_digit (c : byte) : option Z :=
  let z := z_of_byte c in
  if is_digit c then Some (z - 48)
  else if (97 <=? z) && (z <=? 102) then Some (z - 97 + 10)
  else if (65 <=? z) && (z <=? 70) then Some (z - 65 + 10)
  else None.

Section DecodeString.
Variable token : Token.
(** Of the text of a token the decoders read what is between the quotes; a location in it, in the
    document. *)
Definition at_ (cur : bytes) : option bytes :=
  Some (drop (length (token_text token) - 1 - length cur) (start_ token)).

Fixpoint read_hex (index : nat) (unicode : Z) (cur : bytes) : parser (option (Z * bytes)) :=
  match index, cur with
  | S index', c :: cur' =>
      match hex_digit c with
      | Some d => read_hex index' (unicode * 16 + d) cur'
      | None =>
          addError "Bad unicode escape sequence in string: hexadecimal digit expected." token
            (at_ cur');;
          mret None
      end
  | _, _ => mret (Some (unicode, cur))
  end.
Definition decodeUnicodeEscapeSequence (cur : bytes) : parser (option (Z * bytes)) :=
  if (length cur <? 4)%nat then
    addError "Bad unicode escape sequence in string: four digits expected." token (at_ cur);; mret None
  else read_hex 4 0 cur.
Definition decodeUnicodeCodePoint (cur : bytes) : parser (option (Z * bytes)) :=
  x ← decodeUnicodeEscapeSequence cur;
  match x with
  | None => mret None
  | Some (unicode, cur) =>
      if (0xD800 <=? unicode) && (unicode <=? 0xDBFF) then
        if (length cur <? 6)%nat then
          addError "additional six characters expected to parse unicode surrogate pair." token
            (at_ cur);;
          mret None
        else
          if decide (peek cur = x5c /\ peek (tail cur) = "u"%byte) then
            y ← decodeUnicodeEscapeSequence (tail (tail cur));
            mret (match y with
                  | Some (surrogatePair, cur) =>
                      Some (0x10000 + Z.shiftl (Z.land unicode 0x3FF) 10 + Z.land surrogatePair 0x3FF,
                            cur)
                  | None => None
                  end)
          else
            addError "expecting another \u token to begin the second half of a unicode surrogate pair"
              token (at_ (drop (if decide (peek cur = x5c) then 2 else 1) cur));;
            mret None
      else mret (Some (unicode, cur))
  end.

Definition simple_escape (c : byte) : option byte :=
  match c with
  | x22 => Some x22
  | "/"%byte => Some "/"%byte
  | x5c => Some x5c
  | "b"%byte => Some x08
  | "f"%byte => Some x0c
  | "n"%byte => Some x0a
  | "r"%byte => Some x0d
  | "t"%byte => Some x09
  | _ => None
  end.
Fixpoint decode_chars (n : nat) (cur decoded : bytes) : parser (option bytes) :=
  match n, cur with
  | _, [] => mret (Some decoded)
  | O, _ => fault_with OutOfFuel
  | S n, c :: cur =>
      if decide (c = x22) then mret (Some decoded)
      else if decide (c = x5c) then
        match cur with
        | [] => addError "Empty escape sequence in string" token (at_ cur);; mret None
        | escape :: cur =>
            match simple_escape escape with
            | Some d => decode_chars n cur (decoded ++ [d])
            | None =>
                if decide (escape = "u"%byte) then
                  x ← decodeUnicodeCodePoint cur;
                  match x with
                  | Some (unicode, cur) => decode_chars n cur (decoded ++ codePointToUTF8 unicode)
                  | None => mret None
                  end
                else addError "Bad escape sequence in string" token (at_ cur);; mret None
            end
        end
      else decode_chars n cur (decoded ++ [c])
  end.
Definition decodeString : parser (option bytes) :=
  let body := removelast (tail (token_text token)) in
  decode_chars (length body) body [].
End DecodeString.

(** [Value(const std::string &)], which stores the length before the characters *)
Definition string_value (s : bytes) : outcome Value :=
  if u32 (size s) <=? maxInt - 4 - 1 then Ret (stringValue (take (Z.to_nat (u32 (size s))) s))
  else logic_error "in Json::Value::duplicateAndPrefixStringValue(): length too big for prefixing".

(** ** Values

    [rv value] is [readValue] on the node that holds [value]; the result has the value the node
    holds afterwards. *)

Section Containers.
Variable rv : Value -> parser (bool * Value).

(** The key [CZString] makes of a name: its length is a field of 30 bits. *)
Definition czstring (name : bytes) : bytes := take (Z.to_nat (size name mod 2 ^ 30)) name.

(** The loop of [readObject]; [name] is empty before the first member, and after an empty name. *)
Fixpoint read_members (n : nat) (name : bytes) (members : list (bytes * Value)) :
    parser (bool * Value) :=
  match n with
  | O => fault_with OutOfFuel
  | S n =>
      let failed (members : list (bytes * Value)) (m : parser bool) : parser (bool * Value) :=
        ok ← m; mret (ok, objectValue members) in
      tokenName ← token_rounds skip_comments;
      if decide (type_ tokenName = tokenObjectEnd /\ name = []) then mret (true, objectValue members)
      else if decide (type_ tokenName = tokenString) then
        decoded ← decodeString tokenName;
        match decoded with
        | None => failed members (recoverFromError tokenObjectEnd)
        | Some name =>
            colon ← scan readToken;
            if decide (type_ colon = tokenMemberSeparator) then
              let value := match obj_lookup (czstring name) members with Some v => v | None => nullValue end in
              x ← rv value;
              let members := obj_insert (czstring name) x.2 members in
              if negb x.1 then failed members (recoverFromError tokenObjectEnd)
              else
                comma ← scan readToken;
                if decide (type_ comma ∈ [tokenObjectEnd; tokenArraySeparator; tokenComment]) then
                  comma ← (if decide (type_ comma = tokenComment) then token_rounds skip_comments
                           else mret comma);
                  if decide (type_ comma = tokenObjectEnd) then mret (true, objectValue members)
                  else read_members n name members
                else
                  failed members (addErrorAndRecover "Missing ',' or '}' in object declaration" comma
                                    tokenObjectEnd)
            else
              failed members (addErrorAndRecover "Missing ':' after object member name" colon
                                tokenObjectEnd)
        end
      else failed members (addErrorAndRecover "Missing '}' or object member name" tokenName
                             tokenObjectEnd)
  end.
Definition readObject : parser (bool * Value) := token_rounds (fun n => read_members n [] []).

(** The loop of [readArray]; [index++] of the largest [int] is an overflow. *)
Fixpoint read_elements (n : nat) (index : Z) (elements : list Value) : parser (bool * Value) :=
  match n with
  | O => fault_with OutOfFuel
  | S n =>
      if index =? maxInt then fault_with UndefinedBehaviour
      else
        x ← rv nullValue;
        let elements := elements ++ [x.2] in
        if negb x.1 then ok ← recoverFromError tokenArrayEnd; mret (ok, arrayValue elements)
        else
          token ← token_rounds skip_comments;
          if decide (type_ token = tokenArrayEnd) then mret (true, arrayValue elements)
          else if decide (type_ token = tokenArraySeparator) then read_elements n (index + 1) elements
          else
            ok ← addErrorAndRecover "Missing ',' or ']' in array declaration" token tokenArrayEnd;
            mret (ok, arrayValue elements)
  end.
Definition readArray : parser (bool * Value) :=
  scan (fun cur => (tt, skipSpaces cur));;
  r ← get_reader;
  if decide (peek (current_ r) = "]"%byte) then scan readToken;; mret (true, arrayValue [])
  else token_rounds (fun n => read_elements n 0 []).
End Containers.

Fixpoint readValue (features : Features) (n : nat) (currentValue : Value) : parser (bool * Value) :=
  match n with
  | O => fault_with OutOfFuel
  | S n =>
      r ← get_reader;
      if stackLimit_g <=? stackDepth_g r then
        throw (JsoncppError (str "Exceeded stackLimit in readValue()."))
      else
        put_depth (stackDepth_g r + 1);;
        token ← skipCommentTokens features;
        let leave (x : bool * Value) : parser (bool * Value) :=
          r ← get_reader; put_depth (stackDepth_g r - 1);; mret x in
        match type_ token with
        | tokenObjectBegin => x ← readObject (readValue features n); leave x
        | tokenArrayBegin => x ← readArray (readValue features n); leave x
        | tokenNumber =>
            decoded ← decodeNumber token;
            leave (match decoded with Some v => (true, v) | None => (false, currentValue) end)
        | tokenString =>
            decoded ← decodeString token;
            match decoded with
            | Some s => v ← lift (string_value s); leave (true, v)
            | None => leave (false, currentValue)
            end
        | tokenTrue => leave (true, booleanValue true)
        | tokenFalse => leave (true, booleanValue false)
        | tokenNull => leave (true, nullValue)
        | _ =>
            ok ← addError "Syntax error: value, object or array expected." token None;
            mret (ok, currentValue)
        end
  end.

(** [Reader::parse(document, root)]: whether it succeeded, and the root afterwards *)
Definition parse (features : Features) (document : bytes) (root : Value) : parser (bool * Value) :=
  put_depth 0;;
  x ← token_rounds (fun n => readValue features n root);
  skipCommentTokens features;;
  if strictRoot_ features &&
     negb (match x.2 with arrayValue _ | objectValue _ => true | _ => false end)
  then
    ok ← addError "A valid JSON document must be either an array or an object value."
           (mkToken tokenError document []) None;
    mret (ok, x.2)
  else mret x.

(** A parse by a new [Json::Reader] into a new [Json::Value]; its callers use the value only when it
    succeeds. *)
Definition run_parse (features : Features) (document : bytes) : outcome (bool * Value) :=
  res (parse features document nullValue (mkReader document 0 [])).
Definition Reader_parse (document : bytes) : outcome (option Value) :=
  x ← run_parse all document; Ret (if x.1 : bool then Some x.2 else None).
