(* ===== verification/JsonReaderFacts.v ===== *)
(** * What the parser of jsoncpp returns

    [Json::Reader] returns for every document, or throws or overflows for a reason the code has: text that
    nests as deep as the limit, a string or an array too long. What it returns is well formed, and nests
    no deeper. *)

From S2P Require Import Prelude Json JsonObjects JsonCpp JsonDouble JsonReader.
#[local] Open Scope Z_scope.

(** ** Well-formed values: what the fields of [Json::Value] can hold *)

Fixpoint keys_sorted {V} (l : list (bytes * V)) : bool :=
  match l with
  | (k, _) :: ((k', _) :: _) as l' => bytes_ltb k k' && keys_sorted l'
  | _ => true
  end.
Fixpoint well_formed (v : Value) : bool :=
  match v with
  | intValue z => (minLargestInt <=? z) && (z <=? maxLargestInt)
  | uintValue z => (0 <=? z) && (z <=? maxLargestUInt)
  | stringValue s => size s <=? maxInt - 5
  | arrayValue l => (Z.of_nat (length l) <=? maxInt) && forallb well_formed l
  | objectValue l => keys_sorted l && forallb (fun '(k, x) => (size k <? 2 ^ 30) && well_formed x) l
  | nullValue | realValue _ _ _ | booleanValue _ => true
  end.
(** How deep arrays and objects nest, a scalar being one deep *)
Fixpoint height (v : Value) : Z :=
  match v with
  | arrayValue l => 1 + foldr Z.max 0 (map height l)
  | objectValue l => 1 + foldr Z.max 0 (map (fun '(_, x) => height x) l)
  | _ => 1
  end.

(** *** The order of keys *)

Lemma keys_sorted_cons {V} k (v : V) l :
  keys_sorted ((k, v) :: l) = true <->
  match l with (k', _) :: _ => bytes_ltb k k' = true | [] => True end /\ keys_sorted l = true.
Proof. destruct l as [|[k' v'] l]; simpl; [tauto|]. rewrite andb_true_iff. done. Qed.
Lemma keys_sorted_insert {V} k (v : V) l :
  keys_sorted l = true -> keys_sorted (obj_insert k v l) = true.
Proof.
  induction l as [|[k1 v1] l IH]; [done|]. cbn [obj_insert].
  case_decide as Hk; [subst; by rewrite !keys_sorted_cons|].
  destruct (bytes_ltb k k1) eqn:E; [intros; by apply keys_sorted_cons|].
  rewrite !keys_sorted_cons. intros [Hh Hs]. split; [|by apply IH].
  apply bytes_ltb_total in E; [|done]. destruct l as [|[k2 v2] l]; simpl; [done|].
  case_decide; [by subst|]. by destruct (bytes_ltb k k2).
Qed.
Lemma forallb_insert {V} (P : bytes -> V -> bool) k (v : V) l :
  P k v = true -> forallb (fun '(k, x) => P k x) l = true ->
  forallb (fun '(k, x) => P k x) (obj_insert k v l) = true.
Proof.
  intros Hv. induction l as [|[k1 v1] l IH]; simpl; [by rewrite Hv|].
  rewrite andb_true_iff. intros [H1 H2].
  repeat case_match; simplify_eq; simpl; rewrite ?Hv, ?H1, ?H2; auto.
Qed.
Lemma height_insert k v l n :
  height v <= n -> height (objectValue l) <= 1 + n -> height (objectValue (obj_insert k v l)) <= 1 + n.
Proof.
  intros Hv. simpl. induction l as [|[k1 v1] l IH]; simpl; [lia|].
  intros H. repeat case_match; simpl; lia.
Qed.

(** ** Every scanner moves forward *)

Definition shrinks (cur' cur : bytes) : Prop := (length cur' <= length cur)%nat.
#[export] Instance shrinks_preorder : PreOrder shrinks.
Proof. split; unfold shrinks; [intros x; lia|]. intros x y z. lia. Qed.
Lemma skipSpaces_shrinks cur : shrinks (skipSpaces cur) cur.
Proof. unfold shrinks. induction cur as [|c cur IH]; simpl; [done|]. case_match; simpl; lia. Qed.
Lemma skip_digits_shrinks cur : shrinks (skip_digits cur) cur.
Proof. unfold shrinks. induction cur as [|c cur IH]; simpl; [done|]. case_match; simpl; lia. Qed.
Lemma tail_shrinks (cur : bytes) : shrinks (tail cur) cur.
Proof. unfold shrinks. destruct cur; simpl; lia. Qed.
Lemma readNumber_shrinks cur : shrinks (readNumber cur) cur.
Proof.
  unfold readNumber, shrinks. cbv zeta.
  repeat match goal with
  | |- context [skip_digits ?x] =>
      lazymatch goal with
      | _ : shrinks (skip_digits x) x |- _ => fail
      | _ => pose proof (skip_digits_shrinks x)
      end
  | |- context [tail ?x] =>
      lazymatch goal with
      | _ : shrinks (tail x) x |- _ => fail
      | _ => pose proof (tail_shrinks x)
      end
  end.
  unfold shrinks in *. repeat case_match; lia.
Qed.
Lemma strip_prefix_shrinks p cur cur' : strip_prefix p cur = Some cur' -> shrinks cur' cur.
Proof.
  revert cur. unfold shrinks. induction p as [|a p IH]; intros cur; simpl; [by intros [= ->]|].
  destruct cur as [|b cur]; [done|]. case_decide; [|done]. intros H1%IH. simpl. lia.
Qed.
Lemma match_shrinks p cur : shrinks (match_ p cur).2 cur.
Proof.
  unfold match_. destruct (strip_prefix _ cur) eqn:E; [|done]. by eapply strip_prefix_shrinks.
Qed.
Lemma readString_shrinks cur : shrinks (readString cur).2 cur.
Proof.
  unfold shrinks. induction cur as [cur IH] using (induction_ltof1 _ (@length byte)). unfold ltof in IH.
  destruct cur as [|c cur]; [done|]. simpl. case_decide.
  - destruct cur as [|d cur]; simpl; [lia|]. specialize (IH cur). simpl in IH. lia.
  - case_decide; simpl; [lia|]. specialize (IH cur). simpl in IH. lia.
Qed.
Lemma readComment_shrinks cur : shrinks (readComment cur).2 cur.
Proof.
  assert (Hs : forall l, shrinks (skip_to_star l) l).
  { unfold shrinks. induction l as [|c l IH]; simpl; [done|]. case_decide; simpl; lia. }
  assert (Hn : forall l, shrinks (getNextChar l).2 l) by (intros [|??]; unfold shrinks; simpl; lia).
  assert (Hc : forall l, shrinks (readCppStyleComment l) l).
  { unfold shrinks. induction l as [|c l IH]; simpl; [done|].
    repeat (case_decide || case_match); simpl in *; lia. }
  unfold readComment. pose proof (Hn cur) as H1. destruct (getNextChar cur) as [c l].
  case_decide; [|case_decide; [|done]].
  - unfold readCStyleComment. pose proof (Hn (skip_to_star l)) as H2. pose proof (Hs l) as H3.
    destruct (getNextChar _) as [c' l']. unfold shrinks in *. simpl in *. lia.
  - pose proof (Hc l). unfold shrinks in *. simpl in *. lia.
Qed.
Lemma scan_token_shrinks c cur : shrinks (scan_token c cur).2 cur.
Proof.
  destruct c; simpl;
    first [done | apply readString_shrinks | apply readComment_shrinks | apply readNumber_shrinks
          | apply match_shrinks].
Qed.
Lemma readToken_shrinks cur :
  shrinks (readToken cur).2 cur /\
  (type_ (readToken cur).1 <> tokenEndOfStream -> length (readToken cur).2 < length cur)%nat /\
  shrinks (start_ (readToken cur).1) cur.
Proof.
  unfold readToken. pose proof (skipSpaces_shrinks cur) as H1.
  destruct (skipSpaces cur) as [|c cur'] eqn:E; [simpl; done|].
  cbn [getNextChar]. pose proof (scan_token_shrinks c cur') as H2.
  destruct (scan_token c cur') as [[ty ok] cur'']. unfold shrinks in *. simpl in *. lia.
Qed.

(** ** The computations *)

Definition after (r r' : Reader) : Prop :=
  shrinks (current_ r') (current_ r) /\ stackDepth_g r' = stackDepth_g r.
(** A token was read between the two: at least a character of it, or the document had ended. *)
Definition token_read (r : Reader) (t : Token) (r' : Reader) : Prop :=
  (type_ t <> tokenEndOfStream -> length (current_ r') < length (current_ r))%nat /\
  shrinks (start_ t) (current_ r).
#[export] Instance after_preorder : PreOrder after.
Proof. split; unfold after, shrinks; [split; lia|]. intros x y z ??. split; lia. Qed.

(** [m] returns what satisfies [Q], throws what satisfies [X], or counts past the largest [int], which
    takes [Y]. *)
Definition parses {A} (Y : Prop) (m : parser A) (r : Reader) (Q : A -> Reader -> Prop) (X : exn -> Prop) : Prop :=
  match m r with
  | Res (Ret a) r' _ => Q a r'
  | Res (Throw e) _ _ => X e
  | Res (Fault x) _ _ => x = UndefinedBehaviour /\ Y
  end.

Section Rules.
Variable X : exn -> Prop.
Variable Y : Prop.
Lemma parses_ret {A} (a : A) r (Q : A -> Reader -> Prop) : Q a r -> parses Y (mret a) r Q X.
Proof. done. Qed.
Lemma parses_throw {A} e r (Q : A -> Reader -> Prop) : X e -> parses Y (throw e) r Q X.
Proof. done. Qed.
Lemma parses_overflow {A} r (Q : A -> Reader -> Prop) : Y -> parses Y (fault_with UndefinedBehaviour) r Q X.
Proof. done. Qed.
Lemma parses_bind {A B} (m : parser A) (k : A -> parser B) r (Q : B -> Reader -> Prop) :
  parses Y m r (fun a r1 => parses Y (k a) r1 Q X) X -> parses Y (m ≫= k) r Q X.
Proof.
  unfold parses, mbind, M_bind. destruct (m r) as [[a|e|x] r1 t1]; simpl; try done.
  by destruct (k a r1).
Qed.
Lemma parses_mono {A} (m : parser A) r (P Q : A -> Reader -> Prop) :
  parses Y m r P X -> (forall a r', P a r' -> Q a r') -> parses Y m r Q X.
Proof. unfold parses. destruct (m r) as [[a|e|x] r1 t1]; naive_solver. Qed.
Lemma parses_scan {A} (f : bytes -> A * bytes) r (Q : A -> Reader -> Prop) :
  Q (f (current_ r)).1 (mkReader (f (current_ r)).2 (stackDepth_g r) (errors_ r)) ->
  parses Y (scan f) r Q X.
Proof. unfold parses, scan. by destruct (f (current_ r)). Qed.
Lemma parses_get_reader r (Q : Reader -> Reader -> Prop) : Q r r -> parses Y get_reader r Q X.
Proof. done. Qed.
Lemma parses_put_depth d r (Q : unit -> Reader -> Prop) :
  Q tt (mkReader (current_ r) d (errors_ r)) -> parses Y (put_depth d) r Q X.
Proof. done. Qed.
Lemma parses_rounds {A} (loop : nat -> parser A) r (Q : A -> Reader -> Prop) :
  parses Y (loop (S (length (current_ r)))) r Q X -> parses Y (token_rounds loop) r Q X.
Proof. intros H. by apply parses_bind. Qed.
Lemma parses_readToken r (Q : Token -> Reader -> Prop) :
  (forall t r', after r r' -> token_read r t r' -> Q t r') ->
  parses Y (scan readToken) r Q X.
Proof.
  intros H. apply parses_scan. destruct (readToken_shrinks (current_ r)) as [H1 H2].
  by apply H.
Qed.
Lemma parses_addError msg t extra r (Q : bool -> Reader -> Prop) :
  (forall r', after r r' -> Q false r') -> parses Y (addError msg t extra) r Q X.
Proof. intros H. apply H. done. Qed.
Lemma parses_skip_comments n r (Q : Token -> Reader -> Prop) :
  (length (current_ r) < n)%nat ->
  (forall t r', after r r' -> token_read r t r' -> Q t r') ->
  parses Y (skip_comments n) r Q X.
Proof.
  revert r. induction n as [|n IH]; intros r Hn HQ; [lia|]. cbn [skip_comments].
  apply parses_bind, parses_readToken. intros t r1 H1 Ht. case_decide as Hc.
  - assert (Hlt : (length (current_ r1) < length (current_ r))%nat) by (apply (proj1 Ht); congruence).
    apply IH; [lia|]. intros t2 r2 H2 Ht2. apply HQ; [by etrans|]. destruct H1 as [H1 _], Ht2 as [Ht2 Hs].
    split; [intros Ht3; specialize (Ht2 Ht3); lia|by etrans].
  - by apply HQ.
Qed.
Lemma parses_uncommented r (Q : Token -> Reader -> Prop) :
  (forall t r', after r r' -> token_read r t r' -> Q t r') ->
  parses Y (token_rounds skip_comments) r Q X.
Proof. intros. apply parses_rounds, parses_skip_comments; [lia|done]. Qed.
Lemma parses_skipCommentTokens features r (Q : Token -> Reader -> Prop) :
  (forall t r', after r r' -> token_read r t r' -> Q t r') ->
  parses Y (skipCommentTokens features) r Q X.
Proof.
  intros HQ. unfold skipCommentTokens. case_match; [by apply parses_uncommented|by apply parses_readToken].
Qed.
Lemma parses_recover_loop k n r (Q : unit -> Reader -> Prop) :
  (length (current_ r) < n)%nat -> (forall r', after r r' -> Q tt r') ->
  parses Y (recover_loop k n) r Q X.
Proof.
  revert r. induction n as [|n IH]; intros r Hn HQ; [lia|]. cbn [recover_loop].
  apply parses_bind, parses_readToken. intros t r1 H1 Ht. case_decide as Hc; [by apply HQ|].
  assert (Hlt : (length (current_ r1) < length (current_ r))%nat) by (apply (proj1 Ht); tauto).
  apply IH; [lia|]. intros r2 H2. apply HQ. by etrans.
Qed.
Lemma parses_recover k r (Q : bool -> Reader -> Prop) :
  (forall r', after r r' -> Q false r') -> parses Y (recoverFromError k) r Q X.
Proof.
  intros HQ. unfold recoverFromError. apply parses_bind. apply parses_bind, parses_rounds.
  apply parses_recover_loop; [simpl; lia|]. intros r1 H1. by apply HQ.
Qed.
Lemma parses_addErrorAndRecover msg t k r (Q : bool -> Reader -> Prop) :
  (forall r', after r r' -> Q false r') -> parses Y (addErrorAndRecover msg t k) r Q X.
Proof.
  intros HQ. apply parses_bind, parses_addError. intros r1 H1. apply parses_recover.
  intros r2 H2. apply HQ. by etrans.
Qed.
End Rules.

(** *** Numbers and strings *)

Lemma is_digit_range c : is_digit c = true -> 48 <= z_of_byte c <= 57.
Proof. unfold is_digit. rewrite andb_true_iff. lia. Qed.
Lemma decode_digits_range maxI value cur v :
  0 <= maxI < 2 ^ 64 -> 0 <= value <= maxI -> decode_digits maxI value cur = Some v -> 0 <= v <= maxI.
Proof.
  intros HM. revert value. induction cur as [|c cur IH]; intros value Hv; [simpl; intros [= <-]; done|].
  cbn [decode_digits]. destruct (is_digit c) eqn:Hc; [|done]. apply is_digit_range in Hc. cbn [negb].
  pose proof (Z.div_mod maxI 10 ltac:(lia)) as Hdm.
  pose proof (Z.mod_pos_bound maxI 10 ltac:(lia)) as Hm.
  destruct ((maxI / 10 <=? value) && _) eqn:E; [done|]. intros Hd.
  assert (Hle : value * 10 + (z_of_byte c - 48) <= maxI).
  { apply andb_false_iff in E as [E|E]; [lia|]. apply orb_false_iff in E as [E E3].
    apply orb_false_iff in E as [E1 E2]. lia. }
  unfold u64 in Hd. rewrite !Z.mod_small in Hd by (rewrite ?Z.mod_small; lia).
  apply IH in Hd; [done|]. lia.
Qed.
Lemma stream_double_well_formed text v : stream_double text = Some v -> well_formed v = true /\ height v = 1.
Proof.
  unfold stream_double. destruct (scan_decimal text) as [[[neg n] x]|]; [|done].
  destruct (decimal_ratio n x) as [num den]. destruct (nearest_double num den) as [[m e]|]; [|done].
  by intros [= <-].
Qed.

Section Decoding.
Variable X : exn -> Prop.
Variable Y : Prop.
Lemma parses_decodeNumber token r (Q : option Value -> Reader -> Prop) :
  (forall v r', after r r' -> current_ r' = current_ r ->
     match v with Some v => well_formed v = true /\ height v = 1 | None => True end -> Q v r') ->
  parses Y (decodeNumber token) r Q X.
Proof.
  intros HQ. unfold decodeNumber. set (neg := bool_decide _).
  destruct (decode_digits _ 0 _) as [v|] eqn:E.
  - apply decode_digits_range in E; try (destruct neg; unfold maxLargestInt, maxLargestUInt; lia).
    apply HQ; [done|done|].
    unfold minLargestInt, maxInt in *; destruct neg; simpl in *; repeat case_match; simpl; split; try done;
      unfold minLargestInt, maxLargestInt, maxLargestUInt in *; rewrite andb_true_iff; lia.
  - unfold decodeDouble. destruct (stream_double (token_text token)) as [v|] eqn:Ed.
    + apply HQ; [done|done|]. by apply stream_double_well_formed in Ed.
    + by apply HQ.
Qed.

Lemma parses_hex_digits token index unicode cur r (Q : option (Z * bytes) -> Reader -> Prop) :
  (index <= length cur)%nat ->
  (forall x r', after r r' -> current_ r' = current_ r ->
     match x with Some (_, cur') => (length cur' + index <= length cur)%nat | None => True end -> Q x r') ->
  parses Y (read_hex token index unicode cur) r Q X.
Proof.
  revert unicode cur Q. induction index as [|index IH]; intros unicode cur Q Hlen HQ.
  { apply HQ; [done|done|]. lia. }
  destruct cur as [|c cur]; simpl in Hlen; [lia|]. cbn [read_hex].
  destruct (hex_digit c) as [d|]; [|by apply HQ].
  apply IH; [lia|]. intros x r' H1 H2 H3. apply HQ; [done|done|]. destruct x as [[u cur']|]; simpl; [lia|done].
Qed.
Lemma parses_escape token cur r (Q : option (Z * bytes) -> Reader -> Prop) :
  (forall x r', after r r' -> current_ r' = current_ r ->
     match x with Some (_, cur') => (length cur' + 4 <= length cur)%nat | None => True end -> Q x r') ->
  parses Y (decodeUnicodeEscapeSequence token cur) r Q X.
Proof.
  intros HQ. unfold decodeUnicodeEscapeSequence. destruct (Nat.ltb_spec (length cur) 4); [by apply HQ|].
  by apply parses_hex_digits.
Qed.
Lemma parses_code_point token cur r (Q : option (Z * bytes) -> Reader -> Prop) :
  (forall x r', after r r' -> current_ r' = current_ r ->
     match x with Some (_, cur') => (length cur' + 4 <= length cur)%nat | None => True end -> Q x r') ->
  parses Y (decodeUnicodeCodePoint token cur) r Q X.
Proof.
  intros HQ. unfold decodeUnicodeCodePoint. apply parses_bind, parses_escape.
  intros [[u cur1]|] r1 H1 H2 Hlen; [|by apply HQ].
  assert (HQ' : forall x r', after r1 r' -> current_ r' = current_ r1 ->
     match x with Some (_, cur') => (length cur' + 4 <= length cur)%nat | None => True end -> Q x r').
  { intros x r' Ha Hc. apply HQ; [by etrans|congruence]. }
  case_match; [|by apply HQ']. case_match; [by apply HQ'|]. case_decide; [|by apply HQ'].
  pose proof (tail_shrinks cur1) as Ht1. pose proof (tail_shrinks (tail cur1)) as Ht2. unfold shrinks in *.
  apply parses_bind, parses_escape. intros y r2 Ha2 Hc2 Hy. apply HQ'; [done|done|].
  destruct y as [[]|]; simpl in *; [lia|done].
Qed.
Lemma codePointToUTF8_length cp : (length (codePointToUTF8 cp) <= 4)%nat.
Proof. unfold codePointToUTF8. repeat case_match; simpl; lia. Qed.
Lemma parses_decode_chars token n cur decoded r (Q : option bytes -> Reader -> Prop) :
  (length cur <= n)%nat ->
  (forall x r', after r r' -> current_ r' = current_ r ->
     match x with Some s => (length s <= length decoded + length cur)%nat | None => True end -> Q x r') ->
  parses Y (decode_chars token n cur decoded) r Q X.
Proof.
  revert cur decoded r. induction n as [|n IH]; intros cur decoded r Hn HQ.
  { destruct cur; [|simpl in Hn; lia]. apply HQ; [done|done|]. lia. }
  destruct cur as [|c cur]; [apply HQ; [done|done|]; lia|]. cbn [decode_chars]. simpl in *.
  assert (Hone : forall d, (length (decoded ++ [d]) = S (length decoded))%nat)
    by (intros; rewrite length_app; simpl; lia).
  case_decide; [apply HQ; [done|done|]; lia|]. case_decide.
  - destruct cur as [|escape cur]; [by apply HQ|]. simpl in *. destruct (simple_escape escape) as [d|].
    + apply IH; [lia|]. intros x r' Ha Hc. rewrite Hone. intros Hx. apply HQ; [done|done|].
      destruct x; [lia|done].
    + case_decide; [|by apply HQ]. apply parses_bind, parses_code_point.
      intros [[u cur']|] r1 Ha1 Hc1 Hlen; [|by apply HQ]. apply IH; [lia|].
      intros x r2 Ha2 Hc2. rewrite length_app. pose proof (codePointToUTF8_length u). intros Hx.
      apply HQ; [by etrans|congruence|]. destruct x; [lia|done].
  - apply IH; [lia|]. intros x r' Ha Hc. rewrite Hone. intros Hx. apply HQ; [done|done|].
    destruct x; [lia|done].
Qed.
Lemma parses_decodeString token r (Q : option bytes -> Reader -> Prop) :
  (forall x r', after r r' -> current_ r' = current_ r ->
     match x with Some s => (length s <= length (start_ token))%nat | None => True end -> Q x r') ->
  parses Y (decodeString token) r Q X.
Proof.
  intros HQ. unfold decodeString. apply parses_decode_chars; [done|].
  intros x r' Ha Hc Hx. apply HQ; [done|done|]. destruct x as [s|]; [|done].
  assert (Hr : forall l : bytes, (length (removelast l) <= length l)%nat).
  { induction l as [|a [|b l] IH]; simpl in *; lia. }
  pose proof (Hr (tail (token_text token))) as H4. pose proof (tail_shrinks (token_text token)) as H5.
  unfold shrinks in H5. unfold token_text in *. rewrite length_take in H5. simpl in Hx. lia.
Qed.
End Decoding.

(** ** Values *)

Definition stack_error : exn := JsoncppError (str "Exceeded stackLimit in readValue().").
Definition too_long : exn :=
  JsoncppError (str "in Json::Value::duplicateAndPrefixStringValue(): length too big for prefixing").
(** What a parse throws, of a document of [L] characters *)
Definition parse_error (L : Z) (e : exn) : Prop :=
  (e = stack_error /\ stackLimit_g <= L) \/ (e = too_long /\ maxInt - 5 < L).

Lemma height_positive v : 1 <= height v.
Proof.
  assert (H : forall l, 0 <= foldr Z.max 0 l) by (induction l; simpl; lia).
  destruct v; simpl; try lia; match goal with |- context [foldr _ _ ?l] => specialize (H l) end; lia.
Qed.
Lemma lookup_well_formed k (l : list (bytes * Value)) :
  forallb (fun '(k, x) => (size k <? 2 ^ 30) && well_formed x) l = true ->
  well_formed (match obj_lookup k l with Some v => v | None => nullValue end) = true.
Proof.
  induction l as [|[k1 v1] l IH]; simpl; [done|]. rewrite !andb_true_iff. intros [[_ H1] H2].
  case_decide; auto.
Qed.
Lemma czstring_size name : size (czstring name) < 2 ^ 30.
Proof.
  unfold czstring, size. rewrite length_take. pose proof (Z.mod_pos_bound (size name) (2 ^ 30) eq_refl). unfold size in *. lia.
Qed.
Lemma height_elements_app (l : list Value) v n :
  height v <= n -> height (arrayValue l) <= 1 + n -> height (arrayValue (l ++ [v])) <= 1 + n.
Proof. intros Hv. simpl. induction l as [|x l IH]; simpl; [lia|]. intros H. lia. Qed.

Section Parsing.
Variable features : Features.
Variable L : Z.
Let X := parse_error L.
(** [2 ^ 31 - 1] elements and their commas after the bracket *)
Let Y : Prop := 2 ^ 32 - 1 <= L.

Definition in_document (r : Reader) : Prop :=
  0 <= stackDepth_g r /\ stackDepth_g r + size (current_ r) <= L.
Lemma in_document_after r r' : in_document r -> after r r' -> in_document r'.
Proof. unfold in_document, after, shrinks, size. intros ? [? ->]. lia. Qed.

(** What [readValue], and the reader of a container already counted, leave *)
Definition value_read (above : Z) (r : Reader) (x : bool * Value) (r' : Reader) : Prop :=
  shrinks (current_ r') (current_ r) /\ well_formed x.2 = true /\
  (x.1 = true -> stackDepth_g r' = stackDepth_g r /\ stackDepth_g r + height x.2 <= stackLimit_g + above).
Lemma value_read_after above r r1 x r' : after r r1 -> value_read above r1 x r' -> value_read above r x r'.
Proof. intros [H1 H2] (H3 & H4 & H5). unfold value_read. rewrite <- H2. split; [by etrans|done]. Qed.
Lemma value_failed above r r' v : shrinks (current_ r') (current_ r) -> well_formed v = true ->
  value_read above r (false, v) r'.
Proof. done. Qed.

(** A value that was read took a character at least. *)
Definition value_taken (r : Reader) (x : bool * Value) (r' : Reader) : Prop :=
  value_read 0 r x r' /\ (x.1 = true -> size (current_ r') < size (current_ r)).

Section Containers.
Variable N : nat.
Variable rv : Value -> parser (bool * Value).
Hypothesis rv_reads : forall r v, (length (current_ r) < N)%nat -> in_document r -> well_formed v = true ->
  parses Y (rv v) r (value_taken r) X.

Lemma parses_failed r0 r1 (m : parser bool) v :
  (forall r (Q : bool -> Reader -> Prop), (forall r', after r r' -> Q false r') -> parses Y m r Q X) ->
  shrinks (current_ r1) (current_ r0) -> well_formed v = true ->
  parses Y (ok ← m; mret (ok, v)) r1 (value_read 1 r0) X.
Proof.
  intros Hm Hr Hv. apply parses_bind, Hm. intros r' [H1 _]. apply value_failed; [by etrans|done].
Qed.

(** What follows a member: the end of the object, or the next one *)
Definition members_reads (n : nat) : Prop := forall name members r,
  (length (current_ r) < n)%nat -> (length (current_ r) < N)%nat -> in_document r ->
  well_formed (objectValue members) = true ->
  stackDepth_g r + height (objectValue members) <= stackLimit_g + 1 ->
  parses Y (read_members rv n name members) r (value_read 1 r) X.
Lemma parses_end_or_next n name members r r' comma :
  members_reads n -> after r r' -> (length (current_ r') < length (current_ r))%nat ->
  (length (current_ r) < N)%nat -> in_document r -> well_formed (objectValue members) = true ->
  (length (current_ r) < S n)%nat /\
  stackDepth_g r + height (objectValue members) <= stackLimit_g + 1 ->
  parses Y (if decide (type_ comma = tokenObjectEnd) then mret (true, objectValue members)
         else read_members rv n name members) r' (value_read 1 r) X.
Proof.
  intros IH Hr Hlt HN Hd Hwf [Hn Hh]. pose proof Hr as [_ Hdep].
  eapply parses_mono; [|intros x r2 Hx; eapply value_read_after; [exact Hr|exact Hx]].
  case_decide; [|apply IH; [lia|lia|by eapply in_document_after|done|by rewrite Hdep]].
  split; [done|]. split; [done|]. intros _. by rewrite Hdep.
Qed.

Lemma parses_read_members n name members r :
  (length (current_ r) < n)%nat -> (length (current_ r) < N)%nat -> in_document r ->
  well_formed (objectValue members) = true ->
  stackDepth_g r + height (objectValue members) <= stackLimit_g + 1 ->
  parses Y (read_members rv n name members) r (value_read 1 r) X.
Proof.
  revert name members r. induction n as [|n IH]; intros name members r Hn HN Hd Hwf Hh; [lia|].
  cbn [read_members]. apply parses_bind, parses_uncommented. intros t r1 H1 Ht.
  assert (Hs1 : shrinks (current_ r1) (current_ r)) by apply H1.
  case_decide as Hend.
  { apply (value_read_after 1 r r1); [done|]. split; [done|]. split; [done|]. intros _.
    destruct H1 as [_ ->]. done. }
  case_decide as Hstr; [|apply parses_failed; try done; intros; by apply parses_addErrorAndRecover].
  assert (Hlt1 : (length (current_ r1) < length (current_ r))%nat) by (apply (proj1 Ht); congruence).
  apply parses_bind, parses_decodeString. intros [name'|] r2 H2 _ _;
    [|apply parses_failed; [intros; by apply parses_recover|etrans; [apply H2|done]|done]].
  apply parses_bind, parses_readToken. intros colon r3 H3 _.
  assert (H03 : after r r3) by (etrans; [exact H1|etrans; [exact H2|exact H3]]).
  assert (Hlt3 : (length (current_ r3) < length (current_ r))%nat).
  { destruct H2 as [H2 _], H3 as [H3 _]. unfold shrinks in *. lia. }
  case_decide as Hcolon;
    [|apply parses_failed; try done; [intros; by apply parses_addErrorAndRecover|apply H03]].
  simpl in Hwf. apply andb_true_iff in Hwf as [Hsorted Hall].
  apply parses_bind. eapply parses_mono; [apply rv_reads; [lia|by eapply in_document_after|by apply lookup_well_formed]|].
  intros [ok v] r4 [(Hs4 & Hv & Hok) _]. cbn [fst snd] in *.
  assert (Hs04 : shrinks (current_ r4) (current_ r)) by (etrans; [exact Hs4|apply H03]).
  assert (Hwf' : well_formed (objectValue (obj_insert (czstring name') v members)) = true).
  { simpl. rewrite keys_sorted_insert by done. apply forallb_insert; [|done]. rewrite Hv, andb_true_r. apply Z.ltb_lt, czstring_size. }
  destruct ok; cbn [negb]; [|apply parses_failed; try done; intros; by apply parses_recover].
  destruct (Hok eq_refl) as [Hd4 Hh4]. destruct H03 as [Hs03 Hd03]. rewrite Hd03 in Hd4, Hh4.
  apply parses_bind, parses_readToken. intros comma r5 H5 _.
  assert (H05 : after r r5).
  { destruct H5 as [Hs5 Hd5]. split; [by etrans|congruence]. }
  case_decide as Hcomma;
    [|apply parses_failed; try done; [intros; by apply parses_addErrorAndRecover|apply H05]].
  assert (Hnext : forall comma' r6, after r5 r6 ->
    parses Y (if decide (type_ comma' = tokenObjectEnd)
           then mret (true, objectValue (obj_insert (czstring name') v members))
           else read_members rv n name' (obj_insert (czstring name') v members)) r6 (value_read 1 r) X).
  { intros comma' r6 H6. apply parses_end_or_next; [exact IH|by etrans| |done|done|done|].
    - destruct H5 as [H5 _], H6 as [H6 _]. unfold shrinks in *. lia.
    - split; [lia|]. pose proof (height_insert (czstring name') v members (stackLimit_g - stackDepth_g r)
        ltac:(lia) ltac:(lia)). lia. }
  case_decide.
  - apply parses_bind, parses_uncommented. intros comma' r6 H6 _. by apply Hnext.
  - apply parses_bind, parses_ret. by apply Hnext.
Qed.

Lemma parses_read_elements n index elements r :
  (length (current_ r) < n)%nat -> (length (current_ r) < N)%nat -> in_document r ->
  well_formed (arrayValue elements) = true ->
  stackDepth_g r + height (arrayValue elements) <= stackLimit_g + 1 ->
  index = Z.of_nat (length elements) -> 2 * index + 1 + size (current_ r) <= L ->
  parses Y (read_elements rv n index elements) r (value_read 1 r) X.
Proof.
  revert index elements r. induction n as [|n IH]; intros index elements r Hn HN Hd Hwf Hh Hi HL; [lia|].
  cbn [read_elements]. destruct (Z.eqb_spec index maxInt) as [Hmax|Hmax].
  { apply parses_overflow. unfold Y, maxInt, size in *. lia. }
  apply parses_bind. eapply parses_mono; [by apply rv_reads|].
  intros [ok v] r1 [(Hs1 & Hv & Hok) Htake]. cbn [fst snd] in *.
  assert (Hi' : index + 1 = Z.of_nat (length (elements ++ [v]))) by (rewrite length_app; simpl; lia).
  assert (Hwf' : well_formed (arrayValue (elements ++ [v])) = true).
  { simpl in *. rewrite <- Hi'. rewrite <- Hi in Hwf. apply andb_true_iff in Hwf as [Hle Hwf].
    rewrite forallb_app, Hwf. simpl. rewrite Hv. unfold maxInt in *. rewrite !andb_true_r. lia. }
  destruct ok; cbn [negb]; [|apply parses_failed; try done; intros; by apply parses_recover].
  destruct (Hok eq_refl) as [Hd1 Hh1]. specialize (Htake eq_refl).
  apply parses_bind, parses_uncommented. intros t r2 H2 Ht.
  assert (H02 : after r r2). { destruct H2 as [Hs2 Hd2]. split; [by etrans|congruence]. }
  pose proof (height_elements_app elements v (stackLimit_g - stackDepth_g r) ltac:(lia) ltac:(lia)) as Hh2.
  case_decide as Hend; [|case_decide as Hsep].
  - apply (value_read_after 1 r r2); [done|]. split; [done|]. split; [done|]. intros _.
    destruct H02 as [_ ->]. split; [done|]. cbn [snd]. lia.
  - assert (Hlt : (length (current_ r2) < length (current_ r1))%nat) by (apply (proj1 Ht); congruence).
    unfold shrinks in Hs1. eapply parses_mono;
      [apply IH; [lia|lia|by eapply in_document_after|done|destruct H02 as [_ ->]; lia|done|unfold size in *; lia]|].
    intros x r' Hx. by apply (value_read_after 1 r r2).
  - apply parses_failed; try done; [intros; by apply parses_addErrorAndRecover|apply H02].
Qed.
End Containers.

Lemma parses_readObject N rv r :
  (forall r v, (length (current_ r) < N)%nat -> in_document r -> well_formed v = true ->
     parses Y (rv v) r (value_taken r) X) ->
  (length (current_ r) < N)%nat -> in_document r -> stackDepth_g r <= stackLimit_g ->
  parses Y (readObject rv) r (value_read 1 r) X.
Proof.
  intros Hrv HN Hd Hl. apply parses_rounds.
  apply (parses_read_members N rv Hrv); [lia|done|done|done|simpl; lia].
Qed.
Lemma parses_readArray N rv r :
  (forall r v, (length (current_ r) < N)%nat -> in_document r -> well_formed v = true ->
     parses Y (rv v) r (value_taken r) X) ->
  (length (current_ r) < N)%nat -> in_document r -> 1 <= stackDepth_g r <= stackLimit_g ->
  parses Y (readArray rv) r (value_read 1 r) X.
Proof.
  intros Hrv HN Hd Hl. apply parses_bind, parses_scan. cbn [fst snd].
  set (r1 := mkReader _ _ _).
  assert (H1 : after r r1) by (split; [apply skipSpaces_shrinks|done]).
  apply parses_bind, parses_get_reader. case_decide.
  - apply parses_bind, parses_readToken. intros t r2 H2 _. apply (value_read_after 1 r r2); [by etrans|].
    split; [done|]. split; [done|]. intros _. split; [done|]. destruct H2 as [_ ->]. simpl. lia.
  - apply parses_rounds. eapply parses_mono; [apply (parses_read_elements N rv Hrv)|].
    + lia.
    + destruct H1 as [H1 _]. unfold shrinks in H1. lia.
    + by eapply in_document_after.
    + done.
    + simpl. lia.
    + done.
    + destruct H1 as [H1 _], Hd as [_ Hd]. unfold shrinks, size in *. cbn [length]. lia.
    + intros x r' Hx. by apply (value_read_after 1 r r1).
Qed.

Lemma string_value_reads s :
  size s <= L ->
  match string_value s with
  | Ret v => well_formed v = true /\ height v = 1
  | Throw e => X e
  | Fault _ => False
  end.
Proof.
  intros Hs. unfold string_value, logic_error. assert (Hnn : 0 <= size s) by (unfold size; lia).
  destruct (Z.leb_spec (u32 (size s)) (maxInt - 4 - 1)) as [Hle|Hgt].
  - split; [|done]. simpl. unfold size. rewrite length_take. apply Z.leb_le.
    assert (0 <= u32 (size s)) by (apply Z.mod_pos_bound; lia). fold (size s). lia.
  - right. split; [done|]. assert (u32 (size s) <= size s) by (apply Z.mod_le; lia). lia.
Qed.


Lemma parses_readValue n r v :
  (length (current_ r) < n)%nat -> in_document r -> well_formed v = true ->
  parses Y (readValue features n v) r (value_taken r) X.
Proof.
  revert r v. induction n as [|n IH]; intros r v Hn Hd Hwf; [lia|]. cbn [readValue].
  apply parses_bind, parses_get_reader. destruct (Z.leb_spec stackLimit_g (stackDepth_g r)) as [Hl|Hl].
  { apply parses_throw. left. split; [done|]. destruct Hd as [H1 H2]. unfold size in H2. lia. }
  apply parses_bind, parses_put_depth. cbv zeta. set (r1 := mkReader _ _ _).
  apply parses_bind, parses_skipCommentTokens. intros t r2 [Hs2 Hd2] Ht.
  set (leave := fun x : bool * Value => _).
  assert (Hleave : forall x r', shrinks (current_ r') (current_ r) -> well_formed x.2 = true ->
            (x.1 = true -> stackDepth_g r' = stackDepth_g r + 1 /\ stackDepth_g r + height x.2 <= stackLimit_g /\
               size (current_ r') < size (current_ r)) ->
            parses Y (leave x) r' (value_taken r) X).
  { intros x r' H1 H2 H3. apply parses_bind, parses_get_reader. apply parses_bind, parses_put_depth, parses_ret.
    split; [|intros Hx; by apply H3]. split; [done|]. split; [done|]. intros Hx. destruct (H3 Hx) as (-> & Hh & _).
    unfold stackLimit_g in *. cbn [stackDepth_g]. lia. }
  assert (Hfail : forall r', shrinks (current_ r') (current_ r) -> parses Y (leave (false, v)) r' (value_taken r) X)
    by (intros; by apply Hleave).
  assert (Hs02 : shrinks (current_ r2) (current_ r)) by exact Hs2.
  assert (Hd02 : stackDepth_g r2 = stackDepth_g r + 1) by exact Hd2.
  assert (Htook : type_ t <> tokenEndOfStream -> size (current_ r2) < size (current_ r)).
  { intros Htok. apply (proj1 Ht) in Htok. cbn in Htok. unfold size. lia. }
  assert (Hscalar : forall x r', type_ t <> tokenEndOfStream -> after r2 r' -> well_formed x = true -> height x = 1 ->
            parses Y (leave (true, x)) r' (value_taken r) X).
  { intros x r' Htok [H1 H2] H3 H4. specialize (Htook Htok). apply Hleave; [by etrans|done|]. cbn [snd].
    rewrite H4, H2. unfold shrinks, size in *. lia. }
  assert (Hcontainer : forall m, type_ t <> tokenEndOfStream ->
            ((length (current_ r2) < n)%nat -> in_document r2 -> 1 <= stackDepth_g r2 <= stackLimit_g ->
             parses Y m r2 (value_read 1 r2) X) ->
            parses Y (x ← m; leave x) r2 (value_taken r) X).
  { intros m Htok Hm. specialize (Htook Htok). apply (proj1 Ht) in Htok. cbn in Htok. destruct Hd as [H1 H2].
    apply parses_bind. eapply parses_mono; [apply Hm|].
    - lia.
    - unfold in_document, size in *. lia.
    - lia.
    - intros x r3 (H3 & H4 & H5). apply Hleave; [by etrans|done|]. intros Hx. destruct (H5 Hx).
      unfold shrinks, size in *. lia. }
  destruct (type_ t) eqn:Et;
    try (apply parses_bind, parses_addError; intros r3 [H3 _]; apply parses_ret; split; [split; [by etrans|done]|done]).
  - apply Hcontainer; [done|]. intros ? ? [??]. by apply (parses_readObject n).
  - apply Hcontainer; [done|]. intros. by apply (parses_readArray n).
  - apply parses_bind, parses_decodeString. intros [s|] r3 H3 _ Hs; [|apply Hfail; etrans; [apply H3|done]].
    pose proof (string_value_reads s) as Hv. destruct Ht as [_ Hst], Hd as [H1 H2].
    assert (Hsize : size s <= L) by (unfold shrinks, size in *; cbn in Hst; lia). specialize (Hv Hsize).
    apply parses_bind. unfold parses at 1, lift. destruct (string_value s); [|done|done]. destruct Hv.
    by apply Hscalar.
  - apply parses_bind, parses_decodeNumber. intros [x|] r3 H3 _ Hx; [|apply Hfail; etrans; [apply H3|done]].
    destruct Hx. by apply Hscalar.
  - by apply Hscalar.
  - by apply Hscalar.
  - by apply Hscalar.
Qed.
End Parsing.

Lemma parse_reads features document :
  parses (2 ^ 32 - 1 <= size document) (parse features document nullValue) (mkReader document 0 [])
    (fun x _ => well_formed x.2 = true /\ (x.1 = true -> height x.2 <= stackLimit_g))
    (parse_error (size document)).
Proof.
  apply parses_bind, parses_put_depth. apply parses_bind, parses_rounds.
  eapply parses_mono; [apply (parses_readValue features (size document))|].
  - simpl. lia.
  - unfold in_document. simpl. lia.
  - done.
  - intros [ok v] r [(_ & H1 & H2) _]. cbn [fst snd] in *. apply parses_bind, parses_skipCommentTokens.
    intros t r1 _ _. assert (H3 : ok = true -> height v <= stackLimit_g) by (intros Hx; destruct (H2 Hx); simpl in *; lia).
    case_match; [|by apply parses_ret]. by apply parses_bind, parses_addError.
Qed.

(** C24: The parser ends on every document, whatever its features: it returns; or throws for one of two
    reasons, and only when the document has the characters for it: 1000 values within each other, and
    a string of 2 GiB; or counts the elements of an array past the largest [int], which takes 2^32 - 1
    characters. It never loops. *)
Theorem json_parse_total features document :
  (exists ok v, run_parse features document = Ret (ok, v)) \/
  (exists e, run_parse features document = Throw e /\ parse_error (size document) e) \/
  (run_parse features document = Fault UndefinedBehaviour /\ 2 ^ 32 - 1 <= size document).
Proof.
  pose proof (parse_reads features document) as H. unfold parses, run_parse in *.
  destruct (parse features document nullValue _) as [[[ok v]|e|x] r t]; simpl; [left|right; left|right; right]; eauto.
  by destruct H as [-> H].
Qed.

(** C25: What the parser returns, even of a text it refuses, is well formed: integers in the range of their
    type, strings a value can hold, arrays their counter can count, and the keys of objects below 1 GiB and
    in order, without repetition. What it accepts nests at most 1000 deep. *)
Theorem json_parse_typed features document ok v :
  run_parse features document = Ret (ok, v) ->
  well_formed v = true /\ (ok = true -> height v <= stackLimit_g).
Proof.
  pose proof (parse_reads features document) as H. unfold parses, run_parse in *.
  destruct (parse features document nullValue _) as [[[ok' v']|e|x] r t]; simpl; [|done..].
  by intros [= <- <-].
Qed.

(** *** Witnesses, and inputs on which the parser is more lenient than the grammar of JSON *)

(** A text with [']' for the double quote *)
Definition quotes (s : string) : bytes := map (fun c => if decide (c = "'"%byte) then x22 else c) (str s).
Definition demo_text : bytes := quotes "{'b' : [1, -2, 'x\u00e9\n', 4294967296], // c
  'a' : {}, 'b' : [null] }".
Theorem json_parse_typed_witness :
  let v := objectValue [(str "a", objectValue []); (str "b", arrayValue [nullValue])] in
  run_parse all demo_text = Ret (true, v) /\ well_formed v = true /\ height v <= stackLimit_g.
Proof.
  set (v := objectValue _). assert (Hr : run_parse all demo_text = Ret (true, v)) by vm_eq.
  destruct (json_parse_typed all demo_text true v Hr) as [Hw Hh]. split_and!; [exact Hr|exact Hw|].
  apply Hh. reflexivity.
Defined.

(** A lone minus is zero, the text after the value is not read, a comma may end an object whose last
    key is empty, and after a comment any token separates two members. *)
Example json_lenient :
  Reader_parse (str "-") = Ret (Some (intValue 0)) /\
  Reader_parse (str "[] tail") = Ret (Some (arrayValue [])) /\
  Reader_parse (quotes "{'':1,}") = Ret (Some (objectValue [([], intValue 1)])) /\
  Reader_parse (quotes "{'a':1/**/:'b':2}")
  = Ret (Some (objectValue [(str "a", intValue 1); (str "b", intValue 2)])).
Proof. by vm_compute. Qed.
