(* ===== verification/JsonWriter.v ===== *)
(** * The printer of jsoncpp

    [BuiltStyledStreamWriter] of src/client-library/src/external/jsoncpp-0.10.7/src/jsoncpp.cpp, as
    [Json::writeString] runs it with the settings of [StreamWriterBuilder]: the texts the client
    library sends to the attestation service. Each method is a function on the writer's state. The
    values it prints carry no comments: no caller prints a value it parsed. *)

From S2P Require Import Prelude Json JsonCpp.
#[local] Open Scope Z_scope.

(** ** Strings and numbers *)

(** [char] is signed: the bytes from 128 on are negative. *)
Definition isControlCharacter (ch : byte) : bool := (0 <? z_of_byte ch) && (z_of_byte ch <=? 0x1F).
Definition containsControlCharacter0 (s : bytes) : bool :=
  existsb (fun c => isControlCharacter c || bool_decide (c = x00)) s.
(** [strnpbrk(s, accept, n)] is not null *)
Definition strnpbrk (s accept : bytes) : bool := existsb (fun c => bool_decide (c ∈ accept)) s.

Definition upper_digit (z : Z) : byte := byte_of_z (if z <? 10 then 48 + z else 55 + z).
(** [std::hex], [std::uppercase], [std::setw(4)] and a fill of zeros *)
Definition hex4 (z : Z) : bytes :=
  [upper_digit (z / 4096); upper_digit (z / 256 mod 16); upper_digit (z / 16 mod 16); upper_digit (z mod 16)].
Definition quoted_char (c : byte) : bytes :=
  match c with
  | x22 => [x5c; x22]
  | x5c => [x5c; x5c]
  | x08 => [x5c; "b"%byte]
  | x0c => [x5c; "f"%byte]
  | x0a => [x5c; "n"%byte]
  | x0d => [x5c; "r"%byte]
  | x09 => [x5c; "t"%byte]
  | _ =>
      if isControlCharacter c || bool_decide (c = x00) then x5c :: "u"%byte :: hex4 (z_of_byte c)
      else [c]
  end.
(** [valueToQuotedStringN(value, length)], for the first [length] characters of [value]; the branch
    without escapes appends [value] up to its NUL, and there is none before the end *)
Definition valueToQuotedStringN (value : bytes) : bytes :=
  if negb (strnpbrk value [x22; x5c; x08; x0c; x0a; x0d; x09]) && negb (containsControlCharacter0 value)
  then x22 :: value ++ [x22]
  else x22 :: flat_map quoted_char value ++ [x22].

(** [uintToString] *)
Definition uintToString (value : Z) : bytes := digits value.
(** [valueToString(LargestInt)]: [- value] overflows for the least one, which has a case of its own *)
Definition valueToString (value : Z) : bytes :=
  if value =? - 2 ^ 63 then "-"%byte :: uintToString (2 ^ 63)
  else if value <? 0 then "-"%byte :: uintToString (- value)
  else uintToString value.

(** ** The writer *)

Inductive CommentStyle := None_ | Most | All.
#[export] Instance CommentStyle_eq_dec : EqDecision CommentStyle.
Proof. solve_decision. Defined.

Record Config := {
  indentation_ : bytes;
  cs_ : CommentStyle;
  colonSymbol_ : bytes;
  nullSymbol_ : bytes;
  endingLineFeedSymbol_ : bytes }.
Definition rightMargin_ : Z := 74.

Record Writer := mkWriter {
  sout_ : bytes;
  childValues_ : list bytes;
  indentString_ : bytes;
  addChildValues_ : bool;
  indented_ : bool }.

Section Writer.
Variable config : Config.

Definition out (s : bytes) (w : Writer) : Writer :=
  mkWriter (sout_ w ++ s) (childValues_ w) (indentString_ w) (addChildValues_ w) (indented_ w).
Definition set_indented (b : bool) (w : Writer) : Writer :=
  mkWriter (sout_ w) (childValues_ w) (indentString_ w) (addChildValues_ w) b.
Definition set_children (add : bool) (l : list bytes) (w : Writer) : Writer :=
  mkWriter (sout_ w) l (indentString_ w) add (indented_ w).
Definition set_indent (s : bytes) (w : Writer) : Writer :=
  mkWriter (sout_ w) (childValues_ w) s (addChildValues_ w) (indented_ w).

Definition pushValue (value : bytes) (w : Writer) : Writer :=
  if addChildValues_ w then set_children true (childValues_ w ++ [value]) w else out value w.
Definition writeIndent (w : Writer) : Writer :=
  if bool_decide (indentation_ config = []) then w else out (x0a :: indentString_ w) w.
Definition writeWithIndent (value : bytes) (w : Writer) : Writer :=
  set_indented false (out value (if indented_ w then w else writeIndent w)).
Definition indent (w : Writer) : Writer := set_indent (indentString_ w ++ indentation_ config) w.
Definition unindent (w : Writer) : Writer :=
  set_indent (take (length (indentString_ w) - length (indentation_ config)) (indentString_ w)) w.

Section Containers.
Variable write : Value -> Writer -> Writer.

(** The loop over the members of an object *)
Fixpoint write_members (l : list (bytes * Value)) (w : Writer) : Writer :=
  match l with
  | [] => w
  | (name, childValue) :: l' =>
      let w := writeWithIndent (valueToQuotedStringN name) w in
      let w := write childValue (out (colonSymbol_ config) w) in
      match l' with [] => w | _ => write_members l' (out (str ",") w) end
  end.
(** The loop over the elements of an array on several lines, and with their texts at hand *)
Fixpoint write_elements (l : list Value) (w : Writer) : Writer :=
  match l with
  | [] => w
  | childValue :: l' =>
      let w := set_indented true (if indented_ w then w else writeIndent w) in
      let w := set_indented false (write childValue w) in
      match l' with [] => w | _ => write_elements l' (out (str ",") w) end
  end.
Fixpoint write_children (l : list bytes) (w : Writer) : Writer :=
  match l with
  | [] => w
  | childValue :: l' =>
      let w := writeWithIndent childValue w in
      match l' with [] => w | _ => write_children l' (out (str ",") w) end
  end.

Definition has_elements (v : Value) : bool :=
  match v with arrayValue (_ :: _) | objectValue (_ :: _) => true | _ => false end.
Definition isMultineArray (l : list Value) (w : Writer) : bool * Writer :=
  let size := Z.of_nat (length l) in
  let w := set_children (addChildValues_ w) [] w in
  if (rightMargin_ <=? size * 3) || existsb has_elements l then (true, w)
  else
    let w := set_children true [] w in
    let w := fold_left (fun w childValue => write childValue w) l w in
    let lineLength :=
      4 + (size - 1) * 2 + Z.of_nat (list_sum (map length (childValues_ w))) in
    (rightMargin_ <=? lineLength, set_children false (childValues_ w) w).

Definition writeArrayValue (l : list Value) (w : Writer) : Writer :=
  match l with
  | [] => pushValue (str "[]") w
  | _ =>
      let '(isMultiLine, w) :=
        if decide (cs_ config = All) then (true, w) else isMultineArray l w in
      if isMultiLine then
        let w := indent (writeWithIndent (str "[") w) in
        let w := match childValues_ w with
                 | [] => write_elements l w
                 | children => write_children (take (length l) children) w
                 end in
        writeWithIndent (str "]") (unindent w)
      else
        let pad := if bool_decide (indentation_ config = []) then [] else str " " in
        out (str "[" ++ pad ++ join (str ", ") (childValues_ w) ++ pad ++ str "]") w
  end.
End Containers.

Fixpoint writeValue (value : Value) (w : Writer) : Writer :=
  match value with
  | nullValue => pushValue (nullSymbol_ config) w
  | intValue z => pushValue (valueToString z) w
  | uintValue z => pushValue (uintToString z) w
  | realValue shown _ _ => pushValue shown w
  | stringValue s => pushValue (valueToQuotedStringN s) w
  | booleanValue b => pushValue (if b then str "true" else str "false") w
  | arrayValue l => writeArrayValue writeValue l w
  | objectValue [] => pushValue (str "{}") w
  | objectValue l =>
      let w := indent (writeWithIndent (str "{") w) in
      writeWithIndent (str "}") (unindent (write_members writeValue l w))
  end.

(** [BuiltStyledStreamWriter::write], into an empty stream *)
Definition write (root : Value) : bytes :=
  sout_ (out (endingLineFeedSymbol_ config) (writeValue root (mkWriter [] [] [] false true))).
End Writer.

(** ** [StreamWriterBuilder] *)

(** [setDefaults], and the writer [newStreamWriter] makes of settings *)
Definition setDefaults : Value :=
  objectValue
    [(str "commentStyle", stringValue (str "All"));
     (str "dropNullPlaceholders", booleanValue false);
     (str "enableYAMLCompatibility", booleanValue false);
     (str "indentation", stringValue [x09]);
     (str "precision", intValue 17);
     (str "useSpecialFloats", booleanValue false)].
Definition asBool (v : Value) : outcome bool :=
  match v with
  | booleanValue b => Ret b
  | nullValue => Ret false
  | intValue z | uintValue z => Ret (negb (z =? 0))
  | realValue _ m _ => Ret (negb (m =? 0))
  | _ => logic_error "Value is not convertible to bool."
  end.
Definition newStreamWriter (settings : Value) : outcome Config :=
  indentation ← get_string settings "indentation";
  cs_str ← get_string settings "commentStyle";
  eyc ← get settings (str "enableYAMLCompatibility") nullValue ≫= asBool;
  dnp ← get settings (str "dropNullPlaceholders") nullValue ≫= asBool;
  cs ← (if decide (cs_str = str "All") then Ret All
        else if decide (cs_str = str "None") then Ret None_
        else Throw (JsoncppError (str "commentStyle must be 'All' or 'None'")));
  Ret {| indentation_ := indentation;
         cs_ := cs;
         colonSymbol_ :=
           if eyc : bool then str ": " else if bool_decide (indentation = []) then str ":" else str " : ";
         nullSymbol_ := if dnp : bool then [] else str "null";
         endingLineFeedSymbol_ := [] |}.
(** [Json::writeString(builder, root)] with a builder of these settings *)
Definition Writer_writeString (settings root : Value) : outcome bytes :=
  config ← newStreamWriter settings; Ret (write config root).
