(* ===== verification/JsonRoundTrip.v ===== *)
(** * What jsoncpp prints, it reads back

    The texts of [Json::writeString] are described by a function of the value, and [Json::Reader] is
    shown to read them to the value printed, up to the type of its numbers: a number is read as an
    [Int] when it is negative or below [2 ^ 31], and else as a [UInt]. *)

From S2P Require Import Prelude Json JsonObjects JsonCpp JsonReader JsonReaderFacts JsonWriter.
#[local] Open Scope Z_scope.

(** Induction on values, with the hypothesis for every element and member *)
Definition Value_induction (P : Value -> Prop)
  (Hscalar : forall v, match v with arrayValue _ | objectValue _ => True | _ => P v end)
  (Harray : forall l, Forall P l -> P (arrayValue l))
  (Hobject : forall l, Forall (fun m => P (snd m)) l -> P (objectValue l)) : forall v, P v :=
  fix go v :=
    match v with
    | arrayValue l =>
        Harray l ((fix elements l : Forall P l :=
          match l with [] => Forall_nil_2 P | x :: l' => Forall_cons_2 P x l' (go x) (elements l') end) l)
    | objectValue l =>
        Hobject l ((fix members l : Forall (fun m => P (snd m)) l :=
          match l with
          | [] => Forall_nil_2 _
          | m :: l' => Forall_cons_2 _ m l' (go (snd m)) (members l')
          end) l)
    | v => Hscalar v
    end.

(** ** The text of a value *)

Fixpoint has_reals (v : Value) : bool :=
  match v with
  | realValue _ _ _ => true
  | arrayValue l => existsb has_reals l
  | objectValue l => existsb (fun '(_, x) => has_reals x) l
  | _ => false
  end.
Definition number (z : Z) : Value :=
  if z <? 0 then intValue z else if z <=? maxInt then intValue z else uintValue z.
Fixpoint read_back (v : Value) : Value :=
  match v with
  | intValue z | uintValue z => number z
  | arrayValue l => arrayValue (map read_back l)
  | objectValue l => objectValue (map (fun '(k, x) => (k, read_back x)) l)
  | v => v
  end.

Definition new_line (ind : bytes) : bytes := x0a :: ind.
Definition quoted_text (s : bytes) : bytes := x22 :: flat_map quoted_char s ++ [x22].
(** A container starts on a line of its own after the name of a member. *)
Definition lead (ind : bytes) (indented : bool) (v : Value) : bytes :=
  if has_elements v && negb indented then new_line ind else [].
Definition after_comma {A} (text : A -> bytes) (l : list A) : bytes :=
  flat_map (fun x => ","%byte :: text x) l.
Fixpoint value_text (ind : bytes) (v : Value) : bytes :=
  let deeper := ind ++ [x09] in
  match v with
  | nullValue => str "null"
  | intValue z => valueToString z
  | uintValue z => digits z
  | realValue shown _ _ => shown
  | stringValue s => quoted_text s
  | booleanValue b => if b then str "true" else str "false"
  | arrayValue [] => str "[]"
  | arrayValue (x :: l) =>
      let element x := new_line deeper ++ value_text deeper x in
      "["%byte :: element x ++ after_comma element l ++ new_line ind ++ ["]"%byte]
  | objectValue [] => str "{}"
  | objectValue (m :: l) =>
      let member (m : bytes * Value) :=
        new_line deeper ++ quoted_text m.1 ++ str " : " ++ lead deeper false m.2 ++ value_text deeper m.2 in
      "{"%byte :: member m ++ after_comma member l ++ new_line ind ++ ["}"%byte]
  end.

(** ** The writer prints that text *)

Lemma quoted_char_plain c :
  bool_decide (c ∈ [x22; x5c; x08; x0c; x0a; x0d; x09]) = false ->
  isControlCharacter c || bool_decide (c = x00) = false -> quoted_char c = [c].
Proof. destruct c; vm_compute; intros; first [reflexivity|discriminate]. Qed.
Lemma valueToQuotedStringN_quoted s : valueToQuotedStringN s = quoted_text s.
Proof.
  unfold valueToQuotedStringN, quoted_text. destruct (strnpbrk s _) eqn:E1; [done|].
  destruct (containsControlCharacter0 s) eqn:E2; [done|]. cbn [negb andb]. do 2 f_equal.
  unfold strnpbrk, containsControlCharacter0 in *. induction s as [|c s IH]; [done|].
  cbn [existsb] in E1, E2. apply orb_false_iff in E1 as [E1 E1'], E2 as [E2 E2'].
  cbn [flat_map]. rewrite quoted_char_plain by done. cbn [app]. f_equal. by apply IH.
Qed.

Definition config : Config :=
  {| indentation_ := [x09]; cs_ := All; colonSymbol_ := str " : "; nullSymbol_ := str "null";
     endingLineFeedSymbol_ := [] |}.
Lemma default_config : newStreamWriter setDefaults = Ret config.
Proof. reflexivity. Qed.

(** The state of a writer that prints everything: the child values are for other comment styles. *)
Definition printing (s ind : bytes) (indented : bool) : Writer := mkWriter s [] ind false indented.

Lemma writeIndent_printing s ind b : writeIndent config (printing s ind b) = printing (s ++ new_line ind) ind b.
Proof. reflexivity. Qed.
Lemma writeWithIndent_printing s ind b t :
  writeWithIndent config t (printing s ind b) = printing (s ++ (if b then [] else new_line ind) ++ t) ind false.
Proof.
  unfold writeWithIndent. cbn [indented_ printing]. destruct b; unfold printing; cbn.
  - done.
  - unfold set_indented, out. cbn. by rewrite <- app_assoc.
Qed.
Lemma indent_printing s ind b : indent config (printing s ind b) = printing s (ind ++ [x09]) b.
Proof. reflexivity. Qed.
Lemma unindent_printing s ind b : unindent config (printing s (ind ++ [x09]) b) = printing s ind b.
Proof.
  unfold unindent, set_indent, printing. cbn. f_equal. rewrite length_app. cbn.
  rewrite Nat.add_sub, take_app_le by lia. by rewrite take_ge by lia.
Qed.
Lemma out_printing s ind b t : out t (printing s ind b) = printing (s ++ t) ind b.
Proof. reflexivity. Qed.

Section Printed.
Variable writev : Value -> Writer -> Writer.
Definition prints (v : Value) : Prop := forall s ind b,
  writev v (printing s ind b) =
  printing (s ++ lead ind b v ++ value_text ind v) ind (if has_elements v then false else b).

(** A loop that prints [text] of each item, with commas between them *)
Lemma print_items {A} (loop : list A -> Writer -> Writer) (step : A -> Writer -> Writer)
    (text : A -> bytes) ind x l s :
  (forall x l w, loop (x :: l) w =
     match l with [] => step x w | _ => loop l (out (str ",") (step x w)) end) ->
  Forall (fun x => forall s, step x (printing s ind false) = printing (s ++ text x) ind false) (x :: l) ->
  loop (x :: l) (printing s ind false) = printing (s ++ text x ++ after_comma text l) ind false.
Proof.
  intros Hloop. revert x s. induction l as [|y l IH]; intros x s Hl;
    apply Forall_cons in Hl as [Hx Hl]; rewrite Hloop, Hx; [by rewrite app_nil_r|].
  rewrite out_printing, IH by done. by rewrite <- !app_assoc.
Qed.
Lemma write_elements_text x l s ind :
  Forall prints (x :: l) ->
  write_elements config writev (x :: l) (printing s ind false) =
  printing (s ++ (new_line ind ++ value_text ind x) ++ after_comma (fun y => new_line ind ++ value_text ind y) l)
    ind false.
Proof.
  intros Hl. apply (print_items _ (fun x w =>
    set_indented false (writev x (set_indented true (if indented_ w then w else writeIndent config w))))
    (fun y => new_line ind ++ value_text ind y)).
  - by intros ? [].
  - eapply Forall_impl; [exact Hl|]. intros y Hy s'. cbn [indented_ printing].
    rewrite writeIndent_printing.
    change (set_indented true (printing (s' ++ new_line ind) ind false)) with (printing (s' ++ new_line ind) ind true).
    rewrite Hy. unfold lead. rewrite andb_false_r. by rewrite <- app_assoc.
Qed.
Definition member_text (ind : bytes) (m : bytes * Value) : bytes :=
  new_line ind ++ quoted_text m.1 ++ str " : " ++ lead ind false m.2 ++ value_text ind m.2.
Lemma write_members_text m l s ind :
  Forall (fun m => prints m.2) (m :: l) ->
  write_members config writev (m :: l) (printing s ind false) =
  printing (s ++ member_text ind m ++ after_comma (member_text ind) l) ind false.
Proof.
  intros Hl. apply (print_items _ (fun m w =>
    writev m.2 (out (str " : ") (writeWithIndent config (valueToQuotedStringN m.1) w))) (member_text ind)).
  - by intros [] [].
  - eapply Forall_impl; [exact Hl|]. intros y Hy s'.
    rewrite writeWithIndent_printing, out_printing, Hy, valueToQuotedStringN_quoted.
    unfold member_text. rewrite <- !app_assoc. by destruct (has_elements y.2).
Qed.
End Printed.

Lemma digits_valueToString z : - 2 ^ 63 <= z -> valueToString z = z_text z.
Proof.
  intros Hz. unfold valueToString, z_text, uintToString. destruct (Z.eqb_spec z (- 2 ^ 63)) as [->|]; [done|].
  done.
Qed.
Lemma writeValue_text v : prints (writeValue config) v.
Proof.
  revert v. apply Value_induction; [intros v|intros l IH|intros l IH].
  - destruct v as [|z|z|shown m e|t|c| |]; try done; intros s ind b; cbn [writeValue has_elements lead value_text andb app];
      rewrite ?valueToQuotedStringN_quoted; try done.
  - intros s ind b. destruct l as [|x l]; [done|]. cbn [writeValue writeArrayValue].
    rewrite decide_True by done. rewrite writeWithIndent_printing, indent_printing.
    cbn [childValues_ printing]. rewrite write_elements_text by done.
    rewrite unindent_printing, writeWithIndent_printing. unfold lead. cbn [has_elements value_text].
    rewrite <- !app_assoc. by destruct b.
  - intros s ind b. destruct l as [|x l]; [done|]. cbn [writeValue].
    rewrite writeWithIndent_printing, indent_printing, write_members_text by done.
    rewrite unindent_printing, writeWithIndent_printing. unfold lead. cbn [has_elements value_text].
    rewrite <- !app_assoc. unfold member_text at 1. rewrite <- !app_assoc. by destruct b.
Qed.
Lemma writeString_text v : Writer_writeString setDefaults v = Ret (value_text [] v).
Proof.
  unfold Writer_writeString. rewrite default_config. change (Ret ?a ≫= ?k) with (k a). unfold write.
  change (mkWriter [] [] [] false true) with (printing [] [] true). rewrite writeValue_text, out_printing.
  unfold lead. rewrite andb_false_r. cbn [config endingLineFeedSymbol_ sout_ printing app].
  by rewrite app_nil_r.
Qed.

(** ** The reader reads it

    [gives m r a r']: the computation returns [a] and leaves the reader [r']. *)

Definition gives {A} (m : parser A) (r : Reader) (a : A) (r' : Reader) : Prop := m r = Res (Ret a) r' [].
Lemma gives_bind {A B} (m : parser A) (k : A -> parser B) r a r1 b r2 :
  gives m r a r1 -> gives (k a) r1 b r2 -> gives (m ≫= k) r b r2.
Proof. unfold gives, mbind, M_bind. intros ->. by intros ->. Qed.
Lemma gives_ret {A} (a : A) r : gives (mret a) r a r.
Proof. done. Qed.
Lemma gives_rounds {A} (loop : nat -> parser A) r a r' :
  gives (loop (S (length (current_ r)))) r a r' -> gives (token_rounds loop) r a r'.
Proof. intros H. by eapply gives_bind. Qed.

(** *** Tokens *)

Definition spaces (ws : bytes) : Prop := Forall (fun c => is_space c = true) ws.
Lemma skipSpaces_spaces ws c cur : spaces ws -> is_space c = false -> skipSpaces (ws ++ c :: cur) = c :: cur.
Proof.
  intros Hws Hc. induction Hws as [|w ws Hw _ IH]; cbn [app skipSpaces]; [by rewrite Hc|by rewrite Hw].
Qed.
(** A token that starts with [c] is read as its switch reads it. *)
Lemma readToken_at ws c cur ty cur' :
  spaces ws -> is_space c = false -> scan_token c cur = (ty, true, cur') ->
  readToken (ws ++ c :: cur) = (mkToken ty (c :: cur) cur', cur').
Proof.
  intros Hws Hc Hscan. unfold readToken. rewrite skipSpaces_spaces by done. cbn [getNextChar].
  by rewrite Hscan.
Qed.
Lemma gives_token ws c cur ty cur' d es :
  spaces ws -> is_space c = false -> scan_token c cur = (ty, true, cur') ->
  gives (scan readToken) (mkReader (ws ++ c :: cur) d es) (mkToken ty (c :: cur) cur') (mkReader cur' d es).
Proof. intros. unfold gives, scan. cbn [current_]. by erewrite readToken_at. Qed.
Lemma gives_uncommented ws c cur ty cur' d es :
  spaces ws -> is_space c = false -> scan_token c cur = (ty, true, cur') -> ty <> tokenComment ->
  gives (token_rounds skip_comments) (mkReader (ws ++ c :: cur) d es) (mkToken ty (c :: cur) cur')
    (mkReader cur' d es).
Proof.
  intros. apply gives_rounds. eapply gives_bind; [by apply gives_token|]. cbn [type_].
  rewrite decide_False by done. apply gives_ret.
Qed.

Lemma readString_quoted s rest : readString (flat_map quoted_char s ++ x22 :: rest) = (true, rest).
Proof.
  induction s as [|c s IH]; [done|]. cbn [flat_map]. rewrite <- app_assoc.
  destruct c; exact IH.
Qed.
Lemma token_text_app t rest ty : token_text (mkToken ty (t ++ rest) rest) = t.
Proof. unfold token_text. cbn [start_ end_]. rewrite length_app, Nat.add_sub. by apply take_app_length. Qed.
Lemma decode_chars_quoted token n s decoded r :
  (length (flat_map quoted_char s) <= n)%nat ->
  gives (decode_chars token n (flat_map quoted_char s) decoded) r (Some (decoded ++ s)) r.
Proof.
  revert n decoded. induction s as [|c s IH]; intros n decoded Hn.
  { rewrite app_nil_r. by destruct n. }
  cbn [flat_map] in *. rewrite length_app in Hn.
  assert (Hstep : forall n', (length (quoted_char c) <= S n')%nat -> (length (flat_map quoted_char s) <= n')%nat ->
    gives (decode_chars token (S n') (quoted_char c ++ flat_map quoted_char s) decoded) r
      (Some (decoded ++ c :: s)) r).
  { intros n' _ Hn'. specialize (IH n' (decoded ++ [c]) Hn'). rewrite <- app_assoc in IH.
    destruct c; first [exact IH | (eapply gives_bind; [reflexivity|]); exact IH]. }
  assert (Hpos : (0 < length (quoted_char c))%nat) by (destruct c; vm_compute; lia).
  destruct n as [|n]; [lia|]. apply Hstep; lia.
Qed.
Lemma decodeString_quoted s rest r :
  gives (decodeString (mkToken tokenString (quoted_text s ++ rest) rest)) r (Some s) r.
Proof.
  unfold decodeString. rewrite token_text_app. unfold quoted_text. cbn [tail].
  rewrite removelast_last. by apply decode_chars_quoted.
Qed.

(** *** Numbers *)

(** What may follow a value: the reader of a number stops there. *)
Definition delimited (rest : bytes) : Prop :=
  peek rest = ","%byte \/ peek rest = x0a \/ peek rest = x00.
Lemma skip_digits_all ds rest :
  Forall (fun c => is_digit c = true) ds -> is_digit (peek rest) = false -> skip_digits (ds ++ rest) = rest.
Proof.
  intros Hds Hr. induction Hds as [|c ds Hc _ IH]; cbn [app skip_digits]; [|by rewrite Hc].
  destruct rest as [|c rest]; [done|]. cbn [peek] in Hr. cbn [skip_digits]. by rewrite Hr.
Qed.
Lemma delimited_stops rest : delimited rest ->
  is_digit (peek rest) = false /\ peek rest <> "."%byte /\ is_exponent (peek rest) = false.
Proof. by intros [->|[->| ->]]. Qed.
Lemma readNumber_digits ds rest :
  Forall (fun c => is_digit c = true) ds -> delimited rest -> readNumber (ds ++ rest) = rest.
Proof.
  intros Hds (H1 & H2 & H3)%delimited_stops. unfold readNumber. cbv zeta.
  rewrite skip_digits_all by done. rewrite decide_False by done. by rewrite H3.
Qed.
Lemma scan_token_digit c cur : is_digit c = true -> scan_token c cur = (tokenNumber, true, readNumber cur).
Proof. destruct c; intros H; first [discriminate H|reflexivity]. Qed.
Lemma digit_facts c : is_digit c = true -> is_space c = false /\ c <> "-"%byte /\ c <> "]"%byte.
Proof. destruct c; intros H; first [discriminate H|split_and!; [reflexivity|discriminate..]]. Qed.
Lemma digits_all z : 0 <= z -> Forall (fun c => is_digit c = true) (digits z).
Proof. apply digits_fuel_digit. Qed.

Lemma read_digits_le a l z r :
  Forall (fun c => is_digit c = true) l -> 0 <= a -> read_digits a l = (z, r) ->
  a * 10 ^ Z.of_nat (length l) <= z.
Proof.
  intros Hl. revert a. induction Hl as [|c l Hc _ IH]; intros a Ha; [simpl; intros [= <- _]; lia|].
  cbn [read_digits length]. rewrite Hc. apply is_digit_range in Hc. intros H%IH; [|lia].
  rewrite Nat2Z.inj_succ, Z.pow_succ_r by lia. pose proof (Z.pow_pos_nonneg 10 (Z.of_nat (length l))). nia.
Qed.
Lemma decode_digits_read maxI value l z :
  10 <= maxI < 2 ^ 64 -> Forall (fun c => is_digit c = true) l -> 0 <= value ->
  read_digits value l = (z, []) -> z <= maxI -> decode_digits maxI value l = Some z.
Proof.
  intros HM Hl. revert value. induction Hl as [|c l Hc Hl IH]; intros value Hv; [by intros [= ->]|].
  cbn [read_digits decode_digits]. rewrite Hc. cbn [negb]. intros Hr Hz.
  pose proof Hc as Hd. apply is_digit_range in Hd.
  pose proof (read_digits_le _ _ _ _ Hl (ltac:(lia) : 0 <= value * 10 + (z_of_byte c - 48)) Hr) as Hle.
  assert (Hstep : value * 10 + (z_of_byte c - 48) <= maxI).
  { pose proof (Z.pow_pos_nonneg 10 (Z.of_nat (length l))). nia. }
  pose proof (Z.div_mod maxI 10 ltac:(lia)) as Hdm. pose proof (Z.mod_pos_bound maxI 10 ltac:(lia)) as Hm.
  destruct ((maxI / 10 <=? value) && _) eqn:E.
  - apply andb_true_iff in E as [E1 E]. exfalso. apply orb_true_iff in E as [E|E]; [|lia].
    apply orb_true_iff in E as [E|E]; [lia|]. apply negb_true_iff, bool_decide_eq_false in E.
    destruct l as [|d l]; [done|]. cbn [length] in Hle. rewrite Nat2Z.inj_succ, Z.pow_succ_r in Hle by lia.
    pose proof (Z.pow_pos_nonneg 10 (Z.of_nat (length l))). nia.
  - unfold u64. rewrite !Z.mod_small by (rewrite ?Z.mod_small; lia). apply IH; [lia|done|done].
Qed.
Lemma decode_number_text z rest r :
  minLargestInt <= z <= maxLargestUInt ->
  gives (decodeNumber (mkToken tokenNumber (z_text z ++ rest) rest)) r (Some (number z)) r.
Proof.
  intros Hz. unfold decodeNumber. rewrite token_text_app. cbv zeta. unfold z_text, number.
  unfold minLargestInt, maxLargestUInt, maxLargestInt in *.
  destruct (Z.ltb_spec z 0) as [Hneg|Hpos].
  - cbn [peek tail]. rewrite bool_decide_true by done.
    pose proof (read_digits_text (- z) [] ltac:(lia) I) as Hr. rewrite app_nil_r in Hr.
    rewrite (decode_digits_read _ _ _ (- z)); [|lia|by apply digits_all; lia|lia|done|lia].
    cbn [andb]. destruct (Z.eqb_spec (- z) (2 ^ 63 - 1 + 1)); unfold gives, mret, M_ret; do 4 f_equal; lia.
  - destruct (digits_first z Hpos) as (c & l & E & Hc). destruct (digit_facts c Hc) as (_ & Hm & _).
    rewrite bool_decide_false by (rewrite E; done).
    pose proof (read_digits_text z [] Hpos I) as Hr. rewrite app_nil_r in Hr.
    rewrite (decode_digits_read _ _ _ z); [|lia|by apply digits_all|lia|done|lia]. done.
Qed.
Lemma scan_number z rest : delimited rest ->
  exists c cur, z_text z ++ rest = c :: cur /\ is_space c = false /\ c <> "]"%byte /\
    scan_token c cur = (tokenNumber, true, rest).
Proof.
  intros Hr. unfold z_text. destruct (Z.ltb_spec z 0) as [Hneg|Hpos].
  - eexists "-"%byte, (digits (- z) ++ rest). split_and!; [done..|]. cbn [scan_token].
    rewrite readNumber_digits; [done|apply digits_all; lia|done].
  - destruct (digits_first z Hpos) as (c & l & E & Hc). pose proof (digits_all z Hpos) as Hall. rewrite E in *.
    apply Forall_cons in Hall as [_ Hl]. destruct (digit_facts c Hc) as (? & _ & ?).
    eexists c, (l ++ rest). split_and!; [done..|]. rewrite scan_token_digit by done.
    by rewrite readNumber_digits.
Qed.

(** *** Values *)

(** What is read of a value after its first token, which left the reader [r] *)
Definition payload (n : nat) (t : Token) (r : Reader) (x : Value) (r' : Reader) : Prop :=
  match type_ t with
  | tokenObjectBegin => gives (readObject (readValue all n)) r (true, x) r'
  | tokenArrayBegin => gives (readArray (readValue all n)) r (true, x) r'
  | tokenNumber => gives (decodeNumber t) r (Some x) r'
  | tokenString => exists s, gives (decodeString t) r (Some s) r' /\ string_value s = Ret x
  | tokenTrue => x = booleanValue true /\ r' = r
  | tokenFalse => x = booleanValue false /\ r' = r
  | tokenNull => x = nullValue /\ r' = r
  | _ => False
  end.
Lemma gives_value n v0 ws c cur ty cur' d es x rest :
  spaces ws -> is_space c = false -> scan_token c cur = (ty, true, cur') -> d < stackLimit_g ->
  payload n (mkToken ty (c :: cur) cur') (mkReader cur' (d + 1) es) x (mkReader rest (d + 1) es) ->
  gives (readValue all (S n) v0) (mkReader (ws ++ c :: cur) d es) (true, x) (mkReader rest d es).
Proof.
  intros Hws Hc Hscan Hd Hx. cbn [readValue]. eapply gives_bind; [done|]. cbn [stackDepth_g].
  rewrite (proj2 (Z.leb_gt _ _)) by done. eapply gives_bind; [done|].
  eapply gives_bind.
  { apply gives_uncommented; [done|done|exact Hscan|]. by intros ->. }
  assert (Hleave : forall y : bool * Value,
            gives (r ← get_reader; put_depth (stackDepth_g r - 1);; mret y : parser (bool * Value))
            (mkReader rest (d + 1) es) y (mkReader rest d es)).
  { intros y. eapply gives_bind; [done|]. cbn [stackDepth_g]. rewrite Z.add_simpl_r.
    by eapply gives_bind. }
  unfold payload in Hx. cbn [type_] in *. destruct ty; try done; cbv zeta.
  - eapply gives_bind; [exact Hx|apply Hleave].
  - eapply gives_bind; [exact Hx|apply Hleave].
  - destruct Hx as (s & H1 & H2). eapply gives_bind; [exact H1|]. cbv beta iota.
    eapply gives_bind; [by rewrite H2|apply Hleave].
  - eapply gives_bind; [exact Hx|apply Hleave].
  - destruct Hx as [-> [= ->]]. apply Hleave.
  - destruct Hx as [-> [= ->]]. apply Hleave.
  - destruct Hx as [-> [= ->]]. apply Hleave.
Qed.

(** The value of a text that is followed by a comma, a new line or the end *)
Definition reads (v : Value) : Prop := forall n v0 ws ind rest d es,
  spaces ws -> spaces ind -> delimited rest -> well_formed v = true -> has_reals v = false ->
  d + height v <= stackLimit_g -> (length (ws ++ value_text ind v ++ rest) < n)%nat ->
  gives (readValue all n v0) (mkReader (ws ++ value_text ind v ++ rest) d es) (true, read_back v)
    (mkReader rest d es).

Lemma string_value_small s : size s <= maxInt - 5 -> string_value s = Ret (stringValue s).
Proof.
  intros Hs. assert (0 <= size s) by (unfold size; lia). unfold string_value, u32, maxInt in *.
  rewrite Z.mod_small by lia. rewrite (proj2 (Z.leb_le _ _)) by lia. do 2 f_equal.
  apply take_ge. unfold size. lia.
Qed.
Lemma reads_scalar v : match v with arrayValue _ | objectValue _ => True | _ => reads v end.
Proof.
  destruct v as [|z|z|shown m e|s|b|l|l]; try done;
    intros n v0 ws ind rest d es Hws Hind Hrest Hwf Hre Hh Hn; cbn [height] in Hh;
    (destruct n as [|n]; [lia|]); try done.
  - by apply (gives_value n v0 ws "n" (str "ull" ++ rest) tokenNull rest); try lia.
  - cbn [well_formed] in Hwf. apply andb_true_iff in Hwf as [H1 H2].
    assert (Hz : minLargestInt <= z <= maxLargestUInt)
      by (unfold maxLargestInt, maxLargestUInt in *; lia).
    cbn [value_text]. rewrite digits_valueToString by (unfold minLargestInt in Hz; lia).
    destruct (scan_number z rest Hrest) as (c & cur & E & Hc & _ & Hscan). rewrite E.
    eapply gives_value; [done|done|exact Hscan|lia|]. unfold payload. cbn [type_]. rewrite <- E.
    by apply decode_number_text.
  - cbn [well_formed] in Hwf. apply andb_true_iff in Hwf as [H1 H2].
    assert (Hz : z_text z = digits z) by (unfold z_text; destruct (Z.ltb_spec z 0); [lia|done]).
    cbn [value_text]. rewrite <- Hz.
    destruct (scan_number z rest Hrest) as (c & cur & E & Hc & _ & Hscan). rewrite E.
    eapply gives_value; [done|done|exact Hscan|lia|]. unfold payload. cbn [type_]. rewrite <- E.
    apply decode_number_text. unfold minLargestInt. lia.
  - cbn [value_text well_formed] in *. apply Z.leb_le in Hwf. unfold quoted_text. cbn [app].
    eapply gives_value; [done|done| |lia|].
    + cbn [scan_token]. rewrite <- app_assoc. cbn [app]. by rewrite readString_quoted.
    + exists s. cbn [type_]. split; [|by apply string_value_small].
      apply (decodeString_quoted s rest).
  - destruct b.
    + by apply (gives_value n v0 ws "t" (str "rue" ++ rest) tokenTrue rest); try lia.
    + by apply (gives_value n v0 ws "f" (str "alse" ++ rest) tokenFalse rest); try lia.
Qed.

(** A value inside a container that stands [d] deep *)
Definition good (d : Z) (v : Value) : Prop :=
  reads v /\ well_formed v = true /\ has_reals v = false /\ d + height v <= stackLimit_g.
Lemma spaces_new_line ind : spaces ind -> spaces (new_line ind).
Proof. by constructor. Qed.
Lemma delimited_more {A} (text : A -> bytes) l ind rest : delimited (after_comma text l ++ new_line ind ++ rest).
Proof. destruct l; [right; by left|by left]. Qed.

Lemma after_comma_cons {A} (text : A -> bytes) y l t :
  after_comma text (y :: l) ++ t = ","%byte :: text y ++ after_comma text l ++ t.
Proof. cbn [after_comma flat_map app]. by rewrite <- app_assoc. Qed.
(** The length of what is left, for fuel *)
Ltac fuel_left := repeat (rewrite length_app in * || (progress cbn [length] in *)); lia.

Lemma gives_elements N n x l index acc ws ind ind0 rest d es :
  Forall (good d) (x :: l) -> index + Z.of_nat (length (x :: l)) <= maxInt -> spaces ws -> spaces ind -> spaces ind0 ->
  let cur := ws ++ value_text ind x ++
    after_comma (fun y => new_line ind ++ value_text ind y) l ++ new_line ind0 ++ "]"%byte :: rest in
  (length cur < n)%nat -> (length cur < N)%nat ->
  gives (read_elements (readValue all N) n index acc) (mkReader cur d es)
    (true, arrayValue (acc ++ map read_back (x :: l))) (mkReader rest d es).
Proof.
  revert n x index acc ws. induction l as [|y l IH]; intros n x index acc ws Hl Hi Hws Hind Hind0 cur Hn HN;
    apply Forall_cons in Hl as [(Hx & Hwf & Hre & Hh) Hl]; (destruct n as [|n]; [lia|]);
    cbn [length] in Hi; cbn [read_elements]; rewrite (proj2 (Z.eqb_neq index maxInt)) by lia; (eapply gives_bind; [by apply Hx; try done; apply delimited_more|]);
    cbn [fst snd negb].
  - eapply gives_bind.
    { by apply (gives_uncommented (new_line ind0) "]" rest tokenArrayEnd rest); [apply spaces_new_line|..]. }
    rewrite decide_True by done. apply gives_ret.
  - subst cur. rewrite after_comma_cons in *. rewrite <- (app_assoc (new_line ind)) in *.
    eapply gives_bind; [by apply (gives_uncommented [] "," _ tokenArraySeparator); [constructor|..]|].
    rewrite decide_False, decide_True by done.
    replace (acc ++ map read_back (x :: y :: l)) with ((acc ++ [read_back x]) ++ map read_back (y :: l))
      by (by rewrite <- app_assoc).
    apply (IH n y (index + 1) (acc ++ [read_back x]) (new_line ind)); try done; [cbn [length]; lia|by apply spaces_new_line|fuel_left..].
Qed.

Lemma obj_insert_last {V} k (v : V) l :
  keys_sorted (l ++ [(k, v)]) = true -> obj_insert k v l = l ++ [(k, v)].
Proof.
  induction l as [|[k1 v1] l IH]; [done|]. intros Hs.
  assert (Hlt : bytes_ltb k1 k = true /\ keys_sorted (l ++ [(k, v)]) = true).
  { clear IH. revert k1 v1 Hs. induction l as [|[k2 v2] l IH2]; intros k1 v1 Hs.
    - cbn in Hs. rewrite andb_true_r in Hs. done.
    - apply keys_sorted_cons in Hs as [H12 Hs]. split; [|done]. destruct (IH2 _ _ Hs).
      by eapply bytes_ltb_trans. }
  destruct Hlt as [Hlt Hs']. cbn [obj_insert app]. rewrite decide_False.
  2:{ intros ->. by rewrite bytes_ltb_irrefl in Hlt. }
  destruct (bytes_ltb k k1) eqn:E; [|by rewrite IH].
  pose proof (bytes_ltb_trans _ _ _ E Hlt) as Hkk. by rewrite bytes_ltb_irrefl in Hkk.
Qed.
Lemma keys_sorted_app_l {V} (l k : list (bytes * V)) : keys_sorted (l ++ k) = true -> keys_sorted l = true.
Proof.
  induction l as [|[k1 v1] l IH]; [done|]. cbn [app]. rewrite !keys_sorted_cons. intros [H1 H2].
  split; [|by apply IH]. by destruct l as [|[]].
Qed.

Lemma czstring_small k : size k < 2 ^ 30 -> czstring k = k.
Proof.
  intros Hk. unfold czstring. rewrite Z.mod_small by (unfold size in *; lia). apply take_ge. unfold size. lia.
Qed.
Definition member_back (m : bytes * Value) : bytes * Value := (m.1, read_back m.2).
Lemma spaces_lead ind v : spaces ind -> spaces (lead ind false v).
Proof. intros H. unfold lead. destruct (_ && _); [by apply spaces_new_line|constructor]. Qed.
Lemma gives_name ws k rest d es :
  spaces ws ->
  gives (token_rounds skip_comments) (mkReader (ws ++ quoted_text k ++ rest) d es)
    (mkToken tokenString (quoted_text k ++ rest) rest) (mkReader rest d es).
Proof.
  assert (E : quoted_text k ++ rest = x22 :: flat_map quoted_char k ++ x22 :: rest)
    by (unfold quoted_text; cbn [app]; by rewrite <- app_assoc).
  intros Hws. rewrite E. apply gives_uncommented; [done|done| |done]. cbn [scan_token].
  by rewrite readString_quoted.
Qed.
Lemma member_text_app ind m t :
  member_text ind m ++ t =
  new_line ind ++ quoted_text m.1 ++ str " : " ++ lead ind false m.2 ++ value_text ind m.2 ++ t.
Proof. unfold member_text. by rewrite <- !app_assoc. Qed.
Lemma gives_members N n m l name acc ws ind ind0 rest d es :
  Forall (fun m => good d m.2) (m :: l) -> Forall (fun m => size m.1 < 2 ^ 30) (m :: l) -> keys_sorted (acc ++ map member_back (m :: l)) = true ->
  spaces ws -> spaces ind -> spaces ind0 ->
  let cur := ws ++ quoted_text m.1 ++ str " : " ++ lead ind false m.2 ++ value_text ind m.2 ++
    after_comma (member_text ind) l ++ new_line ind0 ++ "}"%byte :: rest in
  (length cur < n)%nat -> (length cur < N)%nat ->
  gives (read_members (readValue all N) n name acc) (mkReader cur d es)
    (true, objectValue (acc ++ map member_back (m :: l))) (mkReader rest d es).
Proof.
  revert m l name acc ws. induction n as [|n IH]; intros [k x] l name acc ws Hl Hk Hs Hws Hind Hind0 cur Hn HN;
    [lia|]. apply Forall_cons in Hl as [(Hx & Hwf & Hre & Hh) Hl]. apply Forall_cons in Hk as [Hk Hks]. cbn [fst snd] in *.
  subst cur. cbn [read_members]. cbv zeta.
  eapply gives_bind; [by apply gives_name|]. cbn [type_].
  rewrite decide_False, decide_True by (done || intros [? _]; done).
  eapply gives_bind; [apply decodeString_quoted|]. cbv beta iota. rewrite (czstring_small k) by done.
  assert (Ecolon : forall t, str " : " ++ t = str " " ++ ":"%byte :: str " " ++ t) by done. rewrite Ecolon in *.
  eapply gives_bind; [apply gives_token; [by repeat constructor|done|by cbn [scan_token]]|].
  cbn [type_]. rewrite decide_True by done.
  eapply gives_bind.
  { rewrite (app_assoc (str " ")). apply Hx; try done; [|apply delimited_more|].
    - apply Forall_app. split; [repeat constructor|by apply spaces_lead].
    - fuel_left. }
  cbn [fst snd negb].
  assert (Esplit : forall t, acc ++ member_back (k, x) :: t = (acc ++ [member_back (k, x)]) ++ t)
    by (intros; by rewrite <- app_assoc).
  cbn [map] in Hs |- *. rewrite Esplit in Hs |- *. rewrite (obj_insert_last k (read_back x) acc)
    by (by apply keys_sorted_app_l in Hs).
  destruct l as [|y l].
  - eapply gives_bind; [apply (gives_token (new_line ind0) "}" rest tokenObjectEnd rest); try done; by apply spaces_new_line|].
    cbn [type_]. rewrite decide_True by (apply list_elem_of_In; by left).
    rewrite decide_False by done. eapply gives_bind; [apply gives_ret|]. cbn [type_].
    rewrite decide_True by done. rewrite app_nil_r. apply gives_ret.
  - rewrite after_comma_cons, member_text_app in *.
    eapply gives_bind; [apply (gives_token [] "," _ tokenArraySeparator); done || constructor|].
    cbn [type_]. rewrite decide_True by (apply list_elem_of_In; right; by left).
    rewrite decide_False by done. eapply gives_bind; [apply gives_ret|]. cbn [type_].
    rewrite decide_False by done.
    apply (IH y l k (acc ++ [member_back (k, x)]) (new_line ind)); try done; [by apply spaces_new_line|fuel_left..].
Qed.

Lemma z_text_head z : exists c cur, z_text z = c :: cur /\ is_space c = false /\ c <> "]"%byte.
Proof.
  destruct (scan_number z [] ltac:(by right; right)) as (c & cur & E & H1 & H2 & _).
  rewrite app_nil_r in E. eauto.
Qed.
Lemma value_head ind v : well_formed v = true -> has_reals v = false ->
  exists c cur, value_text ind v = c :: cur /\ is_space c = false /\ c <> "]"%byte.
Proof.
  destruct v as [|z|z|shown m e|s|b|[|x l]|[|m l]]; cbn [well_formed has_reals value_text]; intros Hwf Hre;
    try done; try (eexists _, _; done).
  - rewrite andb_true_iff in Hwf. rewrite digits_valueToString by (unfold minLargestInt in Hwf; lia).
    apply z_text_head.
  - rewrite andb_true_iff in Hwf. pose proof (z_text_head z) as H. unfold z_text in H.
    destruct (Z.ltb_spec z 0); [lia|done].
  - destruct b; eexists _, _; done.
Qed.

Lemma height_bound (d n : Z) l : d + (1 + foldr Z.max 0 l) <= n -> Forall (fun h => d + 1 + h <= n) l.
Proof. induction l as [|h l IH]; cbn [foldr]; intros H; constructor; [lia|]. apply IH. lia. Qed.
Lemma good_all {A} (value : A -> Value) (l : list A) d :
  Forall (fun x => reads (value x)) l -> forallb (fun x => well_formed (value x)) l = true ->
  existsb (fun x => has_reals (value x)) l = false ->
  d + (1 + foldr Z.max 0 (map (fun x => height (value x)) l)) <= stackLimit_g ->
  Forall (fun x => good (d + 1) (value x)) l.
Proof.
  intros Hr Hw He Hh. apply height_bound in Hh. revert Hw He Hh.
  induction Hr as [|x l Hx _ IH]; [constructor|]. cbn [forallb existsb map].
  rewrite andb_true_iff, orb_false_iff. intros [H1 H2] [H3 H4] [H5 H6]%Forall_cons.
  constructor; [by split_and!|by apply IH].
Qed.

Lemma reads_array l : Forall reads l -> reads (arrayValue l).
Proof.
  intros Hl n v0 ws ind rest d es Hws Hind Hrest Hwf Hre Hh Hn. destruct n as [|n]; [lia|].
  cbn [well_formed] in Hwf. apply andb_true_iff in Hwf as [Hlen Hwf].
  pose proof (good_all (fun x => x) l d Hl Hwf Hre Hh) as Hgood. cbn [read_back height] in *.
  assert (Hd : d < stackLimit_g).
  { assert (0 <= foldr Z.max 0 (map height l)) by (clear; induction l; cbn; lia). lia. }
  destruct l as [|x l].
  { apply (gives_value n v0 ws "[" ("]"%byte :: rest) tokenArrayBegin ("]"%byte :: rest)); done. }
  set (deeper := ind ++ [x09]). cbn [value_text]. fold deeper. cbn [app].
  rewrite <- !app_assoc. set (cur := value_text deeper x ++ _).
  eapply gives_value; [done|done|done|done|]. unfold payload. cbn [type_].
  assert (Hdeeper : spaces deeper) by (apply Forall_app; split; [done|by repeat constructor]).
  destruct (value_head deeper x) as (c & t & E & Hc & Hcl).
  { cbn in Hwf. by apply andb_true_iff in Hwf as [? _]. }
  { cbn in Hre. by apply orb_false_iff in Hre as [? _]. }
  assert (Hskip : skipSpaces (new_line deeper ++ cur) = cur).
  { unfold cur. rewrite E. apply skipSpaces_spaces; [by apply spaces_new_line|done]. }
  unfold readArray. eapply gives_bind; [unfold gives, scan; cbn [current_]; by rewrite Hskip|].
  eapply gives_bind; [done|]. cbn [current_]. rewrite decide_False by (unfold cur; by rewrite E).
  apply gives_rounds. cbn [current_].
  apply (gives_elements n _ x l 0 [] [] deeper ind rest (d + 1)); try done; [by apply Z.leb_le in Hlen|by apply Forall_nil_2|exact (Nat.lt_succ_diag_r _)|].
  cbn [value_text] in Hn. fold deeper in Hn. subst cur. clear Hskip. fuel_left.
Qed.
(** The functions on objects, by the values of their members *)
Lemma object_values l :
  (forallb (fun '(k, x) => (size k <? 2 ^ 30) && well_formed x) l = true ->
    Forall (fun m : bytes * Value => size m.1 < 2 ^ 30) l /\ forallb (fun m : bytes * Value => well_formed m.2) l = true) /\
  existsb (fun '(_, x) => has_reals x) l = existsb (fun m : bytes * Value => has_reals m.2) l /\
  map (fun '(_, x) => height x) l = map (fun m : bytes * Value => height m.2) l /\
  map (fun '(k, x) => (k, read_back x)) l = map member_back l.
Proof.
  induction l as [|[k x] l (H1 & H2 & H3 & H4)]; [done|]. cbn. rewrite H2, H3, H4. split; [|done].
  rewrite !andb_true_iff. intros [[Hk%Z.ltb_lt Hx] Hl]. destruct (H1 Hl). by split; [constructor|].
Qed.
Lemma keys_sorted_back l : keys_sorted l = true -> keys_sorted (map member_back l) = true.
Proof.
  induction l as [|[k x] l IH]; [done|]. cbn [map]. unfold member_back at 1. cbn [fst snd].
  rewrite !keys_sorted_cons. intros [H1 H2]. split; [|by apply IH]. by destruct l as [|[]].
Qed.
Lemma reads_object l : Forall (fun m => reads m.2) l -> reads (objectValue l).
Proof.
  intros Hl n v0 ws ind rest d es Hws Hind Hrest Hwf Hre Hh Hn. destruct n as [|n]; [lia|].
  cbn [well_formed has_reals height read_back] in *. apply andb_true_iff in Hwf as [Hsort Hwf].
  destruct (object_values l) as (E1 & E2 & E3 & E4). apply E1 in Hwf as [Hkeys Hwf]. rewrite E2 in Hre.
  rewrite E3 in Hh. rewrite E4.
  pose proof (good_all snd l d Hl Hwf Hre Hh) as Hgood.
  assert (Hd : d < stackLimit_g).
  { assert (0 <= foldr Z.max 0 (map (fun m => height m.2) l)) by (clear; induction l; cbn; lia). lia. }
  destruct l as [|m l].
  { by apply (gives_value n v0 ws "{" ("}"%byte :: rest) tokenObjectBegin ("}"%byte :: rest)). }
  set (deeper := ind ++ [x09]) in *.
  assert (Et : value_text ind (objectValue (m :: l)) ++ rest =
    "{"%byte :: new_line deeper ++ quoted_text m.1 ++ str " : " ++ lead deeper false m.2 ++ value_text deeper m.2 ++
      after_comma (member_text deeper) l ++ new_line ind ++ "}"%byte :: rest).
  { cbn [value_text]. fold deeper. cbn [app]. f_equal. by rewrite <- !app_assoc. }
  rewrite Et in *. eapply gives_value; [done|done|done|done|]. unfold payload. cbn [type_].
  assert (Hdeeper : spaces deeper) by (apply Forall_app; split; [done|by repeat constructor]).
  apply gives_rounds. cbn [current_].
  apply (gives_members n _ m l [] [] (new_line deeper) deeper ind rest (d + 1)); try done.
  - by apply (keys_sorted_back (m :: l)).
  - by apply spaces_new_line.
  - cbn [length]. lia.
  - rewrite length_app in Hn. cbn [length] in Hn. lia.
Qed.
Lemma reads_all v : reads v.
Proof. revert v. apply Value_induction; [apply reads_scalar|apply reads_array|apply reads_object]. Qed.

Lemma text_read v :
  well_formed v = true -> has_reals v = false -> height v <= stackLimit_g ->
  Reader_parse (value_text [] v) = Ret (Some (read_back v)).
Proof.
  intros Hwf Hre Hh. unfold Reader_parse, run_parse, parse.
  assert (Hv : gives (token_rounds (fun n => readValue all n nullValue)) (mkReader (value_text [] v) 0 [])
            (true, read_back v) (mkReader [] 0 [])).
  { apply gives_rounds. cbn [current_].
    pose proof (reads_all v (S (length (value_text [] v))) nullValue [] [] [] 0 []) as H.
    rewrite app_nil_r in H. cbn [app] in H.
    apply H; [by apply Forall_nil_2|by apply Forall_nil_2|by right; right|done|done|lia|lia]. }
  assert (Hp : gives (parse all (value_text [] v) nullValue) (mkReader (value_text [] v) 0 [])
            (true, read_back v) (mkReader [] 0 [])).
  { eapply gives_bind; [done|]. eapply gives_bind; [exact Hv|]. by eapply gives_bind. }
  unfold gives, parse in Hp. by rewrite Hp.
Qed.

(** C23: What [Json::writeString] prints with the default settings, [Json::Reader] reads: a value without
    doubles, whose fields are in range and that nests no deeper than the parser's limit, is read back
    as printed, with every control character, quote and non-ASCII byte of its strings and keys; only
    the types of numbers are those the parser gives. *)
Theorem json_round_trip v :
  well_formed v = true -> has_reals v = false -> height v <= stackLimit_g ->
  exists text, Writer_writeString setDefaults v = Ret text /\ Reader_parse text = Ret (Some (read_back v)).
Proof. exists (value_text [] v). split; [apply writeString_text|by apply text_read]. Qed.

(** *** Witness *)

Definition demo_value : Value :=
  objectValue
    [([], arrayValue [nullValue; booleanValue true; intValue (-7); uintValue 4294967296]);
     (str "key", objectValue [(x22 :: str "in", stringValue [x00; x1f; x22; x5c; xc3; xa9])])].
Theorem json_round_trip_witness :
  exists text, Writer_writeString setDefaults demo_value = Ret text /\
    Reader_parse text = Ret (Some demo_value).
Proof. exact (json_round_trip demo_value eq_refl eq_refl ltac:(by vm_compute)). Defined.
