(* ===== verification/JsonText.v ===== *)
(** * jsoncpp as the client library has it

    The instance of [JsonText] made of the parser and the printer of jsoncpp: the client's theorems
    are stated for every [JsonText], and evaluated on concrete inputs with this one. *)

From S2P Require Import Prelude JsonCpp JsonReader JsonReaderFacts JsonWriter JsonRoundTrip.
#[local] Open Scope Z_scope.

Lemma parse_outcome s :
  (exists x, Reader_parse s = Ret x) \/ (exists e, Reader_parse s = Throw e /\ is_std_exception e = true) \/
  (Reader_parse s = Fault UndefinedBehaviour /\ 2 ^ 32 - 1 <= size s).
Proof.
  pose proof (parse_reads all s) as H. unfold Reader_parse, run_parse, parses in *.
  destruct (parse all s nullValue _) as [[x|e|x] r t]; [left|right; left|right; right]; [by eexists| |].
  - eexists. split; [done|]. by destruct H as [[-> _]|[-> _]].
  - by destruct H as [-> H].
Qed.
#[export] Program Instance jsoncpp_text : JsonText :=
  {| reader_parse := Reader_parse; writeString := write config |}.
Next Obligation. intros s e. by destruct (parse_outcome s) as [[x ->]|[(e' & -> & He)|[-> _]]]; intros [= <-]. Qed.
Next Obligation. intros s x Hs. destruct (parse_outcome s) as [[y ->]|[(e' & -> & He)|[_ H]]]; [done..|lia]. Qed.

(** What the client's theorems need of the two together: a value is read back from its text. *)
Class JsonTextLaws `{JsonText} : Prop :=
  reads_written v : well_formed v = true -> has_reals v = false -> height v <= stackLimit_g ->
    reader_parse (writeString v) = Ret (Some (read_back v)).
#[export] Instance jsoncpp_text_laws : JsonTextLaws (H := jsoncpp_text).
Proof.
  intros v Hwf Hre Hh. pose proof (writeString_text v) as Hw. unfold Writer_writeString in Hw.
  rewrite default_config in Hw. injection Hw as Hw. cbn [reader_parse writeString jsoncpp_text].
  rewrite Hw. by apply text_read.
Qed.
