(* ===== verification/Http.v ===== *)
(** * HTTP requests with retries

    curl is outside: [CurlCall] performs a prepared request and answers the transfer
    code, the HTTP status, the body and the Retry-After header, and the program sleeps
    between attempts. [perform_loop] is the loop the three senders of the client library
    share: [curl::SendRequest] (AttestationLibUtils.cpp), [HttpClient] (HttpClient.cpp)
    and [ImdsClient] (ImdsClient.cpp). *)

From S2P Require Import Prelude Base64 Ossl.
#[local] Open Scope Z_scope.

Record request := { url : bytes; custom : option bytes; headers : list bytes;
                    payload : option bytes; timeout : option Z }.
(** [body] is what the write callback has collected since the attempt began. *)
Record response := { status : Z; body : bytes; retry_after : Z }.

Inductive CurlCall : Type -> Type :=
| curl_easy_init : CurlCall ptr
| curl_easy_perform (curl : ptr) (r : request) : CurlCall (Z * response)
| curl_easy_strerror (code : Z) : CurlCall bytes
| curl_easy_escape (curl : ptr) (data : bytes) : CurlCall (option bytes)
| curl_easy_cleanup (curl : ptr) : CurlCall unit
| sleep_for (milliseconds : Z) : CurlCall unit
| random_jitter : CurlCall Z.

Definition HTTP_STATUS_OK : Z := 200.
Definition HTTP_STATUS_SERVER_ERROR : Z := 500.
Definition HTTP_STATUS_INTERNAL_SERVER_ERROR : Z := 500.
Definition HTTP_STATUS_ATTESTATION_FAILURE : Z := 400.
Definition HTTP_STATUS_RESOURCE_NOT_FOUND : Z := 404.
Definition HTTP_STATUS_TOO_MANY_REQUESTS : Z := 429.
Definition HTTP_STATUS_REQUEST_TIMEOUT : Z := 408.
Definition MAX_RETRIES : nat := 3.
Definition BACK_OFF_TIME_SECONDS : Z := 5.

Section Loop.
Context {F : Type -> Type} {S : Type} `{Handler F S} `{CurlCall -< F}.

(** [while ((res = curl_easy_perform(curl)) == CURLE_OK) ...]: [judge] stops with a
    result, or asks to try again; when [left] retries are used up [exhausted] is the
    result; [wait] sleeps before retry number [retries]. *)
Fixpoint perform_loop {A} (left : nat) (curl : ptr) (req : request) (failed : Z -> M F S A)
    (judge : response -> option A) (exhausted : response -> A)
    (wait : Z -> response -> M F S unit) : M F S A :=
  '(res, resp) ← trig (curl_easy_perform curl req);
  if negb (res =? 0) then failed res
  else
    match judge resp with
    | Some a => mret a
    | None =>
        match left with
        | O => mret (exhausted resp)
        | Datatypes.S left' =>
            _ ← wait (Z.of_nat MAX_RETRIES - Z.of_nat left) resp;
            perform_loop left' curl req failed judge exhausted wait
        end
    end.
End Loop.

(** AttestationLibTypes.h *)
Inductive ErrorCode :=
| SUCCESS | ERROR_CURL_INITIALIZATION | ERROR_RESPONSE_PARSING | ERROR_MSI_TOKEN_NOT_FOUND
| ERROR_HTTP_REQUEST_EXCEEDED_RETRIES | ERROR_HTTP_REQUEST_FAILED | ERROR_ATTESTATION_FAILED
| ERROR_SENDING_CURL_REQUEST_FAILED | ERROR_INVALID_INPUT_PARAMETER
| ERROR_ATTESTATION_PARAMETERS_VALIDATION_FAILED | ERROR_FAILED_MEMORY_ALLOCATION
| ERROR_FAILED_TO_GET_OS_INFO | ERROR_TPM_INTERNAL_FAILURE | ERROR_TPM_OPERATION_FAILURE
| ERROR_JWT_DECRYPTION_FAILED | ERROR_JWT_DECRYPTION_TPM_ERROR | ERROR_INVALID_JSON_RESPONSE
| ERROR_EMPTY_VCEK_CERT | ERROR_EMPTY_RESPONSE | ERROR_EMPTY_REQUEST_BODY
| ERROR_HCL_REPORT_PARSING_FAILURE | ERROR_HCL_REPORT_EMPTY | ERROR_EXTRACTING_JWK_INFO
| ERROR_CONVERTING_JWK_TO_RSA_PUB | ERROR_EVP_PKEY_ENCRYPT_INIT_FAILED
| ERROR_EVP_PKEY_ENCRYPT_FAILED | ERROR_DATA_DECRYPTION_TPM_ERROR | ERROR_PARSING_DNS_INFO
| ERROR_PARSING_ATTESTATION_RESPONSE | ERROR_AK_CERT_PROVISIONING_FAILED | ERROR_EMPTY_TD_QUOTE
| ERROR_AK_CERT_PARSING | ERROR_AK_CERT_RENEW.
#[export] Instance ClientErrorCode_eq_dec : EqDecision ErrorCode.
Proof. solve_decision. Defined.
Definition client_error_code (c : ErrorCode) : Z :=
  match c with
  | SUCCESS => 0 | ERROR_CURL_INITIALIZATION => -1 | ERROR_RESPONSE_PARSING => -2
  | ERROR_MSI_TOKEN_NOT_FOUND => -3 | ERROR_HTTP_REQUEST_EXCEEDED_RETRIES => -4
  | ERROR_HTTP_REQUEST_FAILED => -5 | ERROR_ATTESTATION_FAILED => -6
  | ERROR_SENDING_CURL_REQUEST_FAILED => -7 | ERROR_INVALID_INPUT_PARAMETER => -8
  | ERROR_ATTESTATION_PARAMETERS_VALIDATION_FAILED => -9 | ERROR_FAILED_MEMORY_ALLOCATION => -10
  | ERROR_FAILED_TO_GET_OS_INFO => -11 | ERROR_TPM_INTERNAL_FAILURE => -12
  | ERROR_TPM_OPERATION_FAILURE => -13 | ERROR_JWT_DECRYPTION_FAILED => -14
  | ERROR_JWT_DECRYPTION_TPM_ERROR => -15 | ERROR_INVALID_JSON_RESPONSE => -16
  | ERROR_EMPTY_VCEK_CERT => -17 | ERROR_EMPTY_RESPONSE => -18 | ERROR_EMPTY_REQUEST_BODY => -19
  | ERROR_HCL_REPORT_PARSING_FAILURE => -20 | ERROR_HCL_REPORT_EMPTY => -21
  | ERROR_EXTRACTING_JWK_INFO => -22 | ERROR_CONVERTING_JWK_TO_RSA_PUB => -23
  | ERROR_EVP_PKEY_ENCRYPT_INIT_FAILED => -24 | ERROR_EVP_PKEY_ENCRYPT_FAILED => -25
  | ERROR_DATA_DECRYPTION_TPM_ERROR => -26 | ERROR_PARSING_DNS_INFO => -27
  | ERROR_PARSING_ATTESTATION_RESPONSE => -28 | ERROR_AK_CERT_PROVISIONING_FAILED => -29
  | ERROR_EMPTY_TD_QUOTE => -30 | ERROR_AK_CERT_PARSING => -31 | ERROR_AK_CERT_RENEW => -32
  end.
Record AttestationResult := { code_ : ErrorCode; tpm_error_code_ : Z; description_ : bytes }.
Definition mk_result (c : ErrorCode) (d : bytes) : AttestationResult :=
  {| code_ := c; tpm_error_code_ := 0; description_ := d |}.
Definition ok : AttestationResult := mk_result SUCCESS [].
Definition err (c : ErrorCode) (d : string) : AttestationResult := mk_result c (str d).

Module Http.
Section Senders.
Context {F : Type -> Type} {S : Type} `{Handler F S} `{CurlCall -< F}.

Definition curl_failed (res : Z) : M F S (AttestationResult * bytes) :=
  e ← trig (curl_easy_strerror res);
  mret (mk_result ERROR_SENDING_CURL_REQUEST_FAILED
          (str "Failed sending curl request with error:" ++ e), []).

(** ** curl::SendRequest *)

Definition send_judge (r : response) : option (AttestationResult * bytes) :=
  if status r =? HTTP_STATUS_OK then Some (ok, body r)
  else if status r =? HTTP_STATUS_ATTESTATION_FAILURE
  then Some (mk_result ERROR_ATTESTATION_FAILED (body r), [])
  else if (status r =? HTTP_STATUS_TOO_MANY_REQUESTS) || (status r =? HTTP_STATUS_REQUEST_TIMEOUT)
          || (HTTP_STATUS_SERVER_ERROR <=? status r)
  then None
  else Some (mk_result ERROR_HTTP_REQUEST_FAILED (body r), []).
Definition exceeded (r : response) : AttestationResult * bytes :=
  (mk_result ERROR_HTTP_REQUEST_EXCEEDED_RETRIES (body r), []).

Definition generateRandomJitter : M F S Z := trig random_jitter.
Definition send_wait (retries : Z) (r : response) : M F S unit :=
  let exponential_back_off_seconds := BACK_OFF_TIME_SECONDS * 2 ^ retries in
  jitter ← generateRandomJitter;
  trig (sleep_for ((if retry_after r <? exponential_back_off_seconds
                    then exponential_back_off_seconds else retry_after r) * 1000 + jitter)).

Definition attest_request (url_ payload_ : bytes) : request :=
  {| url := url_; custom := None; headers := [str "Content-Type: application/json"];
     payload := Some payload_; timeout := None |}.
Definition SendRequest (url_ payload_ : bytes) : M F S (AttestationResult * bytes) :=
  curl ← trig curl_easy_init;
  if is_null curl
  then mret (err ERROR_CURL_INITIALIZATION "Failed to initialize curl for http request.", [])
  else
    r ← perform_loop MAX_RETRIES curl (attest_request url_ payload_)
          curl_failed send_judge exceeded send_wait;
    _ ← trig (curl_easy_cleanup curl);
    mret r.

(** ** HttpClient::InvokeHttpImdsRequest *)

Inductive HttpVerb := GET | POST.

Definition imds_judge (r : response) : option (AttestationResult * bytes) :=
  if status r =? HTTP_STATUS_OK then
    Some (match body r with
          | [] => (err ERROR_EMPTY_RESPONSE "Empty response received", [])
          | b => (ok, b)
          end)
  else if (status r =? HTTP_STATUS_RESOURCE_NOT_FOUND) || (status r =? HTTP_STATUS_TOO_MANY_REQUESTS)
          || (HTTP_STATUS_INTERNAL_SERVER_ERROR <=? status r)
  then None
  else Some (mk_result ERROR_HTTP_REQUEST_FAILED (body r), []).
Definition imds_wait (retries : Z) (_ : response) : M F S unit :=
  trig (sleep_for (30 * 2 ^ retries * 1000)).
Definition imds_request (url_ : bytes) (verb : HttpVerb) (request_body : bytes) (extra : list bytes)
  : request :=
  {| url := url_; custom := match verb with POST => Some (str "POST") | GET => None end;
     headers := str "Metadata:true" :: extra;
     payload := match verb with POST => Some request_body | GET => None end;
     timeout := Some 300 |}.

(** An empty body of a POST leaves without releasing the handle. *)
Definition InvokeHttpImdsRequest (url_ : bytes) (verb : HttpVerb) (request_body content_type : bytes)
  : M F S (AttestationResult * bytes) :=
  curl ← trig curl_easy_init;
  if is_null curl
  then mret (err ERROR_CURL_INITIALIZATION "Failed to initialize curl for http request.", [])
  else
    match verb, request_body with
    | POST, [] => mret (err ERROR_EMPTY_REQUEST_BODY "Request body missing for POST request", [])
    | _, _ =>
        r ← perform_loop MAX_RETRIES curl
              (imds_request url_ verb request_body (match content_type with [] => [] | c => [c] end))
              curl_failed imds_judge exceeded imds_wait;
        _ ← trig (curl_easy_cleanup curl);
        mret r
    end.

(** ** ImdsClient *)

(** The response, empty for every failure. *)
Definition InvokeHttpRequest (url_ : bytes) (verb : HttpVerb) (request_body : bytes) : M F S bytes :=
  match url_ with
  | [] => mret []
  | _ =>
      curl ← trig curl_easy_init;
      if is_null curl then mret []
      else
        match verb, request_body with
        | POST, [] => mret []
        | _, _ =>
            r ← perform_loop MAX_RETRIES curl (imds_request url_ verb request_body [])
                  (fun _ => mret []) (fun r => snd <$> imds_judge r) (fun _ => []) imds_wait;
            _ ← trig (curl_easy_cleanup curl);
            mret r
        end
  end.

Definition UrlEncode (data : bytes) : M F S bytes :=
  curl ← trig curl_easy_init;
  if is_null curl then mret []
  else
    out ← trig (curl_easy_escape curl data);
    _ ← trig (curl_easy_cleanup curl);
    mret (match out with Some o => c_str o | None => [] end).

Definition imds_endpoint : bytes := str "http://169.254.169.254/metadata".
Definition api_version_param : bytes := str "api-version=".
Definition vm_id_param : bytes := str "vmId=".
Definition request_id_param : bytes := str "requestId=".
Definition cert_guid_param : bytes := str "guid=".

Definition GetThimAkRenewEndpoint (vm_id request_id api_version : bytes) : bytes :=
  imds_endpoint ++ str "/THIM/tvm/certificate/renew" ++ str "?" ++ api_version_param ++ api_version
  ++ str "&" ++ vm_id_param ++ vm_id ++ str "&" ++ request_id_param ++ request_id.
Definition GetThimQueryAkEndpoint (vm_id request_id cert_query_guid : bytes) : bytes :=
  imds_endpoint ++ str "/THIM/tvm/certificate/query" ++ str "?" ++ api_version_param
  ++ str "2021-12-01" ++ str "&" ++ vm_id_param ++ vm_id ++ str "&" ++ request_id_param ++ request_id
  ++ str "&" ++ cert_guid_param ++ cert_query_guid.
Definition GetVmIdQueryEndpoint : bytes :=
  imds_endpoint ++ str "/instance/compute/vmId" ++ str "?" ++ api_version_param ++ str "2019-03-11"
  ++ str "&" ++ str "format=text".

Definition GetVmId : M F S bytes := InvokeHttpRequest GetVmIdQueryEndpoint GET [].
Definition RenewAkCert (cert vm_id request_id api_version : bytes) : M F S bytes :=
  match cert, vm_id, request_id with
  | [], _, _ | _, [], _ | _, _, [] => mret []
  | _, _, _ =>
      url_encoded_cert ← UrlEncode cert;
      InvokeHttpRequest (GetThimAkRenewEndpoint vm_id request_id api_version) POST url_encoded_cert
  end.
Definition QueryAkCert (cert_query_guid vm_id request_id : bytes) : M F S bytes :=
  match cert_query_guid, vm_id, request_id with
  | [], _, _ | _, [], _ | _, _, [] => mret []
  | _, _, _ => InvokeHttpRequest (GetThimQueryAkEndpoint vm_id request_id cert_query_guid) GET []
  end.
End Senders.
End Http.

(** ** What the senders do, for every network *)

(** The attempts of a trace with their answers, and the pauses. *)
Definition attempt_of (e : event CurlCall) : list (Z * response) :=
  match e with @Ev _ R e r =>
    match e in CurlCall T return T -> list (Z * response) with
    | curl_easy_perform _ _ => fun r => [r]
    | _ => fun _ => []
    end r
  end.
Definition pause_of (e : event CurlCall) : list Z :=
  match e with Ev (sleep_for ms) _ => [ms] | Ev _ _ => [] end.
Definition attempts (t : list (event CurlCall)) : list (Z * response) := t ≫= attempt_of.
Definition pauses (t : list (event CurlCall)) : list Z := t ≫= pause_of.
Lemma attempts_app t1 t2 : attempts (t1 ++ t2) = attempts t1 ++ attempts t2.
Proof. apply bind_app. Qed.
Lemma pauses_app t1 t2 : pauses (t1 ++ t2) = pauses t1 ++ pauses t2.
Proof. apply bind_app. Qed.

Lemma attempts_cons e t : attempts (e :: t) = attempt_of e ++ attempts t.
Proof. done. Qed.
Lemma pauses_cons e t : pauses (e :: t) = pause_of e ++ pauses t.
Proof. done. Qed.

(** The pauses between attempts: [W k r ms] after the [k]-th answer [r]. *)
Fixpoint paused (W : nat -> response -> Z -> Prop) (k : nat) (before : list response) (ps : list Z)
  : Prop :=
  match before, ps with
  | [], [] => True
  | r :: before', ms :: ps' => W k r ms /\ paused W (Datatypes.S k) before' ps'
  | _, _ => False
  end.

(** What a loop that may retry [left] times has done in trace [t] when it ends with [o]. *)
Definition looped {A} (judge : response -> option A) (exhausted : response -> A)
    (W : nat -> response -> Z -> Prop) (Pf : Z -> A -> Prop) (left k : nat)
    (o : outcome A) (t : list (event CurlCall)) : Prop :=
  exists before code last a,
    attempts t = map (pair 0) before ++ [(code, last)] /\ (length before <= left)%nat /\
    Forall (fun r => judge r = None) before /\ paused W k before (pauses t) /\ o = Ret a /\
    ((code <> 0 /\ Pf code a) \/
     (code = 0 /\ judge last = Some a) \/
     (code = 0 /\ judge last = None /\ length before = left /\ a = exhausted last)).

Section Facts.
Context {S : Type} `{Handler CurlCall S}.

Lemma wp_perform_loop {A} curl req (failed : Z -> M CurlCall S A) judge exhausted wait W Pf :
  (forall res s, wp (failed res) s (fun o _ t => attempts t = [] /\ pauses t = [] /\
                                              exists a, o = Ret a /\ Pf res a)) ->
  (forall k r s, wp (wait (Z.of_nat k) r) s (fun o _ t => o = Ret tt /\ attempts t = [] /\
                                              exists ms, pauses t = [ms] /\ W k r ms)) ->
  forall left k s, (k + left = MAX_RETRIES)%nat ->
    wp (perform_loop left curl req failed judge exhausted wait) s
       (fun o _ t => looped judge exhausted W Pf left k o t).
Proof.
  intros Hf Hw. induction left as [|left IH]; intros k s Hk; simpl; apply wp_bind, wp_trig;
    intros [res resp] s1 _; simpl; destruct (res =? 0) eqn:E; simpl.
  2, 4: eapply wp_mono; [apply Hf|]; simpl; intros o s2 t (Ha & Hp & a & -> & HPf);
    exists [], res, resp, a; rewrite attempts_cons, pauses_cons, Ha, Hp; split_and!; try done; try (simpl; lia); left; split; [lia|done].
  - assert (res = 0) as -> by lia. destruct (judge resp) as [a|] eqn:Ej; apply wp_ret;
      eexists [], 0, resp, _; split_and!; try done; try (simpl; lia); auto 10.
  - assert (res = 0) as -> by lia. destruct (judge resp) as [a|] eqn:Ej.
    { apply wp_ret. eexists [], 0, resp, _; split_and!; try done; try (simpl; lia); auto. }
    apply wp_bind. replace (Z.of_nat MAX_RETRIES - Z.of_nat (Datatypes.S left)) with (Z.of_nat k) by lia.
    eapply wp_mono; [apply Hw|]. simpl. intros o s2 t2 (-> & Ha & ms & Hp & HW).
    eapply wp_mono; [apply (IH (Datatypes.S k)); lia|]. simpl.
    intros o s3 t3 (before & code & last & a & Ha3 & Hl & Hr & Hp3 & -> & Hres).
    exists (resp :: before), code, last, a.
    rewrite attempts_cons, pauses_cons, attempts_app, pauses_app, Ha, Ha3, Hp. split_and!; try done.
    + simpl. lia.
    + by constructor.
    + destruct Hres as [?|[?|(? & ? & ? & ?)]]; [auto|auto|]. right. right. simpl. auto with lia.
Qed.

(** What a sender that opened its handle has done: [again] are the statuses it retries
    after, [W] its pauses, and [answer] what it makes of the last answer. *)
Definition sent (again : Z -> Prop) (W : nat -> response -> Z -> Prop)
    (answer : response -> AttestationResult * bytes -> Prop)
    (r : result CurlCall S (AttestationResult * bytes)) : Prop :=
  exists before code fin a,
    attempts (evs r) = map (pair 0) before ++ [(code, fin)] /\ (length before <= 3)%nat /\
    Forall (fun x => again (status x)) before /\ paused W 0 before (pauses (evs r)) /\
    res r = Ret a /\
    (code <> 0 -> code_ (fst a) = ERROR_SENDING_CURL_REQUEST_FAILED /\ snd a = []) /\
    (code = 0 -> again (status fin) -> length before = 3%nat /\ a = (mk_result ERROR_HTTP_REQUEST_EXCEEDED_RETRIES (body fin), [])) /\
    (code = 0 -> ~ again (status fin) -> answer fin a).
Definition send_again (st : Z) : Prop := st = 429 \/ st = 408 \/ 500 <= st.
Definition imds_again (st : Z) : Prop := st = 404 \/ st = 429 \/ 500 <= st.
Definition send_answer (r : response) (a : AttestationResult * bytes) : Prop :=
  (status r = 200 -> a = (ok, body r)) /\
  (status r = 400 -> a = (mk_result ERROR_ATTESTATION_FAILED (body r), [])) /\
  (status r <> 200 -> status r <> 400 -> a = (mk_result ERROR_HTTP_REQUEST_FAILED (body r), [])).
Definition imds_answer (r : response) (a : AttestationResult * bytes) : Prop :=
  (status r = 200 -> body r <> [] -> a = (ok, body r)) /\
  (status r = 200 -> body r = [] -> code_ (fst a) = ERROR_EMPTY_RESPONSE /\ snd a = []) /\
  (status r <> 200 -> a = (mk_result ERROR_HTTP_REQUEST_FAILED (body r), [])).

Lemma looped_sent judge again W answer r :
  (forall x, judge x = None <-> again (status x)) ->
  (forall x a, judge x = Some a -> answer x a) ->
  looped judge Http.exceeded W
    (fun _ a => code_ (fst a) = ERROR_SENDING_CURL_REQUEST_FAILED /\ snd a = [])
    MAX_RETRIES 0 (res r) (evs r) -> sent again W answer r.
Proof.
  intros Hn Ha (before & code & fin & a & Hat & Hl & Hb & Hp & Hr & Hres).
  exists before, code, fin, a. split_and!; try done.
  - eapply Forall_impl; [exact Hb|]. intros x. apply Hn.
  - intros Hc. by destruct Hres as [[_ ?]|[[? _]|(? & _)]].
  - intros Hc Hag. apply Hn in Hag. destruct Hres as [[? _]|[[_ ?]|(_ & _ & ? & ->)]]; [done|congruence|done].
  - intros Hc Hag. destruct Hres as [[? _]|[[_ ?]|(_ & Hj & _)]]; [done|by apply Ha|].
    by apply Hn in Hj.
Qed.
Lemma send_judge_none x : Http.send_judge x = None <-> send_again (status x).
Proof.
  unfold Http.send_judge, send_again, HTTP_STATUS_OK, HTTP_STATUS_ATTESTATION_FAILURE,
    HTTP_STATUS_TOO_MANY_REQUESTS, HTTP_STATUS_REQUEST_TIMEOUT, HTTP_STATUS_SERVER_ERROR.
  repeat case_match; split; intros; try done; lia.
Qed.
Lemma imds_judge_none x : Http.imds_judge x = None <-> imds_again (status x).
Proof.
  unfold Http.imds_judge, imds_again, HTTP_STATUS_OK, HTTP_STATUS_RESOURCE_NOT_FOUND,
    HTTP_STATUS_TOO_MANY_REQUESTS, HTTP_STATUS_INTERNAL_SERVER_ERROR.
  repeat case_match; split; intros; try done; lia.
Qed.
Lemma send_judge_answer x a : Http.send_judge x = Some a -> send_answer x a.
Proof.
  unfold Http.send_judge, send_answer, HTTP_STATUS_OK, HTTP_STATUS_ATTESTATION_FAILURE.
  repeat case_match; intros; simplify_eq; split_and!; intros; try done; lia.
Qed.
Lemma imds_judge_answer x a : Http.imds_judge x = Some a -> imds_answer x a.
Proof.
  unfold Http.imds_judge, imds_answer, HTTP_STATUS_OK.
  repeat case_match; intros; simplify_eq; split_and!; intros; try done; try lia; congruence.
Qed.

Definition no_attempt (c : ErrorCode) (r : result CurlCall S (AttestationResult * bytes)) : Prop :=
  (exists d, res r = Ret (err c d, [])) /\ attempts (evs r) = [] /\ pauses (evs r) = [].

Definition send_pause (k : nat) (r : response) (ms : Z) : Prop :=
  let seconds := Z.max (BACK_OFF_TIME_SECONDS * 2 ^ Z.of_nat k) (retry_after r) in
  seconds * 1000 <= ms <= seconds * 1000 + 5000.
Definition imds_pause (k : nat) (_ : response) (ms : Z) : Prop := ms = 30 * 2 ^ Z.of_nat k * 1000.

Lemma wp_curl_failed res s :
  wp (Http.curl_failed res) s (fun o _ t => attempts t = [] /\ pauses t = [] /\
    exists a, o = Ret a /\ code_ (fst a) = ERROR_SENDING_CURL_REQUEST_FAILED /\ snd a = []).
Proof. unfold Http.curl_failed. wp_go. split_and!; try done. eexists. by split. Qed.
Lemma wp_imds_wait k r s :
  wp (Http.imds_wait (Z.of_nat k) r) s (fun o _ t => o = Ret tt /\ attempts t = [] /\
    exists ms, pauses t = [ms] /\ imds_pause k r ms).
Proof. unfold Http.imds_wait. apply wp_trig. intros [] s1 _. split_and!; try done. by eexists. Qed.
Lemma wp_send_wait k r s :
  (forall s, 0 <= fst (handle random_jitter s) <= 5000) ->
  wp (Http.send_wait (Z.of_nat k) r) s (fun o _ t => o = Ret tt /\ attempts t = [] /\
    exists ms, pauses t = [ms] /\ send_pause k r ms).
Proof.
  intros Hj. unfold Http.send_wait, Http.generateRandomJitter. apply wp_bind, wp_trig.
  intros j s1 Hs1. simpl. apply wp_trig. intros [] s2 _. split_and!; try done. eexists. split; [done|].
  specialize (Hj s). unfold inj, sub_refl in Hs1. rewrite Hs1 in Hj. simpl in Hj. unfold send_pause.
  destruct (retry_after r <? _) eqn:E; lia.
Qed.

(** The result of a sender whose handle was opened. *)
Lemma wp_sender judge W curl req wait s :
  (forall k r s, wp (wait (Z.of_nat k) r) s (fun o _ t => o = Ret tt /\ attempts t = [] /\
                                              exists ms, pauses t = [ms] /\ W k r ms)) ->
  wp (r ← perform_loop MAX_RETRIES curl req Http.curl_failed judge Http.exceeded wait;
      _ ← trig (curl_easy_cleanup curl); mret r) s
     (fun o _ t => looped judge Http.exceeded W
        (fun _ a => code_ (fst a) = ERROR_SENDING_CURL_REQUEST_FAILED /\ snd a = []) MAX_RETRIES 0 o t).
Proof.
  intros Hw. apply wp_bind. eapply wp_mono.
  { apply (wp_perform_loop curl req Http.curl_failed judge Http.exceeded wait W
             (fun _ a => code_ (fst a) = ERROR_SENDING_CURL_REQUEST_FAILED /\ snd a = [])
             wp_curl_failed Hw MAX_RETRIES 0 s eq_refl). }
  intros o s1 t (before & code & last & a & Ha & Hl & Hr & Hp & -> & Hres). simpl.
  apply wp_bind, wp_trig. intros [] s2 _. apply wp_ret.
  exists before, code, last, a. rewrite attempts_app, pauses_app. simpl. by rewrite !app_nil_r.
Qed.

Lemma imds_judge_ok y a : Http.imds_judge y = Some a ->
  (code_ (fst a) = SUCCESS -> status y = 200 /\ snd a = body y /\ snd a <> []) /\
  (snd a <> [] -> status y = 200 /\ snd a = body y).
Proof.
  unfold Http.imds_judge, HTTP_STATUS_OK. destruct (status y =? 200) eqn:E.
  - destruct (body y); intros [= <-]; simpl; split; intros; simplify_eq/=; split_and!; try done; lia.
  - repeat case_match; intros; simplify_eq/=; split; intros; done.
Qed.

(** What [ImdsClient] gets is the body of a 200 answer. *)
Definition got_body (o : outcome bytes) (t : list (event CurlCall)) : Prop :=
  forall d, o = Ret d -> d <> [] ->
    exists fin, last (attempts t) = Some (0, fin) /\ status fin = 200 /\ d = body fin.
Lemma wp_string_sender curl req s :
  wp (r ← perform_loop MAX_RETRIES curl req (fun _ => mret []) (fun r => snd <$> Http.imds_judge r)
          (fun _ => []) Http.imds_wait;
      _ ← trig (curl_easy_cleanup curl); mret r) s (fun o _ t => got_body o t).
Proof.
  apply wp_bind. eapply wp_mono.
  { apply (wp_perform_loop curl req (fun _ => mret []) (fun r => snd <$> Http.imds_judge r)
             (fun _ => []) Http.imds_wait imds_pause (fun _ a => a = [])) with (k := 0%nat);
      [|apply wp_imds_wait|done]. intros x s2. apply wp_ret. split_and!; try done. by eexists. }
  intros o s2 t (before & code & fin & a & Ha & _ & _ & _ & -> & Hres). simpl.
  apply wp_bind, wp_trig. intros [] s3 _. apply wp_ret. intros d0 [= ->] Hne0.
  exists fin. rewrite attempts_app. simpl. rewrite app_nil_r, Ha, last_snoc.
  destruct Hres as [(_ & ?)|[[-> Hjl]|(_ & _ & _ & ?)]]; [congruence| |simpl in *; congruence].
  destruct (Http.imds_judge fin) as [a|] eqn:Ej; [|done]. simpl in Hjl. simplify_eq.
  apply imds_judge_ok in Ej as [_ Ej]. destruct (Ej Hne0). auto.
Qed.
Lemma wp_InvokeHttpRequest u verb b s :
  wp (Http.InvokeHttpRequest u verb b) s (fun o _ t => got_body o t).
Proof.
  assert (He : forall t, got_body (Ret []) t) by (intros t d [= <-] Hd; done).
  unfold Http.InvokeHttpRequest. destruct u as [|u0 u]; [by apply wp_ret|].
  apply wp_bind, wp_trig. intros curl s1 Hs1. cbn beta iota. destruct (is_null curl); [by apply wp_ret|].
  assert (Hl : forall req, wp (r ← perform_loop MAX_RETRIES curl req (fun _ => mret [])
      (fun r => snd <$> Http.imds_judge r) (fun _ => []) Http.imds_wait;
      _ ← trig (curl_easy_cleanup curl); mret r) s1
    (fun o _ t => got_body o ([Ev (inj curl_easy_init) curl] ++ t))).
  { intros req. eapply wp_mono; [apply wp_string_sender|]. intros o s2 t Hg. exact Hg. }
  destruct verb, b; first [apply Hl|by apply wp_ret].
Qed.

(** *** The properties *)

(** [SendRequest] always returns. Without a handle nothing is sent. Otherwise it
    performs at most four attempts, retrying exactly after 429, 408 and 5xx; before the
    k-th retry it pauses for the larger of 5*2^k seconds and Retry-After, plus the jitter;
    its result is that of the last attempt: success with the body exactly for status 200. *)
Theorem SendRequest_spec (s : S) u p :
  (forall s, 0 <= fst (handle random_jitter s) <= 5000) ->
  let r := Http.SendRequest u p s in
  if is_null (fst (handle curl_easy_init s))
  then no_attempt ERROR_CURL_INITIALIZATION r
  else sent send_again send_pause send_answer r.
Proof.
  intros Hj r. assert (Hw : wp (Http.SendRequest u p) s (fun o _ t =>
    if is_null (fst (handle curl_easy_init s))
    then (exists d, o = Ret (err ERROR_CURL_INITIALIZATION d, [])) /\ attempts t = [] /\ pauses t = []
    else looped Http.send_judge Http.exceeded send_pause
        (fun _ a => code_ (fst a) = ERROR_SENDING_CURL_REQUEST_FAILED /\ snd a = []) MAX_RETRIES 0 o t)).
  { unfold Http.SendRequest. apply wp_bind, wp_trig. intros curl s1 Hs1. unfold inj, sub_refl in Hs1.
    rewrite Hs1. simpl. destruct (is_null curl).
    - apply wp_ret. split_and!; try done. by eexists.
    - eapply wp_mono; [apply (wp_sender Http.send_judge send_pause)|].
      { intros. by apply wp_send_wait. }
      done. }
  unfold wp in Hw. fold r in Hw. destruct (is_null _); [done|].
  exact (looped_sent _ _ _ _ _ send_judge_none send_judge_answer Hw).
Qed.


(** A service that is up again after at most [k] more attempts: the attempt made in [s] is
    answered 200 with body [b]; or it gets an answer to retry after, and in every state a pause
    leads to the service recovers within [k - 1]. *)
Inductive recovers (curl : ptr) (req : request) : nat -> S -> bytes -> Prop :=
| recovers_now k s r s' :
    handle (curl_easy_perform curl req) s = ((0, r), s') -> status r = 200 ->
    recovers curl req k s (body r)
| recovers_later k s r s' b :
    handle (curl_easy_perform curl req) s = ((0, r), s') -> send_again (status r) ->
    (forall ms, recovers curl req k (snd (handle (sleep_for ms) (snd (handle random_jitter s')))) b) ->
    recovers curl req (Datatypes.S k) s b.

Lemma recovers_delivers curl req k s b : recovers curl req k s b -> (k <= MAX_RETRIES)%nat ->
  delivers (perform_loop k curl req Http.curl_failed Http.send_judge Http.exceeded Http.send_wait) s
    (fun a _ => a = (ok, b)).
Proof.
  induction 1 as [k s r s' Hp Hst|k s r s' b Hp Ha _ IH]; intros Hk.
  - assert (Hj : Http.send_judge r = Some (ok, body r)).
    { unfold Http.send_judge, HTTP_STATUS_OK. by rewrite Hst. }
    destruct k; cbn [perform_loop]; apply delivers_bind; eapply delivers_trig;
      [exact Hp|simpl; rewrite Hj; by apply delivers_ret|exact Hp|simpl; rewrite Hj; by apply delivers_ret].
  - apply send_judge_none in Ha. cbn [perform_loop]. apply delivers_bind. eapply delivers_trig; [exact Hp|].
    simpl. rewrite Ha. apply delivers_bind. unfold Http.send_wait, Http.generateRandomJitter.
    apply delivers_bind. eapply delivers_trig; [apply surjective_pairing|].
    eapply delivers_trig; [apply surjective_pairing|]. apply IH. lia.
Qed.

(** C27: A service that recovers within three retries is reached: when curl gives a handle and each
    attempt before the answer 200 is answered by a status that is retried after, whatever the
    pauses in between do, [SendRequest] returns success with the body of that answer. *)
Theorem SendRequest_live u p s curl s1 b :
  handle curl_easy_init s = (curl, s1) -> is_null curl = false ->
  recovers curl (Http.attest_request u p) MAX_RETRIES s1 b ->
  res (Http.SendRequest u p s) = Ret (ok, b).
Proof.
  intros Hi Hn Hr. unfold Http.SendRequest. apply delivers_after. eapply delivers_trig; [exact Hi|].
  rewrite Hn. apply delivers_after. eapply delivers_mono; [by apply recovers_delivers|].
  intros a s' ->. apply delivers_after. by eapply delivers_trig; [apply surjective_pairing|].
Qed.

(** The IMDS sender refuses a POST without a body before sending anything; otherwise
    it makes at most four attempts, retries after 404, 429 and 5xx with pauses of 30, 60
    and 120 seconds, and succeeds exactly with a non-empty body of a 200 answer. The
    string sender of [ImdsClient] returns only such bodies. *)
Theorem imds_request_spec (s : S) u verb b c :
  is_null (fst (handle curl_easy_init s)) = false ->
  let r := Http.InvokeHttpImdsRequest u verb b c s in
  (verb = Http.POST /\ b = [] -> no_attempt ERROR_EMPTY_REQUEST_BODY r) /\
  (verb = Http.GET \/ b <> [] -> sent imds_again imds_pause imds_answer r) /\
  (forall d, res (Http.InvokeHttpRequest u verb b s) = Ret d -> d <> [] ->
     exists fin, last (attempts (evs (Http.InvokeHttpRequest u verb b s))) = Some (0, fin) /\
       status fin = 200 /\ d = body fin).
Proof.
  intros Hn r. split_and!.
  - intros [-> ->]. unfold r, no_attempt, Http.InvokeHttpImdsRequest, trig, call, mbind, M_bind, inj, sub_refl.
    destruct (handle curl_easy_init s) as [curl s1]. simpl in Hn. rewrite Hn.
    split_and!; try done. by eexists.
  - intros Hv. assert (Hw : wp (Http.InvokeHttpImdsRequest u verb b c) s (fun o _ t =>
      looped Http.imds_judge Http.exceeded imds_pause
        (fun _ a => code_ (fst a) = ERROR_SENDING_CURL_REQUEST_FAILED /\ snd a = []) MAX_RETRIES 0 o t)).
    { unfold Http.InvokeHttpImdsRequest. apply wp_bind, wp_trig. intros curl s1 Hs1.
      unfold inj, sub_refl in Hs1. rewrite Hs1 in Hn. simpl in Hn. rewrite Hn.
      destruct verb, b; try (destruct Hv; done);
        (eapply wp_mono; [apply (wp_sender Http.imds_judge imds_pause), wp_imds_wait|done]). }
    exact (looped_sent _ _ _ _ _ imds_judge_none imds_judge_answer Hw).
  - intros d Hd Hne. exact (wp_InvokeHttpRequest u verb b s d Hd Hne).
Qed.
End Facts.

(** *** Witnesses: a network that answers each status of a list once *)

Definition net := list response.
Definition net_handler : Handler CurlCall net := fun R e s =>
  match e in CurlCall T return T * net with
  | curl_easy_init => (1%N, s)
  | curl_easy_perform _ _ =>
      match s with
      | r :: s' => ((0, r), s')
      | [] => ((7, {| status := 0; body := []; retry_after := 0 |}), [])
      end
  | curl_easy_strerror _ => ([], s)
  | curl_easy_escape _ d => (Some d, s)
  | curl_easy_cleanup _ => (tt, s)
  | sleep_for _ => (tt, s)
  | random_jitter => (250, s)
  end.
Definition answer (st : Z) (b : string) : response := {| status := st; body := str b; retry_after := 7 |}.
Definition flaky : net := [answer 503 "busy"; answer 429 "slow"; answer 200 "token"].

Theorem SendRequest_spec_witness :
  sent send_again send_pause send_answer
    (Http.SendRequest (H := net_handler) (str "https://maa") [] flaky) /\
  pauses (evs (Http.SendRequest (H := net_handler) (str "https://maa") [] flaky)) = [7250; 10250] /\
  res (Http.SendRequest (H := net_handler) (str "https://maa") [] flaky) = Ret (ok, str "token").
Proof.
  split_and!; [|vm_eq|vm_eq].
  apply (SendRequest_spec (H := net_handler) flaky (str "https://maa") []).
  intros s. cbn. lia.
Defined.
Theorem SendRequest_live_witness :
  recovers (H := net_handler) 1%N (Http.attest_request (str "https://maa") []) MAX_RETRIES flaky (str "token") /\
  res (Http.SendRequest (H := net_handler) (str "https://maa") [] flaky) = Ret (ok, str "token").
Proof.
  assert (Hr : recovers (H := net_handler) 1%N (Http.attest_request (str "https://maa") []) MAX_RETRIES
                 flaky (str "token")).
  { eapply recovers_later; [reflexivity|right; right; done|intros ms1; cbn].
    eapply recovers_later; [reflexivity|left; done|intros ms2; cbn].
    apply (recovers_now (H := net_handler) 1%N _ 1 _ (answer 200 "token") []); reflexivity. }
  split; [exact Hr|].
  exact (SendRequest_live (H := net_handler) (str "https://maa") [] flaky 1%N flaky (str "token")
           eq_refl eq_refl Hr).
Defined.
Theorem imds_request_spec_witness :
  no_attempt ERROR_EMPTY_REQUEST_BODY
    (Http.InvokeHttpImdsRequest (H := net_handler) (str "http://imds") Http.POST [] [] flaky) /\
  exists fin, last (attempts (evs (Http.InvokeHttpRequest (H := net_handler) (str "http://imds") Http.GET []
                                     flaky))) = Some (0, fin) /\
    status fin = 200 /\ str "token" = body fin.
Proof.
  split.
  - destruct (imds_request_spec (H := net_handler) flaky (str "http://imds") Http.POST [] [] eq_refl)
      as (He & _). apply He. by split.
  - destruct (imds_request_spec (H := net_handler) flaky (str "http://imds") Http.GET [] [] eq_refl)
      as (_ & _ & Hg).
    assert (Hr : res (Http.InvokeHttpRequest (H := net_handler) (str "http://imds") Http.GET [] flaky)
                 = Ret (str "token")) by vm_eq.
    apply (Hg (str "token") Hr). discriminate.
Defined.
