(* ===== verification/ClientUtils.v ===== *)
(** * Parsing and RSA helpers of the client library

    AttestationLibUtils.cpp, without its HTTP sender (Http.v): the os-release file and
    version strings ([Os]), the keys of an attestation token ([JwkInfo]), RSA encryption
    with such a key ([Crypto]), and the host of the service's URL ([Url]).
    [boost::split] and [boost::trim] are [BoostAlgo]; the calls to OpenSSL's public key
    API are [EvpCall]. *)

From S2P Require Import Prelude Base64 Json Ossl GuestTpm JsonCpp JsonText Http.
#[local] Open Scope Z_scope.

Class BoostAlgo := {
  split : (byte -> bool) -> bytes -> list bytes;
  trim_left : bytes -> bytes;
  trim_right : bytes -> bytes }.

(** Cut at every byte of [p]. *)
Fixpoint split_on (p : byte -> bool) (l : bytes) : list bytes :=
  match l with
  | [] => [[]]
  | c :: l' =>
      if p c then [] :: split_on p l'
      else match split_on p l' with t :: ts => (c :: t) :: ts | [] => [[c]] end
  end.
Class BoostAlgoLaws `{BoostAlgo} : Prop := {
  split_split_on p l : split p l = split_on p l;
  trim_left_skip l : trim_left l = skip_space l;
  trim_right_skip l : trim_right l = rev (skip_space (rev l)) }.

(** [attestation_hash_alg] and the PCRs attested on Linux *)
Definition attestation_hash_alg : HashAlg := Sha256.
Definition GetAttestationPcrList : list Z := [0; 1; 2; 3; 4; 5; 6; 7].

(** ** namespace os *)
Module Os.

Definition INT_MIN : Z := - 2 ^ 31.
Definition INT_MAX : Z := 2 ^ 31 - 1.

Definition read_sign (s : bytes) : bool * bytes :=
  match s with
  | c :: s' => if decide (c = "-"%byte) then (true, s')
               else if decide (c = "+"%byte) then (false, s') else (false, s)
  | [] => (false, [])
  end.
(** [std::stoi]: blanks, a sign, digits; what follows is ignored. *)
Definition stoi (s : bytes) : outcome Z :=
  let '(neg, s) := read_sign (skip_space s) in
  match s with
  | c :: _ =>
      if is_digit c then
        let n := fst (read_digits 0 s) in
        let z := if neg then - n else n in
        if (INT_MIN <=? z) && (z <=? INT_MAX) then Ret z else Throw (StdOutOfRange (str "stoi"))
      else Throw (InvalidArgument (str "stoi"))
  | [] => Throw (InvalidArgument (str "stoi"))
  end.

(** The two exceptions of [stoi] are caught. *)
Definition parseInt (s : bytes) : Z := match stoi s with Ret num => num | _ => INT_MIN end.

(** [getline(ss, out, delim)]: what was read, and what is left unless the end was hit. *)
Fixpoint getline (delim : byte) (s : bytes) : bytes * option bytes :=
  match s with
  | [] => ([], None)
  | c :: s' =>
      if decide (c = delim) then ([], Some s')
      else let '(l, rest) := getline delim s' in (c :: l, rest)
  end.

(** The versions as [uint32_t]; [None] is [false]. *)
Definition ParseVersionString (s : bytes) : option (Z * Z) :=
  match s with
  | [] => None
  | _ =>
      let '(major_str, rest) := getline "." s in
      let major := parseInt major_str in
      if major =? INT_MIN then None
      else match rest with
           | None => Some (u32 major, 0)
           | Some s' =>
               let minor := parseInt (fst (getline "." s')) in
               if minor =? INT_MIN then None else Some (u32 major, u32 minor)
           end
  end.

Fixpoint find_first_of (delim : bytes) (l : bytes) : option nat :=
  match l with
  | [] => None
  | c :: l' => if bool_decide (c ∈ delim) then Some O else Datatypes.S <$> find_first_of delim l'
  end.

(** One line of the file. *)
Definition add_entry (delim : bytes) (entries : gmap bytes bytes) (line : bytes) : gmap bytes bytes :=
  match find_first_of delim line with
  | None => entries
  | Some delim_pos =>
      let key := take delim_pos line in
      let value := drop (Datatypes.S delim_pos) line in
      <[key := filter (fun c => c <> x22) value]> entries
  end.

Section File.
Context {F : Type -> Type} {S : Type} `{Handler F S} `{FileCall -< F}.
Definition ParseOSReleaseFile (os_release_path delim : bytes) (entries : gmap bytes bytes)
  : M F S (option (gmap bytes bytes)) :=
  match delim with
  | [] => mret None
  | _ =>
      input ← trig (ReadFile os_release_path);
      mret (match input with
            | None => None
            | Some text =>
                Some (foldl (add_entry delim) entries (split_on (fun c => bool_decide (c = x0a)) text))
            end)
  end.
End File.
End Os.

(** ** namespace jwt *)
Module JwkInfo.
Section Ops.
Context `{BoostBase64, BoostString, BoostAlgo, JsonText}.

Definition read_jwk (tokens : list bytes) : outcome (option (bytes * bytes)) :=
  if bool_decide (length tokens < 3)%nat then mret None
  else
    claims ← AttestBase64.base64_decode (nth 1 tokens []);
    root ← reader_parse claims;
    match root with
    | None => mret None
    | Some root =>
        x_ms_runtime ← resolveReference root (str "x-ms-runtime");
        keys ← resolveReference x_ms_runtime (str "keys");
        key ← at_index keys 0;
        n ← resolveReference key (str "n");
        n_base64url ← asString n;
        e ← resolveReference key (str "e");
        e_base64url ← asString e;
        mret (Some (n_base64url, e_base64url))
    end.

(** [catch (...)] is [false]. *)
Definition ExtractJwkInfoFromAttestationJwt (jwt : bytes) : outcome (option (bytes * bytes)) :=
  match jwt with
  | [] => mret None
  | _ => match read_jwk (split (fun c => bool_decide (c = "."%byte)) jwt) with
         | Throw _ => mret None
         | r => r
         end
  end.
End Ops.
End JwkInfo.

(** ** namespace crypto *)

(** A BIO is a memory buffer. *)
Inductive EvpCall : Type -> Type :=
| BIO_new : EvpCall ptr
| BIO_free (bio : ptr) : EvpCall unit
| EVP_PKEY_CTX_new_from_name (name : bytes) : EvpCall ptr
| EVP_PKEY_CTX_new_pkey (key : ptr) : EvpCall ptr
| EVP_PKEY_CTX_free (ctx : ptr) : EvpCall unit
| BN_bin2bn (data : bytes) : EvpCall ptr
| OSSL_PARAM_set_BN (param : bytes) (bn : ptr) : EvpCall Z
| EVP_PKEY_fromdata_init (ctx : ptr) : EvpCall Z
| EVP_PKEY_fromdata (ctx n e : ptr) : EvpCall (Z * ptr)
| PEM_write_bio_PUBKEY (bio key : ptr) : EvpCall Z
| PEM_read_bio_PUBKEY (bio : ptr) : EvpCall ptr
| EVP_PKEY_encrypt_init (ctx : ptr) : EvpCall Z
| EVP_PKEY_CTX_set_rsa_padding (ctx : ptr) (pad : Z) : EvpCall Z
| EVP_PKEY_CTX_set_rsa_oaep_md (ctx : ptr) (m : md) : EvpCall Z
| EVP_PKEY_encrypt_size (ctx : ptr) (data : bytes) : EvpCall (Z * Z)
| EVP_PKEY_encrypt (ctx : ptr) (room : Z) (data : bytes) : EvpCall (Z * bytes)
(* the cipher by the size of its key in bits *)
| EVP_DecryptInit_aes_gcm (ctx : ptr) (bits : Z) : EvpCall Z
| EVP_DecryptUpdate_aad (ctx : ptr) (aad : bytes) : EvpCall Z
| EVP_CIPHER_CTX_free (ctx : ptr) : EvpCall unit.

Module Crypto.
Definition RSA_PKCS1_PADDING : Z := 1.
Definition RSA_NO_PADDING : Z := 3.
Definition RSA_PKCS1_OAEP_PADDING : Z := 4.

Definition rsa_md (rsaHashAlgId : Z) : option md :=
  if rsaHashAlgId =? GuestTpm.RsaSha1 then Some SHA1
  else if rsaHashAlgId =? GuestTpm.RsaSha256 then Some SHA256
  else if rsaHashAlgId =? GuestTpm.RsaSha384 then Some SHA384
  else if rsaHashAlgId =? GuestTpm.RsaSha512 then Some SHA512
  else None.
Definition rsa_padding_algo (rsaWrapAlgId : Z) : option Z :=
  if rsaWrapAlgId =? GuestTpm.RsaEs then Some RSA_PKCS1_PADDING
  else if rsaWrapAlgId =? GuestTpm.RsaOaep then Some RSA_PKCS1_OAEP_PADDING
  else if rsaWrapAlgId =? GuestTpm.RsaNull then Some RSA_NO_PADDING
  else None.

Section Ops.
Context {F : Type -> Type} {S : Type} `{Handler F S} `{EvpCall -< F}.
Context `{BoostBase64, BoostString}.
Notation RM A := (M F S (AttestationResult * A)).

(** Free the context and fail. *)
Definition free_fail {A} (ctx : ptr) (c : ErrorCode) (d : string) (a : A) : RM A :=
  _ ← trig (EVP_PKEY_CTX_free ctx); mret (err c d, a).
(** [if (ret <= 0) ...] *)
Definition or_fail {A} (ret : Z) (ctx : ptr) (c : ErrorCode) (d : string) (a : A) (k : RM A) : RM A :=
  if ret <=? 0 then free_fail ctx c d a else k.

Definition EncryptDataWithRSAPubKey (pkey_bio : ptr) (rsaWrapAlgId rsaHashAlgId : Z)
    (input_data : bytes) : RM bytes :=
  if is_null pkey_bio || bool_decide (input_data = [])
  then mret (err ERROR_INVALID_INPUT_PARAMETER "Invalid input parameter", [])
  else
    match rsa_md rsaHashAlgId with
    | None =>
        mret (err ERROR_EVP_PKEY_ENCRYPT_INIT_FAILED
                "EncryptDataWithRSAPubKey failed; called with unknown message digest algorithm", [])
    | Some md =>
    match rsa_padding_algo rsaWrapAlgId with
    | None =>
        mret (err ERROR_EVP_PKEY_ENCRYPT_INIT_FAILED
                "EncryptDataWithRSAPubKey failed; called with unknown RSA padding algorithm", [])
    | Some pad =>
        pkey ← trig (PEM_read_bio_PUBKEY pkey_bio);
        enc_ctx ← trig (EVP_PKEY_CTX_new_pkey pkey);
        ret ← trig (EVP_PKEY_encrypt_init enc_ctx);
        or_fail ret enc_ctx ERROR_EVP_PKEY_ENCRYPT_INIT_FAILED "EVP_PKEY_encrypt_init failed" []
        (ret ← trig (EVP_PKEY_CTX_set_rsa_padding enc_ctx pad);
         or_fail ret enc_ctx ERROR_EVP_PKEY_ENCRYPT_INIT_FAILED
           "EVP_PKEY_CTX_set_rsa_padding failed" []
         (ret ← (if rsaWrapAlgId =? GuestTpm.RsaOaep
                 then trig (EVP_PKEY_CTX_set_rsa_oaep_md enc_ctx md) else mret 1);
          or_fail ret enc_ctx ERROR_EVP_PKEY_ENCRYPT_INIT_FAILED
            "EVP_PKEY_CTX_set_rsa_oaep_md failed" []
          ('(ret, outlen) ← trig (EVP_PKEY_encrypt_size enc_ctx input_data);
           or_fail ret enc_ctx ERROR_EVP_PKEY_ENCRYPT_FAILED "EVP_PKEY_encrypt failed" []
           ('(ret, out) ← trig (EVP_PKEY_encrypt enc_ctx outlen input_data);
            or_fail ret enc_ctx ERROR_EVP_PKEY_ENCRYPT_FAILED "EVP_PKEY_encrypt failed" []
            (_ ← trig (EVP_PKEY_CTX_free enc_ctx);
             mret (ok, out))))))
    end
    end.

(** The calls between the creation of the context and its release; a decoding error
    leaves them by an exception. *)
Definition public_key_of (genctx pkey_bio : ptr) (n e : bytes) : M F S (option string) :=
  n_bin ← lift (AttestBase64.base64url_to_binary n);
  e_bin ← lift (AttestBase64.base64url_to_binary e);
  modul ← trig (BN_bin2bn n_bin);
  expon ← trig (BN_bin2bn e_bin);
  ret ← trig (OSSL_PARAM_set_BN (str "n") modul);
  if ret <=? 0 then mret (Some "OSSL_PARAM_set_BN failed"%string) else
  ret ← trig (OSSL_PARAM_set_BN (str "e") expon);
  if ret <=? 0 then mret (Some "OSSL_PARAM_set_BN failed"%string) else
  ret ← trig (EVP_PKEY_fromdata_init genctx);
  if ret <=? 0 then mret (Some "EVP_PKEY_fromdata_init failed"%string) else
  '(ret, pkey) ← trig (EVP_PKEY_fromdata genctx modul expon);
  if ret <=? 0 then mret (Some "EVP_PKEY_fromdata failed"%string) else
  ret ← trig (PEM_write_bio_PUBKEY pkey_bio pkey);
  if ret <=? 0 then mret (Some "PEM_write_bio_PUBKEY failed"%string) else
  mret None.

Definition ConvertJwkToRsaPubKey (pkey_bio : ptr) (n e : bytes) : M F S AttestationResult :=
  match n, e with
  | [], _ | _, [] => mret (err ERROR_INVALID_INPUT_PARAMETER "Invalid input parameter")
  | _, _ =>
      if is_null pkey_bio then mret (err ERROR_INVALID_INPUT_PARAMETER "Invalid input parameter")
      else
        genctx ← trig (EVP_PKEY_CTX_new_from_name (str "RSA"));
        failure ← try_all (public_key_of genctx pkey_bio n e)
                    (fun _ => mret (Some "Error while converting JWK to RSA public key"%string));
        _ ← trig (EVP_PKEY_CTX_free genctx);
        mret (match failure with
              | Some d => err ERROR_CONVERTING_JWK_TO_RSA_PUB d
              | None => ok
              end)
  end.
End Ops.
End Crypto.

(** ** namespace url *)
Module Url.
Section Ops.
Context `{BoostAlgo}.

(** [s.find_first_of(c, pos)] *)
Definition find_from (c : byte) (pos : nat) (s : bytes) : option nat :=
  Nat.add pos <$> find_byte c (drop pos s).

(** The domain, or the failure. *)
Definition ParseURL (url : bytes) : AttestationResult * bytes :=
  match url with
  | [] => (err ERROR_INVALID_INPUT_PARAMETER "Invalid input parameter", [])
  | _ =>
      let sanitized_url := trim_right (trim_left url) in
      let offset := if is_prefix (str "https://") sanitized_url then 8%nat
                    else if is_prefix (str "http://") sanitized_url then 7%nat else 0%nat in
      let path_idx := find_from "/" (offset + 1) sanitized_url in
      let dns := drop offset (match path_idx with Some i => take i sanitized_url
                                             | None => sanitized_url end) in
      let dns := match find_byte ":" dns with Some i => take i dns | None => dns end in
      match dns with
      | [] => (err ERROR_PARSING_DNS_INFO "Error extracting DNS info from URL", [])
      | _ => (ok, dns)
      end
  end.
End Ops.
End Url.

(** ** Facts *)

(** *** Numbers read *)

Lemma digit_no_space c : is_digit c = true -> isspace c = false /\ c <> "-"%byte /\ c <> "+"%byte /\ c <> "."%byte.
Proof. destruct c; intros H; first [discriminate H|split_and!; [reflexivity|discriminate..]]. Qed.

Lemma stoi_text (neg : bool) z rest :
  0 <= z <= Os.INT_MAX -> no_digit_first rest ->
  Os.stoi ((if neg then ["-"%byte] else []) ++ digits z ++ rest) = Ret (if neg then - z else z).
Proof.
  intros Hz Hr. destruct (digits_first z ltac:(lia)) as (c & l & E & Hc).
  destruct (digit_no_space c Hc) as (Hs & Hm & Hp & _). unfold Os.stoi.
  assert (Hrd := read_digits_text z rest ltac:(lia) Hr). unfold Os.INT_MAX, Os.INT_MIN in *.
  destruct neg; cbn [app skip_space]; [change (isspace "-") with false|rewrite E; cbn [app skip_space]; rewrite Hs].
  - cbn [Os.read_sign]. rewrite decide_True by done. rewrite Hrd, E. cbn [app fst]. rewrite Hc.
    by rewrite (proj2 (andb_true_iff _ _)) by lia.
  - cbn [Os.read_sign]. rewrite !decide_False by done. rewrite E in Hrd. cbn [app] in Hrd. rewrite Hrd.
    cbn [fst]. rewrite Hc. by rewrite (proj2 (andb_true_iff _ _)) by lia.
Qed.

(** *** Versions and os-release *)

Lemma getline_none d l : Forall (fun c => c <> d) l -> Os.getline d l = (l, None).
Proof. induction 1 as [|c l Hc _ IH]; simpl; [done|]. by rewrite decide_False, IH. Qed.
Lemma getline_app d l r :
  Forall (fun c => c <> d) l -> Os.getline d (l ++ r) = (l ++ fst (Os.getline d r), snd (Os.getline d r)).
Proof.
  induction 1 as [|c l Hc _ IH]; simpl; [by destruct (Os.getline d r)|].
  by rewrite decide_False, IH.
Qed.
Lemma getline_cut d l r : Forall (fun c => c <> d) l -> Os.getline d (l ++ d :: r) = (l, Some r).
Proof. intros Hl. rewrite getline_app by done. simpl. rewrite decide_True by done. by rewrite app_nil_r. Qed.
Lemma getline_first d r : no_digit_first r -> no_digit_first (fst (Os.getline d r)).
Proof. destruct r as [|c r]; simpl; [done|]. case_decide; [done|]. by destruct (Os.getline d r). Qed.
Lemma text_no_dot z : 0 <= z -> Forall (fun c => c <> "."%byte) (digits z).
Proof. intros Hz. eapply Forall_impl; [by apply digits_fuel_digit|]. intros c. apply digit_no_space. Qed.
Lemma parseInt_text (neg : bool) z rest :
  0 <= z <= Os.INT_MAX -> no_digit_first rest ->
  Os.parseInt ((if neg then ["-"%byte] else []) ++ digits z ++ rest) = if neg then - z else z.
Proof. intros. unfold Os.parseInt. by rewrite stoi_text. Qed.

(** A version is read as printed: [M] and [M.m] (whatever follows the minor number,
    as in 22.4.1 or 9.4-beta) give the two numbers, a dot with nothing after it fails, and
    a negative major number of at most 2^31-1 wraps around to [2^32 - M]. *)
Theorem version_round_trip a b rest :
  0 <= a <= Os.INT_MAX -> 0 <= b <= Os.INT_MAX -> no_digit_first rest ->
  Os.ParseVersionString (digits a) = Some (a, 0) /\
  Os.ParseVersionString (digits a ++ "."%byte :: digits b ++ rest) = Some (a, b) /\
  Os.ParseVersionString (digits a ++ ["."%byte]) = None /\
  (0 < a -> Os.ParseVersionString ("-"%byte :: digits a ++ "."%byte :: digits b ++ rest)
            = Some (2 ^ 32 - a, b)).
Proof.
  intros Ha Hb Hr. unfold Os.INT_MAX in *.
  assert (Hua : u32 a = a) by (apply Z.mod_small; lia).
  assert (Hub : u32 b = b) by (apply Z.mod_small; lia).
  assert (Hda := text_no_dot a ltac:(lia)). assert (Hdb := text_no_dot b ltac:(lia)).
  destruct (digits_first a ltac:(lia)) as (c & l & E & _).
  assert (Hpa := parseInt_text false a [] ltac:(unfold Os.INT_MAX; lia) I). rewrite app_nil_r in Hpa. cbn [app] in Hpa.
  assert (Hpb := parseInt_text false b (fst (Os.getline "." rest)) ltac:(unfold Os.INT_MAX; lia)
                   (getline_first _ _ Hr)). cbn [app] in Hpb.
  assert (Hcons : forall r A (x y : A), match digits a ++ r with [] => x | _ => y end = y)
    by (intros; by rewrite E).
  unfold Os.ParseVersionString. split_and!.
  - rewrite <- (app_nil_r (digits a)), Hcons, app_nil_r, getline_none, Hpa by done.
    rewrite (proj2 (Z.eqb_neq _ _)) by (unfold Os.INT_MIN; lia). by rewrite Hua.
  - rewrite Hcons, getline_cut, Hpa by done.
    rewrite (proj2 (Z.eqb_neq _ _)) by (unfold Os.INT_MIN; lia).
    rewrite getline_app by done. cbn [fst]. rewrite Hpb.
    rewrite (proj2 (Z.eqb_neq _ _)) by (unfold Os.INT_MIN; lia). by rewrite Hua, Hub.
  - rewrite Hcons, getline_cut, Hpa by done.
    by rewrite (proj2 (Z.eqb_neq _ _)) by (unfold Os.INT_MIN; lia).
  - intros Hpos. change ("-"%byte :: digits a ++ "."%byte :: digits b ++ rest)
      with (("-"%byte :: digits a) ++ "."%byte :: digits b ++ rest).
    rewrite getline_cut by (constructor; done).
    assert (Hpn := parseInt_text true a [] ltac:(unfold Os.INT_MAX; lia) I). rewrite app_nil_r in Hpn.
    cbn [app] in *. rewrite Hpn.
    rewrite (proj2 (Z.eqb_neq _ _)) by (unfold Os.INT_MIN; lia).
    rewrite getline_app by done. cbn [fst]. rewrite Hpb.
    rewrite (proj2 (Z.eqb_neq _ _)) by (unfold Os.INT_MIN; lia). rewrite Hub.
    do 2 f_equal. unfold u32. symmetry. apply (Z.mod_unique _ _ (-1)); lia.
Qed.

(** A line that assigns [value] to [key]. *)
Definition assigns (line key value : bytes) : Prop :=
  line = key ++ "="%byte :: value /\ Forall (fun c => c <> "="%byte) key.
Definition unquoted (value : bytes) : bytes := filter (fun c => c <> x22) value.

Lemma find_first_of_one d l :
  match Os.find_first_of [d] l with
  | Some n => l = take n l ++ d :: drop (Datatypes.S n) l /\ Forall (fun c => c <> d) (take n l)
  | None => Forall (fun c => c <> d) l
  end.
Proof.
  induction l as [|c l IH]; simpl; [done|].
  destruct (bool_decide (c ∈ [d])) eqn:E.
  - apply bool_decide_eq_true in E. apply list_elem_of_singleton in E as ->. by split.
  - apply bool_decide_eq_false in E. rewrite list_elem_of_singleton in E.
    destruct (Os.find_first_of [d] l) as [n|]; simpl; [|by constructor].
    destruct IH as [Hl Hn]. split; [by f_equal|by constructor].
Qed.
Lemma app_cut_eq (d : byte) k1 v1 k2 v2 :
  k1 ++ d :: v1 = k2 ++ d :: v2 ->
  Forall (fun c => c <> d) k1 -> Forall (fun c => c <> d) k2 -> k1 = k2 /\ v1 = v2.
Proof.
  revert k2. induction k1 as [|c k1 IH]; intros [|c2 k2]; simpl; intros E H1 H2; simplify_eq; try done.
  - by inversion H2.
  - by inversion H1.
  - inversion H1; inversion H2; subst. by destruct (IH k2) as [-> ->].
Qed.
Lemma add_entry_assigns m line k v :
  assigns line k v -> Os.add_entry (str "=") m line = <[k := unquoted v]> m.
Proof.
  intros [E Hk]. unfold Os.add_entry. change (str "=") with ["="%byte].
  assert (Hf := find_first_of_one "=" line). destruct (Os.find_first_of ["="%byte] line) as [n|].
  - destruct Hf as [Hl Hn]. rewrite Hl in E. by destruct (app_cut_eq _ _ _ _ _ E Hn Hk) as [-> ->].
  - rewrite E, Forall_app, Forall_cons in Hf. naive_solver.
Qed.
Lemma add_entry_other m line :
  (forall k v, ~ assigns line k v) -> Os.add_entry (str "=") m line = m.
Proof.
  intros Hn. unfold Os.add_entry. change (str "=") with ["="%byte].
  assert (Hf := find_first_of_one "=" line). destruct (Os.find_first_of ["="%byte] line) as [n|]; [|done].
  exfalso. by apply (Hn (take n line) (drop (Datatypes.S n) line)).
Qed.
Lemma assigns_dec line : {kv | assigns line (fst kv) (snd kv)} + {forall k v, ~ assigns line k v}.
Proof.
  assert (Hf := find_first_of_one "=" line). destruct (Os.find_first_of ["="%byte] line) as [n|].
  - left. by exists (take n line, drop (Datatypes.S n) line).
  - right. intros k v [-> _]. rewrite Forall_app, Forall_cons in Hf. naive_solver.
Qed.
Lemma assigns_fun line k1 v1 k2 v2 : assigns line k1 v1 -> assigns line k2 v2 -> k1 = k2 /\ v1 = v2.
Proof. intros [-> H1] [E H2]. by apply (app_cut_eq "="). Qed.

(** The last of [lines] that assigns to [k] assigns [v] to it. *)
Definition last_assigned (lines : list bytes) (k v : bytes) : Prop :=
  exists l1 line l2, lines = l1 ++ line :: l2 /\ assigns line k v /\
    Forall (fun x => forall w, ~ assigns x k w) l2.

Lemma entries_lookup lines k v :
  foldl (Os.add_entry (str "=")) ∅ lines !! k = Some v <->
  exists w, last_assigned lines k w /\ v = unquoted w.
Proof.
  induction lines as [|line lines IH] using rev_ind.
  { simpl. rewrite lookup_empty. split; [done|]. by intros (w & (l1 & x & l2 & E%app_cons_not_nil & _) & _). }
  rewrite foldl_app. cbn [foldl].
  assert (Hskip : (forall w, ~ assigns line k w) ->
    (exists w, last_assigned (lines ++ [line]) k w /\ v = unquoted w) <->
    (exists w, last_assigned lines k w /\ v = unquoted w)).
  { intros Hl. split; intros (w & (l1 & x & l2 & E & Hx & H2) & ->); exists w; split; [|done| |done].
    - destruct l2 as [|y l2 _] using rev_ind.
      + apply app_inj_tail in E as [-> ->]. by apply Hl in Hx.
      + rewrite app_comm_cons, app_assoc in E. apply app_inj_tail in E as [-> _].
        apply Forall_app in H2 as [H2 _]. by exists l1, x, l2.
    - exists l1, x, (l2 ++ [line]). subst lines. rewrite <- app_assoc. split_and!; [done..|].
      apply Forall_app. auto. }
  destruct (assigns_dec line) as [[[k' w'] Ha]|Hn]; simpl in *.
  - rewrite (add_entry_assigns _ _ _ _ Ha). destruct (decide (k' = k)) as [->|Hne].
    + rewrite lookup_insert_eq. split.
      * intros [= <-]. exists w'. split; [|done]. exists lines, line, []. by split_and!.
      * intros (w & (l1 & x & l2 & E & Hx & H2) & ->). destruct l2 as [|y l2 _] using rev_ind.
        -- apply app_inj_tail in E as [-> ->]. by destruct (assigns_fun _ _ _ _ _ Ha Hx) as [_ ->].
        -- rewrite app_comm_cons, app_assoc in E. apply app_inj_tail in E as [-> ->].
           apply Forall_app in H2 as [_ H2]. inversion H2 as [|? ? Hy]. by apply Hy in Ha.
    + rewrite lookup_insert_ne, IH by done. symmetry. apply Hskip. intros w Hw.
      by destruct (assigns_fun _ _ _ _ _ Ha Hw).
  - rewrite add_entry_other by done. rewrite IH. symmetry. by apply Hskip.
Qed.

(** The os-release file: a file that cannot be opened fails; of a file that can, each
    key has the unquoted value of the last line [key=value] for it, a key being what
    precedes the first [=] of the line; other lines are skipped. *)
Theorem os_release_entries {S} `{Handler FileCall S} (s : S) path :
  match fst (handle (ReadFile path) s) with
  | None => res (Os.ParseOSReleaseFile path (str "=") ∅ s) = Ret None
  | Some text =>
      exists m, res (Os.ParseOSReleaseFile path (str "=") ∅ s) = Ret (Some m) /\
        forall k v, m !! k = Some v <->
          exists w, last_assigned (split_on (fun c => bool_decide (c = x0a)) text) k w /\ v = unquoted w
  end.
Proof.
  unfold Os.ParseOSReleaseFile, trig, call, mbind, M_bind, inj, sub_refl.
  change (str "=") with ["="%byte]. cbn beta iota.
  destruct (handle (ReadFile path) s) as [[text|] s1]; [|reflexivity].
  eexists. split; [reflexivity|]. intros k v. apply entries_lookup.
Qed.

(** *** URLs *)

#[export] Instance boost_algo : BoostAlgo :=
  {| split := split_on; trim_left := skip_space; trim_right l := rev (skip_space (rev l)) |}.
#[export] Instance boost_algo_laws : BoostAlgoLaws.
Proof. by split. Qed.

Lemma skip_space_blank b l :
  Forall (fun c => isspace c = true) b -> skip_space (b ++ l) = skip_space l.
Proof. induction 1 as [|c b Hc _ IH]; simpl; [done|]. by rewrite Hc. Qed.
Lemma skip_space_id c l : isspace c = false -> skip_space (c :: l) = c :: l.
Proof. simpl. by intros ->. Qed.
Lemma trim_core `{!BoostAlgo, !BoostAlgoLaws} b1 b2 core c d :
  Forall (fun c => isspace c = true) b1 -> Forall (fun c => isspace c = true) b2 ->
  head core = Some c -> isspace c = false -> last core = Some d -> isspace d = false ->
  trim_right (trim_left (b1 ++ core ++ b2)) = core.
Proof.
  intros H1 H2 Hc Hsc Hd Hsd. rewrite trim_left_skip, trim_right_skip, skip_space_blank by done.
  destruct core as [|x core]; [done|]. injection Hc as ->. cbn [app]. rewrite skip_space_id by done.
  rewrite app_comm_cons, rev_app_distr, skip_space_blank.
  2: { apply Forall_forall. intros y Hy. rewrite Forall_forall in H2. apply H2.
       by apply list_elem_of_In, in_rev, list_elem_of_In. }
  destruct (rev (c :: core)) as [|y l] eqn:E.
  { apply (f_equal (@length byte)) in E. by rewrite length_rev in E. }
  assert (Hy : y = d).
  { apply (f_equal (@rev byte)) in E. rewrite rev_involutive in E. rewrite E in Hd. cbn [rev] in Hd.
    rewrite last_snoc in Hd. by injection Hd. }
  subst y. rewrite skip_space_id, <- E by done. apply rev_involutive.
Qed.

Lemma find_from_host pre host rest c0 l :
  host = c0 :: l -> Forall (fun c => c <> "/"%byte) host ->
  (rest = [] \/ exists r, rest = ":"%byte :: r \/ rest = "/"%byte :: r) ->
  exists tail, drop (length pre) (match Url.find_from "/" (length pre + 1) (pre ++ host ++ rest) with
                                  | Some i => take i (pre ++ host ++ rest)
                                  | None => pre ++ host ++ rest end) = host ++ tail /\
    (tail = [] \/ exists r, tail = ":"%byte :: r).
Proof.
  intros -> Hh Hrest. unfold Url.find_from. rewrite <- drop_drop, drop_app_length.
  cbn [drop app]. rewrite drop_0. inversion Hh as [|? ? _ Hl]; subst.
  destruct Hrest as [->|(r & [-> | ->])].
  - rewrite app_nil_r, find_byte_none by done. simpl. rewrite drop_app_length. exists []. rewrite app_nil_r. auto.
  - destruct (find_byte "/" (l ++ ":"%byte :: r)) as [i|] eqn:E; simpl.
    + assert (Hi : (length l < i)%nat).
      { apply Nat.nle_gt. intros Hle. revert E. clear -Hl Hle. revert i Hle.
        induction Hl as [|c l Hc Hl IH]; intros i Hle; simpl.
        - destruct (find_byte "/" r); simpl; intros [= <-]. simpl in Hle. lia.
        - rewrite decide_False by done. destruct (find_byte "/" (l ++ ":"%byte :: r)) as [j|]; simpl; [|done].
          intros [= <-]. simpl in Hle. apply (IH j); [lia|done]. }
      exists (":"%byte :: take (i - length l - 1) r). split; [|eauto].
      replace (length pre + 1 + i)%nat with (length pre + Datatypes.S i)%nat by lia.
      rewrite take_app_add, drop_app_length. cbn [take app]. f_equal.
      replace i with (length l + Datatypes.S (i - length l - 1))%nat at 1 by lia.
      by rewrite take_app_add.
    + rewrite drop_app_length. exists (":"%byte :: r). split; [done|eauto].
  - rewrite find_byte_app by done. simpl. exists []. rewrite app_nil_r. split; [|auto].
    replace (length pre + 1 + length l)%nat with (length pre + Datatypes.S (length l))%nat by lia.
    rewrite take_app_add, drop_app_length. cbn [take]. f_equal. by rewrite take_app_length.
Qed.

(** The host of a URL: blanks around it, the scheme, and a port or a path after the
    host are cut off, so the request goes to the host that was named. *)
Theorem url_host `{!BoostAlgo, !BoostAlgoLaws} b1 b2 scheme host rest d :
  Forall (fun c => isspace c = true) b1 -> Forall (fun c => isspace c = true) b2 ->
  scheme ∈ [str "https://"; str "http://"; []] ->
  host <> [] -> Forall (fun c => c <> "/"%byte /\ c <> ":"%byte /\ isspace c = false) host ->
  (rest = [] \/ exists r, rest = ":"%byte :: r \/ rest = "/"%byte :: r) ->
  last (host ++ rest) = Some d -> isspace d = false ->
  (scheme = [] -> is_prefix (str "https://") (host ++ rest) = false /\
                  is_prefix (str "http://") (host ++ rest) = false) ->
  Url.ParseURL (b1 ++ (scheme ++ host ++ rest) ++ b2) = (ok, host).
Proof.
  intros H1 H2 Hsch Hne Hh Hrest Hd Hsd Hbare.
  destruct host as [|c0 l] eqn:Eh; [done|]. rewrite <- Eh in *.
  assert (Hh' : Forall (fun c => c <> "/"%byte) host) by (eapply Forall_impl; [exact Hh|naive_solver]).
  assert (Hhc : Forall (fun c => c <> ":"%byte) host) by (eapply Forall_impl; [exact Hh|naive_solver]).
  assert (Hsp : isspace c0 = false) by (subst host; inversion Hh; naive_solver).
  assert (Htrim : trim_right (trim_left (b1 ++ (scheme ++ host ++ rest) ++ b2)) = scheme ++ host ++ rest).
  { assert (Hlast : last (scheme ++ host ++ rest) = Some d) by (rewrite last_app, Hd; done).
    rewrite !elem_of_cons, elem_of_nil in Hsch.
    destruct Hsch as [-> | [-> | [-> | []]]]; (eapply trim_core; [done|done| | |exact Hlast|done]);
      [reflexivity|reflexivity|reflexivity|reflexivity|by rewrite Eh|done]. }
  assert (Hoff : (if is_prefix (str "https://") (scheme ++ host ++ rest) then 8%nat
                  else if is_prefix (str "http://") (scheme ++ host ++ rest) then 7%nat else 0%nat)
                 = length scheme).
  { rewrite !elem_of_cons, elem_of_nil in Hsch. destruct Hsch as [-> | [-> | [-> | []]]]; [done|done|].
    cbn [app]. by destruct (Hbare eq_refl) as [-> ->]. }
  unfold Url.ParseURL.
  destruct (b1 ++ (scheme ++ host ++ rest) ++ b2) as [|x url] eqn:Eu.
  { exfalso. apply (f_equal (@length byte)) in Eu. rewrite !length_app, Eh in Eu. simpl in Eu. lia. }
  cbv zeta. rewrite Htrim, Hoff.
  destruct (find_from_host scheme host rest c0 l Eh Hh' Hrest) as (tail & -> & Ht).
  assert (Hcut : match find_byte ":" (host ++ tail) with
                 | Some i => take i (host ++ tail) | None => host ++ tail end = host).
  { destruct Ht as [->|(r & ->)].
    - by rewrite app_nil_r, find_byte_none.
    - rewrite find_byte_app by done. by rewrite take_app_length. }
  rewrite Hcut. by rewrite Eh.
Qed.

(** *** Keys of a token *)
Section Jwk.
Context `{Bb : BoostBase64, !BoostBase64Laws, Bs : BoostString, !BoostStringLaws}.
Context `{Ba : BoostAlgo, !BoostAlgoLaws, Jt : JsonText}.

Lemma split_on_none p l : Forall (fun c => p c = false) l -> split_on p l = [l].
Proof. induction 1 as [|c l Hc _ IH]; simpl; [done|]. by rewrite Hc, IH. Qed.
Lemma split_on_cut p l c r :
  Forall (fun c => p c = false) l -> p c = true -> split_on p (l ++ c :: r) = l :: split_on p r.
Proof. intros Hl Hc. induction Hl as [|x l Hx _ IH]; simpl; [by rewrite Hc|]. by rewrite Hx, IH. Qed.
Lemma b64_text_no_dot l : Forall (fun c => bool_decide (c = "."%byte) = false) (b64_text l).
Proof.
  eapply Forall_impl; [apply text_alphabet|]. intros c Hc. apply bool_decide_eq_false. intros ->. discriminate.
Qed.

(** Where the key is in the claims. *)
Definition has_key (root : Value) (n e : bytes) : Prop :=
  exists x_ms_runtime keys key nv ev,
    resolveReference root (str "x-ms-runtime") = Ret x_ms_runtime /\
    resolveReference x_ms_runtime (str "keys") = Ret keys /\ at_index keys 0 = Ret key /\
    resolveReference key (str "n") = Ret nv /\ asString nv = Ret n /\
    resolveReference key (str "e") = Ret ev /\ asString ev = Ret e.

(** The first runtime key of a token [header.claims.signature] is extracted when the
    claims are encoded with the plain base64 alphabet; whatever the token, no exception
    leaves the function; and a token whose second part the plain decoder refuses, as it
    does the [-] and [_] of base64url, has no key for it. *)
Theorem jwk_extracted h claims sg root n e :
  Forall (fun c => bool_decide (c = "."%byte) = false) h -> last claims <> Some x00 ->
  reader_parse claims = Ret (Some root) -> has_key root n e ->
  JwkInfo.ExtractJwkInfoFromAttestationJwt (h ++ "."%byte :: b64_text claims ++ "."%byte :: sg)
    = Ret (Some (n, e)) /\
  (forall jwt x, JwkInfo.ExtractJwkInfoFromAttestationJwt jwt <> Throw x) /\
  (forall part x, Forall (fun c => bool_decide (c = "."%byte) = false) part -> b64_bytes part = Throw x ->
     JwkInfo.ExtractJwkInfoFromAttestationJwt (h ++ "."%byte :: part ++ "."%byte :: sg) = Ret None).
Proof.
  intros Hh Hlast Hp (x & keys & key & nv & ev & E1 & E2 & E3 & E4 & E5 & E6 & E7).
  assert (Hsplit : forall part, Forall (fun c => bool_decide (c = "."%byte) = false) part ->
    exists rest, split (fun c => bool_decide (c = "."%byte)) (h ++ "."%byte :: part ++ "."%byte :: sg)
                 = h :: part :: rest /\ (1 <= length rest)%nat).
  { intros part Hpart. rewrite split_split_on, !split_on_cut by done. eexists. split; [done|].
    destruct sg as [|c sg]; simpl; [lia|]. destruct (bool_decide _); simpl; [lia|].
    destruct (split_on _ sg); simpl; lia. }
  assert (Hcons : forall part A (u v : A),
    match h ++ "."%byte :: part ++ "."%byte :: sg with [] => u | _ => v end = v) by (intros; by destruct h).
  split_and!.
  - destruct (Hsplit _ (b64_text_no_dot claims)) as (rest & Hs & Hr).
    unfold JwkInfo.ExtractJwkInfoFromAttestationJwt. rewrite Hcons, Hs. unfold JwkInfo.read_jwk.
    rewrite bool_decide_eq_false_2 by (simpl; lia). cbn [nth]. unfold AttestBase64.base64_decode.
    rewrite bytes_text. cbn [mbind outcome_bind mret outcome_ret].
    rewrite trim_strip, (proj2 (strip_nul_exact claims)), Hp by done.
    repeat (cbn [mbind outcome_bind mret outcome_ret]; first [rewrite E1|rewrite E2|rewrite E3|rewrite E4|
      rewrite E5|rewrite E6|rewrite E7]). done.
  - intros [|c jwt] y; simpl; [done|]. by destruct (JwkInfo.read_jwk _).
  - intros part y Hpart Hy. destruct (Hsplit _ Hpart) as (rest & Hs & Hr).
    unfold JwkInfo.ExtractJwkInfoFromAttestationJwt. rewrite Hcons, Hs. unfold JwkInfo.read_jwk.
    rewrite bool_decide_eq_false_2 by (simpl; lia). cbn [nth]. unfold AttestBase64.base64_decode.
    by rewrite Hy.
Qed.
End Jwk.

(** *** Witnesses *)

Theorem version_round_trip_witness :

  Os.ParseVersionString (str "22.4.1") = Some (22, 4) /\
  Os.ParseVersionString (str "-1.0") = Some (4294967295, 0).
Proof.
  split.
  - apply (version_round_trip 22 4 (str ".1")); [by vm_compute|by vm_compute|reflexivity].
  - apply (version_round_trip 1 0 []); [by vm_compute|by vm_compute|reflexivity|lia].
Defined.

Theorem url_host_witness :
  Url.ParseURL (str " https://maa.example:443/attest?q ") = (ok, str "maa.example").
Proof.
  assert (He : bool_decide (Forall (fun c => c <> "/"%byte /\ c <> ":"%byte /\ isspace c = false)
                              (str "maa.example")) = true) by vm_eq.
  apply bool_decide_eq_true in He.
  apply (url_host (str " ") (str " ") (str "https://") (str "maa.example") (str ":443/attest?q") "q").
  - by repeat constructor.
  - by repeat constructor.
  - left.
  - discriminate.
  - exact He.
  - right. eexists. left. reflexivity.
  - reflexivity.
  - reflexivity.
  - discriminate.
Defined.

Definition demo_claims : Value :=
  objectValue [(str "x-ms-runtime",
    objectValue [(str "keys", arrayValue [objectValue [(str "e", stringValue (str "AQAB"));
                                                       (str "n", stringValue (str "u1SU"))]])])].
Theorem jwk_extracted_witness :
  JwkInfo.ExtractJwkInfoFromAttestationJwt
    (str "e30" ++ "."%byte :: b64_text (writeString demo_claims) ++ "."%byte :: str "sig")
    = Ret (Some (str "u1SU", str "AQAB")) /\
  JwkInfo.ExtractJwkInfoFromAttestationJwt (str "e30.e30-.sig") = Ret None.
Proof.
  assert (Hh : bool_decide (Forall (fun c => bool_decide (c = "."%byte) = false) (str "e30")) = true) by vm_eq.
  apply bool_decide_eq_true in Hh.
  assert (Hp : bool_decide (Forall (fun c => bool_decide (c = "."%byte) = false) (str "e30-")) = true) by vm_eq.
  apply bool_decide_eq_true in Hp.
  destruct (jwk_extracted (str "e30") (writeString demo_claims) (str "sig") demo_claims (str "u1SU")
              (str "AQAB") Hh) as (Hok & _ & Hno).
  - vm_compute. discriminate.
  - vm_eq.
  - do 5 eexists. by repeat split.
  - split; [exact Hok|]. apply (Hno (str "e30-") b64_error Hp). vm_eq.
Defined.
