(* ===== verification/Evidence.v ===== *)
(** * The evidence the client sends

    [TpmInfo], [IsolationInfo], [OsInfo] and [AttestationParameters] of the client library
    (TpmInfo.cpp, IsolationInfo.cpp, AttestationParameters.cpp), with their validation
    and their JSON, and the payload of the attestation request
    ([AttestationClientImpl::CreatePayload]). *)

From S2P Require Import Prelude Base64 Json Ossl GuestTpm JsonCpp JsonText Http ClientUtils.
#[local] Open Scope Z_scope.

Inductive OsType := LINUX | WINDOWS | INVALID.
#[export] Instance OsType_eq_dec : EqDecision OsType.
Proof. solve_decision. Defined.
Inductive IsolationType := TRUSTED_LAUNCH | SEV_SNP.

Record OsInfo := { os_type : OsType; distro_name : bytes; build : bytes;
                   distro_version_major : Z; distro_version_minor : Z }.
Record TpmInfo := { aik_cert_ : bytes; aik_pub_ : bytes; pcr_values_ : PcrSet;
                    pcr_quote_ : PcrQuote; encryption_key_ : EphemeralKey }.
Record IsolationInfo := { isolation_type_ : IsolationType; snp_report_ : bytes;
                          runtime_data_ : bytes; vcek_cert_ : bytes }.
Record AttestationParameters := {
  os_info_ : OsInfo; tcg_logs_ : bytes; client_payload_ : gmap bytes bytes;
  tpm_info_ : TpmInfo; isolation_info_ : IsolationInfo; attestation_protocol_ver_ : bytes }.

Definition protocol_version : bytes := str "2.0".
Definition default_OsInfo : OsInfo :=
  {| os_type := INVALID; distro_name := []; build := [];
     distro_version_major := 0; distro_version_minor := 0 |}.
Definition default_IsolationInfo : IsolationInfo :=
  {| isolation_type_ := TRUSTED_LAUNCH; snp_report_ := []; runtime_data_ := []; vcek_cert_ := [] |}.

(** [empty()] *)
Definition empty {A} (l : list A) : bool := match l with [] => true | _ => false end.

(** A sequence of member assignments to a fresh value. *)
Fixpoint build_object (v : Value) (l : list (string * Value)) : outcome Value :=
  match l with
  | [] => Ret v
  | (k, x) :: l' => v' ← assign v (str k) x; build_object v' l'
  end.
(** [v.append(x)], which is [v[v.size()] = x]. *)
Definition append (v x : Value) : outcome Value :=
  match v with
  | nullValue => Ret (arrayValue [x])
  | arrayValue l => Ret (arrayValue (l ++ [x]))
  | _ => logic_error "in Json::Value::operator[](ArrayIndex): requires arrayValue"
  end.

Module Evidence.
Section Ops.
Context `{BoostBase64, BoostString, JsonText}.
Notation b64 := AttestBase64.binary_to_base64.

(** *** TpmInfo *)

Definition TpmInfo_Validate (t : TpmInfo) : bool :=
  negb (empty (aik_cert_ t) || empty (aik_pub_ t) || empty (pcrs (pcr_values_ t))
        || empty (certifyInfo (encryption_key_ t)) || empty (encryptionKey (encryption_key_ t))
        || empty (certifyInfoSignature (encryption_key_ t))).

(** The two arrays of the loop over the PCRs; an index is a [uint8_t]. *)
Fixpoint pcr_arrays (l : list PcrValue) (pcr_set pcrs : Value) : outcome (Value * Value) :=
  match l with
  | [] => Ret (pcr_set, pcrs)
  | p :: l' =>
      pcr_obj ← build_object nullValue
                  [("Index"%string, intValue (index p));
                   ("Digest"%string, stringValue (b64 (digest p)))];
      pcr_set ← append pcr_set (intValue (index p));
      pcrs ← append pcrs pcr_obj;
      pcr_arrays l' pcr_set pcrs
  end.

Definition TpmInfo_ToJson (t : TpmInfo) : outcome Value :=
  tpm_info ← build_object nullValue
    [("AikCert"%string, stringValue (b64 (aik_cert_ t)));
     ("AikPub"%string, stringValue (b64 (aik_pub_ t)));
     ("PcrQuote"%string, stringValue (b64 (quote (pcr_quote_ t))));
     ("PcrSignature"%string, stringValue (b64 (quote_signature (pcr_quote_ t))));
     ("EncKeyPub"%string, stringValue (b64 (encryptionKey (encryption_key_ t))));
     ("EncKeyCertifyInfo"%string, stringValue (b64 (certifyInfo (encryption_key_ t))));
     ("EncKeyCertifyInfoSignature"%string,
      stringValue (b64 (certifyInfoSignature (encryption_key_ t))))];
  '(pcr_set, pcrs) ← pcr_arrays (pcrs (pcr_values_ t)) (arrayValue []) (arrayValue []);
  build_object tpm_info [("PcrSet"%string, pcr_set); ("PCRs"%string, pcrs)].

(** *** IsolationInfo *)

Definition IsolationInfo_Validate (i : IsolationInfo) : bool :=
  match isolation_type_ i with
  | SEV_SNP => negb (empty (snp_report_ i) || empty (vcek_cert_ i) || empty (runtime_data_ i))
  | TRUSTED_LAUNCH => true
  end.

Definition IsolationInfo_ToJson (i : IsolationInfo) : outcome Value :=
  match isolation_type_ i with
  | TRUSTED_LAUNCH => build_object nullValue [("Type"%string, stringValue (str "TrustedLaunch"))]
  | SEV_SNP =>
      isolation_info ← build_object nullValue [("Type"%string, stringValue (str "SevSnp"))];
      proof ← build_object nullValue
        [("SnpReport"%string, stringValue (AttestBase64.binary_to_base64url (snp_report_ i)));
         ("VcekCertChain"%string, stringValue (vcek_cert_ i))];
      isolation_evidence ← build_object nullValue
        [("Proof"%string, stringValue (AttestBase64.base64_encode (writeString proof)));
         ("RunTimeData"%string, stringValue (b64 (runtime_data_ i)))];
      build_object isolation_info [("Evidence"%string, isolation_evidence)]
  end.

(** *** AttestationParameters *)

Definition getOSTypeStr (t : OsType) : bytes :=
  match t with LINUX => str "Linux" | WINDOWS => str "Windows" | INVALID => str "Unknown" end.

Definition Validate (p : AttestationParameters) : bool :=
  let os := os_info_ p in
  TpmInfo_Validate (tpm_info_ p) && IsolationInfo_Validate (isolation_info_ p) &&
  negb (bool_decide (os_type os = INVALID) || empty (build os) || empty (distro_name os)
        || (distro_version_major os =? 0) || empty (attestation_protocol_ver_ p)).

(** The keys go through [c_str()], so they end at their first zero byte. *)
Fixpoint payload_object (l : list (bytes * bytes)) (v : Value) : outcome Value :=
  match l with
  | [] => Ret v
  | (k, x) :: l' => v' ← assign v (c_str k) (stringValue (b64 x)); payload_object l' v'
  end.

(** [order] is the order the unordered map is walked in. *)
Definition ToJson (order : gmap bytes bytes -> list (bytes * bytes)) (p : AttestationParameters)
  : outcome Value :=
  let os := os_info_ p in
  attestation_info ← build_object nullValue
    [("AttestationProtocolVersion"%string, stringValue (attestation_protocol_ver_ p));
     ("OSType"%string, stringValue (b64 (getOSTypeStr (os_type os))));
     ("OSDistro"%string, stringValue (b64 (distro_name os)));
     ("OSVersionMajor"%string, uintValue (distro_version_major os));
     ("OSVersionMinor"%string, uintValue (distro_version_minor os));
     ("OSBuild"%string, stringValue (b64 (build os)));
     ("TcgLogs"%string, stringValue (b64 (tcg_logs_ p)))];
  client_payload ← payload_object (order (client_payload_ p)) nullValue;
  attestation_info ← build_object attestation_info [("ClientPayload"%string, client_payload)];
  tpm_info ← TpmInfo_ToJson (tpm_info_ p);
  attestation_info ← build_object attestation_info [("TpmInfo"%string, tpm_info)];
  isolation_info ← IsolationInfo_ToJson (isolation_info_ p);
  build_object attestation_info [("IsolationInfo"%string, isolation_info)].

(** AttestationClientImpl.cpp *)
Definition CreatePayload (order : gmap bytes bytes -> list (bytes * bytes)) (p : AttestationParameters)
  : outcome bytes :=
  attestation_info ← ToJson order p;
  let attestation_info_str := writeString attestation_info in
  root ← build_object nullValue
    [("AttestationInfo"%string,
      stringValue (AttestBase64.binary_to_base64url attestation_info_str))];
  mret (writeString root).
End Ops.
End Evidence.

(** ** Facts *)

Definition container (v : Value) : bool :=
  match v with nullValue | objectValue _ => true | _ => false end.
Definition entry (v : Value) (k : bytes) : option Value :=
  match v with objectValue l => obj_lookup k l | _ => None end.
Lemma find_entry v k : container v = true -> find v k = Ret (entry v k).
Proof. by destruct v. Qed.

Lemma obj_lookup_insert_ne {V} k k' (x : V) l : k <> k' -> obj_lookup k (obj_insert k' x l) = obj_lookup k l.
Proof.
  intros Hne. induction l as [|[k2 x2] l IH]; simpl; [by rewrite decide_False|].
  destruct (decide (k' = k2)) as [->|]; simpl; [by rewrite !decide_False|].
  destruct (bytes_ltb k' k2); simpl; [by rewrite (decide_False (P := k = k'))|].
  case_decide; [done|apply IH].
Qed.
Lemma assign_entry v k x v' :
  container v = true -> assign v k x = Ret v' ->
  container v' = true /\ forall k', entry v' k' = if decide (k' = k) then Some x else entry v k'.
Proof.
  destruct v; try done; intros _ [= <-]; split; [done| |done|]; intros k'; simpl.
  - by repeat case_decide.
  - case_decide; subst; [apply obj_lookup_insert|by apply obj_lookup_insert_ne].
Qed.
Lemma assign_total v k x : container v = true -> exists v', assign v k x = Ret v'.
Proof. destruct v; try done; intros _; by eexists. Qed.

(** The last value a sequence of assignments gives to [k]. *)
Fixpoint assigned (k : bytes) (l : list (string * Value)) : option Value :=
  match l with
  | [] => None
  | (k', x) :: l' => match assigned k l' with
                     | Some y => Some y
                     | None => if decide (k = str k') then Some x else None
                     end
  end.
Lemma build_object_entries v l :
  container v = true -> exists v', build_object v l = Ret v' /\ container v' = true /\
    forall k, entry v' k = match assigned k l with Some x => Some x | None => entry v k end.
Proof.
  revert v. induction l as [|[k x] l IH]; intros v Hv; simpl; [by exists v|].
  destruct (assign_total v (str k) x Hv) as (v1 & E1). rewrite E1. cbn [mbind outcome_bind].
  destruct (assign_entry _ _ _ _ Hv E1) as [Hv1 Hk]. destruct (IH v1 Hv1) as (v' & -> & Hv' & Hl).
  exists v'. split_and!; [done..|]. intros k'. rewrite Hl, Hk.
  destruct (assigned k' l); [done|]. by case_decide.
Qed.

(** Reading the evidence, as the service does: a member by its path, and the binary
    data of its base64 text. *)
Fixpoint path (v : Value) (p : list bytes) : outcome Value :=
  match p with
  | [] => Ret v
  | k :: p' =>
      f ← find v k;
      match f with Some x => path x p' | None => logic_error "no such member" end
  end.
Section Decoded.
Context `{Bb : BoostBase64, !BoostBase64Laws, Bs : BoostString, !BoostStringLaws, Jt : JsonText}.

Definition binary (v : Value) (p : list bytes) : outcome bytes :=
  x ← path v p; s ← asString x; AttestBase64.base64_to_binary s.
Definition fits (l : bytes) : Prop := size l + 2 <= vector_max_size.

Definition decodes (v : Value) (p : list bytes) (l : bytes) : Prop := fits l -> binary v p = Ret l.

Lemma path_cons v k p x : find v k = Ret (Some x) -> path v (k :: p) = path x p.
Proof. simpl. by intros ->. Qed.
Lemma path_entry v k p x : container v = true -> entry v k = Some x -> path v (k :: p) = path x p.
Proof. intros Hv Hk. apply path_cons. by rewrite find_entry, Hk. Qed.
Lemma binary_path v p l :
  fits l -> path v p = Ret (stringValue (AttestBase64.binary_to_base64 l)) -> binary v p = Ret l.
Proof. unfold binary. intros Hf ->. cbn [mbind outcome_bind asString]. by apply attest_decode_padded. Qed.
Lemma binary_entry v k l :
  container v = true -> fits l ->
  entry v k = Some (stringValue (AttestBase64.binary_to_base64 l)) -> binary v [k] = Ret l.
Proof. intros Hv Hf Hk. apply binary_path; [done|]. by rewrite (path_entry _ _ _ _ Hv Hk). Qed.
Lemma binary_cons v k p x : container v = true -> entry v k = Some x -> binary v (k :: p) = binary x p.
Proof. intros Hv Hk. unfold binary. by rewrite (path_entry _ _ _ _ Hv Hk). Qed.

(** The PCR arrays list the PCRs in order. *)
Definition pcr_value (p : PcrValue) : outcome Value :=
  build_object nullValue [("Index"%string, intValue (index p));
                          ("Digest"%string, stringValue (AttestBase64.binary_to_base64 (digest p)))].
Definition pcr_encoded (p : PcrValue) (v : Value) : Prop :=
  path v [str "Index"] = Ret (intValue (index p)) /\ decodes v [str "Digest"] (digest p).
Lemma pcr_arrays_encoded l set0 pcrs0 :
  exists vs, Evidence.pcr_arrays l (arrayValue set0) (arrayValue pcrs0)
             = Ret (arrayValue (set0 ++ map (fun p => intValue (index p)) l), arrayValue (pcrs0 ++ vs)) /\
    Forall2 pcr_encoded l vs.
Proof.
  revert set0 pcrs0. induction l as [|p l IH]; intros set0 pcrs0.
  { exists []. rewrite !app_nil_r. split; [done|constructor]. }
  cbn [Evidence.pcr_arrays]. fold (pcr_value p).
  destruct (build_object_entries nullValue [("Index"%string, intValue (index p));
    ("Digest"%string, stringValue (AttestBase64.binary_to_base64 (digest p)))] eq_refl)
    as (v & E & Hv & Hk). unfold pcr_value. rewrite E. cbn [mbind outcome_bind append].
  destruct (IH (set0 ++ [intValue (index p)]) (pcrs0 ++ [v])) as (vs & -> & Hvs).
  exists (v :: vs). cbn [map]. rewrite <- !app_assoc. split; [done|]. constructor; [|done]. split.
  - erewrite path_entry; [reflexivity|done|]. by rewrite Hk.
  - intros Hf. apply binary_entry; [done..|]. by rewrite Hk.
Qed.

Lemma payload_object_entries l v :
  container v = true -> Forall (fun kx => c_str (fst kx) = fst kx) l -> NoDup (map fst l) ->
  exists v', Evidence.payload_object l v = Ret v' /\ container v' = true /\
    (forall k x, (k, x) ∈ l -> entry v' k = Some (stringValue (AttestBase64.binary_to_base64 x))) /\
    (forall k, k ∉ map fst l -> entry v' k = entry v k).
Proof.
  revert v. induction l as [|[k x] l IH]; intros v Hv Hc Hnd; simpl.
  { exists v. split_and!; try done. intros k x []%elem_of_nil. }
  inversion Hc as [|? ? Hck Hc']; subst. inversion Hnd as [|? ? Hnk Hnd']; subst. simpl in *. rewrite Hck.
  destruct (assign_total v k (stringValue (AttestBase64.binary_to_base64 x)) Hv) as (v1 & E1).
  rewrite E1. cbn [mbind outcome_bind]. destruct (assign_entry _ _ _ _ Hv E1) as [Hv1 Hk].
  destruct (IH v1 Hv1 Hc' Hnd') as (v' & -> & Hv' & Hin & Hout). exists v'. split_and!; [done..| |].
  - intros k' x' [[= -> ->]|Hl]%elem_of_cons; [|by apply Hin]. rewrite Hout by done. by rewrite Hk, decide_True.
  - intros k'. rewrite not_elem_of_cons. intros [Hne Hl]. rewrite Hout by done. by rewrite Hk, decide_False.
Qed.

(** *** The whole of the evidence *)

Definition os_decodes (v : Value) (os : OsInfo) : Prop :=
  decodes v [str "OSType"] (Evidence.getOSTypeStr (os_type os)) /\
  decodes v [str "OSDistro"] (distro_name os) /\ decodes v [str "OSBuild"] (build os) /\
  path v [str "OSVersionMajor"] = Ret (uintValue (distro_version_major os)) /\
  path v [str "OSVersionMinor"] = Ret (uintValue (distro_version_minor os)).
Definition tpm_decodes (v : Value) (t : TpmInfo) : Prop :=
  decodes v [str "AikCert"] (aik_cert_ t) /\ decodes v [str "AikPub"] (aik_pub_ t) /\
  decodes v [str "PcrQuote"] (quote (pcr_quote_ t)) /\
  decodes v [str "PcrSignature"] (quote_signature (pcr_quote_ t)) /\
  decodes v [str "EncKeyPub"] (encryptionKey (encryption_key_ t)) /\
  decodes v [str "EncKeyCertifyInfo"] (certifyInfo (encryption_key_ t)) /\
  decodes v [str "EncKeyCertifyInfoSignature"] (certifyInfoSignature (encryption_key_ t)) /\
  exists vs, path v [str "PCRs"] = Ret (arrayValue vs) /\ Forall2 pcr_encoded (pcrs (pcr_values_ t)) vs.
Definition isolation_decodes (v : Value) (i : IsolationInfo) : Prop :=
  match isolation_type_ i with
  | TRUSTED_LAUNCH => path v [str "Type"] = Ret (stringValue (str "TrustedLaunch"))
  | SEV_SNP =>
      path v [str "Type"] = Ret (stringValue (str "SevSnp")) /\
      decodes v [str "Evidence"; str "RunTimeData"] (runtime_data_ i) /\
      exists proof e,
        decodes v [str "Evidence"; str "Proof"] (writeString proof) /\
        path proof [str "SnpReport"] = Ret (stringValue e) /\
        AttestBase64.base64url_to_binary e = Ret (snp_report_ i) /\
        path proof [str "VcekCertChain"] = Ret (stringValue (vcek_cert_ i))
  end.

Lemma base64url_inverse l :
  AttestBase64.base64url_to_binary (AttestBase64.binary_to_base64url l) = Ret l.
Proof.
  unfold AttestBase64.base64url_to_binary, AttestBase64.binary_to_base64url.
  rewrite url_encode_map, url_decode_map, text_url_inverse. apply attest_decode_text.
Qed.
Lemma decodes_entry v k l :
  container v = true -> entry v k = Some (stringValue (AttestBase64.binary_to_base64 l)) -> decodes v [k] l.
Proof. intros Hv Hk Hf. by apply binary_entry. Qed.
Lemma decodes_cons v k p x l :
  container v = true -> entry v k = Some x -> decodes x p l -> decodes v (k :: p) l.
Proof. intros Hv Hk Hd Hf. rewrite (binary_cons _ _ _ _ Hv Hk). auto. Qed.
Lemma path_one v k x : container v = true -> entry v k = Some x -> path v [k] = Ret x.
Proof. intros Hv Hk. by rewrite (path_entry _ _ _ _ Hv Hk). Qed.

(** Introduces the object built by the next sequence of assignments. *)
Ltac build_next v Hv Hk :=
  match goal with |- context [build_object ?u ?l] =>
    let E := fresh "E" in
    destruct (build_object_entries u l ltac:(first [reflexivity|assumption])) as (v & E & Hv & Hk);
    rewrite E; cbn [mbind outcome_bind]; clear E
  end.
Ltac in_entries Hk := rewrite Hk; reflexivity.

Lemma TpmInfo_ToJson_decodes t : exists v, Evidence.TpmInfo_ToJson t = Ret v /\ tpm_decodes v t.
Proof.
  unfold Evidence.TpmInfo_ToJson. build_next v Hv Hk.
  destruct (pcr_arrays_encoded (pcrs (pcr_values_ t)) [] []) as (vs & -> & Hvs). cbn [mbind outcome_bind app].
  destruct (build_object_entries v [("PcrSet"%string, arrayValue (map (fun p => intValue (index p)) (pcrs (pcr_values_ t))));
              ("PCRs"%string, arrayValue vs)] Hv) as (v2 & -> & Hv2 & Hk2).
  exists v2. split; [done|]. unfold tpm_decodes.
  split_and!; try (apply decodes_entry; [done|]; rewrite Hk2; cbn [assigned]; rewrite Hk; reflexivity).
  exists vs. split; [|done]. apply path_one; [done|]. in_entries Hk2.
Qed.
Lemma IsolationInfo_ToJson_decodes i : exists v, Evidence.IsolationInfo_ToJson i = Ret v /\ isolation_decodes v i.
Proof.
  unfold Evidence.IsolationInfo_ToJson, isolation_decodes. destruct (isolation_type_ i).
  - destruct (build_object_entries nullValue [("Type"%string, stringValue (str "TrustedLaunch"))] eq_refl)
      as (v & -> & Hv & Hk). exists v. split; [done|]. apply path_one; [done|]. in_entries Hk.
  - build_next proof Hp Hkp. build_next ev He Hke. build_next v Hv Hk.
    destruct (build_object_entries v [("Evidence"%string, ev)] Hv) as (v2 & -> & Hv2 & Hk2).
    exists v2. split; [done|]. split_and!.
    + apply path_one; [done|]. rewrite Hk2. cbn [assigned]. in_entries Hk.
    + apply (decodes_cons _ _ _ ev); [done|in_entries Hk2|]. apply decodes_entry; [done|]. in_entries Hke.
    + exists proof. eexists. split_and!.
      * apply (decodes_cons _ _ _ ev); [done|in_entries Hk2|]. apply decodes_entry; [done|]. in_entries Hke.
      * apply path_one; [done|]. in_entries Hkp.
      * apply base64url_inverse.
      * apply path_one; [done|]. in_entries Hkp.
Qed.

(** The request carries the evidence: for every order the client payload is walked in,
    [CreatePayload] answers an object whose AttestationInfo is base64url text of a JSON
    object from which every part of the parameters is read back, the client payload, the
    TPM evidence with its PCRs in order and the isolation evidence included. *)
Theorem evidence_decodes order p :
  order (client_payload_ p) ≡ₚ map_to_list (client_payload_ p) ->
  (forall k x, client_payload_ p !! k = Some x -> c_str k = k) ->
  exists info root e,
    Evidence.ToJson order p = Ret info /\ Evidence.CreatePayload order p = Ret (writeString root) /\
    path root [str "AttestationInfo"] = Ret (stringValue e) /\
    AttestBase64.base64url_to_binary e = Ret (writeString info) /\
    path info [str "AttestationProtocolVersion"] = Ret (stringValue (attestation_protocol_ver_ p)) /\
    os_decodes info (os_info_ p) /\ decodes info [str "TcgLogs"] (tcg_logs_ p) /\
    (forall k x, client_payload_ p !! k = Some x -> decodes info [str "ClientPayload"; k] x) /\
    (exists t, path info [str "TpmInfo"] = Ret t /\ tpm_decodes t (tpm_info_ p)) /\
    (exists i, path info [str "IsolationInfo"] = Ret i /\ isolation_decodes i (isolation_info_ p)).
Proof.
  intros Hord Hkeys. unfold Evidence.CreatePayload, Evidence.ToJson.
  build_next v1 Hv1 Hk1.
  destruct (payload_object_entries (order (client_payload_ p)) nullValue) as (cp & -> & Hcp & Hin & _).
  { done. }
  { rewrite Hord. apply Forall_forall. intros [k x] Hkx%elem_of_map_to_list. simpl. by eapply Hkeys. }
  { rewrite Hord. apply NoDup_fst_map_to_list. }
  cbn [mbind outcome_bind]. build_next v2 Hv2 Hk2.
  destruct (TpmInfo_ToJson_decodes (tpm_info_ p)) as (t & -> & Ht). cbn [mbind outcome_bind].
  build_next v3 Hv3 Hk3.
  destruct (IsolationInfo_ToJson_decodes (isolation_info_ p)) as (i & -> & Hi). cbn [mbind outcome_bind].
  destruct (build_object_entries v3 [("IsolationInfo"%string, i)] Hv3) as (info & -> & Hinfo & Hk4).
  cbn [mbind outcome_bind]. build_next root Hroot Hkr.
  assert (Hk : forall k x, assigned k [("IsolationInfo"%string, i)] = None ->
    assigned k [("TpmInfo"%string, t)] = None -> assigned k [("ClientPayload"%string, cp)] = None ->
    entry v1 k = Some x -> entry info k = Some x).
  { intros k x E4 E3 E2 E1. by rewrite Hk4, E4, Hk3, E3, Hk2, E2. }
  exists info, root. eexists. split_and!; try done.
  - apply path_one; [done|]. in_entries Hkr.
  - apply base64url_inverse.
  - apply path_one; [done|]. apply Hk; [done..|]. in_entries Hk1.
  - split_and!; try (apply decodes_entry; [done|]; apply Hk; [done..|]; in_entries Hk1);
      apply path_one; [done| |done|]; (apply Hk; [done..|]; in_entries Hk1).
  - apply decodes_entry; [done|]. apply Hk; [done..|]. in_entries Hk1.
  - intros k x Hkx. apply (decodes_cons _ _ _ cp); [done| |].
    + rewrite Hk4. cbn [assigned]. rewrite Hk3. cbn [assigned]. in_entries Hk2.
    + apply decodes_entry; [done|]. apply Hin. rewrite Hord. by apply elem_of_map_to_list.
  - exists t. split; [|done]. apply path_one; [done|]. rewrite Hk4. cbn [assigned]. in_entries Hk3.
  - exists i. split; [|done]. apply path_one; [done|]. in_entries Hk4.
Qed.
End Decoded.

(** *** Witness *)

Definition demo_parameters : AttestationParameters :=
  {| os_info_ := {| os_type := LINUX; distro_name := str "Ubuntu"; build := str "NotApplication";
                    distro_version_major := 22; distro_version_minor := 4 |};
     tcg_logs_ := [x01; x02];
     client_payload_ := {[ str "nonce" := str "42" ]};
     tpm_info_ :=
       {| aik_cert_ := [xca]; aik_pub_ := [xab];
          pcr_values_ := {| hashAlg := Sha256; pcrs := [{| index := 0; digest := [x00; xff] |}] |};
          pcr_quote_ := {| quote := [x01]; quote_signature := [x02] |};
          encryption_key_ := {| encryptionKey := [x03]; certifyInfo := [x04];
                                certifyInfoSignature := [x05] |} |};
     isolation_info_ := default_IsolationInfo;
     attestation_protocol_ver_ := protocol_version |}.
Theorem evidence_decodes_witness :
  exists info, Evidence.ToJson map_to_list demo_parameters = Ret info /\
    binary info [str "ClientPayload"; str "nonce"] = Ret (str "42") /\
    exists t, path info [str "TpmInfo"] = Ret t /\ binary t [str "AikCert"] = Ret [xca].
Proof.
  destruct (evidence_decodes map_to_list demo_parameters) as (info & root & e & Hj & _ & _ & _ & _ & _ & _ & Hp & Ht & _).
  - reflexivity.
  - intros k x Hk. cbn [client_payload_ demo_parameters] in Hk. apply lookup_singleton_Some in Hk as [<- _].
    vm_compute. reflexivity.
  - exists info. split; [exact Hj|]. split.
    + apply (Hp (str "nonce") (str "42")); [|by vm_compute].
      apply lookup_singleton_Some. by split.
    + destruct Ht as (t & Et & Hd & _). exists t. split; [exact Et|]. apply Hd. by vm_compute.
Defined.
