(* ===== verification/EvidenceText.v ===== *)
(** * The evidence, as the service receives it

    What [CreatePayload] of the client writes, read back by a JSON parser that reads what the writer
    prints ([JsonTextLaws]): the printer, the parser, base64 and the assembly of the evidence
    together. *)

From S2P Require Import Prelude Base64 Json Ossl GuestTpm JsonCpp JsonReader JsonReaderFacts JsonRoundTrip JsonText Http ClientUtils Evidence.
#[local] Open Scope Z_scope.

(** ** What the client builds has no doubles, and nests little *)

Definition shape (h : Z) (v : Value) : Prop := has_reals v = false /\ height v <= h.

Lemma shape_mono h k v : h <= k -> shape h v -> shape k v.
Proof. unfold shape. intuition lia. Qed.
Lemma has_reals_insert k v l :
  has_reals v = false -> has_reals (objectValue l) = false -> has_reals (objectValue (obj_insert k v l)) = false.
Proof.
  intros Hv. cbn. induction l as [|[k1 v1] l IH]; cbn; [by rewrite Hv|].
  rewrite orb_false_iff. intros [H1 H2]. repeat case_match; cbn; rewrite ?Hv, ?H1, ?H2; auto.
Qed.
Lemma shape_assign n v k x v' :
  1 <= n -> shape (1 + n) v -> shape n x -> assign v k x = Ret v' -> shape (1 + n) v'.
Proof.
  intros Hn [Hr Hh] [Hrx Hhx]. destruct v; try done; intros [= <-].
  - split; cbn; [by rewrite Hrx|lia].
  - split; [by apply has_reals_insert|by apply height_insert].
Qed.
Lemma shape_build n v l v' :
  1 <= n -> shape (1 + n) v -> Forall (fun kx => shape n kx.2) l -> build_object v l = Ret v' -> shape (1 + n) v'.
Proof.
  intros Hn Hv Hl. revert v Hv. induction Hl as [|[k x] l Hx _ IH]; intros v Hv; [by intros [= <-]|].
  cbn [build_object]. intros (v1 & E1 & E2)%outcome_bind_ret. by eapply IH; [eapply shape_assign|].
Qed.
Lemma shape_append n v x v' : shape (1 + n) v -> shape n x -> append v x = Ret v' -> shape (1 + n) v'.
Proof.
  intros [Hr Hh] [Hrx Hhx]. pose proof (height_positive x). destruct v; try done; intros [= <-].
  - split; cbn; [by rewrite Hrx|lia].
  - split; [cbn in *; rewrite existsb_app, Hr; cbn; by rewrite Hrx|by apply height_elements_app].
Qed.
Lemma shape_string s : shape 1 (stringValue s).
Proof. done. Qed.
Lemma shape_int z : shape 1 (intValue z).
Proof. done. Qed.
Lemma shape_uint z : shape 1 (uintValue z).
Proof. done. Qed.
Create HintDb shape.
#[local] Hint Resolve shape_string shape_int shape_uint : shape.

Section Shapes.
Context `{Bb : BoostBase64, Bs : BoostString, Jt : JsonText}.

(** An object of scalars *)
Lemma shape_flat l v :
  Forall (fun kx => match kx.2 with stringValue _ | intValue _ | uintValue _ => True | _ => False end) l ->
  build_object nullValue l = Ret v -> shape 2 v.
Proof.
  intros Hl. apply (shape_build 1); [done|done|]. eapply Forall_impl; [exact Hl|].
  intros [k []]; cbn; intros Hx; try done; auto with shape.
Qed.
Lemma shape_pcr_arrays l a b r :
  shape 2 a -> shape 3 b -> Evidence.pcr_arrays l a b = Ret r -> shape 2 r.1 /\ shape 3 r.2.
Proof.
  revert a b. induction l as [|p l IH]; intros a b Ha Hb; [by intros [= <-]|]. cbn [Evidence.pcr_arrays].
  intros (o & Eo & E)%outcome_bind_ret. apply shape_flat in Eo; [|by repeat constructor].
  apply outcome_bind_ret in E as (a' & Ea & E). apply outcome_bind_ret in E as (b' & Eb & E).
  apply (IH a' b'); [|by apply (shape_append 2 b o)|done].
  by apply (shape_append 1 a (intValue (index p))); [|apply shape_int|].
Qed.
Lemma shape_payload l v v' : shape 2 v -> Evidence.payload_object l v = Ret v' -> shape 2 v'.
Proof.
  revert v. induction l as [|[k x] l IH]; intros v Hv; [by intros [= <-]|]. cbn [Evidence.payload_object].
  intros (v1 & E1 & E)%outcome_bind_ret. apply (IH v1); [|done]. by apply (shape_assign 1 v _ _ _) in E1.
Qed.
Lemma shape_tpm t v : Evidence.TpmInfo_ToJson t = Ret v -> shape 4 v.
Proof.
  unfold Evidence.TpmInfo_ToJson. intros (o & Eo & E)%outcome_bind_ret.
  apply shape_flat in Eo; [|by repeat constructor]. apply outcome_bind_ret in E as ([a b] & Er & E).
  apply shape_pcr_arrays in Er as [Ha Hb]; [|done..]. cbn [fst snd] in *.
  apply (shape_build 3) in E; [done|done|by apply (shape_mono 2)|].
  constructor; [by apply (shape_mono 2)|by constructor].
Qed.
Lemma shape_isolation i v : Evidence.IsolationInfo_ToJson i = Ret v -> shape 4 v.
Proof.
  unfold Evidence.IsolationInfo_ToJson. destruct (isolation_type_ i).
  - intros E. apply (shape_mono 2); [done|]. apply shape_flat in E; [done|by repeat constructor].
  - intros (o & Eo & E)%outcome_bind_ret. apply outcome_bind_ret in E as (p & Ep & E).
    apply outcome_bind_ret in E as (ev & Ev & E).
    apply shape_flat in Eo, Ev; try by repeat constructor.
    apply (shape_build 3) in E; [done|done|by apply (shape_mono 2)|].
    constructor; [by apply (shape_mono 2)|constructor].
Qed.
Lemma shape_evidence order p v : Evidence.ToJson order p = Ret v -> shape 5 v.
Proof.
  unfold Evidence.ToJson. intros (v1 & E1 & E)%outcome_bind_ret.
  apply shape_flat in E1; [|by repeat constructor].
  apply outcome_bind_ret in E as (cp & Ecp & E). apply shape_payload in Ecp; [|done].
  apply outcome_bind_ret in E as (v2 & E2 & E). apply outcome_bind_ret in E as (t & Et & E).
  apply outcome_bind_ret in E as (v3 & E3 & E). apply outcome_bind_ret in E as (i & Ei & E).
  apply shape_tpm in Et. apply shape_isolation in Ei.
  assert (Hstep : forall v x k v', shape 5 v -> shape 4 x -> build_object v [(k, x)] = Ret v' -> shape 5 v').
  { intros v' x k v'' Hv Hx. apply (shape_build 4); [done|done|].
    apply Forall_cons. by split; [|apply Forall_nil_2]. }
  apply Hstep in E2; [|by apply (shape_mono 2)|by apply (shape_mono 2)].
  apply Hstep in E3; [|done..]. by apply Hstep in E.
Qed.
End Shapes.

(** ** Reading what was read back *)

Lemma lookup_back k l :
  obj_lookup k (map (fun '(k, x) => (k, read_back x)) l)
  = match obj_lookup k l with Some x => Some (read_back x) | None => None end.
Proof. induction l as [|[k1 x1] l IH]; [done|]. cbn. by case_decide. Qed.
Lemma container_number z : container (number z) = false.
Proof. unfold number. by repeat case_match. Qed.
Lemma path_back v p x : path v p = Ret x -> path (read_back v) p = Ret (read_back x).
Proof.
  revert v. induction p as [|k p IH]; intros v; [by intros [= ->]|]. cbn [path].
  intros (f & Ef & E)%outcome_bind_ret. destruct f as [y|]; [|done].
  destruct v; try done. cbn in Ef. injection Ef as Ef. cbn [read_back find].
  cbn [mbind outcome_bind]. rewrite lookup_back, Ef. by apply IH.
Qed.
Lemma asString_back x s : asString x = Ret s -> asString (read_back x) = Ret s.
Proof. destruct x; try done; cbn; unfold number; by repeat case_match. Qed.

Section Received.
Context `{Bb : BoostBase64, !BoostBase64Laws, Bs : BoostString, !BoostStringLaws, Jt : JsonText, !JsonTextLaws}.

Lemma decodes_back v p l : decodes v p l -> decodes (read_back v) p l.
Proof.
  intros Hd Hf. specialize (Hd Hf). unfold binary in *.
  apply outcome_bind_ret in Hd as (x & Ex & Hd). apply outcome_bind_ret in Hd as (s & Es & Hd).
  rewrite (path_back _ _ _ Ex). cbn [mbind outcome_bind]. by rewrite (asString_back _ _ Es).
Qed.

(** The parts of the evidence in a value: as [os_decodes], [tpm_decodes] and [isolation_decodes] say,
    with the numbers as the parser gives them *)
Definition os_received (v : Value) (os : OsInfo) : Prop :=
  decodes v [str "OSType"] (Evidence.getOSTypeStr (os_type os)) /\
  decodes v [str "OSDistro"] (distro_name os) /\ decodes v [str "OSBuild"] (build os) /\
  path v [str "OSVersionMajor"] = Ret (number (distro_version_major os)) /\
  path v [str "OSVersionMinor"] = Ret (number (distro_version_minor os)).
Definition pcr_received (p : PcrValue) (v : Value) : Prop :=
  path v [str "Index"] = Ret (number (index p)) /\ decodes v [str "Digest"] (digest p).
Definition tpm_received (v : Value) (t : TpmInfo) : Prop :=
  decodes v [str "AikCert"] (aik_cert_ t) /\ decodes v [str "AikPub"] (aik_pub_ t) /\
  decodes v [str "PcrQuote"] (quote (pcr_quote_ t)) /\
  decodes v [str "PcrSignature"] (quote_signature (pcr_quote_ t)) /\
  decodes v [str "EncKeyPub"] (encryptionKey (encryption_key_ t)) /\
  decodes v [str "EncKeyCertifyInfo"] (certifyInfo (encryption_key_ t)) /\
  decodes v [str "EncKeyCertifyInfoSignature"] (certifyInfoSignature (encryption_key_ t)) /\
  exists vs, path v [str "PCRs"] = Ret (arrayValue vs) /\ Forall2 pcr_received (pcrs (pcr_values_ t)) vs.

Lemma os_back v os : os_decodes v os -> os_received (read_back v) os.
Proof.
  intros (Ht & Hd & Hb & Hmaj & Hmin). apply path_back in Hmaj, Hmin.
  split_and!; by (apply decodes_back || done).
Qed.
Lemma tpm_back v t : tpm_decodes v t -> tpm_received (read_back v) t.
Proof.
  intros (C1 & C2 & C3 & C4 & C5 & C6 & C7 & vs & Hpath & Hvs).
  split_and!; try by apply decodes_back. exists (map read_back vs). split; [by apply path_back in Hpath|].
  clear Hpath. induction Hvs as [|p x ps xs [Hi Hd] _ IH]; constructor; [|done].
  split; [by apply path_back in Hi|by apply decodes_back].
Qed.
Lemma isolation_back v i : isolation_decodes v i -> isolation_decodes (read_back v) i.
Proof.
  unfold isolation_decodes. destruct (isolation_type_ i); [by intros Hty%path_back|].
  intros (Hty & Hrd & proof & e & Hpr & He). apply path_back in Hty. split_and!; [done|by apply decodes_back|].
  exists proof, e. split; [by apply decodes_back|done].
Qed.

(** C26: The service receives the evidence: of the text [CreatePayload] answers, for every order the
    client payload is walked in, a parser that reads what the writer prints finds AttestationInfo, whose
    base64url text it reads as an object from which every part of the parameters is decoded: the OS,
    the TCG log, the client payload, the TPM evidence with its PCRs in order and the isolation evidence.
    The evidence has to fit: strings below 2 GiB, names below 1 GiB, numbers in the range of their type. *)
Theorem evidence_received order p :
  order (client_payload_ p) ≡ₚ map_to_list (client_payload_ p) ->
  (forall k x, client_payload_ p !! k = Some x -> c_str k = k) ->
  (forall info, Evidence.ToJson order p = Ret info -> well_formed info = true /\
     size (AttestBase64.binary_to_base64url (writeString info)) <= maxInt - 5) ->
  exists payload envelope e text info,
    Evidence.CreatePayload order p = Ret payload /\ reader_parse payload = Ret (Some envelope) /\
    path envelope [str "AttestationInfo"] = Ret (stringValue e) /\
    AttestBase64.base64url_to_binary e = Ret text /\ reader_parse text = Ret (Some info) /\
    path info [str "AttestationProtocolVersion"] = Ret (stringValue (attestation_protocol_ver_ p)) /\
    os_received info (os_info_ p) /\ decodes info [str "TcgLogs"] (tcg_logs_ p) /\
    (forall k x, client_payload_ p !! k = Some x -> decodes info [str "ClientPayload"; k] x) /\
    (exists t, path info [str "TpmInfo"] = Ret t /\ tpm_received t (tpm_info_ p)) /\
    (exists i, path info [str "IsolationInfo"] = Ret i /\ isolation_decodes i (isolation_info_ p)).
Proof.
  intros Hord Hkeys Hfit.
  destruct (evidence_decodes order p Hord Hkeys)
    as (info & root & e & Ei & Ep & _ & _ & Hver & Hos & Hlog & Hpay & (t & Et & Ht) & (i & Eiso & Hiso)).
  destruct (Hfit info Ei) as [Hwf Hsize]. pose proof (shape_evidence order p info Ei) as [Hr Hh].
  assert (Hlim : 5 <= stackLimit_g) by done.
  unfold Evidence.CreatePayload in *. rewrite Ei in *. cbn [mbind outcome_bind build_object assign] in *.
  set (s := AttestBase64.binary_to_base64url (writeString info)) in *.
  exists (writeString (objectValue [(str "AttestationInfo", stringValue s)])),
    (objectValue [(str "AttestationInfo", stringValue s)]), s, (writeString info), (read_back info).
  split_and!.
  - done.
  - apply reads_written; [|done|done]. cbn [well_formed keys_sorted forallb]. rewrite !andb_true_r, !andb_true_iff. split; [done|]. split; [done|by apply Z.leb_le].
  - done.
  - apply base64url_inverse.
  - apply reads_written; [done|done|lia].
  - by apply path_back in Hver.
  - by apply os_back.
  - by apply decodes_back.
  - intros k x Hk. by apply decodes_back, Hpay.
  - exists (read_back t). split; [by apply path_back|by apply tpm_back].
  - exists (read_back i). split; [by apply path_back|by apply isolation_back].
Qed.
End Received.

(** *** Witness *)

Theorem evidence_received_witness :
  exists payload info, Evidence.CreatePayload map_to_list demo_parameters = Ret payload /\
    binary info [str "ClientPayload"; str "nonce"] = Ret (str "42") /\
    exists t, path info [str "TpmInfo"] = Ret t /\ binary t [str "AikCert"] = Ret [xca].
Proof.
  destruct (evidence_received map_to_list demo_parameters)
    as (payload & _ & _ & _ & info & Ep & _ & _ & _ & _ & _ & _ & _ & Hp & (t & Et & Hd & _) & _).
  - reflexivity.
  - intros k x Hk. cbn [client_payload_ demo_parameters] in Hk. apply lookup_singleton_Some in Hk as [<- _].
    vm_compute. reflexivity.
  - intros info Hi. vm_compute in Hi. injection Hi as <-. split; [vm_compute; reflexivity|].
    apply Z.leb_le. vm_compute. reflexivity.
  - exists payload, info. split; [exact Ep|]. split.
    + apply (Hp (str "nonce") (str "42")); [|by vm_compute]. apply lookup_singleton_Some. by split.
    + exists t. split; [exact Et|]. apply Hd. by vm_compute.
Defined.
