(* ===== verification/TokenDecrypt.v ===== *)
(** * Decrypting the attestation token

    TpmUnseal.cpp and NativeConverter.cpp of the client library, and
    [AttestationClientImpl::DecryptMaaToken]: the service's answer is base64url text of a
    JSON object with an inner key, encrypted for the TPM's ephemeral key, and the token,
    encrypted with AES-GCM under the inner key. *)

From S2P Require Import Prelude Base64 Json Ossl Esys GuestTpm JsonCpp JsonText Http ClientUtils Evidence.
#[local] Open Scope Z_scope.

Inductive BlockCipherMode := CHAINING_MODE_GCM | InvalidMode.
Inductive CipherAlgorithm := AES | InvalidCipher.
Inductive BlockCipherPadding := PKCS7 | InvalidPadding.
Record EncryptionParameters := {
  block_mode : BlockCipherMode; block_padding : BlockCipherPadding; cipher_alg : CipherAlgorithm;
  key_size : Z; iv : bytes; authentication_data : bytes }.

Module TokenDecrypt.

(** *** NativeConverter.cpp: the value and whether the text is known *)

Definition toNative_mode (s : bytes) : BlockCipherMode * bool :=
  if decide (s = str "ChainingModeGCM") then (CHAINING_MODE_GCM, true) else (InvalidMode, false).
Definition toNative_padding (s : bytes) : BlockCipherPadding * bool :=
  if decide (s = str "PKCS7") then (PKCS7, true) else (InvalidPadding, false).
Definition toNative_cipher (s : bytes) : CipherAlgorithm * bool :=
  if decide (s = str "AES") then (AES, true) else (InvalidCipher, false).

(** *** The members of the answer: an error text, or the value *)
Section Members.
Context `{BoostBase64, BoostString, JsonText}.

(** A non-empty string member, or the error. *)
Definition need {A} (s : bytes) (e : string) (k : outcome (bytes + A)) : outcome (bytes + A) :=
  match s with [] => Ret (inl (str e)) | _ => k end.

Definition GetEncryptionParameters (json_obj : Value) : outcome (bytes + EncryptionParameters) :=
  encryption_params_obj ← get json_obj (str "EncryptionParams") nullValue;
  if isNull encryption_params_obj
  then Ret (inl (str "Failed to get encryption parameters from response."))
  else
  block_mode_str ← get_string encryption_params_obj "BlockMode";
  need block_mode_str "Failed to get block mode from encryption parameters" (
  let '(mode, known) := toNative_mode block_mode_str in
  if negb known then Ret (inl (str "Unsupported block mode:" ++ block_mode_str)) else
  block_padding_str ← get_string encryption_params_obj "BlockPadding";
  need block_padding_str "Failed to get block padding from encryption parameters" (
  let '(padding, known) := toNative_padding block_padding_str in
  if negb known then Ret (inl (str "Unsupported block padding:" ++ block_padding_str)) else
  cipher_str ← get_string encryption_params_obj "Cipher";
  need cipher_str "Failed to get cipher algorithm from encryption parameters" (
  let '(cipher, known) := toNative_cipher cipher_str in
  if negb known then Ret (inl (str "Unsupported cipher algorithm:" ++ cipher_str)) else
  key_bits_value ← get encryption_params_obj (str "KeySizeInBits") (intValue 0);
  key_bits ← asInt key_bits_value;
  if u64 key_bits =? 0
  then Ret (inl (str "Failed to get key bits from encryption parameters")) else
  iv_str ← get_string encryption_params_obj "Iv";
  need iv_str "Failed to get iv from encryption parameters" (
  authentication_data_str ← get_string json_obj "AuthenticationData";
  need authentication_data_str "Failed to get authentication data response" (
  iv ← AttestBase64.base64_to_binary iv_str;
  authentication_data ← AttestBase64.base64_to_binary authentication_data_str;
  Ret (inr {| block_mode := mode; block_padding := padding; cipher_alg := cipher;
              key_size := u64 key_bits; iv := iv;
              authentication_data := authentication_data |})))))).

Definition GetEncryptedJwt (json_obj : Value) : outcome (bytes + bytes) :=
  jwt_encrypted_str ← get_string json_obj "Jwt";
  need jwt_encrypted_str "Failed to get jwt from response." (
  jwt_encrypted ← AttestBase64.base64_to_binary jwt_encrypted_str;
  Ret (inr jwt_encrypted)).

Definition GetEncryptedInnerKey (json_obj : Value) : outcome (bytes + bytes) :=
  encrypted_inner_key_str ← get_string json_obj "EncryptedInnerKey";
  need encrypted_inner_key_str "Failed to get encrypted inner key from response." (
  encrypted_inner_key ← AttestBase64.base64_to_binary encrypted_inner_key_str;
  Ret (inr encrypted_inner_key)).
End Members.

(** *** The inner key *)

(** The result of the three catch clauses around TPM operations. *)
Definition tpm_failure (c : ErrorCode) (unknown : string) (e : exn) : AttestationResult :=
  match e with
  | Tss2Exception w rc => {| code_ := c; tpm_error_code_ := u32 rc; description_ := w |}
  | UnknownThrown => err ERROR_TPM_INTERNAL_FAILURE unknown
  | e => mk_result ERROR_TPM_INTERNAL_FAILURE (what e)
  end.

Section Ops.
Context {F : Type -> Type} {S : Type} `{Handler F S} `{EsysCall -< F} `{OsslCall -< F}
        `{FileCall -< F} `{EvpCall -< F} `{Fuel}.
Context `{BoostBase64, BoostString, JsonText}.

(** [Tpm tpm;] and the two calls of [DecryptInnerKey] and [AttestationClientImpl::Decrypt]. *)
Definition decrypt_with_tpm (encrypted : bytes) (rsaWrapAlgId rsaHashAlgId : Z) : M F S bytes :=
  GuestTpm.with_Tss2Ctx (
    pcrValues ← GuestTpm.GetPCRValues GetAttestationPcrList attestation_hash_alg;
    GuestTpm.DecryptWithEphemeralKey pcrValues encrypted rsaWrapAlgId rsaHashAlgId).

Definition DecryptInnerKey (encrypted_inner_key : bytes) (rsaWrapAlgId rsaHashAlgId : Z)
  : M F S (AttestationResult * bytes) :=
  try_all
    (decrypted_key ← decrypt_with_tpm encrypted_inner_key rsaWrapAlgId rsaHashAlgId;
     mret (ok, decrypted_key))
    (fun e => mret (tpm_failure ERROR_JWT_DECRYPTION_TPM_ERROR "Error: Unknown internal error" e, [])).

(** *** The token *)

Definition GetOpenSslAesGcmAlg (keyLen : Z) : option Z :=
  if keyLen =? 16 then Some 128 else if keyLen =? 24 then Some 192
  else if keyLen =? 32 then Some 256 else None.

Definition ossl_failed : M F S (bytes + bytes) :=
  c ← trig ERR_get_error;
  e ← trig (ERR_error_string c);
  mret (inl (str "Openssl Error:" ++ e)).
(** [if (!call) ...], and OpenSSL writing to the start of a buffer *)
Definition unless_zero (rc : Z) (k : M F S (bytes + bytes)) : M F S (bytes + bytes) :=
  if rc =? 0 then ossl_failed else k.
Definition overwrite (buffer out : bytes) : M F S bytes :=
  if size buffer <? size out then fault_with UndefinedBehaviour
  else mret (out ++ drop (length out) buffer).

Definition auth_data : bytes := str "Transport Key".

Definition DecryptJwt (p : EncryptionParameters) (decryption_key jwt_encrypted : bytes)
  : M F S (bytes + bytes) :=
  match block_mode p, block_padding p, cipher_alg p with
  | InvalidMode, _, _ => mret (inl (str "Error: Unsupported block mode"))
  | _, InvalidPadding, _ => mret (inl (str "Error: Unsupported block padding"))
  | _, _, InvalidCipher => mret (inl (str "Error: Unsupported decryption algorithm"))
  | CHAINING_MODE_GCM, PKCS7, AES =>
      ctx ← trig EVP_CIPHER_CTX_new;
      if is_null ctx then mret (inl (str "Openssl Error: Failed to initialize evp cipher"))
      else
        match GetOpenSslAesGcmAlg (size decryption_key) with
        | None => mret (inl (str "Openssl Error: Failed to get decryption algorithm"))
        | Some bits =>
            rc ← trig (EVP_DecryptInit_aes_gcm ctx bits);
            unless_zero rc (
            rc ← trig (EVP_CTRL_GCM_SET_IVLEN ctx (s32 (size (iv p))));
            unless_zero rc (
            rc ← trig (EVP_DecryptInit_key ctx decryption_key (iv p));
            unless_zero rc (
            rc ← trig (EVP_DecryptUpdate_aad ctx auth_data);
            unless_zero rc (
            '(rc, out) ← trig (EVP_DecryptUpdate ctx jwt_encrypted);
            plain_text ← overwrite (replicate (length jwt_encrypted) x00) out;
            unless_zero rc (
            rc ← trig (EVP_CTRL_GCM_SET_TAG ctx (authentication_data p));
            unless_zero rc (
            '(ret, out) ← trig (EVP_DecryptFinal_ex ctx);
            plain_text ← overwrite plain_text out;
            if ret <=? 0 then ossl_failed
            else _ ← trig (EVP_CIPHER_CTX_free ctx); mret (inr plain_text)))))))
        end
  end.

(** *** AttestationClientImpl::DecryptMaaToken *)

Definition jwt_failed (d : bytes) : AttestationResult * bytes :=
  (mk_result ERROR_JWT_DECRYPTION_FAILED d, []).

(** [k] is given the value of a member, or its error is the result. *)
Definition or_jwt_failed {A} (x : bytes + A) (k : A -> M F S (AttestationResult * bytes))
  : M F S (AttestationResult * bytes) :=
  match x with inl e => mret (jwt_failed e) | inr a => k a end.

Definition DecryptMaaToken (jwt_token_encrypted : bytes) : M F S (AttestationResult * bytes) :=
  noexcept_m (
    match jwt_token_encrypted with
    | [] => mret (jwt_failed (str "Invalid JWT"))
    | jwt =>
        decoded ← lift (AttestBase64.base64url_to_binary jwt);
        response ← lift (reader_parse (c_str decoded));
        match response with
        | None => mret (jwt_failed (str "Failed to parse AAS response"))
        | Some response =>
            inner ← lift (GetEncryptedInnerKey response);
            or_jwt_failed inner (fun encrypted_inner_key =>
            params ← lift (GetEncryptionParameters response);
            or_jwt_failed params (fun encryption_params =>
            '(result, decrypted_key) ← DecryptInnerKey encrypted_inner_key
                                         GuestTpm.RsaEs GuestTpm.RsaSha256;
            if negb (bool_decide (code_ result = SUCCESS)) then mret (result, [])
            else
              jwt ← lift (GetEncryptedJwt response);
              or_jwt_failed jwt (fun jwt_encrypted =>
              r ← DecryptJwt encryption_params decrypted_key jwt_encrypted;
              or_jwt_failed r (fun jwt_token_decrypted => mret (result, jwt_token_decrypted)))))
        end
    end).
End Ops.
End TokenDecrypt.

(** ** Facts *)

Section Facts.
Context {F : Type -> Type} {S : Type} `{Handler F S} `{EsysCall -< F} `{OsslCall -< F}
        `{FileCall -< F} `{EvpCall -< F} `{Fuel}.
Context `{Bb : BoostBase64, Bs : BoostString, Jt : JsonText}.
Import TokenDecrypt.

(** The TPM has answered [decrypted] for [encrypted], under some key and session. *)
Definition tpm_decrypted (encrypted : bytes) (s : rsa_scheme) (decrypted : bytes)
    (t : list (event F)) : Prop :=
  exists key session, Ev (inj (Esys_RSA_Decrypt key session encrypted s)) (TSS2_RC_SUCCESS, decrypted) ∈ t.
Lemma grows_tpm_decrypted c s : grows (tpm_decrypted c s).
Proof. intros a t1 t t2 (k & h & Hin). exists k, h. eauto with trace. Qed.

Lemma ends_DecryptWithEphemeralKey {L} `{Handler F L} p c w a :
  ends (S := L) (tpm_decrypted c {| scheme := w; oaep_hashAlg := a |})
    (GuestTpm.DecryptWithEphemeralKey p c w a).
Proof.
  assert (Hg := grows_tpm_decrypted c {| scheme := w; oaep_hashAlg := a |}).
  unfold GuestTpm.DecryptWithEphemeralKey. apply ends_after; [done|]. intros [primaryHandle ?].
  apply ends_scoped; [done|]. do 3 (apply ends_after; [done|]; intros ?).
  eapply ends_before; [done|apply ends_trig|].
  { intros r. instantiate (1 := fun r t => exists key session,
      t = [Ev (inj (Esys_RSA_Decrypt key session c {| scheme := w; oaep_hashAlg := a |})) r]). by do 2 eexists. }
  intros [ret decrypted] t0 (key & session & ->).
  apply (yields_bind_strong (fun _ => ret = TSS2_RC_SUCCESS)).
  { destruct (ret =? TSS2_RC_SUCCESS) eqn:E; [apply yields_ret; lia|]. yields_go. }
  intros _ ->. apply yields_bind. intros _. apply yields_ret. exists key, session. apply elem_single.
Qed.
Lemma ends_decrypt_with_tpm c w a :
  ends (tpm_decrypted c {| scheme := w; oaep_hashAlg := a |}) (decrypt_with_tpm (S := S) c w a).
Proof.
  assert (Hg := grows_tpm_decrypted c {| scheme := w; oaep_hashAlg := a |}).
  unfold decrypt_with_tpm, GuestTpm.with_Tss2Ctx.
  do 3 (apply ends_after; [done|]; intros ?). apply ends_finally; [done|].
  apply ends_after; [done|]. intros pcrs. apply ends_DecryptWithEphemeralKey.
Qed.
Lemma ends_DecryptInnerKey c w a :
  ends (fun r t => code_ (fst r) = SUCCESS ->
          tpm_decrypted c {| scheme := w; oaep_hashAlg := a |} (snd r) t)
    (DecryptInnerKey (S := S) c w a).
Proof.
  unfold DecryptInnerKey. apply ends_try_all.
  - intros r t1 t t2 Hr Hc. by apply grows_tpm_decrypted, Hr.
  - eapply ends_before.
    + intros r t1 t t2 Hr Hc. by apply grows_tpm_decrypted, Hr.
    + apply ends_decrypt_with_tpm.
    + intros k t Hk. by apply yields_ret.
  - intros e. apply ends_ret. destruct e; simpl; discriminate.
Qed.

(** What AES-GCM has done in the calls [t] when it accepted [cipher]: every step
    succeeded, and so did the comparison of the tag. *)
Definition gcm_opened (p : EncryptionParameters) (key cipher plain : bytes) (t : list (event F)) : Prop :=
  exists ctx bits out out2 r1 r2 r3 r4 r5 r6 ret,
    GetOpenSslAesGcmAlg (size key) = Some bits /\
    t = [Ev (inj EVP_CIPHER_CTX_new) ctx; Ev (inj (EVP_DecryptInit_aes_gcm ctx bits)) r1;
         Ev (inj (EVP_CTRL_GCM_SET_IVLEN ctx (s32 (size (iv p))))) r2;
         Ev (inj (EVP_DecryptInit_key ctx key (iv p))) r3;
         Ev (inj (EVP_DecryptUpdate_aad ctx auth_data)) r4;
         Ev (inj (EVP_DecryptUpdate ctx cipher)) (r5, out);
         Ev (inj (EVP_CTRL_GCM_SET_TAG ctx (authentication_data p))) r6;
         Ev (inj (EVP_DecryptFinal_ex ctx)) (ret, out2);
         Ev (inj (EVP_CIPHER_CTX_free ctx)) tt] /\
    r1 <> 0 /\ r2 <> 0 /\ r3 <> 0 /\ r4 <> 0 /\ r5 <> 0 /\ r6 <> 0 /\ 0 < ret /\
    plain = out2 ++ drop (length out2) (out ++ drop (length out) (replicate (length cipher) x00)).

Lemma wp_ossl_failed (Q : post_cond F S (bytes + bytes)) s :
  (forall e s' t, Q (Ret (inl e)) s' t) -> wp ossl_failed s Q.
Proof. intros HQ. unfold ossl_failed. wp_go. apply HQ. Qed.

Lemma wp_unless_zero rc (k : M F S (bytes + bytes)) (Q : post_cond F S (bytes + bytes)) s :
  (forall e s' t, Q (Ret (inl e)) s' t) -> (rc <> 0 -> wp k s Q) -> wp (unless_zero rc k) s Q.
Proof.
  intros HQ Hk. unfold unless_zero. destruct (rc =? 0) eqn:E; [by apply wp_ossl_failed|]. apply Hk. lia.
Qed.
Lemma wp_overwrite b o s (Q : post_cond F S bytes) :
  Q (Ret (o ++ drop (length o) b)) s [] -> Q (Fault UndefinedBehaviour) s [] -> wp (overwrite b o) s Q.
Proof. intros Ho1 Ho2. unfold overwrite. by destruct (_ <? _). Qed.

Lemma wp_DecryptJwt p key cipher s :
  wp (DecryptJwt (S := S) p key cipher) s (fun o _ t =>
    match o with Ret (inr plain) => gcm_opened p key cipher plain t | Throw _ => False | _ => True end).
Proof.
  unfold DecryptJwt. destruct (block_mode p), (block_padding p), (cipher_alg p); try by apply wp_ret.
  apply wp_bind, wp_trig. intros ctx s0 _. cbn beta iota.
  destruct (is_null ctx); [by apply wp_ret|].
  destruct (GetOpenSslAesGcmAlg (size key)) as [bits|] eqn:Eb; [|by apply wp_ret].
  do 4 (apply wp_bind, wp_trig; intros ? ? _; cbn beta iota; apply wp_unless_zero; [done|intros ?]).
  apply wp_bind, wp_trig. intros [r5 out] ? _. cbn beta iota. apply wp_bind, wp_overwrite; [|done].
  apply wp_unless_zero; [done|intros ?]. apply wp_bind, wp_trig. intros r6 ? _. cbn beta iota.
  apply wp_unless_zero; [done|intros ?]. apply wp_bind, wp_trig. intros [ret out2] ? _. cbn beta iota.
  apply wp_bind, wp_overwrite; [|done]. destruct (ret <=? 0) eqn:Er; [by apply wp_ossl_failed|].
  apply wp_bind, wp_trig. intros [] ? _. apply wp_ret. cbn [app].
  do 11 eexists. split; [done|]. split; [done|]. split_and!; try done. lia.
Qed.
Lemma ends_DecryptJwt p key cipher :
  ends (fun r t => forall plain, r = inr plain -> gcm_opened p key cipher plain t)
    (DecryptJwt (S := S) p key cipher).
Proof.
  intros s a Ha plain ->. assert (Hw := wp_DecryptJwt p key cipher s). unfold wp in Hw. by rewrite Ha in Hw.
Qed.

(** The parts of the service's token. *)
Definition envelope (jwt inner : bytes) (p : EncryptionParameters) (cipher : bytes) : Prop :=
  exists decoded response, AttestBase64.base64url_to_binary jwt = Ret decoded /\
    reader_parse (c_str decoded) = Ret (Some response) /\
    GetEncryptedInnerKey response = Ret (inr inner) /\
    GetEncryptionParameters response = Ret (inr p) /\ GetEncryptedJwt response = Ret (inr cipher).
Definition maa_opened (jwt token : bytes) (t : list (event F)) : Prop :=
  exists inner p cipher key t1 t2 t3,
    envelope jwt inner p cipher /\ t = t1 ++ t2 ++ t3 /\
    tpm_decrypted inner {| scheme := GuestTpm.RsaEs; oaep_hashAlg := GuestTpm.RsaSha256 |} key t1 /\
    gcm_opened p key cipher token t2.
Lemma maa_opened_grows jwt token t0 t t4 : maa_opened jwt token t -> maa_opened jwt token (t0 ++ t ++ t4).
Proof.
  intros (inner & p & cipher & key & t1 & t2 & t3 & He & -> & Ht & Hg).
  exists inner, p, cipher, key, (t0 ++ t1), t2, (t3 ++ t4). rewrite <- !app_assoc. split_and!; try done.
  rewrite <- (app_nil_r t1). by apply grows_tpm_decrypted.
Qed.

Lemma ends_DecryptMaaToken jwt :
  ends (fun r t => code_ (fst r) = SUCCESS -> maa_opened jwt (snd r) t) (DecryptMaaToken (S := S) jwt).
Proof.
  unfold DecryptMaaToken. apply ends_noexcept. destruct jwt as [|c jwt]; [by apply ends_ret|].
  set (j := c :: jwt).
  assert (Hf : forall e t1, ends (fun r t => code_ (fst r) = SUCCESS -> maa_opened j (snd r) (t1 ++ t))
                        (mret (M := M F S) (jwt_failed e))) by (intros; by apply ends_ret).
  eapply ends_bind. { apply ends_lift. intros d Hd. instantiate (1 := fun d t => AttestBase64.base64url_to_binary j = Ret d /\ t = []). done. }
  intros decoded t0 [Hd ->]. cbn beta. eapply ends_bind.
  { apply ends_lift. intros v Hv. instantiate (1 := fun v t => reader_parse (c_str decoded) = Ret v /\ t = []). done. }
  intros [response|] t1 [Hr ->]; [|apply (Hf _ [])]. cbn beta iota. eapply ends_bind.
  { apply ends_lift. intros v Hv. instantiate (1 := fun v t => GetEncryptedInnerKey response = Ret v /\ t = []). done. }
  intros [e|inner] t1 [Hi ->]; [apply (Hf _ [])|]. cbn beta iota delta [or_jwt_failed]. eapply ends_bind.
  { apply ends_lift. intros v Hv. instantiate (1 := fun v t => GetEncryptionParameters response = Ret v /\ t = []). done. }
  intros [e|p] t1 [Hp ->]; [apply (Hf _ [])|]. cbn beta iota. eapply ends_bind; [apply ends_DecryptInnerKey|].
  intros [result key] t1 Hk. cbn [fst snd] in Hk. cbn beta iota.
  destruct (bool_decide (code_ result = SUCCESS)) eqn:Ec; cbn [negb].
  2: { apply ends_ret. intros Hc. apply bool_decide_eq_false in Ec. done. }
  apply bool_decide_eq_true in Ec. specialize (Hk Ec). eapply ends_bind.
  { apply ends_lift. intros v Hv. instantiate (1 := fun v t => GetEncryptedJwt response = Ret v /\ t = []). done. }
  intros [e|cipher] t2 [Hj ->]; [by apply ends_ret|]. cbn beta iota. eapply ends_bind; [apply ends_DecryptJwt|].
  intros [e|token] t2 Ht; [by apply ends_ret|]. apply ends_ret. intros _. cbn [fst snd app].
  exists inner, p, cipher, key, t1, t2, []. rewrite !app_nil_r. split_and!; [|done|done|by apply Ht].
  exists decoded, response. split_and!; done.
Qed.

(** C12: A token is handed out only when the service's answer was opened: its inner key was
    decrypted by the TPM for the current PCRs, the token's tag was set from the answer and
    found right by AES-GCM under that key, and the token is what was decrypted. *)
Theorem token_opened jwt s r token :
  res (DecryptMaaToken (S := S) jwt s) = Ret (r, token) -> code_ r = SUCCESS ->
  maa_opened jwt token (evs (DecryptMaaToken (S := S) jwt s)).
Proof. intros Hr Hc. exact (ends_DecryptMaaToken jwt s (r, token) Hr Hc). Qed.

(** A malformed answer ends the process: when the text decodes to JSON that is neither
    an object nor null, or is not base64url, an exception reaches the [noexcept] boundary
    of [DecryptMaaToken]. *)
Theorem malformed_token_terminates jwt decoded v s :
  jwt <> [] -> AttestBase64.base64url_to_binary jwt = Ret decoded ->
  reader_parse (c_str decoded) = Ret (Some v) -> container v = false ->
  DecryptMaaToken (S := S) jwt s = Res (Fault StdTerminate) s [] /\
  (forall text x, text <> [] -> AttestBase64.base64url_to_binary text = Throw x ->
     DecryptMaaToken (S := S) text s = Res (Fault StdTerminate) s []).
Proof.
  intros Hj Hd Hp Hc. split.
  - unfold DecryptMaaToken, noexcept_m. destruct jwt as [|c jwt]; [done|]. rewrite Hd.
    rewrite (bind_pure (lift (Ret decoded)) _ s decoded eq_refl), Hp.
    rewrite (bind_pure (lift (Ret (Some v))) _ s (Some v) eq_refl).
    unfold GetEncryptedInnerKey, get_string, get. by destruct v.
  - intros [|c text] x Ht Hx; [done|]. unfold DecryptMaaToken, noexcept_m. by rewrite Hx.
Qed.
End Facts.
