(* ===== verification/AkCert.v ===== *)
(** * Renewing the attestation key's certificate

    TpmCertOperations.cpp of the client library: reading the certificate from the TPM as
    PEM, deciding whether it is provisioned and about to expire, and replacing it by the
    one the host's service issues. The X.509 calls are [CertCall], the random UUIDs of
    request ids [UuidCall]. Telemetry is left out. *)

From S2P Require Import Prelude Base64 Json Ossl Esys GuestTpm JsonCpp JsonText Http ClientUtils Evidence TokenDecrypt.
#[local] Open Scope Z_scope.

Inductive CertCall : Type -> Type :=
(* [BIO_new], [BIO_write] and [PEM_read_bio_X509] *)
| PEM_read_X509 (pem : bytes) : CertCall ptr
| issuer_oneline (cert : ptr) : CertCall (option bytes)
| subject_oneline (cert : ptr) : CertCall (option bytes)
| X509_digest (cert : ptr) : CertCall (Z * bytes)
(* [ASN1_TIME_diff] from the end of the certificate's validity to now, in days *)
| ASN1_TIME_diff_notAfter (cert : ptr) : CertCall (option Z)
| X509_free (cert : ptr) : CertCall unit.
Inductive UuidCall : Type -> Type := Uuid : UuidCall bytes.

Module AkCert.
Definition AK_CERT_RENEWAL_THRESHOLD : Z := -90.
Definition QUERY_RENEWED_CERT_AFTER_SECONDS : Z := 60.
Definition CERTIFICATE_HEADER : bytes := str "-----BEGIN CERTIFICATE-----" ++ [x0a].
Definition CERTIFICATE_FOOTER : bytes := [x0a] ++ str "-----END CERTIFICATE-----".
Definition ak_renew_sync_api_version : bytes := str "2023-07-01".
Definition ak_renew_async_api_version : bytes := str "2021-12-01".
Definition Trusted_VM_CERT_ISSUER_NAME_PREFIX : bytes := str "/CN=MICROSOFT AZURE TRUSTED VM RSA".

(** [std::regex_replace] of a literal pattern by nothing: every occurrence, from the
    left; each round consumes a byte. *)
Fixpoint remove_all (n : nat) (pat l : bytes) : bytes :=
  match n with
  | O => l
  | Datatypes.S n' =>
      if is_prefix pat l then remove_all n' pat (drop (length pat) l)
      else match l with c :: l' => c :: remove_all n' pat l' | [] => [] end
  end.
Definition regex_remove (pat l : bytes) : bytes := remove_all (length l) pat l.

Definition RemoveCertHeaderAndFooter (pem_cert : bytes) : bytes :=
  match pem_cert with
  | [] => []
  | _ =>
      let cert := regex_remove [x0d] pem_cert in
      let cert := regex_remove CERTIFICATE_HEADER cert in
      let cert := regex_remove CERTIFICATE_FOOTER cert in
      regex_remove [x0a] cert
  end.

Section Ops.
Context {F : Type -> Type} {S : Type} `{Handler F S} `{EsysCall -< F} `{OsslCall -< F}
        `{FileCall -< F} `{CurlCall -< F} `{CertCall -< F} `{UuidCall -< F} `{Fuel}.
Context `{BoostBase64, BoostString, JsonText}.

Definition ParseAndGetAkCert (json_response : bytes) : outcome bytes :=
  json_obj ← reader_parse (c_str json_response);
  match json_obj with
  | None => Ret []
  | Some json_obj =>
      ak_cert ← get_string json_obj "AkCertPem";
      cert_query_id ← get_string json_obj "CertQueryId";
      Ret ak_cert
  end.

(** [catch (const Tss2Exception&)], then [catch (const std::exception&)] *)
Definition catch_tpm (m : M F S (AttestationResult * bytes)) : M F S (AttestationResult * bytes) :=
  try_catch m (fun e =>
    if is_std_exception e
    then Some (mret (TokenDecrypt.tpm_failure ERROR_TPM_OPERATION_FAILURE "" e, []))
    else None).

Definition ReadAkCertFromTpm : M F S (AttestationResult * bytes) :=
  catch_tpm (
    cert ← GuestTpm.with_Tss2Ctx GuestTpm.GetAIKCert;
    mret (ok, CERTIFICATE_HEADER ++ AttestBase64.binary_to_base64 cert ++ CERTIFICATE_FOOTER)).

Definition ReadAikPubFromTpm : M F S (AttestationResult * bytes) :=
  catch_tpm (
    aik_pub ← GuestTpm.with_Tss2Ctx GuestTpm.GetAIKPub;
    mret (ok, AttestBase64.binary_to_base64 aik_pub)).

(** [std::string(p)] of a C string that may be null *)
Definition string_of (p : option bytes) : M F S bytes :=
  match p with Some s => mret s | None => fault_with UndefinedBehaviour end.

Definition contains (s pat : bytes) : bool :=
  match find_str pat s with Some _ => true | None => false end.

(** The subject and the thumbprint only go to the telemetry. *)
Definition IsAkCertProvisioned (ak_cert_x509 : ptr) : M F S AttestationResult :=
  cert_issuer_name ← trig (issuer_oneline ak_cert_x509);
  s_cert_issuer_name ← string_of cert_issuer_name;
  cert_subject_name ← trig (subject_oneline ak_cert_x509);
  _ ← string_of cert_subject_name;
  _ ← trig (X509_digest ak_cert_x509);
  '(result, _) ← ReadAikPubFromTpm;
  mret (if contains s_cert_issuer_name Trusted_VM_CERT_ISSUER_NAME_PREFIX
        then {| code_ := ERROR_AK_CERT_PROVISIONING_FAILED;
                tpm_error_code_ := tpm_error_code_ result;
                description_ := str "AkCert provisioning failed" |}
        else result).

(** The result and the flag of the caller, set when the certificate has expired or
    will within 90 days. *)
Definition IsAkCertRenewalRequired : M F S (AttestationResult * bool) :=
  try_catch (
    '(result, ak_cert) ← ReadAkCertFromTpm;
    if negb (bool_decide (code_ result = SUCCESS)) then mret (result, false)
    else
      ak_cert_x509 ← trig (PEM_read_X509 (c_str ak_cert));
      if is_null ak_cert_x509
      then mret (err ERROR_AK_CERT_PARSING "Failed to pass Ak cert in memory", false)
      else
        result ← IsAkCertProvisioned ak_cert_x509;
        if negb (bool_decide (code_ result = SUCCESS)) then mret (result, false)
        else
          diff ← trig (ASN1_TIME_diff_notAfter ak_cert_x509);
          match diff with
          | None => mret (err ERROR_AK_CERT_PARSING "Failed while checking Ak Cert validity", false)
          | Some diff_days =>
              _ ← trig (X509_free ak_cert_x509);
              mret (result, AK_CERT_RENEWAL_THRESHOLD <=? diff_days)
          end)
    (fun e => if is_std_exception e
              then Some (mret (mk_result ERROR_AK_CERT_RENEW (what e), false)) else None).

(** The renewed certificate as PEM, or the failure: the synchronous interface, and
    when it answers nothing the asynchronous one, queried after a minute. *)
Definition renew_cert (ak_cert vm_id request_id : bytes) : M F S (AttestationResult * bytes) :=
  response ← Http.RenewAkCert ak_cert vm_id request_id ak_renew_sync_api_version;
  match response with
  | [] =>
      request_id ← trig Uuid;
      cert_query_guid ← Http.RenewAkCert ak_cert vm_id request_id ak_renew_async_api_version;
      _ ← trig (sleep_for (QUERY_RENEWED_CERT_AFTER_SECONDS * 1000));
      request_id ← trig Uuid;
      renewed_cert ← Http.QueryAkCert cert_query_guid vm_id request_id;
      mret (match renewed_cert with
            | [] => (err ERROR_AK_CERT_RENEW "Failed to query Ak cert using async api", [])
            | _ => (ok, renewed_cert)
            end)
  | _ =>
      renewed_cert ← lift (ParseAndGetAkCert response);
      mret (match renewed_cert with
            | [] => (err ERROR_AK_CERT_RENEW "Failed to get AkCert Pem from response", [])
            | _ => (ok, renewed_cert)
            end)
  end.

Definition RenewAndReplaceAkCert : M F S AttestationResult :=
  try_catch (
    vm_id ← Http.GetVmId;
    match vm_id with
    | [] => mret (err ERROR_AK_CERT_RENEW "Failed to get VM id from IMDS")
    | _ =>
        GuestTpm.with_Tss2Ctx (
          request_id ← trig Uuid;
          '(result, ak_cert) ← ReadAkCertFromTpm;
          if negb (bool_decide (code_ result = SUCCESS)) then mret result
          else
            '(result, renewed_cert) ← renew_cert ak_cert vm_id request_id;
            if negb (bool_decide (code_ result = SUCCESS)) then mret result
            else
              cert_der ← lift (AttestBase64.base64_to_binary (RemoveCertHeaderAndFooter renewed_cert));
              _ ← GuestTpm.WriteAikCert cert_der;
              mret result)
    end)
    (fun e => if is_std_exception e
              then Some (mret (err ERROR_AK_CERT_RENEW "Unexpected erropr in RenewAndReplaceAkCert"))
              else None).
End Ops.
End AkCert.

(** ** Facts *)

Section Pem.
Context `{Bb : BoostBase64, !BoostBase64Laws, Bs : BoostString, !BoostStringLaws}.
Import AkCert.

Lemma remove_all_byte n c l : (length l <= n)%nat -> remove_all n [c] l = filter (fun x => x <> c) l.
Proof.
  revert l. induction n as [|n IH]; intros [|x l] Hl; simpl in *; try done; try lia.
  rewrite andb_true_r. destruct (decide (c = x)) as [<-|Hne].
  - rewrite bool_decide_eq_true_2, filter_cons_False by naive_solver. rewrite drop_0. apply IH. lia.
  - rewrite bool_decide_eq_false_2, filter_cons_True by naive_solver. f_equal. apply IH. lia.
Qed.
Lemma regex_remove_byte c l : regex_remove [c] l = filter (fun x => x <> c) l.
Proof. by apply remove_all_byte. Qed.

(** A prefix of the text at none of whose bytes the pattern starts is kept. *)
Fixpoint starts_in (pat body rest : bytes) : bool :=
  match body with
  | [] => false
  | _ :: body' => is_prefix pat (body ++ rest) || starts_in pat body' rest
  end.
Lemma remove_all_keep n pat body rest :
  starts_in pat body rest = false ->
  remove_all (length body + n) pat (body ++ rest) = body ++ remove_all n pat rest.
Proof.
  induction body as [|c body IH]; simpl; [done|]. intros [Hp Hs]%orb_false_iff. rewrite Hp. by rewrite IH.
Qed.
Definition no_dash (l : bytes) : Prop := Forall (fun c => c <> "-"%byte) l.
Lemma header_not_in_body body rest : no_dash body -> starts_in CERTIFICATE_HEADER body rest = false.
Proof.
  induction 1 as [|c body Hc _ IH]; [done|]. cbn [starts_in]. rewrite IH, orb_false_r.
  change CERTIFICATE_HEADER with ("-"%byte :: tail CERTIFICATE_HEADER). cbn [is_prefix app].
  by rewrite bool_decide_eq_false_2 by congruence.
Qed.
Lemma footer_not_in_body body rest :
  no_dash body -> head rest = Some x0a -> starts_in CERTIFICATE_FOOTER body rest = false.
Proof.
  intros Hb Hr. induction Hb as [|c body Hc Hb IH]; [done|]. cbn [starts_in]. rewrite IH, orb_false_r.
  change CERTIFICATE_FOOTER with (x0a :: "-"%byte :: tail (tail CERTIFICATE_FOOTER)). cbn [app is_prefix].
  destruct (body ++ rest) as [|d l] eqn:E; [by rewrite andb_false_r|].
  rewrite (bool_decide_eq_false_2 ("-"%byte = d)); [by rewrite andb_false_r|]. intros <-.
  destruct Hb as [|x body Hx Hb]; simpl in *; [by subst|by simplify_eq].
Qed.

Lemma is_prefix_app p l : is_prefix p (p ++ l) = true.
Proof. induction p as [|c p IH]; simpl; [done|]. by rewrite bool_decide_eq_true_2, IH. Qed.
Lemma remove_all_hit n pat l :
  pat <> [] -> (0 < n)%nat -> remove_all n pat (pat ++ l) = remove_all (n - 1) pat l.
Proof.
  intros Hp Hn. destruct n as [|n]; [lia|]. cbn [remove_all]. rewrite is_prefix_app, drop_app_length.
  f_equal. lia.
Qed.
Lemma remove_all_none n pat l : starts_in pat l [] = false -> remove_all n pat l = l.
Proof.
  revert l. induction n as [|n IH]; intros [|c l]; cbn [starts_in remove_all]; try done.
  - intros _. rewrite drop_nil. destruct (is_prefix pat []); [by apply IH|done].
  - intros [Hp Hs]%orb_false_iff. rewrite app_nil_r in Hp. rewrite Hp. f_equal. by apply IH.
Qed.
(** What follows the body: no header, no footer after the one, and no byte left. *)
Lemma pem_tail tl : tl ∈ [[]; [x0a]] ->
  starts_in CERTIFICATE_HEADER (CERTIFICATE_FOOTER ++ tl) [] = false /\
  starts_in CERTIFICATE_FOOTER tl [] = false /\ filter (fun c => c <> x0a) tl = [].
Proof. rewrite !elem_of_cons, elem_of_nil. intros [-> | [-> | []]]; vm_compute; auto. Qed.

(** Certificates survive PEM: whatever the line breaks (LF or CRLF) of the base64 text
    between header and footer, what [RenewAndReplaceAkCert] decodes is the certificate;
    in particular the text [ReadAkCertFromTpm] builds gives it back. *)
Theorem pem_round_trip pem body tail der :
  filter (fun c => c <> x0d) pem = CERTIFICATE_HEADER ++ body ++ CERTIFICATE_FOOTER ++ tail ->
  tail ∈ [[]; [x0a]] -> filter (fun c => c <> x0a) body = AttestBase64.binary_to_base64 der ->
  fits der ->
  AttestBase64.base64_to_binary (RemoveCertHeaderAndFooter pem) = Ret der.
Proof.
  intros Hp Ht Hb Hf. assert (Hnd : no_dash body).
  { assert (Hall : no_dash (filter (fun c => c <> x0a) body)).
    { rewrite Hb. unfold no_dash, AttestBase64.binary_to_base64. apply Forall_app. split.
      - eapply Forall_impl; [apply text_alphabet|]. by intros c Hc ->.
      - apply Forall_replicate. done. }
    unfold no_dash in *. rewrite Forall_forall in *. intros c Hc ->.
    apply (Hall "-"%byte); [|done]. by apply list_elem_of_filter. }
  assert (Hcons : forall A (u v : A), match pem with [] => u | _ => v end = v).
  { destruct pem; [|done]. intros. apply (f_equal (@length byte)) in Hp. by rewrite length_app in Hp. }
  unfold RemoveCertHeaderAndFooter. rewrite Hcons, !regex_remove_byte, Hp. unfold regex_remove.
  destruct (pem_tail tail Ht) as (Eh & Ef & Etl).
  rewrite remove_all_hit by (first [done|rewrite length_app; apply Nat.lt_lt_add_r; vm_compute; lia]).
  set (n := (length (CERTIFICATE_HEADER ++ body ++ CERTIFICATE_FOOTER ++ tail) - 1)%nat).
  assert (E1 : remove_all n CERTIFICATE_HEADER (body ++ CERTIFICATE_FOOTER ++ tail)
               = body ++ CERTIFICATE_FOOTER ++ tail).
  { replace n with (length body + (n - length body))%nat.
    - rewrite remove_all_keep by by apply header_not_in_body. by rewrite remove_all_none.
    - unfold n. rewrite !length_app. assert (0 < length CERTIFICATE_HEADER)%nat by (vm_compute; lia). lia. }
  rewrite E1, length_app, remove_all_keep by by apply footer_not_in_body.
  rewrite remove_all_hit, remove_all_none
    by (first [done|rewrite length_app; apply Nat.lt_lt_add_r; vm_compute; lia]).
  rewrite list.filter_app, Hb, Etl, app_nil_r. by apply attest_decode_padded.
Qed.
End Pem.

Section Renewal.
Context {F : Type -> Type} {S : Type} `{Handler F S} `{EsysCall -< F} `{OsslCall -< F}
        `{FileCall -< F} `{CurlCall -< F} `{CertCall -< F} `{UuidCall -< F} `{Fuel}.
Context `{Bb : BoostBase64, Bs : BoostString, Jt : JsonText}.
Import AkCert.

(** A certificate was read whose issuer is not the placeholder's and that expires in
    [- days] days. *)
Definition provisioned (days : Z) (t : list (event F)) : Prop :=
  exists cert pem issuer, Ev (inj (PEM_read_X509 pem)) cert ∈ t /\ is_null cert = false /\
    Ev (inj (issuer_oneline cert)) (Some issuer) ∈ t /\
    contains issuer Trusted_VM_CERT_ISSUER_NAME_PREFIX = false /\
    Ev (inj (ASN1_TIME_diff_notAfter cert)) (Some days) ∈ t.
Definition decided (r : AttestationResult * bool) (t : list (event F)) : Prop :=
  (code_ (fst r) = SUCCESS -> exists days, provisioned days t /\ (snd r = true <-> -90 <= days)) /\
  (code_ (fst r) <> SUCCESS -> snd r = false).
Lemma grows_decided : grows decided.
Proof.
  intros r t1 t t2 [Hs Hf]. split; [|done]. intros Hc.
  destruct (Hs Hc) as (days & (cert & pem & issuer & ? & ? & ? & ? & ?) & Hd).
  exists days. split; [|done]. exists cert, pem, issuer. split_and!; eauto with trace.
Qed.
Lemma decided_failure r t : code_ r <> SUCCESS -> decided (r, false) t.
Proof. intros Hr. by split. Qed.

Lemma ends_IsAkCertProvisioned cert :
  ends (fun r t => code_ r = SUCCESS -> exists issuer,
          Ev (inj (issuer_oneline cert)) (Some issuer) ∈ t /\
          contains issuer Trusted_VM_CERT_ISSUER_NAME_PREFIX = false)
    (IsAkCertProvisioned (S := S) cert).
Proof.
  unfold IsAkCertProvisioned. eapply ends_before.
  - intros r t1 t t2 Hr Hc. destruct (Hr Hc) as (issuer & ? & ?). exists issuer. eauto with trace.
  - apply ends_trig. intros r. instantiate (1 := fun r t => Ev (inj (issuer_oneline cert)) r ∈ t). apply elem_single.
  - intros issuer t Hi. apply (yields_bind_strong (fun x => issuer = Some x)).
    { destruct issuer; [by apply yields_ret|]. apply yields_lift. discriminate. }
    intros x ->. do 3 (apply yields_bind; intros ?). apply yields_bind. intros [result ?]. apply yields_ret.
    destruct (contains x _) eqn:E; [discriminate|]. eauto.
Qed.

End Renewal.
