(* ===== verification/Attest.v ===== *)
(** * The client: AttestationClientImpl.cpp

    [Attest] renews the attestation key's certificate when needed, collects the evidence,
    posts it to the service and decrypts the token of the answer, with up to three more
    rounds when the decryption fails; [Encrypt] and [Decrypt] wrap a symmetric key for
    the TPM. The program is the Linux build, without AZURE_LOCAL. *)

From S2P Require Import Prelude Base64 Json Ossl Esys GuestTpm HclReport JsonCpp JsonText Http ClientUtils Evidence TokenDecrypt AkCert.
#[local] Open Scope Z_scope.

(** ImdsOperations.cpp *)
Module Imds.
Section Ops.
Context {F : Type -> Type} {S : Type} `{Handler F S} `{CurlCall -< F}.
Context `{BoostBase64, BoostString, JsonText}.

Definition vcek_cert_path : bytes := str "/THIM/amd/certification".

Definition GetVCekCert : M F S (AttestationResult * bytes) :=
  '(result, http_response) ← Http.InvokeHttpImdsRequest (Http.imds_endpoint ++ vcek_cert_path)
                               Http.GET [] [];
  if negb (bool_decide (code_ result = SUCCESS)) then mret (result, [])
  else
    root ← lift (reader_parse http_response);
    match root with
    | None => mret (err ERROR_INVALID_JSON_RESPONSE "Invalid JSON reponse from IMDS", [])
    | Some root =>
        cert ← lift (x ← resolveReference root (str "vcekCert"); asString x);
        chain ← lift (x ← resolveReference root (str "certificateChain"); asString x);
        if empty cert || empty chain
        then mret (err ERROR_EMPTY_VCEK_CERT "Empty VCek cert received from THIM", [])
        else mret (result, AttestBase64.base64_encode (cert ++ chain))
    end.
End Ops.
End Imds.

Module Client.
Definition CLIENT_PARAMS_VERSION : Z := 1.
Definition MAX_ATTESTATION_RETRIES : nat := 3.
Definition g_os_release_path : bytes := str "/etc/os-release".
Definition azure_guest_protocol : bytes := str "https://".
Definition azure_guest_url : bytes := str "/attest/AzureGuest?api-version=2020-10-01".

(** The two C strings may be null. *)
Record ClientParameters := {
  version : Z; attestation_endpoint_url : option bytes; client_payload : option bytes }.
Inductive MeasurementType := TCG | IMA.
Inductive EncryptionType := NONE | OtherEncryption.

Section Ops.
Context {F : Type -> Type} {S : Type} `{Handler F S} `{EsysCall -< F} `{OsslCall -< F}
        `{FileCall -< F} `{CurlCall -< F} `{EvpCall -< F} `{CertCall -< F} `{UuidCall -< F} `{Fuel}.
Context `{BoostBase64, BoostString, BoostAlgo, JsonText}.
Variable order : gmap bytes bytes -> list (bytes * bytes).
Notation R A := (M F S (AttestationResult * A)).

(** [if ((result = ...).code_ != SUCCESS) return result;] *)
Definition andThen {A B} (m : R A) (b : B) (k : A -> R B) : R B :=
  '(result, a) ← m;
  if bool_decide (code_ result = SUCCESS) then k a else mret (result, b).

(** *** Collecting the evidence *)

Definition GetOSInfo : R OsInfo :=
  os_release_entries ← Os.ParseOSReleaseFile g_os_release_path (str "=") ∅;
  mret (match os_release_entries with
        | None =>
            (err ERROR_FAILED_TO_GET_OS_INFO "Failed to parse file path to retrieve OS info",
             default_OsInfo)
        | Some entries =>
            match entries !! str "NAME" with
            | None => (err ERROR_FAILED_TO_GET_OS_INFO "Distro name not found", default_OsInfo)
            | Some distro_name =>
                let version_str := match entries !! str "VERSION_ID" with
                                   | Some v => v | None => str "1.0" end in
                let '(major_version, minor_version) :=
                  match Os.ParseVersionString version_str with
                  | Some v => v | None => (1, 0) end in
                (ok, {| os_type := LINUX; distro_name := distro_name; build := str "NotApplication";
                        distro_version_major := major_version;
                        distro_version_minor := minor_version |})
            end
        end).

Definition GetIsolationInfo : R IsolationInfo :=
  hcl_report ← try_all (r ← GuestTpm.with_Tss2Ctx GuestTpm.GetHCLReport; mret (Some r))
                       (fun _ => mret None);
  match hcl_report with
  | None => mret (ok, default_IsolationInfo)
  | Some hcl_report =>
      let cvm := {| isolation_type_ := SEV_SNP; snp_report_ := []; runtime_data_ := [];
                    vcek_cert_ := [] |} in
      parsed ← lift (ClientHcl.ExtractSnpReportAndRuntimeDataFromHclReport hcl_report);
      match parsed with
      | None => mret (err ERROR_HCL_REPORT_EMPTY "Empty HCL report", cvm)
      | Some (snp_report, runtime_data) =>
          let cvm := {| isolation_type_ := SEV_SNP; snp_report_ := snp_report;
                        runtime_data_ := runtime_data; vcek_cert_ := [] |} in
          andThen Imds.GetVCekCert cvm (fun vcek_cert =>
          mret (ok, {| isolation_type_ := SEV_SNP; snp_report_ := snp_report;
                       runtime_data_ := runtime_data; vcek_cert_ := vcek_cert |}))
      end
  end.

(** A missing TCG log is an empty one. *)
Definition GetMeasurements (t : MeasurementType) : R bytes :=
  match t with
  | TCG => log ← try_all (GuestTpm.with_Tss2Ctx GuestTpm.GetTcgLog) (fun _ => mret []);
           mret (ok, log)
  | IMA => mret (err ERROR_INVALID_INPUT_PARAMETER "Invalid input parameter", [])
  end.

Definition default_TpmInfo : TpmInfo :=
  {| aik_cert_ := []; aik_pub_ := []; pcr_values_ := {| hashAlg := Sha1; pcrs := [] |};
     pcr_quote_ := {| quote := []; quote_signature := [] |};
     encryption_key_ := {| encryptionKey := []; certifyInfo := []; certifyInfoSignature := [] |} |}.

Definition read_TpmInfo : M F S TpmInfo :=
  GuestTpm.with_Tss2Ctx (
    aik_cert ← GuestTpm.GetAIKCert;
    aik_pub ← GuestTpm.GetAIKPub;
    let pcrs := GetAttestationPcrList in
    pcr_quote_marshaled ← GuestTpm.GetPCRQuote pcrs attestation_hash_alg;
    pcr_quote ← GuestTpm.UnpackPcrQuoteToRSA pcr_quote_marshaled;
    pcr_values ← GuestTpm.GetPCRValues pcrs attestation_hash_alg;
    enc_key ← GuestTpm.GetEphemeralKey pcr_values;
    mret {| aik_cert_ := aik_cert; aik_pub_ := aik_pub; pcr_values_ := pcr_values;
            pcr_quote_ := pcr_quote; encryption_key_ := enc_key |}).

Definition GetTpmInfo : R TpmInfo :=
  try_all (tpm_info ← read_TpmInfo; mret (ok, tpm_info))
    (fun e => mret (TokenDecrypt.tpm_failure ERROR_TPM_OPERATION_FAILURE "Unknown error" e,
                    default_TpmInfo)).

Definition default_parameters : AttestationParameters :=
  {| os_info_ := default_OsInfo; tcg_logs_ := []; client_payload_ := ∅;
     tpm_info_ := default_TpmInfo; isolation_info_ := default_IsolationInfo;
     attestation_protocol_ver_ := protocol_version |}.

Definition getAttestationParameters (client_payload : gmap bytes bytes) : R AttestationParameters :=
  andThen GetOSInfo default_parameters (fun os_info =>
  andThen GetIsolationInfo default_parameters (fun isolation_info =>
  andThen (GetMeasurements TCG) default_parameters (fun tcg_logs =>
  andThen GetTpmInfo default_parameters (fun tpm_info =>
  mret (ok, {| os_info_ := os_info; tcg_logs_ := tcg_logs; client_payload_ := client_payload;
               tpm_info_ := tpm_info; isolation_info_ := isolation_info;
               attestation_protocol_ver_ := protocol_version |}))))).

(** The keys and values of the members, which may fail to convert. *)
Fixpoint add_members (l : list (Value * Value)) (m : gmap bytes bytes) : outcome (gmap bytes bytes) :=
  match l with
  | [] => Ret m
  | (k, x) :: l' => k ← asString k; v ← asString x; add_members l' (<[k := v]> m)
  end.
Definition ParseClientPayload (client_payload : option bytes) : outcome (AttestationResult * gmap bytes bytes) :=
  match client_payload with
  | None => Ret (err ERROR_INVALID_INPUT_PARAMETER "Invalid input parameter", ∅)
  | Some text =>
      root ← reader_parse (c_str text);
      match root with
      | None => Ret (err ERROR_INVALID_INPUT_PARAMETER "Invalid client payload Json", ∅)
      | Some root => m ← add_members (members root) ∅; Ret (ok, m)
      end
  end.

(** *** The request *)

Definition sendHttpRequest (attestation_url_ payload : bytes) : R bytes :=
  andThen (Http.SendRequest attestation_url_ payload) [] (fun http_response => mret (ok, http_response)).

Definition sendAttestationRequest (attestation_url_ : bytes) (params : AttestationParameters) : R bytes :=
  payload ← lift (Evidence.CreatePayload order params);
  andThen (sendHttpRequest attestation_url_ payload) [] (fun response => mret (ok, response)).

Definition ParseMaaResponse (maa_response : bytes) : outcome (AttestationResult * bytes) :=
  response ← reader_parse (c_str maa_response);
  match response with
  | None => Ret (err ERROR_PARSING_ATTESTATION_RESPONSE "Failed to parse MAA response Json file", [])
  | Some response =>
      x ← resolveReference response (str "token");
      parsed_token ← asString x;
      Ret (ok, parsed_token)
  end.

(** [while (true)]: [left] rounds may still follow. *)
Fixpoint attest_loop (left : nat) (url : bytes) (params : AttestationParameters) : R bytes :=
  andThen (sendAttestationRequest url params) [] (fun maa_response =>
  andThen (lift (ParseMaaResponse maa_response)) [] (fun token_encrypted =>
  '(result, token_decrypted) ← TokenDecrypt.DecryptMaaToken token_encrypted;
  if bool_decide (code_ result = SUCCESS) then mret (result, token_decrypted)
  else
    match left with
    | O => mret (result, [])
    | Datatypes.S left' =>
        let attestation_retries := Z.of_nat MAX_ATTESTATION_RETRIES - Z.of_nat left in
        _ ← trig (sleep_for (5 * 2 ^ attestation_retries * 1000));
        attest_loop left' url params
    end)).

(** *** Attest *)

(** The failure to return early, of the check of the certificate. *)
Definition check_failure (result : AttestationResult) : option AttestationResult :=
  if bool_decide (code_ result = SUCCESS) then None
  else if negb (tpm_error_code_ result =? 0) then Some result
  else if bool_decide (code_ result = ERROR_AK_CERT_PROVISIONING_FAILED)
  then Some {| code_ := code_ result; tpm_error_code_ := tpm_error_code_ result;
               description_ :=
                 str "AK cert provisioning delayed. Please try attestation after some time." |}
  else None.

(** From the URL on; the certificate is valid or could not be renewed. *)
Definition attest_url (endpoint : bytes) (payload : option bytes) : R bytes :=
  match Url.ParseURL (c_str endpoint) with
  | (result, dns) =>
      if negb (bool_decide (code_ result = SUCCESS)) then mret (result, [])
      else
        let attestation_url_ := azure_guest_protocol ++ dns ++ azure_guest_url in
        andThen (match payload with
                 | None => mret (ok, ∅)
                 | Some _ => lift (ParseClientPayload payload)
                 end) [] (fun client_payload_map =>
        andThen (getAttestationParameters client_payload_map) [] (fun params =>
        if negb (Evidence.Validate params)
        then mret (err ERROR_ATTESTATION_PARAMETERS_VALIDATION_FAILED
                     "Failed to validate parameters for attestation request.", [])
        else attest_loop MAX_ATTESTATION_RETRIES attestation_url_ params))
  end.

(** The token is what the caller's pointer is set to on success; [out] says whether
    [jwt_token_out] is non-null. *)
Definition Attest (client_params : ClientParameters) (out : bool) : R bytes :=
  noexcept_m (
    match attestation_endpoint_url client_params with
    | Some endpoint =>
        if negb (version client_params =? CLIENT_PARAMS_VERSION) || negb out
        then mret (err ERROR_INVALID_INPUT_PARAMETER "Invalid input parameter", [])
        else
          '(result, is_ak_cert_renewal_required) ← AkCert.IsAkCertRenewalRequired;
          match check_failure result with
          | Some result => mret (result, [])
          | None =>
              _ ← (if is_ak_cert_renewal_required : bool then AkCert.RenewAndReplaceAkCert else mret ok);
              attest_url endpoint (client_payload client_params)
          end
    | None => mret (err ERROR_INVALID_INPUT_PARAMETER "Invalid input parameter", [])
    end).

(** *** Encrypt and Decrypt; a null pointer is [None] *)

Definition Encrypt (t : EncryptionType) (jwt_token data : option bytes) (outs : bool)
    (rsaWrapAlgId rsaHashAlgId : Z) : R bytes :=
  noexcept_m (
    match jwt_token, data, outs, t with
    | Some jwt_token, Some (_ :: _ as data), true, NONE =>
        jwk ← lift (JwkInfo.ExtractJwkInfoFromAttestationJwt (c_str jwt_token));
        match jwk with
        | None =>
            mret (err ERROR_EXTRACTING_JWK_INFO "Error while extracting JWK info from JWT", [])
        | Some (n_base64url, e_base64url) =>
            pkey_bio ← trig BIO_new;
            result ← Crypto.ConvertJwkToRsaPubKey pkey_bio n_base64url e_base64url;
            if negb (bool_decide (code_ result = SUCCESS))
            then _ ← trig (BIO_free pkey_bio); mret (result, [])
            else
              '(result, out_data) ← Crypto.EncryptDataWithRSAPubKey pkey_bio rsaWrapAlgId
                                      rsaHashAlgId data;
              _ ← trig (BIO_free pkey_bio);
              mret (result, if bool_decide (code_ result = SUCCESS) then out_data else [])
        end
    | _, _, _, _ => mret (err ERROR_INVALID_INPUT_PARAMETER "Invalid input parameter", [])
    end).

(** [encrypted_data] are the bytes that can be read from the pointer. *)
Definition Decrypt (t : EncryptionType) (encrypted_data : option bytes) (encrypted_data_size : Z)
    (outs : bool) (rsaWrapAlgId rsaHashAlgId : Z) : R bytes :=
  noexcept_m (
    match encrypted_data, outs, t with
    | Some encrypted_data, true, NONE =>
        if encrypted_data_size <=? 0
        then mret (err ERROR_INVALID_INPUT_PARAMETER "Invalid input parameter", [])
        else
        try_all (out_data ← GuestTpm.with_Tss2Ctx (
                   pcrValues ← GuestTpm.GetPCRValues GetAttestationPcrList attestation_hash_alg;
                   in_data ← (if size encrypted_data <? encrypted_data_size
                              then fault_with UndefinedBehaviour
                              else mret (take (Z.to_nat encrypted_data_size) encrypted_data));
                   GuestTpm.DecryptWithEphemeralKey pcrValues in_data rsaWrapAlgId rsaHashAlgId);
                 mret (ok, out_data))
          (fun e => mret (TokenDecrypt.tpm_failure ERROR_DATA_DECRYPTION_TPM_ERROR
                            "Error: Unknown internal error" e, []))
    | _, _, _ => mret (err ERROR_INVALID_INPUT_PARAMETER "Invalid input parameter", [])
    end).
End Ops.
End Client.
