(* ===== verification/AttestFacts.v ===== *)
(** * What [Attest] guarantees

    A token is only handed out that the service returned for the validated evidence and
    that the TPM and AES-GCM opened; requests go to the named host or to the instance
    metadata service, and there are boundedly many. *)

From S2P Require Import Prelude Base64 Json Ossl Esys GuestTpm HclReport TpmEmits JsonCpp JsonText Http ClientUtils Evidence TokenDecrypt AkCert Attest.
#[local] Open Scope Z_scope.

(** ** The token *)

Section Token.
Context {F : Type -> Type} {S : Type} `{Handler F S} `{EsysCall -< F} `{OsslCall -< F}
        `{FileCall -< F} `{CurlCall -< F} `{EvpCall -< F} `{CertCall -< F} `{UuidCall -< F} `{Fuel}.
Context `{Bb : BoostBase64, Bs : BoostString, Ba : BoostAlgo, Jt : JsonText}.
Variable order : gmap bytes bytes -> list (bytes * bytes).
Import Client.

(** The service has answered 200 with [b] to the POST of [p] to [u]. *)
Definition post_request (u p : bytes) : request :=
  {| url := u; custom := None; headers := [str "Content-Type: application/json"];
     payload := Some p; timeout := None |}.
Definition posted (u p b : bytes) (t : list (event F)) : Prop :=
  exists curl resp, Ev (inj (curl_easy_perform curl (post_request u p))) (0, resp) ∈ t /\
    status resp = 200 /\ body resp = b.
Lemma posted_grows u p b t1 t t2 : posted u p b t -> posted u p b (t1 ++ t ++ t2).
Proof. intros (curl & resp & Hin & ?). exists curl, resp. eauto with trace. Qed.

Lemma ends_perform_loop {A} (P : A -> list (event F) -> Prop) left curl req
    (failed : Z -> M F S A) judge exhausted wait :
  grows P -> (forall res, ends P (failed res)) ->
  (forall resp a, judge resp = Some a -> P a [Ev (inj (curl_easy_perform curl req)) (0, resp)]) ->
  (forall resp, judge resp = None ->
     P (exhausted resp) [Ev (inj (curl_easy_perform curl req)) (0, resp)]) ->
  ends P (perform_loop left curl req failed judge exhausted wait).
Proof.
  intros Hg Hf Hj He. induction left as [|left IH]; simpl.
  all: eapply ends_bind; [apply ends_trig; intros r;
    instantiate (1 := fun r t => t = [Ev (inj (curl_easy_perform curl req)) r]); done|].
  all: intros [res resp] t ->; cbn beta; destruct (res =? 0) eqn:E; cbn [negb].
  2, 4: by apply ends_lead.
  all: assert (res = 0) as -> by lia; destruct (judge resp) as [a|] eqn:Ej; [by apply ends_ret, Hj|].
  - by apply ends_ret, He.
  - apply ends_lead; [done|]. apply ends_after; [done|]. by intros [].
Qed.

Lemma ends_SendRequest u p :
  ends (fun r t => code_ (fst r) = SUCCESS -> posted u p (snd r) t) (Http.SendRequest (S := S) u p).
Proof.
  assert (Hg : grows (fun (r : AttestationResult * bytes) t =>
                        code_ (fst r) = SUCCESS -> posted u p (snd r) t)).
  { intros r t1 t t2 Hr Hc. by apply posted_grows, Hr. }
  unfold Http.SendRequest. apply ends_after; [done|]. intros curl. destruct (is_null curl); [by apply ends_ret|].
  eapply ends_before; [done| |].
  - apply ends_perform_loop; [exact Hg| | |].
    + intros res. unfold Http.curl_failed. apply ends_after; [done|]. intros d. by apply ends_ret.
    + intros resp a Hj Hc. exists curl, resp. split; [apply elem_single|].
      unfold Http.send_judge, HTTP_STATUS_OK in Hj. destruct (status resp =? 200) eqn:Es.
      * injection Hj as <-. split; [lia|done].
      * by repeat case_match; simplify_eq.
    + intros resp _. done.
  - intros r t Hr. apply yields_bind. intros []. by apply yields_ret.
Qed.

Lemma ends_andThen {A B} (Q : A -> list (event F) -> Prop)
    (P : AttestationResult * B -> list (event F) -> Prop)
    (m : M F S (AttestationResult * A)) b (k : A -> M F S (AttestationResult * B)) :
  ends (fun r t => code_ (fst r) = SUCCESS -> Q (snd r) t) m ->
  (forall r t, code_ r <> SUCCESS -> P (r, b) t) ->
  (forall a t, Q a t -> ends (fun r t2 => P r (t ++ t2)) (k a)) ->
  ends P (andThen m b k).
Proof.
  intros Hm Hb Hk. unfold andThen. eapply ends_bind; [exact Hm|]. intros [result a] t Ha. cbn [fst snd] in Ha.
  destruct (bool_decide (code_ result = SUCCESS)) eqn:Ec.
  - apply bool_decide_eq_true in Ec. apply Hk. auto.
  - apply bool_decide_eq_false in Ec. apply ends_ret. by apply Hb.
Qed.

Lemma ends_andThen_after {A B} (P : AttestationResult * B -> list (event F) -> Prop)
    (m : M F S (AttestationResult * A)) b (k : A -> M F S (AttestationResult * B)) :
  grows P -> (forall r t, code_ r <> SUCCESS -> P (r, b) t) -> (forall a, ends P (k a)) ->
  ends P (andThen m b k).
Proof.
  intros Hg Hb Hk. apply (ends_andThen (fun _ _ => True)); [by intros ? ? ?|done|].
  intros a t _. by apply ends_lead.
Qed.
Lemma check_failure_code result r : check_failure result = Some r -> code_ r <> SUCCESS.
Proof.
  unfold check_failure. case_bool_decide as Hc; [done|]. destruct (negb _); [by intros [= <-]|].
  case_bool_decide; [|done]. by intros [= <-].
Qed.

(** The request of [params] was answered with a token, and that token was opened. *)
Definition token_for (u : bytes) (params : AttestationParameters) (token : bytes) (t : list (event F)) : Prop :=
  exists p b enc t1 t2, Evidence.CreatePayload order params = Ret p /\ ParseMaaResponse b = Ret (ok, enc) /\ t = t1 ++ t2 /\ posted u p b t1 /\ maa_opened enc token t2.
Definition token_ok u params (r : AttestationResult * bytes) (t : list (event F)) : Prop :=
  code_ (fst r) = SUCCESS -> token_for u params (snd r) t.
Lemma grows_token_ok u params : grows (token_ok u params).
Proof.
  intros r t0 t t3 Hr Hc. destruct (Hr Hc) as (p & b & enc & t1 & t2 & ? & ? & -> & Hp & Ho).
  exists p, b, enc, (t0 ++ t1), (t2 ++ t3). rewrite <- !app_assoc. split_and!; try done.
  - rewrite <- (app_nil_r t1). by apply posted_grows.
  - rewrite <- (app_nil_l (t2 ++ t3)). by apply maa_opened_grows.
Qed.

Lemma token_ok_failure u params r tk t : code_ r <> SUCCESS -> token_ok u params (r, tk) t.
Proof. by intros Hr Hc. Qed.

Lemma ends_sendAttestationRequest u params :
  ends (fun r t => code_ (fst r) = SUCCESS ->
          exists p, Evidence.CreatePayload order params = Ret p /\ posted u p (snd r) t)
    (sendAttestationRequest order (S := S) u params).
Proof.
  unfold sendAttestationRequest. eapply ends_bind.
  { apply ends_lift. intros p Hp.
    instantiate (1 := fun p t => Evidence.CreatePayload order params = Ret p /\ t = []). done. }
  intros p t [Hp ->]. cbn [app]. unfold sendHttpRequest.
  apply (ends_andThen (posted u p)); [|done|].
  - apply (ends_andThen (posted u p)); [apply ends_SendRequest|done|].
    intros b t1 Hb. apply ends_ret. intros _. by rewrite app_nil_r.
  - intros b t1 Hb. apply ends_ret. intros _. exists p. by rewrite app_nil_r.
Qed.

Lemma parsed_ok b r : ParseMaaResponse b = Ret r -> code_ (fst r) = SUCCESS -> r = (ok, snd r).
Proof.
  unfold ParseMaaResponse. intros (v & _ & Hv)%outcome_bind_ret Hc. destruct v as [v|]; [|by simplify_eq].
  apply outcome_bind_ret in Hv as (x & _ & Hv). by apply outcome_bind_ret in Hv as (tk & _ & [= <-]).
Qed.

Lemma ends_attest_loop left u params :
  ends (token_ok u params) (attest_loop order (S := S) left u params).
Proof.
  assert (Hg := grows_token_ok u params). assert (Hf := token_ok_failure u params).
  induction left as [|left IH]; cbn [attest_loop].
  all: apply (ends_andThen (fun b t => exists p, Evidence.CreatePayload order params = Ret p /\ posted u p b t));
    [apply ends_sendAttestationRequest|auto|];
    intros b t1 (p & Hp & Hb);
    apply (ends_andThen (fun enc t => ParseMaaResponse b = Ret (ok, enc) /\ t = [])); [|auto|].
  1, 3: apply ends_lift; intros r Hr Hc; split; [|done]; by rewrite <- (parsed_ok b r Hr Hc).
  all: intros enc t2 [Henc ->]; eapply ends_bind; [apply ends_DecryptMaaToken|];
    intros [result token] t3 Ho; cbn [fst snd] in Ho; cbn beta iota;
    destruct (bool_decide (code_ result = SUCCESS)) eqn:Ec.
  1, 3: apply bool_decide_eq_true in Ec; apply ends_ret; intros _; exists p, b, enc, t1, t3;
    rewrite !app_nil_r; cbn [app snd]; split_and!; auto.
  - apply ends_ret. apply Hf. by apply bool_decide_eq_false in Ec.
  - assert (Hl : ends (token_ok u params) (_ ← trig (sleep_for (5 * 2 ^ (Z.of_nat MAX_ATTESTATION_RETRIES -
                   Z.of_nat (Datatypes.S left)) * 1000)); attest_loop order (S := S) left u params)).
    { apply ends_after; [done|]. by intros []. }
    intros s a Ha. cbn [app]. rewrite app_assoc. exact (ends_lead _ _ (t1 ++ t3) Hg Hl s a Ha).
Qed.

(** What a successful [Attest] has established. *)
Definition attested (cp : ClientParameters) (token : bytes) (t : list (event F)) : Prop :=
  exists endpoint r host params,
    version cp = 1 /\ attestation_endpoint_url cp = Some endpoint /\
    Url.ParseURL (c_str endpoint) = (r, host) /\ code_ r = SUCCESS /\ Evidence.Validate params = true /\
    token_for (str "https://" ++ host ++ str "/attest/AzureGuest?api-version=2020-10-01") params token t.

Lemma attested_grows cp token t1 t t2 : attested cp token t -> attested cp token (t1 ++ t ++ t2).
Proof.
  intros (endpoint & rr & host & params & ? & ? & ? & ? & ? & Ht).
  exists endpoint, rr, host, params. split_and!; try done.
  by apply (grows_token_ok _ _ (ok, token) t1 t t2 (fun _ => Ht)).
Qed.
Lemma ends_Attest cp out :
  ends (fun r t => code_ (fst r) = SUCCESS -> out = true /\ attested cp (snd r) t)
    (Attest order (S := S) cp out).
Proof.
  assert (Hg : grows (fun (r : AttestationResult * bytes) t =>
                        code_ (fst r) = SUCCESS -> out = true /\ attested cp (snd r) t)).
  { intros x t1 t t2 Hx Hc. destruct (Hx Hc). split; [done|]. by apply attested_grows. }
  unfold Attest. apply ends_noexcept. destruct (attestation_endpoint_url cp) as [endpoint|] eqn:Ee; [|by apply ends_ret].
  destruct (negb (version cp =? CLIENT_PARAMS_VERSION) || negb out) eqn:Ev; [by apply ends_ret|].
  apply orb_false_iff in Ev as [Hv Ho]. apply negb_false_iff in Hv, Ho. subst out. apply Z.eqb_eq in Hv.
  apply ends_after; [done|]. intros [result renew]. destruct (check_failure result) as [r'|] eqn:Ek.
  - apply ends_ret. intros Hc. by apply check_failure_code in Ek.
  - apply ends_after; [done|]. intros _. unfold attest_url.
    destruct (Url.ParseURL (c_str endpoint)) as [rr host] eqn:Eu.
    destruct (bool_decide (code_ rr = SUCCESS)) eqn:Er; cbn [negb].
    2: { apply ends_ret. by apply bool_decide_eq_false in Er. }
    apply bool_decide_eq_true in Er.
    apply (ends_andThen_after _ _ _ _ Hg); [done|]. intros m.
    apply (ends_andThen_after _ _ _ _ Hg); [done|]. intros params.
    destruct (Evidence.Validate params) eqn:Ep; [|by apply ends_ret].
    eapply ends_mono; [apply ends_attest_loop|]. intros x t Hx Hc. split; [done|].
    exists endpoint, rr, host, params. split_and!; try done. by apply Hx.
Qed.

(** C1: A successful [Attest] has posted the payload of validated evidence to the attestation
    path of the endpoint's host over https; the token it returns was in the 200 answer, and
    was opened by the TPM and by AES-GCM. *)
Theorem attest_token cp out s r token :
  res (Attest order (S := S) cp out s) = Ret (r, token) -> code_ r = SUCCESS ->
  out = true /\ attested cp token (evs (Attest order (S := S) cp out s)).
Proof. intros Hr Hc. exact (ends_Attest cp out s _ Hr Hc). Qed.
End Token.

(** ** The requests *)

(** The signature of the client, for telling its calls apart. *)
Notation ClientE := (sumE EsysCall (sumE OsslCall (sumE FileCall (sumE CurlCall
  (sumE EvpCall (sumE CertCall UuidCall)))))).
Definition curl_request (R : Type) (e : CurlCall R) : list request :=
  match e with curl_easy_perform _ r => [r] | _ => [] end.
Definition request_of (e : event ClientE) : list request :=
  match e with
  | Ev (InR (InR (InR (InL c)))) _ => curl_request _ c
  | _ => []
  end.
Definition requests (t : list (event ClientE)) : list request := t ≫= request_of.

Section Requests.
Context {S : Type} `{Handler ClientE S} `{Fuel}.
Context `{Bb : BoostBase64, Bs : BoostString, Ba : BoostAlgo, Jt : JsonText}.
Variable order : gmap bytes bytes -> list (bytes * bytes).
Import Client.

Section Emits.
Variable A : request -> Prop.
(** Every request made satisfies [A]. *)
Definition only (e : event ClientE) : Prop := Forall A (request_of e).

Lemma only_esys R (e : EsysCall R) r : only (Ev (inj e) r).
Proof. constructor. Qed.
Lemma only_ossl R (e : OsslCall R) r : only (Ev (inj e) r).
Proof. constructor. Qed.
Lemma only_file R (e : FileCall R) r : only (Ev (inj e) r).
Proof. constructor. Qed.
Lemma only_evp R (e : EvpCall R) r : only (Ev (inj e) r).
Proof. constructor. Qed.
Lemma only_cert R (e : CertCall R) r : only (Ev (inj e) r).
Proof. constructor. Qed.
Lemma only_uuid R (e : UuidCall R) r : only (Ev (inj e) r).
Proof. constructor. Qed.
Lemma only_curl R (e : CurlCall R) r : Forall A (curl_request R e) -> only (Ev (inj e) r).
Proof. done. Qed.
#[local] Hint Resolve only_esys only_ossl only_file only_evp only_cert only_uuid : emits.
#[local] Hint Extern 1 (only _) => apply only_curl; constructor : emits.

(** The operations on the TPM. *)
Tactic Notation "tpm" uconstr(L) := apply L; auto with emits.
Lemma only_GetAIKCert : emits only (GuestTpm.GetAIKCert (S := S)).
Proof. unfold GuestTpm.GetAIKCert. tpm emits_NvRead. Qed.
Lemma only_GetHCLReport : emits only (GuestTpm.GetHCLReport (S := S)).
Proof. unfold GuestTpm.GetHCLReport. tpm emits_NvRead. Qed.
Lemma only_GetAIKPub : emits only (GuestTpm.GetAIKPub (S := S)).
Proof. unfold GuestTpm.GetAIKPub. tpm emits_GetPublicObject. Qed.
Lemma only_WriteAikCert c : emits only (GuestTpm.WriteAikCert (S := S) c).
Proof. tpm emits_WriteAikCert. Qed.
Lemma only_with {B} (m : M ClientE S B) : emits only m -> emits only (GuestTpm.with_Tss2Ctx m).
Proof. intros Hm. tpm emits_with_Tss2Ctx. Qed.
Lemma only_GetTcgLog : emits only (GuestTpm.GetTcgLog (S := S)).
Proof. tpm emits_GetTcgLog. Qed.
Lemma only_GetPCRValues l a : emits only (GuestTpm.GetPCRValues (S := S) l a).
Proof. tpm emits_GetPCRValues. Qed.
Lemma only_GetPCRQuote l a : emits only (GuestTpm.GetPCRQuote (S := S) l a).
Proof. tpm emits_GetPCRQuote. Qed.
Lemma only_UnpackPcrQuoteToRSA q : emits only (GuestTpm.UnpackPcrQuoteToRSA (S := S) q).
Proof. tpm emits_UnpackPcrQuoteToRSA. Qed.
Lemma only_GetEphemeralKey p : emits only (GuestTpm.GetEphemeralKey (S := S) p).
Proof. tpm emits_GetEphemeralKey. Qed.
Lemma only_DecryptWithEphemeralKey p c w a :
  emits only (GuestTpm.DecryptWithEphemeralKey (S := S) p c w a).
Proof. tpm emits_DecryptWithEphemeralKey. Qed.
#[local] Hint Resolve only_GetAIKCert only_GetHCLReport only_GetAIKPub only_WriteAikCert only_with
  only_GetTcgLog only_GetPCRValues only_GetPCRQuote only_UnpackPcrQuoteToRSA only_GetEphemeralKey
  only_DecryptWithEphemeralKey : emits.

(** The senders. *)
Lemma only_perform_loop {B} left curl req (failed : Z -> M ClientE S B) judge exhausted wait :
  A req -> (forall z, emits only (failed z)) -> (forall z r, emits only (wait z r)) ->
  emits only (perform_loop left curl req failed judge exhausted wait).
Proof.
  intros HA Hf Hw. induction left as [|left IH]; cbn [perform_loop].
  all: apply emits_bind; [apply emits_trig; intros r; apply only_curl; by repeat constructor|].
  all: intros [z resp]; cbn beta iota; destruct (negb _); [done|]; destruct (judge resp); [by apply emits_ret|].
  - by apply emits_ret.
  - by apply emits_bind.
Qed.
Lemma only_curl_failed z : emits only (Http.curl_failed (S := S) z).
Proof. unfold Http.curl_failed. emits_go. Qed.
Lemma only_send_wait z r : emits only (Http.send_wait (S := S) z r).
Proof. unfold Http.send_wait, Http.generateRandomJitter. emits_go. Qed.
Lemma only_imds_wait z r : emits only (Http.imds_wait (S := S) z r).
Proof. unfold Http.imds_wait. emits_go. Qed.
#[local] Hint Resolve only_curl_failed only_send_wait only_imds_wait : emits.
Lemma only_SendRequest u p : A (post_request u p) -> emits only (Http.SendRequest (S := S) u p).
Proof. intros HA. unfold Http.SendRequest. emits_go. apply only_perform_loop; auto with emits. Qed.
Lemma only_imds u verb b c : (forall b c, A (Http.imds_request u verb b c)) ->
  emits only (Http.InvokeHttpImdsRequest (S := S) u verb b c).
Proof.
  intros HA. unfold Http.InvokeHttpImdsRequest. emits_go; apply only_perform_loop; auto with emits.
Qed.
Lemma only_imds_string u verb b : (forall b c, A (Http.imds_request u verb b c)) ->
  emits only (Http.InvokeHttpRequest (S := S) u verb b).
Proof.
  intros HA. unfold Http.InvokeHttpRequest. emits_go; apply only_perform_loop; auto with emits.
Qed.

Lemma emits_lift_bind {B C} P (o : outcome B) (k : B -> M ClientE S C) :
  (forall b, o = Ret b -> emits P (k b)) -> emits P (lift o ≫= k).
Proof.
  intros Hk s. unfold mbind, M_bind, lift. destruct o as [b|e|x]; [|constructor..].
  specialize (Hk b eq_refl s). by destruct (k b s).
Qed.

(** The instance metadata service. *)
Hypothesis imds_allowed : forall rest verb b c, A (Http.imds_request (Http.imds_endpoint ++ rest) verb b c).
Lemma only_GetVCekCert : emits only (Imds.GetVCekCert (S := S)).
Proof. unfold Imds.GetVCekCert. emits_go. apply only_imds. auto. Qed.
Lemma only_GetVmId : emits only (Http.GetVmId (S := S)).
Proof. unfold Http.GetVmId. apply only_imds_string. intros. apply imds_allowed. Qed.
Lemma only_RenewAkCert c v r a : emits only (Http.RenewAkCert (S := S) c v r a).
Proof.
  unfold Http.RenewAkCert, Http.UrlEncode. emits_go; apply only_imds_string; intros; apply imds_allowed.
Qed.
Lemma only_QueryAkCert g v r : emits only (Http.QueryAkCert (S := S) g v r).
Proof. unfold Http.QueryAkCert. emits_go; apply only_imds_string; intros; apply imds_allowed. Qed.
#[local] Hint Resolve only_GetVCekCert only_GetVmId only_RenewAkCert only_QueryAkCert : emits.

(** The certificate. *)
Lemma emits_catch_std {B} (m : M ClientE S B) k :
  emits only m -> (forall e, emits only (k e)) ->
  emits only (try_catch m (fun e => if is_std_exception e then Some (k e) else None)).
Proof.
  intros Hm Hk. apply emits_try; [done|]. intros e k' Hk'. destruct (is_std_exception e); [|done].
  by injection Hk' as <-.
Qed.
Lemma only_catch_tpm m : emits only m -> emits only (AkCert.catch_tpm (F := ClientE) (S := S) m).
Proof. intros Hm. apply emits_catch_std; [done|]. intros e. emits_go. Qed.
Lemma only_ReadAkCertFromTpm : emits only (AkCert.ReadAkCertFromTpm (S := S)).
Proof. unfold AkCert.ReadAkCertFromTpm. apply only_catch_tpm. emits_go. Qed.
Lemma only_ReadAikPubFromTpm : emits only (AkCert.ReadAikPubFromTpm (S := S)).
Proof. unfold AkCert.ReadAikPubFromTpm. apply only_catch_tpm. emits_go. Qed.
Lemma only_string_of p : emits only (AkCert.string_of (F := ClientE) (S := S) p).
Proof. unfold AkCert.string_of. emits_go. Qed.
#[local] Hint Resolve only_ReadAkCertFromTpm only_ReadAikPubFromTpm only_string_of : emits.
Lemma only_IsAkCertRenewalRequired : emits only (AkCert.IsAkCertRenewalRequired (S := S)).
Proof.
  unfold AkCert.IsAkCertRenewalRequired, AkCert.IsAkCertProvisioned.
  apply emits_catch_std; [|intros e]; emits_go.
Qed.
Lemma only_RenewAndReplaceAkCert : emits only (AkCert.RenewAndReplaceAkCert (S := S)).
Proof.
  unfold AkCert.RenewAndReplaceAkCert, AkCert.renew_cert.
  apply emits_catch_std; [|intros e]; emits_go. apply only_with. emits_go.
Qed.
#[local] Hint Resolve only_IsAkCertRenewalRequired only_RenewAndReplaceAkCert : emits.

(** The evidence. *)
Lemma only_andThen {B C} (m : M ClientE S (AttestationResult * B)) (c : C) k :
  emits only m -> (forall b, emits only (k b)) -> emits only (andThen m c k).
Proof. intros Hm Hk. unfold andThen. emits_go. Qed.
Lemma only_try_all {B} (m : M ClientE S B) h :
  emits only m -> (forall e, emits only (h e)) -> emits only (try_all m h).
Proof. intros Hm Hh. apply emits_try; [done|]. by intros e k [= <-]. Qed.
Lemma only_GetOSInfo : emits only (GetOSInfo (S := S)).
Proof. unfold GetOSInfo, Os.ParseOSReleaseFile. emits_go. Qed.
Lemma only_GetIsolationInfo : emits only (GetIsolationInfo (S := S)).
Proof.
  unfold GetIsolationInfo. apply emits_bind; [apply only_try_all; intros; emits_go|]. intros a. emits_go.
  apply only_andThen; emits_go.
Qed.
Lemma only_GetMeasurements m : emits only (GetMeasurements (S := S) m).
Proof. unfold GetMeasurements. destruct m; emits_go. Qed.
Lemma only_GetTpmInfo : emits only (GetTpmInfo (S := S)).
Proof.
  unfold GetTpmInfo, read_TpmInfo. apply only_try_all; [|intros e; emits_go].
  apply emits_bind; [apply only_with; emits_go|]. intros a. emits_go.
Qed.
#[local] Hint Resolve only_andThen only_GetOSInfo only_GetIsolationInfo only_GetMeasurements only_GetTpmInfo : emits.
Lemma only_getAttestationParameters m : emits only (getAttestationParameters (S := S) m).
Proof. unfold getAttestationParameters. repeat (apply only_andThen; [emits_go|intros ?]). emits_go. Qed.

Lemma only_DecryptJwt p key c : emits only (TokenDecrypt.DecryptJwt (S := S) p key c).
Proof.
  unfold TokenDecrypt.DecryptJwt, TokenDecrypt.unless_zero, TokenDecrypt.ossl_failed, TokenDecrypt.overwrite.
  emits_go.
Qed.
Lemma only_decrypt_with_tpm c w a : emits only (TokenDecrypt.decrypt_with_tpm (S := S) c w a).
Proof. unfold TokenDecrypt.decrypt_with_tpm. apply only_with. emits_go. Qed.
#[local] Hint Resolve only_DecryptJwt only_decrypt_with_tpm : emits.
Lemma only_DecryptMaaToken jwt : emits only (TokenDecrypt.DecryptMaaToken (S := S) jwt).
Proof.
  unfold TokenDecrypt.DecryptMaaToken, TokenDecrypt.or_jwt_failed, TokenDecrypt.DecryptInnerKey. emits_go.
Qed.
#[local] Hint Resolve only_getAttestationParameters only_DecryptMaaToken : emits.

(** The rounds and [Attest]. *)
Lemma only_attest_loop left u params :
  (forall p, Evidence.CreatePayload order params = Ret p -> A (post_request u p)) ->
  emits only (attest_loop order (S := S) left u params).
Proof.
  intros HA. assert (Hs : emits only (sendAttestationRequest order (S := S) u params)).
  { unfold sendAttestationRequest, sendHttpRequest. apply emits_lift_bind. intros p Hp.
    assert (Hs := only_SendRequest u p (HA p Hp)). repeat (apply only_andThen; [|intros ?]); emits_go. }
  induction left as [|left IH]; cbn [attest_loop].
  all: apply only_andThen; [done|intros b]; apply only_andThen; [emits_go|intros enc]; emits_go.
Qed.
Lemma only_Attest cp out :
  (forall endpoint r host params p, attestation_endpoint_url cp = Some endpoint ->
     Url.ParseURL (c_str endpoint) = (r, host) -> code_ r = SUCCESS -> Evidence.Validate params = true ->
     Evidence.CreatePayload order params = Ret p ->
     A (post_request (azure_guest_protocol ++ host ++ azure_guest_url) p)) ->
  emits only (Attest order (S := S) cp out).
Proof.
  intros HA. unfold Attest. apply emits_noexcept.
  destruct (attestation_endpoint_url cp) as [endpoint|]; [|emits_go]. specialize (HA endpoint).
  destruct (_ || _); [emits_go|]. apply emits_bind; [emits_go|]. intros [result renew].
  destruct (check_failure result); [emits_go|]. apply emits_bind; [emits_go|]. intros _. unfold attest_url.
  destruct (Url.ParseURL (c_str endpoint)) as [r host]. destruct (bool_decide (code_ r = SUCCESS)) eqn:Er; cbn [negb]; [|by apply emits_ret].
  apply bool_decide_eq_true in Er.
  apply only_andThen; [destruct (client_payload cp); emits_go|]. intros m.
  apply only_andThen; [emits_go|]. intros params.
  destruct (Evidence.Validate params) eqn:Ev; cbn [negb]; [|by apply emits_ret]. apply only_attest_loop. intros p Hp. by eapply HA.
Qed.
End Emits.

(** What may be sent where: the payload of validated evidence to the endpoint's host, and
    requests to the metadata service of the instance. *)
Definition may_send (cp : ClientParameters) (req : request) : Prop :=
  is_prefix (str "http://169.254.169.254/metadata") (url req) = true \/
  exists endpoint r host params p, attestation_endpoint_url cp = Some endpoint /\
    Url.ParseURL (c_str endpoint) = (r, host) /\ code_ r = SUCCESS /\ Evidence.Validate params = true /\
    Evidence.CreatePayload order params = Ret p /\
    req = post_request (str "https://" ++ host ++ str "/attest/AzureGuest?api-version=2020-10-01") p.

(** C2: Whatever the outcome of [Attest], it sends its evidence nowhere but over https to the
    attestation path of the endpoint's host, and every other request goes to the metadata
    service of the instance. *)
Theorem attest_hosts cp out s :
  Forall (may_send cp) (requests (evs (Attest order cp out s))).
Proof.
  assert (Hall : emits (only (may_send cp)) (Attest order (S := S) cp out)).
  { apply only_Attest.
    - intros rest verb b c. left. apply is_prefix_app.
    - intros endpoint r host params p ? ? ? ? ?. right. exists endpoint, r, host, params, p. split_and!; done. }
  specialize (Hall s). induction Hall as [|e t He _ IH]; [constructor|]. by apply Forall_app.
Qed.

(** *** How many requests *)

(** At most [n] requests, whatever the answers. *)
Definition cost {B} (n : nat) (m : M ClientE S B) : Prop :=
  forall s, (length (requests (evs (m s))) <= n)%nat.
Lemma requests_app t1 t2 : requests (t1 ++ t2) = requests t1 ++ requests t2.
Proof. apply bind_app. Qed.
Lemma cost_none {B} (m : M ClientE S B) : emits (only (fun _ => False)) m -> cost 0 m.
Proof.
  intros Hm s. specialize (Hm s). induction Hm as [|e t He _ IH]; [done|].
  unfold only in He. change (requests (e :: t)) with (request_of e ++ requests t).
  destruct (request_of e); [done|]. by inversion He.
Qed.
Lemma cost_mono {B} n k (m : M ClientE S B) : cost n m -> (n <= k)%nat -> cost k m.
Proof. intros Hm Hk s. specialize (Hm s). lia. Qed.
Lemma cost_bind {B C} n k (m : M ClientE S B) (f : B -> M ClientE S C) :
  cost n m -> (forall b, cost k (f b)) -> cost (n + k) (m ≫= f).
Proof.
  intros Hm Hk s. unfold mbind, M_bind. specialize (Hm s).
  destruct (m s) as [[b|e|x] s1 t1]; simpl in *; [|lia..].
  specialize (Hk b s1). destruct (f b s1); simpl in *. rewrite requests_app, length_app. lia.
Qed.
Lemma cost_andThen {B C} n k (m : M ClientE S (AttestationResult * B)) (c : C) f :
  cost n m -> (forall b, cost k (f b)) -> cost (n + k) (andThen m c f).
Proof.
  intros Hm Hk. apply cost_bind; [done|]. intros [r b]. destruct (bool_decide _); [done|].
  intros s. simpl. lia.
Qed.
Lemma cost_try {B} n k (m : M ClientE S B) h :
  cost n m -> (forall e g, h e = Some g -> cost k g) -> cost (n + k) (try_catch m h).
Proof.
  intros Hm Hk s. unfold try_catch. specialize (Hm s).
  destruct (m s) as [[b|e|x] s1 t1]; simpl in *; [lia| |lia].
  destruct (h e) as [g|] eqn:Eg; simpl; [|lia]. specialize (Hk e g Eg s1). destruct (g s1); simpl in *.
  rewrite requests_app, length_app. lia.
Qed.
Lemma cost_finally {B} n (m : M ClientE S B) d : cost n m -> cost 0 d -> cost n (finally m d).
Proof.
  intros Hm Hd s. unfold finally. specialize (Hm s).
  destruct (m s) as [[b|e|x] s1 t1]; simpl in *; [| |lia].
  all: specialize (Hd s1); destruct (d s1) as [[?|?|?] ? ?]; simpl in *; rewrite requests_app, length_app; lia.
Qed.

Lemma cost_perform_loop {B} left curl req (failed : Z -> M ClientE S B) judge exhausted wait :
  (forall z, cost 0 (failed z)) -> (forall z r, cost 0 (wait z r)) ->
  cost (1 + left) (perform_loop left curl req failed judge exhausted wait).
Proof.
  intros Hf Hw. induction left as [|left IH]; cbn [perform_loop].
  all: apply (cost_bind 1);
    [intros s; unfold trig, call; by destruct (handle _ s)|intros [z resp]; cbn beta iota].
  all: destruct (negb _); [by eapply cost_mono; [apply Hf|lia]|].
  all: destruct (judge resp); [by intros s; simpl; lia|].
  - by intros s.
  - apply (cost_bind 0); [apply Hw|]. intros []. apply IH.
Qed.
(** A sender: a handle, the attempts, the release of the handle. *)
Lemma cost_sender {B} curl req (failed : Z -> M ClientE S B) judge exhausted wait :
  (forall z, cost 0 (failed z)) -> (forall z r, cost 0 (wait z r)) ->
  cost 4 (r ← perform_loop MAX_RETRIES curl req failed judge exhausted wait;
          _ ← trig (curl_easy_cleanup curl); mret r).
Proof.
  intros Hf Hw. apply (cost_bind 4 0); [by apply (cost_perform_loop 3)|]. intros b.
  apply cost_none. apply emits_bind; [by apply emits_trig; constructor|]. intros []. apply emits_ret.
Qed.
Lemma cost_init {B} (k : ptr -> M ClientE S B) n : (forall c, cost n (k c)) -> cost n (trig curl_easy_init ≫= k).
Proof. intros Hk. apply (cost_bind 0); [|done]. apply cost_none, emits_trig. constructor. Qed.
Lemma cost_ret {B} n (b : B) : cost n (mret (M := M ClientE S) b).
Proof. intros s. simpl. lia. Qed.
Lemma cost_lift {B} n (o : outcome B) : cost n (lift (E := ClientE) (S := S) o).
Proof. intros s. simpl. lia. Qed.
Lemma cost_failed z : cost 0 (Http.curl_failed (S := S) z).
Proof. apply cost_none, only_curl_failed. Qed.
Lemma cost_imds_wait z r : cost 0 (Http.imds_wait (S := S) z r).
Proof. apply cost_none, only_imds_wait. Qed.
Lemma cost_SendRequest u p : cost 4 (Http.SendRequest (S := S) u p).
Proof.
  apply cost_init. intros c. destruct (is_null c); [apply cost_ret|].
  apply cost_sender; intros; [apply cost_failed|apply cost_none, only_send_wait].
Qed.
Lemma cost_imds u verb b c : cost 4 (Http.InvokeHttpImdsRequest (S := S) u verb b c).
Proof.
  apply cost_init. intros h. destruct (is_null h); [apply cost_ret|].
  destruct verb, b; try apply cost_ret; apply cost_sender; intros; (apply cost_failed || apply cost_imds_wait).
Qed.
Lemma cost_imds_string u verb b : cost 4 (Http.InvokeHttpRequest (S := S) u verb b).
Proof.
  unfold Http.InvokeHttpRequest. destruct u; [apply cost_ret|].
  apply cost_init. intros h. destruct (is_null h); [apply cost_ret|].
  destruct verb, b; try apply cost_ret; apply cost_sender; intros; (apply cost_ret || apply cost_imds_wait).
Qed.
Lemma cost_RenewAkCert c v r a : cost 4 (Http.RenewAkCert (S := S) c v r a).
Proof.
  unfold Http.RenewAkCert. destruct c, v, r; try apply cost_ret. apply (cost_bind 0 4); [|intros; apply cost_imds_string].
  apply cost_none. unfold Http.UrlEncode. emits_go. all: constructor.
Qed.
Lemma cost_QueryAkCert c v r : cost 4 (Http.QueryAkCert (S := S) c v r).
Proof. unfold Http.QueryAkCert. destruct c, v, r; try apply cost_ret; apply cost_imds_string. Qed.
Lemma cost_quiet {B C} n (m : M ClientE S B) (k : B -> M ClientE S C) :
  emits (only (fun _ => False)) m -> (forall b, cost n (k b)) -> cost n (m ≫= k).
Proof. intros Hm. apply (cost_bind 0 n). by apply cost_none. Qed.
Lemma cost_bind_le {B C} n k l (m : M ClientE S B) (f : B -> M ClientE S C) :
  cost n m -> (n <= l)%nat -> (forall b, cost k (f b)) -> (k <= l - n)%nat -> cost l (m ≫= f).
Proof. intros Hm Hn Hf Hk. eapply cost_mono; [by apply (cost_bind n k)|lia]. Qed.

Lemma cost_renew_cert c v r : cost 12 (AkCert.renew_cert (S := S) c v r).
Proof.
  unfold AkCert.renew_cert. apply (cost_bind 4 8); [apply cost_RenewAkCert|]. intros [|x l].
  - apply cost_quiet; [by apply emits_trig; constructor|]. intros id.
    apply (cost_bind 4 4); [apply cost_RenewAkCert|]. intros g.
    apply cost_quiet; [by apply emits_trig; constructor|]. intros [].
    apply cost_quiet; [by apply emits_trig; constructor|]. intros id2.
    apply (cost_bind 4 0); [apply cost_QueryAkCert|]. intros. apply cost_ret.
  - apply (cost_bind 0 8); [apply cost_lift|]. intros. apply cost_ret.
Qed.
Lemma cost_with_Tss2Ctx {B} n (m : M ClientE S B) : cost n m -> cost n (GuestTpm.with_Tss2Ctx m).
Proof.
  intros Hm. unfold GuestTpm.with_Tss2Ctx.
  apply cost_quiet; [unfold GuestTpm.InitializeTcti; emits_go; constructor|]. intros [].
  apply cost_quiet; [emits_go; constructor|]. intros a. apply cost_quiet; [apply emits_require|]. intros [].
  apply cost_finally; [done|]. apply cost_none. emits_go; constructor.
Qed.
Lemma cost_RenewAndReplaceAkCert : cost 16 (AkCert.RenewAndReplaceAkCert (S := S)).
Proof.
  apply (cost_try 16 0).
  2: { intros e g Hg. destruct (is_std_exception e); [|done]. injection Hg as <-. apply cost_ret. }
  apply (cost_bind 4 12); [apply cost_imds_string|]. intros [|v id]; [apply cost_ret|].
  apply cost_with_Tss2Ctx, cost_quiet; [by apply emits_trig; constructor|]. intros rid.
  apply cost_quiet; [apply only_ReadAkCertFromTpm|]. intros [result cert].
  destruct (negb _); [apply cost_ret|]. apply (cost_bind 12 0); [apply cost_renew_cert|]. intros [r2 c2].
  destruct (negb _); [apply cost_ret|]. apply (cost_bind 0 0); [apply cost_lift|]. intros der.
  apply cost_quiet; [apply only_WriteAikCert|]. intros. apply cost_ret.
Qed.
Lemma cost_GetIsolationInfo : cost 4 (GetIsolationInfo (S := S)).
Proof.
  unfold GetIsolationInfo. apply cost_quiet.
  { apply only_try_all; [|intros; apply emits_ret]. apply emits_bind; [apply only_with, only_GetHCLReport|].
    intros. apply emits_ret. }
  intros [report|]; [|apply cost_ret]. apply (cost_bind 0 4); [apply cost_lift|].
  intros [[a b]|]; [|apply cost_ret]. apply (cost_andThen 4 0); [|intros; apply cost_ret].
  apply (cost_bind 4 0); [apply cost_imds|]. intros [r resp]. destruct (negb _); [apply cost_ret|].
  apply (cost_bind 0 0); [apply cost_lift|]. intros [root|]; [|apply cost_ret].
  do 2 (apply (cost_bind 0 0); [apply cost_lift|]; intros). destruct (_ || _); apply cost_ret.
Qed.
Lemma cost_getAttestationParameters m : cost 4 (getAttestationParameters (S := S) m).
Proof.
  unfold getAttestationParameters. apply (cost_andThen 0 4); [apply cost_none, only_GetOSInfo|]. intros os.
  apply (cost_andThen 4 0); [apply cost_GetIsolationInfo|]. intros iso.
  apply (cost_andThen 0 0); [apply cost_none, only_GetMeasurements|]. intros log.
  apply (cost_andThen 0 0); [apply cost_none, only_GetTpmInfo|]. intros tpm. apply cost_ret.
Qed.
Lemma cost_attest_loop left u params : cost (4 * (1 + left)) (attest_loop order (S := S) left u params).
Proof.
  assert (Hs : cost 4 (sendAttestationRequest order (S := S) u params)).
  { apply (cost_bind 0 4); [apply cost_lift|]. intros p.
    apply (cost_andThen 4 0); [|intros; apply cost_ret].
    apply (cost_andThen 4 0); [apply cost_SendRequest|intros; apply cost_ret]. }
  induction left as [|left IH]; cbn [attest_loop].
  - apply (cost_andThen 4 0); [done|]. intros b. apply (cost_andThen 0 0); [apply cost_lift|]. intros enc.
    apply (cost_bind 0 0); [apply cost_none, only_DecryptMaaToken|]. intros [r token].
    destruct (bool_decide _); apply cost_ret.
  - apply (cost_mono (4 + 4 * (1 + left))); [|lia].
    apply cost_andThen; [done|]. intros b. apply (cost_andThen 0); [apply cost_lift|]. intros enc.
    apply cost_quiet; [apply only_DecryptMaaToken|]. intros [r token]. destruct (bool_decide _); [apply cost_ret|].
    apply cost_quiet; [by apply emits_trig; constructor|]. by intros [].
Qed.

(** C28: [Attest] makes at most 36 requests however the network answers: 16 to renew the
    certificate, 4 for the endorsement of the report and 16 for the token, which are four
    rounds of four attempts. *)
Theorem attest_bounded cp out s : (length (requests (evs (Attest order cp out s))) <= 36)%nat.
Proof.
  assert (Hall : cost 36 (Attest order (S := S) cp out)); [|apply Hall]. unfold Attest.
  intros s0. unfold noexcept_m. assert (Hm : forall m : M ClientE S (AttestationResult * bytes), cost 36 m ->
    (length (requests (evs (noexcept_m m s0))) <= 36)%nat).
  { intros m Hm. specialize (Hm s0). unfold noexcept_m. by destruct (m s0) as [[?|?|?] ? ?]. }
  apply Hm. destruct (attestation_endpoint_url cp) as [endpoint|]; [|apply cost_ret].
  destruct (_ || _); [apply cost_ret|]. apply cost_quiet; [apply only_IsAkCertRenewalRequired|].
  intros [result renew]. destruct (check_failure result); [apply cost_ret|].
  apply (cost_bind 16 20).
  { destruct renew; [apply cost_RenewAndReplaceAkCert|apply cost_ret]. }
  intros _. unfold attest_url. destruct (Url.ParseURL (c_str endpoint)) as [r host].
  destruct (negb _); [apply cost_ret|]. apply (cost_andThen 0 20).
  { destruct (client_payload cp); [apply cost_lift|apply cost_ret]. }
  intros m. apply (cost_andThen 4 16); [apply cost_getAttestationParameters|]. intros params.
  destruct (negb _); [apply cost_ret|]. apply (cost_attest_loop 3).
Qed.
End Requests.
