(* ===== verification/Skr.v ===== *)
(** * The secure-key-release app: AttestationUtil.cpp and Main.cpp

    [doSKR] attests the machine, gets an access token, posts the attestation token to the
    key vault and unwraps the key of the answer: its transfer key is decrypted by the TPM
    ([Client.Decrypt]), the private key by AES key wrap. [WrapKey], [UnwrapKey],
    [UnwrapKeyBatch] and [ReleaseKey] use the released key; [main] maps failures to exit
    codes. The program is the Linux build. Traces are left out. *)

From S2P Require Import Prelude Base64 Json Ossl Esys GuestTpm JsonCpp JsonText Http ClientUtils Evidence TokenDecrypt AkCert Attest.
#[local] Open Scope Z_scope.

(** The calls of the app beyond those of the client library. *)
Inductive SkrCall : Type -> Type :=
| getenv (name : bytes) : SkrCall (option bytes)
| curl_easy_setopt (curl : ptr) (option : bytes) : SkrCall Z
(* the text libcurl has left in the error buffer *)
| errbuf (curl : ptr) : SkrCall bytes
(* [Initialize] and [Uninitialize] of the client library: see Lifecycle.v *)
| Initialize : SkrCall bool
| Uninitialize : SkrCall unit
| EVP_CIPHER_CTX_set_wrap_allow (ctx : ptr) : SkrCall unit
| EVP_DecryptInit_wrap_pad (ctx : ptr) : SkrCall Z
| EVP_DecryptInit_wrap_key (ctx : ptr) (key : bytes) : SkrCall Z
| BIO_new_mem_buf (data : bytes) : SkrCall ptr
| d2i_PrivateKey_bio (bio : ptr) : SkrCall ptr
| EVP_PKEY_base_id (key : ptr) : SkrCall Z
| EVP_PKEY_get_size (key : ptr) : SkrCall Z
| EVP_PKEY_free (key : ptr) : SkrCall unit
| EVP_PKEY_decrypt_init (ctx : ptr) : SkrCall Z
| EVP_PKEY_CTX_set_rsa_mgf1_md (ctx : ptr) (m : md) : SkrCall Z
| EVP_PKEY_decrypt_size (ctx : ptr) (data : bytes) : SkrCall (Z * Z)
| EVP_PKEY_decrypt (ctx : ptr) (room : Z) (data : bytes) : SkrCall (Z * bytes)
| OPENSSL_malloc (n : Z) : SkrCall bool
| ReadStdin : SkrCall bytes
(* the return code, and whether it is a regular file *)
| stat (path : bytes) : SkrCall (Z * bool)
| symlink (target path : bytes) : SkrCall Z
| print (line : bytes) : SkrCall unit.

(** The operations of nlohmann::json that only this program uses: [j.value(key, default)] of a
    string, an array of given elements, and [dump(2)]. *)
Class SkrJson `{NlohmannJson} := {
  json_value : json -> bytes -> bytes -> outcome bytes;
  json_array : list json -> json;
  json_dump_pretty : json -> outcome bytes }.

(** What it throws are the exceptions of the library. *)
Class SkrJsonLaws `{SkrJson} : Prop := {
  value_errors j k d : json_throws_json (json_value j k d);
  pretty_errors j : json_throws_json (json_dump_pretty j) }.

Definition to_lower (c : byte) : byte :=
  if in_range "A" "Z" c then byte_of_z (z_of_byte c + 32) else c.

Module Skr.
Definition EXIT_USAGE : Z := 1.
Definition EXIT_ATTEST_FAIL : Z := 2.
Definition EXIT_AUTH_FAIL : Z := 3.
Definition EXIT_SKR_FAIL : Z := 4.
Definition EXIT_CRYPTO_FAIL : Z := 5.
Definition EXIT_NETWORK_FAIL : Z := 6.
Definition skr_error (code : Z) (w : string) : exn := SkrErr code (str w).

(** Constants.h *)
Definition DEFAULT_ATTESTATION_URL : bytes := str "https://sharedweu.weu.attest.azure.net/".
Definition AKV_URL_SUFFIX : bytes := str "vault.azure.net".
Definition MHSM_URL_SUFFIX : bytes := str "managedhsm.azure.net".
Definition AKV_RESOURCE_URL : bytes := str "https://vault.azure.net".
Definition MHSM_RESOURCE_URL : bytes := str "https://managedhsm.azure.net".
Definition IMDS_TOKEN_URL : bytes := str "http://169.254.169.254/metadata/identity/oauth2/token".
Definition IMDS_API_VERSION : bytes := str "2018-02-01".
Definition NONCE : bytes := str "ADE0101".

Inductive AkvCredentialSource := Imds | EnvServicePrincipal.
#[export] Instance AkvCredentialSource_eq_dec : EqDecision AkvCredentialSource.
Proof. solve_decision. Defined.
Definition EVP_PKEY_RSA : Z := 6.
Definition EVP_PKEY_RSA2 : Z := 19.
Definition EVP_PKEY_EC : Z := 408.
Definition is_rsa (id : Z) : bool := (id =? EVP_PKEY_RSA) || (id =? EVP_PKEY_RSA2).

(** [nonce.empty() ? NONCE : nonce] *)
Definition or_default (s default : bytes) : bytes := match s with [] => default | _ => s end.

(** A string in quotes, as the program writes it into JSON: without escaping. *)
Definition in_quotes (s : bytes) : bytes := [x22] ++ s ++ [x22].

Definition getResourceUrl (KEKUrl : bytes) (isIMDS : bool) : outcome bytes :=
  match find_str AKV_URL_SUFFIX KEKUrl with
  | Some _ => Ret (if isIMDS then AKV_RESOURCE_URL else AKV_RESOURCE_URL ++ str "/.default")
  | None =>
      match find_str MHSM_URL_SUFFIX KEKUrl with
      | Some _ => Ret (if isIMDS then MHSM_RESOURCE_URL else MHSM_RESOURCE_URL ++ str "/.default")
      | None => Throw (SkrErr EXIT_USAGE (str "Invalid resource suffix found in KEKUrl: " ++ KEKUrl))
      end
  end.

Definition GetKeyVaultSKRurl (KEKUrl : bytes) : bytes :=
  KEKUrl ++ str "/" ++ str "release" ++ str "?" ++ str "api-version" ++ str "=" ++ str "7.3".

(** [while (getline(ss, item, delim)) result.push_back(item);] *)
Fixpoint split_loop (n : nat) (delim : byte) (s : bytes) : list bytes :=
  match n, s with
  | O, _ | _, [] => []
  | Datatypes.S n', _ =>
      let '(item, rest) := Os.getline delim s in
      item :: match rest with Some s' => split_loop n' delim s' | None => [] end
  end.
Definition SplitString (s : bytes) (delim : byte) : list bytes := split_loop (length s) delim s.

Definition get_evp_md_by_name (name : bytes) : outcome md :=
  let lower := filter (fun c => c <> "-"%byte) (map to_lower name) in
  if decide (lower = str "sha1") then Ret SHA1
  else if decide (lower = str "sha256") then Ret SHA256
  else if decide (lower = str "sha384") then Ret SHA384
  else if decide (lower = str "sha512") then Ret SHA512
  else Throw (RuntimeError (str "Unsupported hash algorithm: " ++ name ++
                            str ". Supported: sha1, sha256, sha384, sha512")).

Definition request_body (nonce attestation_token : bytes) : bytes :=
  str "{" ++ in_quotes (str "nonce") ++ str ": " ++ in_quotes nonce ++ str ","
  ++ in_quotes (str "target") ++ str ": " ++ in_quotes attestation_token ++ str ","
  ++ in_quotes (str "enc") ++ str ": " ++ in_quotes (str "RSA_AES_KEY_WRAP_256") ++ str "}".

Section Network.
Context {F : Type -> Type} {S : Type} `{Handler F S} `{CurlCall -< F} `{SkrCall -< F}.
Context `{NlohmannJson}.

(** [TRACE_ERROR_EXIT(msg)], and [curlRet = curl_easy_setopt(...); if (curlRet != CURLE_OK) ...] *)
Definition TRACE_ERROR_EXIT {A} (w : string) : M F S A := throw (skr_error EXIT_NETWORK_FAIL w).
Definition setopt (curl : ptr) (option : string) (w : bytes) : M F S unit :=
  curlRet ← trig (curl_easy_setopt curl (str option));
  if curlRet =? 0 then mret tt else throw (SkrErr EXIT_NETWORK_FAIL w).
(** The same with the text of the error. *)
Definition setopt_text (curl : ptr) (option : string) : M F S unit :=
  curlRet ← trig (curl_easy_setopt curl (str option));
  if curlRet =? 0 then mret tt
  else e ← trig (curl_easy_strerror curlRet);
       throw (SkrErr EXIT_NETWORK_FAIL (str "curl_easy_setopt() failed: " ++ e)).

(** What [curl_easy_escape] returns is freed, and the data returned as it was. *)
Definition url_encode (data : bytes) : M F S bytes :=
  curl ← trig curl_easy_init;
  if is_null curl then TRACE_ERROR_EXIT "curl_easy_init() failed"
  else
    output ← trig (curl_easy_escape curl data);
    _ ← trig (curl_easy_cleanup curl);
    mret data.

(** The environment variable, unless unset or empty. *)
Definition nonempty_env (name : string) : M F S (option bytes) :=
  v ← trig (getenv (str name));
  mret (match v with Some (_ :: _) => v | _ => None end).

Definition GetImdsTokenUrl (url : bytes) : M F S bytes :=
  resource ← url_encode url;
  let oss := IMDS_TOKEN_URL ++ str "?api-version=" ++ IMDS_API_VERSION ++ str "&resource=" ++ resource in
  client_id ← nonempty_env "IMDS_CLIENT_ID";
  match client_id with
  | Some id => mret (oss ++ str "&client_id=" ++ id)
  | None =>
      object_id ← nonempty_env "IMDS_OBJECT_ID";
      match object_id with
      | Some id => mret (oss ++ str "&object_id=" ++ id)
      | None =>
          msi_res_id ← nonempty_env "IMDS_MSI_RES_ID";
          match msi_res_id with
          | Some id => res_id ← url_encode id; mret (oss ++ str "&msi_res_id=" ++ res_id)
          | None => mret oss
          end
      end
  end.

(** [error_description], else [error], of a JSON answer. *)
Definition error_detail (j : json) (default : bytes) : outcome bytes :=
  if json_contains j (str "error_description")
  then x ← json_index j (str "error_description"); json_get_string x.2
  else if json_contains j (str "error") then x ← json_index j (str "error"); json_get_string x.2
  else Ret default.

(** The transfer; a failed one is a [skr_error] with [prefix], and with the error buffer when
    there is one. *)
Definition perform (curl : ptr) (req : request) (prefix : string) (buffer : bool) : M F S response :=
  '(curlRet, resp) ← trig (curl_easy_perform curl req);
  if curlRet =? 0 then _ ← trig (curl_easy_cleanup curl); mret resp
  else
    e ← trig (curl_easy_strerror curlRet);
    more ← (if buffer then trig (errbuf curl) else mret []);
    _ ← trig (curl_easy_cleanup curl);
    throw (SkrErr EXIT_NETWORK_FAIL
             (str prefix ++ e ++ match more with [] => [] | _ => str " (" ++ more ++ str ")" end)).

Definition get_request (u : bytes) : request :=
  {| url := u; custom := None; headers := [str "Metadata: true"]; payload := None; timeout := None |}.

Definition GetIMDSToken (KEKUrl : bytes) : M F S bytes :=
  curl ← trig curl_easy_init;
  if is_null curl then TRACE_ERROR_EXIT "curl_easy_init() failed"
  else
    resourceUrl ← lift (getResourceUrl KEKUrl true);
    u ← GetImdsTokenUrl resourceUrl;
    _ ← setopt curl "URL" (str "curl_easy_setopt() failed");
    _ ← setopt_text curl "PROXY";
    _ ← setopt curl "HTTPHEADER" (str "curl_easy_setopt() failed" ++ [x0a]);
    _ ← setopt curl "WRITEFUNCTION" (str "curl_easy_setopt() failed");
    _ ← setopt_text curl "WRITEDATA";
    resp ← perform curl (get_request u) "IMDS curl_easy_perform() failed: " false;
    if negb (status resp =? 200)
    then
      detail ← lift (match (j ← json_parse (body resp); error_detail j (body resp)) with
                     | Throw _ => Ret (body resp) | d => d end);
      throw (SkrErr EXIT_AUTH_FAIL (str "IMDS token request failed: HTTP " ++ z_text (status resp)
                                    ++ str ": " ++ detail))
    else
      json_object ← lift (json_parse (c_str (body resp)));
      if negb (json_contains json_object (str "access_token"))
      then throw (SkrErr EXIT_AUTH_FAIL (str "IMDS response missing 'access_token' field: " ++ body resp))
      else lift (x ← json_index json_object (str "access_token"); json_get_string x.2).

Definition aad_request (tokenUrl postData : bytes) : request :=
  {| url := tokenUrl; custom := None; headers := [str "Content-Type: application/x-www-form-urlencoded"];
     payload := Some postData; timeout := None |}.

Definition GetAADToken (KEKUrl : bytes) : M F S bytes :=
  clientId ← trig (getenv (str "AKV_SKR_CLIENT_ID"));
  clientSecret ← trig (getenv (str "AKV_SKR_CLIENT_SECRET"));
  tenantId ← trig (getenv (str "AKV_SKR_TENANT_ID"));
  match clientId, clientSecret, tenantId with
  | Some clientId, Some clientSecret, Some tenantId =>
      resourceUrl ← lift (getResourceUrl KEKUrl false);
      let tokenUrl := str "https://login.microsoftonline.com/" ++ tenantId ++ str "/oauth2/v2.0/token" in
      let postData := str "client_id=" ++ clientId ++ str "&client_secret=" ++ clientSecret
                      ++ str "&grant_type=client_credentials&scope= " ++ resourceUrl in
      curl ← trig curl_easy_init;
      if is_null curl then throw (skr_error EXIT_NETWORK_FAIL "AAD: curl_easy_init() failed")
      else
        resp ← perform curl (aad_request tokenUrl postData) "AAD curl_easy_perform() failed: " false;
        jsonResponse ← lift (json_parse (body resp));
        if json_contains jsonResponse (str "access_token")
        then lift (x ← json_index jsonResponse (str "access_token"); json_get_string x.2)
        else
          detail ← lift (error_detail jsonResponse (body resp));
          throw (SkrErr EXIT_AUTH_FAIL (str "AAD token request failed: HTTP " ++ z_text (status resp)
                                        ++ str ": " ++ detail))
  | _, _, _ => throw (SkrErr EXIT_AUTH_FAIL (str "AAD service principal env vars not set. Need AKV_SKR_CLIENT_ID, AKV_SKR_CLIENT_SECRET, AKV_SKR_TENANT_ID"))
  end.

Definition release_request (requestUri access_token requestBodyStr : bytes) : request :=
  {| url := requestUri; custom := None;
     headers := [str "Authorization: Bearer " ++ access_token; str "Content-Type: application/json";
                 str "Accept: application/json"; str "User-Agent: AzureDiskEncryption"];
     payload := Some requestBodyStr; timeout := None |}.

Definition GetKeyVaultResponseCurl (requestUri access_token requestBodyStr : bytes) : M F S bytes :=
  curl ← trig curl_easy_init;
  if is_null curl then TRACE_ERROR_EXIT "curl_easy_init() failed"
  else
    _ ← setopt curl "URL" (str "curl_easy_setopt() failed for URL");
    _ ← setopt curl "POST" (str "curl_easy_setopt() failed for POST");
    _ ← setopt curl "HTTP_VERSION" (str "curl_easy_setopt() failed for HTTP_VERSION");
    _ ← setopt curl "HTTPHEADER" (str "curl_easy_setopt() failed");
    _ ← setopt curl "POSTFIELDS" (str "curl_easy_setopt() failed for CURLOPT_POSTFIELDS");
    _ ← setopt curl "POSTFIELDSIZE" (str "curl_easy_setopt() failed for CURLOPT_POSTFIELDSIZE");
    _ ← setopt curl "ERRORBUFFER" (str "curl_easy_setopt() failed for CURLOPT_ERRORBUFFER");
    _ ← setopt curl "WRITEFUNCTION" (str "curl_easy_setopt() failed");
    _ ← setopt_text curl "WRITEDATA";
    resp ← perform curl (release_request requestUri access_token requestBodyStr)
             "SKR curl_easy_perform() failed: " true;
    if negb (status resp =? 200)
    then throw (SkrErr EXIT_SKR_FAIL (str "SKR HTTP request failed: HTTP " ++ z_text (status resp)
                                      ++ str ": " ++ body resp))
    else mret (body resp).

Definition GetKeyVaultResponse (requestUri access_token attestation_token nonce : bytes) : M F S bytes :=
  GetKeyVaultResponseCurl requestUri access_token (request_body (or_default nonce NONCE) attestation_token).
End Network.

(** [handle_openssl_errors], [handleErrors]: the queue of errors, as text, is thrown. *)
Section Crypto.
Context {F : Type -> Type} {S : Type} `{Handler F S} `{OsslCall -< F} `{EvpCall -< F} `{SkrCall -< F} `{Fuel}.

Fixpoint error_queue (n : nat) (oss : bytes) : M F S bytes :=
  match n with
  | O => fault_with OutOfFuel
  | Datatypes.S n' =>
      error ← trig ERR_get_error;
      if error =? 0 then mret oss
      else e ← trig (ERR_error_string error); error_queue n' (oss ++ e ++ str "; ")
  end.
Definition handle_errors {A} : M F S A :=
  oss ← error_queue fuel (str "OpenSSL error: "); throw (SkrErr EXIT_CRYPTO_FAIL oss).
(** [if (rc <= 0) handleErrors();] and [if (1 != rc) handle_openssl_errors();] *)
Definition positive (rc : Z) : M F S unit := if rc <=? 0 then handle_errors else mret tt.
Definition is_one (rc : Z) : M F S unit := if rc =? 1 then mret tt else handle_errors.

(** The buffer of [doSKR] for the private key; OpenSSL reads a key of 32 bytes. *)
Definition private_key_size : Z := 8192.
Definition decrypt_aes_key_unwrap (key ciphertext : bytes) : M F S bytes :=
  ctx ← trig EVP_CIPHER_CTX_new;
  _ ← (if is_null ctx then handle_errors else mret tt);
  _ ← trig (EVP_CIPHER_CTX_set_wrap_allow ctx);
  rc ← trig (EVP_DecryptInit_wrap_pad ctx); _ ← is_one rc;
  _ ← (if size key <? 32 then fault_with UndefinedBehaviour else mret tt);
  rc ← trig (EVP_DecryptInit_wrap_key ctx (take 32 key)); _ ← is_one rc;
  '(rc, out) ← trig (EVP_DecryptUpdate ctx ciphertext);
  _ ← (if private_key_size <? size out then fault_with UndefinedBehaviour else mret tt);
  _ ← is_one rc;
  '(rc, out2) ← trig (EVP_DecryptFinal_ex ctx);
  _ ← (if private_key_size <? size (out ++ out2) then fault_with UndefinedBehaviour else mret tt);
  _ ← is_one rc;
  _ ← trig (EVP_CIPHER_CTX_free ctx);
  mret (out ++ out2).

Definition rsa_encrypt (pkey : ptr) (msg : bytes) : M F S bytes :=
  ctx ← trig (EVP_PKEY_CTX_new_pkey pkey);
  _ ← (if is_null ctx then handle_errors else mret tt);
  rc ← trig (EVP_PKEY_encrypt_init ctx); _ ← positive rc;
  rc ← trig (EVP_PKEY_CTX_set_rsa_padding ctx Crypto.RSA_PKCS1_OAEP_PADDING); _ ← positive rc;
  rc ← trig (EVP_PKEY_CTX_set_rsa_oaep_md ctx SHA256); _ ← positive rc;
  '(rc, outlen) ← trig (EVP_PKEY_encrypt_size ctx msg); _ ← positive rc;
  got ← trig (OPENSSL_malloc outlen);
  _ ← (if got : bool then mret tt else handle_errors);
  '(rc, enc) ← trig (EVP_PKEY_encrypt ctx outlen msg); _ ← positive rc;
  _ ← trig (EVP_PKEY_CTX_free ctx);
  mret enc.

Definition rsa_decrypt (pkey : ptr) (msg : bytes) (oaep_md : md) (mgf1_md : option md) : M F S bytes :=
  let mgf1_md := match mgf1_md with Some m => m | None => oaep_md end in
  ctx ← trig (EVP_PKEY_CTX_new_pkey pkey);
  _ ← (if is_null ctx then handle_errors else mret tt);
  rc ← trig (EVP_PKEY_decrypt_init ctx); _ ← positive rc;
  rc ← trig (EVP_PKEY_CTX_set_rsa_padding ctx Crypto.RSA_PKCS1_OAEP_PADDING); _ ← positive rc;
  rc ← trig (EVP_PKEY_CTX_set_rsa_oaep_md ctx oaep_md); _ ← positive rc;
  rc ← trig (EVP_PKEY_CTX_set_rsa_mgf1_md ctx mgf1_md); _ ← positive rc;
  '(rc, outlen) ← trig (EVP_PKEY_decrypt_size ctx msg); _ ← positive rc;
  got ← trig (OPENSSL_malloc outlen);
  _ ← (if got : bool then mret tt else handle_errors);
  '(rc, dec) ← trig (EVP_PKEY_decrypt ctx outlen msg); _ ← positive rc;
  _ ← trig (EVP_PKEY_CTX_free ctx);
  mret dec.

(** [if (rc <= 0) throw std::runtime_error(w);] inside the [try] that frees the context. *)
Definition positive_safe (rc : Z) (w : string) : M F S unit :=
  require (negb (rc <=? 0)) (runtime_error w).
Definition rsa_decrypt_safe (pkey : ptr) (msg : bytes) (oaep_md : md) (mgf1_md : option md) : M F S bytes :=
  let mgf1_md := match mgf1_md with Some m => m | None => oaep_md end in
  ctx ← trig (EVP_PKEY_CTX_new_pkey pkey);
  _ ← require (negb (is_null ctx)) (runtime_error "EVP_PKEY_CTX_new failed");
  dec ← try_all (
    rc ← trig (EVP_PKEY_decrypt_init ctx); _ ← positive_safe rc "EVP_PKEY_decrypt_init failed";
    rc ← trig (EVP_PKEY_CTX_set_rsa_padding ctx Crypto.RSA_PKCS1_OAEP_PADDING);
    _ ← positive_safe rc "set_rsa_padding failed";
    rc ← trig (EVP_PKEY_CTX_set_rsa_oaep_md ctx oaep_md); _ ← positive_safe rc "set_rsa_oaep_md failed";
    rc ← trig (EVP_PKEY_CTX_set_rsa_mgf1_md ctx mgf1_md); _ ← positive_safe rc "set_rsa_mgf1_md failed";
    '(rc, outlen) ← trig (EVP_PKEY_decrypt_size ctx msg);
    _ ← positive_safe rc "EVP_PKEY_decrypt (size query) failed";
    got ← trig (OPENSSL_malloc outlen);
    _ ← require got (runtime_error "OPENSSL_malloc failed");
    '(rc, dec) ← trig (EVP_PKEY_decrypt ctx outlen msg); _ ← positive_safe rc "EVP_PKEY_decrypt failed";
    mret dec)
    (fun e => _ ← trig (EVP_PKEY_CTX_free ctx); throw e);
  _ ← trig (EVP_PKEY_CTX_free ctx);
  mret dec.
End Crypto.

Section App.
Context {F : Type -> Type} {S : Type} `{Handler F S} `{EsysCall -< F} `{OsslCall -< F}
        `{FileCall -< F} `{CurlCall -< F} `{EvpCall -< F} `{CertCall -< F} `{UuidCall -< F}
        `{SkrCall -< F} `{Fuel}.
Context `{BoostBase64, BoostString, BoostAlgo, JsonText, NlohmannJson, !SkrJson}.
Variable order : gmap bytes bytes -> list (bytes * bytes).

Definition no_description (d : bytes) : bytes := match d with [] => str "(no description)" | _ => d end.

(** [Uninitialize(); throw skr_error(code, w);] *)
Definition leave {A} (code : Z) (w : bytes) : M F S A :=
  _ ← trig Uninitialize; throw (SkrErr code w).

(** The isolation claims of the token only go to the trace. *)
Definition GetMAAToken (attestation_url nonce : bytes) : M F S bytes :=
  let attest_server_url := or_default attestation_url DEFAULT_ATTESTATION_URL in
  let nonce_token := or_default nonce NONCE in
  initialized ← trig Initialize;
  if negb initialized
  then leave EXIT_ATTEST_FAIL (str "Failed to create attestation client object")
  else
    '(result, jwt) ← Client.Attest order
       {| Client.version := Client.CLIENT_PARAMS_VERSION;
          Client.attestation_endpoint_url := Some attest_server_url;
          Client.client_payload :=
            Some (str "{" ++ in_quotes (str "nonce") ++ str ": " ++ in_quotes nonce_token ++ str "}") |}
       true;
    if negb (bool_decide (code_ result = SUCCESS))
    then leave EXIT_ATTEST_FAIL (str "MAA attestation failed: " ++ no_description (description_ result))
    else
      let jwt_str := c_str jwt in
      let tokens := split (fun c => bool_decide (c = "."%byte)) jwt_str in
      if bool_decide (length tokens < 3)%nat
      then leave EXIT_ATTEST_FAIL (str "MAA returned invalid JWT token (fewer than 3 parts)")
      else
        _ ← lift (claims ← SkrUtil.base64_decode (nth 1 tokens []); json_parse claims);
        _ ← trig Uninitialize;
        mret jwt_str.

(** The wrapped key of the answer of the key vault. *)
Definition wrapped_key_of (responseStr : bytes) : outcome bytes :=
  skrJson ← json_parse (c_str responseStr);
  skrToken ← string_at skrJson ["value"%string];
  let tokenParts := SplitString skrToken "." in
  if negb (bool_decide (length tokenParts = 3%nat))
  then Throw (skr_error EXIT_SKR_FAIL "Invalid SKR token (expected 3 dot-separated parts)")
  else
    tokenPayload ← SkrUtil.base64url_to_binary (nth 1 tokenParts []);
    skrPayloadJson ← json_parse (c_str tokenPayload);
    key_text ← string_at skrPayloadJson ["response"; "key"; "key"; "key_hsm"]%string;
    key_hsm ← SkrUtil.base64url_to_binary key_text;
    cipherTextJson ← json_parse key_hsm;
    cipher_text ← string_at cipherTextJson ["ciphertext"%string];
    SkrUtil.base64url_to_binary cipher_text.

Definition ModulusSize : Z := 2048 / 8.

(** [cipherText.data()], null for an empty vector *)
Definition data (v : bytes) : option bytes := match v with [] => None | _ => Some v end.

(** The private key as OpenSSL reads it. *)
Definition read_private_key (private_key : bytes) : M F S ptr :=
  if size private_key =? 0
  then leave EXIT_CRYPTO_FAIL (str "Failed to decrypt the CMK (AES key unwrap returned 0 bytes)")
  else
    bio_key ← trig (BIO_new_mem_buf private_key);
    if is_null bio_key
    then leave EXIT_CRYPTO_FAIL (str "Error creating memory BIO for private key")
    else
      pkey ← trig (d2i_PrivateKey_bio bio_key);
      _ ← trig (BIO_free bio_key);
      if is_null pkey
      then oss ← error_queue fuel (str "Failed to parse PKCS#8 private key: ");
           leave EXIT_CRYPTO_FAIL oss
      else _ ← trig Uninitialize; mret pkey.

(** The private key from the wrapped one. *)
Definition open_key (cipherText : bytes) : M F S ptr :=
  initialized ← trig Initialize;
  if negb initialized
  then leave EXIT_SKR_FAIL (str "Failed to create attestation client object for TPM decrypt")
  else
    '(result, decryptedAESBytes) ← Client.Decrypt Client.NONE (data cipherText) ModulusSize true
                                     GuestTpm.RsaOaep GuestTpm.RsaSha256;
    if negb (bool_decide (code_ result = SUCCESS))
    then leave EXIT_CRYPTO_FAIL
           (str "Failed to decrypt AES key: error code " ++ z_text (client_error_code (code_ result))
            ++ str ", TPM error code=" ++ z_text (tpm_error_code_ result)
            ++ str ", Desc=" ++ description_ result)
    else
      private_key ← decrypt_aes_key_unwrap decryptedAESBytes (drop (Z.to_nat ModulusSize) cipherText);
      read_private_key private_key.

(** The body of the [try] of [doSKR]. *)
Definition release (attestation_url nonce KEKUrl : bytes) (source : AkvCredentialSource) : M F S ptr :=
  attest_token ← GetMAAToken attestation_url nonce;
  match attest_token with
  | [] => throw (skr_error EXIT_ATTEST_FAIL
                   "MAA attestation returned an empty token. Cannot proceed with key release.")
  | _ =>
      access_token ← (match source with
                      | EnvServicePrincipal => GetAADToken KEKUrl
                      | Imds => GetIMDSToken KEKUrl
                      end);
      responseStr ← GetKeyVaultResponse (GetKeyVaultSKRurl KEKUrl) access_token attest_token nonce;
      cipherText ← lift (wrapped_key_of responseStr);
      open_key cipherText
  end.
(** [doSKR]: it returns [true], with the key, or throws. *)
Definition doSKR (attestation_url nonce KEKUrl : bytes) (source : AkvCredentialSource) : M F S ptr :=
  try_catch (release attestation_url nonce KEKUrl source)
    (fun e => match e with
              | SkrErr _ _ => None
              | e => if is_std_exception e
                     then Some (throw (SkrErr EXIT_SKR_FAIL (str "doSKR failed: " ++ what e)))
                     else None
              end).

(** Free the key and fail. *)
Definition not_rsa {A} (pkey : ptr) (w : string) : M F S A :=
  _ ← trig (EVP_PKEY_free pkey); throw (skr_error EXIT_CRYPTO_FAIL w).

Definition WrapKey (attestation_url nonce sym_key key_enc_key_url : bytes) (source : AkvCredentialSource)
  : M F S bytes :=
  pkey ← doSKR attestation_url nonce key_enc_key_url source;
  pkeyBaseId ← trig (EVP_PKEY_base_id pkey);
  if negb (is_rsa pkeyBaseId)
  then not_rsa pkey "The key is not of type RSA. Only RSA keys are supported for wrapKey/unwrapKey"
  else
    _ ← trig (EVP_PKEY_get_size pkey);
    encryptedKey ← rsa_encrypt pkey sym_key;
    _ ← trig (EVP_PKEY_free pkey);
    mret (SkrUtil.binary_to_base64 encryptedKey).

(** An empty name is the null digest. *)
Definition optional_md (name : bytes) : outcome (option md) :=
  match name with [] => Ret None | _ => m ← get_evp_md_by_name name; Ret (Some m) end.

Definition UnwrapKey (attestation_url nonce wrapped_key_base64 key_enc_key_url : bytes)
    (source : AkvCredentialSource) (oaep_hash_alg mgf1_hash_alg : bytes) : M F S bytes :=
  pkey ← doSKR attestation_url nonce key_enc_key_url source;
  pkeyBaseId ← trig (EVP_PKEY_base_id pkey);
  if negb (is_rsa pkeyBaseId)
  then not_rsa pkey "The key is not of type RSA. Only RSA keys are supported for wrapKey/unwrapKey"
  else
    _ ← trig (EVP_PKEY_get_size pkey);
    wrapped_key ← lift (SkrUtil.base64_to_binary wrapped_key_base64);
    oaep_md ← lift (get_evp_md_by_name oaep_hash_alg);
    mgf1_md ← lift (optional_md mgf1_hash_alg);
    decryptedKey ← rsa_decrypt pkey wrapped_key oaep_md mgf1_md;
    _ ← trig (EVP_PKEY_free pkey);
    lift (SkrUtil.base64_decode (SkrUtil.binary_to_base64 decryptedKey)).

(** *** UnwrapKeyBatch *)

Definition opt_string (j : json) (k : string) : option json :=
  if json_contains j (str k)
  then match json_const_index j (str k) with
       | Ret x => if json_is_string x then Some x else None | _ => None end
  else None.

(** The [try] of one entry: the entry's result with its key. *)
Definition entry_key (pkey : ptr) (oaep_md : md) (mgf1_md : option md) (entry resultEntry : json)
  : M F S json :=
  match opt_string entry "wrapped" with
  | None => throw (RuntimeError (str "missing or invalid " ++ in_quotes (str "wrapped") ++ str " field"))
  | Some w =>
      wrapped_key_base64 ← lift (json_get_string w);
      wrapped_key ← lift (SkrUtil.base64_to_binary wrapped_key_base64);
      decryptedKey ← rsa_decrypt_safe pkey wrapped_key oaep_md mgf1_md;
      plain ← lift (SkrUtil.base64_decode (SkrUtil.binary_to_base64 decryptedKey));
      lift (json_set resultEntry (str "unwrapped") (json_str plain))
  end.
(** One entry: its id, which must be a string when there is one, then the key or the error. *)
Definition unwrap_entry (pkey : ptr) (oaep_md : md) (mgf1_md : option md) (i : nat) (entry : json)
  : M F S json :=
  id ← lift (json_value entry (str "id") (z_text (Z.of_nat i)));
  resultEntry ← lift (json_set json_null (str "id") (json_str id));
  try_catch (entry_key pkey oaep_md mgf1_md entry resultEntry)
    (fun e => if is_std_exception e
              then Some (lift (json_set resultEntry (str "error") (json_str (c_str (what e))))) else None).
Fixpoint unwrap_entries (pkey : ptr) (oaep_md : md) (mgf1_md : option md) (i : nat) (l : list json)
  : M F S (list json) :=
  match l with
  | [] => mret []
  | entry :: l' =>
      r ← unwrap_entry pkey oaep_md mgf1_md i entry;
      rest ← unwrap_entries pkey oaep_md mgf1_md (Datatypes.S i) l';
      mret (r :: rest)
  end.

(** The array of keys of the input. *)
Definition batch_keys (batch_json : bytes) : outcome (list json) :=
  inputJson ← match json_parse batch_json with
              | Throw (JsonError ParseErr w) =>
                  Throw (SkrErr EXIT_USAGE (str "UnwrapKeyBatch: Invalid JSON input: " ++ w))
              | r => r
              end;
  let bad := Throw (SkrErr EXIT_USAGE (str "UnwrapKeyBatch: JSON must contain a " ++ in_quotes (str "keys")
                                       ++ str " array")) in
  if negb (json_contains inputJson (str "keys")) then bad
  else
    keys ← json_index inputJson (str "keys");
    if json_is_array keys.2 then Ret (json_elements keys.2) else bad.

Definition UnwrapKeyBatch (attestation_url nonce batch_json key_enc_key_url : bytes)
    (source : AkvCredentialSource) (oaep_hash_alg mgf1_hash_alg : bytes) : M F S bytes :=
  keysArray ← lift (batch_keys batch_json);
  pkey ← doSKR attestation_url nonce key_enc_key_url source;
  pkeyBaseId ← trig (EVP_PKEY_base_id pkey);
  if negb (is_rsa pkeyBaseId)
  then not_rsa pkey "UnwrapKeyBatch: Released key is not RSA. Only RSA keys are supported for unwrap."
  else
    oaep_md ← lift (get_evp_md_by_name oaep_hash_alg);
    mgf1_md ← lift (optional_md mgf1_hash_alg);
    results ← unwrap_entries pkey oaep_md mgf1_md 0 keysArray;
    _ ← trig (EVP_PKEY_free pkey);
    outputJson ← lift (json_set json_null (str "results") (json_array results));
    lift (json_dump_pretty outputJson).

(** Whether the key is of a known type; the texts go to the error stream. *)
Definition ReleaseKey (attestation_url nonce key_enc_key_url : bytes) (source : AkvCredentialSource)
  : M F S bool :=
  pkey ← doSKR attestation_url nonce key_enc_key_url source;
  id ← trig (EVP_PKEY_base_id pkey);
  _ ← (if is_rsa id || (id =? EVP_PKEY_EC) then mret tt else _ ← trig (EVP_PKEY_base_id pkey); mret tt);
  _ ← trig (EVP_PKEY_free pkey);
  mret (is_rsa id || (id =? EVP_PKEY_EC)).

(** *** main *)

Inductive Operation := NoOperation | Wrap | Unwrap | BatchUnwrap | Release.
Record options := {
  attestation_url : bytes; nonce : bytes; sym_key : bytes; key_enc_key_url : bytes;
  oaep_hash : bytes; mgf1_hash : bytes; batch_input : bytes; op : Operation;
  akv_credential_source : AkvCredentialSource }.
Definition default_options : options :=
  {| attestation_url := []; nonce := []; sym_key := []; key_enc_key_url := [];
     oaep_hash := str "sha256"; mgf1_hash := []; batch_input := []; op := NoOperation;
     akv_credential_source := Imds |}.

(** What [getopt] finds for the options a:n:k:c:s:uwrB:H:G: in order: the letter and its
    argument, [?] for one it does not accept. *)
Definition set_op (o : options) (x : Operation) : options :=
  {| attestation_url := attestation_url o; nonce := nonce o; sym_key := sym_key o;
     key_enc_key_url := key_enc_key_url o; oaep_hash := oaep_hash o; mgf1_hash := mgf1_hash o;
     batch_input := batch_input o; op := x; akv_credential_source := akv_credential_source o |}.
Definition apply_option (o : options) (opt : byte) (optarg : bytes) : option options :=
  let '{| attestation_url := a; nonce := n; sym_key := s; key_enc_key_url := k; oaep_hash := h;
          mgf1_hash := g; batch_input := b; op := x; akv_credential_source := c |} := o in
  match opt with
  | "a"%byte => Some {| attestation_url := optarg; nonce := n; sym_key := s; key_enc_key_url := k;
                        oaep_hash := h; mgf1_hash := g; batch_input := b; op := x; akv_credential_source := c |}
  | "n"%byte => Some {| attestation_url := a; nonce := optarg; sym_key := s; key_enc_key_url := k;
                        oaep_hash := h; mgf1_hash := g; batch_input := b; op := x; akv_credential_source := c |}
  | "k"%byte => Some {| attestation_url := a; nonce := n; sym_key := s; key_enc_key_url := optarg;
                        oaep_hash := h; mgf1_hash := g; batch_input := b; op := x; akv_credential_source := c |}
  | "c"%byte => Some {| attestation_url := a; nonce := n; sym_key := s; key_enc_key_url := k;
                        oaep_hash := h; mgf1_hash := g; batch_input := b; op := x;
                        akv_credential_source := if decide (optarg = str "imds") then Imds
                                                 else if decide (optarg = str "sp") then EnvServicePrincipal
                                                 else c |}
  | "s"%byte => Some {| attestation_url := a; nonce := n; sym_key := optarg; key_enc_key_url := k;
                        oaep_hash := h; mgf1_hash := g; batch_input := b; op := x; akv_credential_source := c |}
  | "B"%byte => Some {| attestation_url := a; nonce := n; sym_key := s; key_enc_key_url := k;
                        oaep_hash := h; mgf1_hash := g; batch_input := optarg; op := BatchUnwrap;
                        akv_credential_source := c |}
  | "H"%byte => Some {| attestation_url := a; nonce := n; sym_key := s; key_enc_key_url := k;
                        oaep_hash := optarg; mgf1_hash := g; batch_input := b; op := x; akv_credential_source := c |}
  | "G"%byte => Some {| attestation_url := a; nonce := n; sym_key := s; key_enc_key_url := k;
                        oaep_hash := h; mgf1_hash := optarg; batch_input := b; op := x; akv_credential_source := c |}
  | "u"%byte => Some (set_op o Unwrap)
  | "w"%byte => Some (set_op o Wrap)
  | "r"%byte => Some (set_op o Release)
  | _ => None
  end.
Fixpoint read_options (o : options) (l : list (byte * bytes)) : option options :=
  match l with
  | [] => Some o
  | (opt, optarg) :: l' => match apply_option o opt optarg with Some o' => read_options o' l' | None => None end
  end.

(** The text of the batch: from the standard input, the command line, or a file. *)
Definition batch_text (batch_input : bytes) : M F S (option bytes) :=
  if decide (batch_input = str "-") then t ← trig ReadStdin; mret (Some t)
  else
    match batch_input with
    | "{"%byte :: _ => mret (Some batch_input)
    | _ => trig (ReadFile batch_input)
    end.

(** [std::cout << result << std::endl;] *)
Definition show (m : M F S bytes) : M F S Z := result ← m; _ ← trig (print result); mret 0.
Definition run_op (o : options) : M F S Z :=
  match op o with
  | Wrap => show (WrapKey (attestation_url o) (nonce o) (sym_key o) (key_enc_key_url o)
                    (akv_credential_source o))
  | Unwrap => show (UnwrapKey (attestation_url o) (nonce o) (sym_key o) (key_enc_key_url o)
                      (akv_credential_source o) (oaep_hash o) (mgf1_hash o))
  | BatchUnwrap =>
      batch_json ← batch_text (batch_input o);
      match batch_json with
      | None => mret EXIT_USAGE
      | Some batch_json =>
          show (UnwrapKeyBatch (attestation_url o) (nonce o) batch_json (key_enc_key_url o)
                  (akv_credential_source o) (oaep_hash o) (mgf1_hash o))
      end
  | Release => success ← ReleaseKey (attestation_url o) (nonce o) (key_enc_key_url o)
                           (akv_credential_source o);
               mret (if success : bool then 0 else EXIT_USAGE)
  | NoOperation => mret EXIT_USAGE
  end.

Definition ca_bundle : bytes := str "curl-ca-bundle.crt".
Definition candidates : list bytes :=
  [str "/etc/ssl/certs/ca-certificates.crt"; str "/etc/pki/tls/certs/ca-bundle.crt";
   str "/etc/ssl/ca-bundle.pem"; str "/etc/pki/tls/cacert.pem"; str "/etc/ssl/cert.pem"].
Fixpoint link_first (l : list bytes) : M F S unit :=
  match l with
  | [] => mret tt
  | p :: l' =>
      '(rc, regular) ← trig (stat p);
      if (rc =? 0) && regular then _ ← trig (symlink p ca_bundle); mret tt else link_first l'
  end.
Definition ensure_ca_bundle : M F S unit :=
  '(rc, _) ← trig (stat ca_bundle);
  if rc =? 0 then mret tt else link_first candidates.

(** [false] is [exit(-1)]. *)
Definition set_tracing : M F S bool :=
  skr_trace_flag ← nonempty_env "SKR_TRACE_ON";
  match skr_trace_flag with
  | None => mret true
  | Some flag =>
      if bool_decide (flag = str "1" \/ flag = str "2")
      then _ ← trig (print (str "Tracing is enabled")); mret true
      else mret false
  end.

(** [EXIT_FAILURE] and [EXIT_USAGE] are both 1. *)
Definition main_run (args : list (byte * bytes)) : M F S Z :=
  _ ← ensure_ca_bundle;
  traced ← set_tracing;
  if negb traced then mret (-1) else
  match read_options default_options args with
  | None => mret EXIT_USAGE
  | Some o =>
      try_catch (run_op o)
        (fun e => match e with
                  | SkrErr code _ => Some (mret code)
                  | e => if is_std_exception e then Some (mret EXIT_USAGE) else None
                  end)
  end.
(** An exception no clause catches ends the program. *)
Definition main (args : list (byte * bytes)) : M F S Z := noexcept_m (main_run args).
End App.
End Skr.
