(* ===== verification/SkrFacts.v ===== *)
(** * What the secure-key-release app guarantees

    The app exits with 0 only after a key was released for a token of an attested machine,
    and its other exits are the documented codes. *)

From S2P Require Import Prelude Base64 Json Ossl Esys GuestTpm JsonCpp JsonText Http ClientUtils Evidence TokenDecrypt AkCert Attest AttestFacts Skr.
#[local] Open Scope Z_scope.

Section Released.
Context {F : Type -> Type} {S : Type} `{Handler F S} `{EsysCall -< F} `{OsslCall -< F}
        `{FileCall -< F} `{CurlCall -< F} `{EvpCall -< F} `{CertCall -< F} `{UuidCall -< F}
        `{SkrCall -< F} `{Fuel}.
Context `{Bb : BoostBase64, Bs : BoostString, Ba : BoostAlgo, Jt : JsonText, Nj : NlohmannJson, Sj : !SkrJson}.
Variable order : gmap bytes bytes -> list (bytes * bytes).
Import Skr.

(** *** The parts of a release *)

(** The parameters of the attestation. *)
Definition skr_client (u n : bytes) : Client.ClientParameters :=
  {| Client.version := 1;
     Client.attestation_endpoint_url := Some (or_default u DEFAULT_ATTESTATION_URL);
     Client.client_payload :=
       Some (str "{" ++ in_quotes (str "nonce") ++ str ": " ++ in_quotes (or_default n NONCE) ++ str "}") |}.
Definition maa_token (u n token : bytes) (t : list (event F)) : Prop :=
  exists jwt, token = c_str jwt /\ attested order (skr_client u n) jwt t.

(** The key vault has answered 200 with [b] to the POST of the token. *)
Definition vault_answered (KEKUrl n token b : bytes) (t : list (event F)) : Prop :=
  exists access curl resp,
    Ev (inj (curl_easy_perform curl
      (release_request (KEKUrl ++ str "/release?api-version=7.3") access
         (request_body (or_default n NONCE) token)))) (0, resp) ∈ t /\
    status resp = 200 /\ body resp = b.

(** The key wrapped in [cipher]: its first 256 bytes decrypted by the TPM, the rest under the
    transfer key, and the result read as a private key. *)
Definition key_opened (cipher : bytes) (pkey : ptr) (t : list (event F)) : Prop :=
  exists transfer ctx out out2 bio,
    256 <= size cipher /\ 32 <= size transfer /\ size (out ++ out2) <= 8192 /\ is_null pkey = false /\
    tpm_decrypted (take 256 cipher) {| scheme := GuestTpm.RsaOaep; oaep_hashAlg := GuestTpm.RsaSha256 |} transfer t /\
    Ev (inj (EVP_DecryptInit_wrap_key ctx (take 32 transfer))) 1 ∈ t /\
    Ev (inj (EVP_DecryptUpdate ctx (drop 256 cipher))) (1, out) ∈ t /\
    Ev (inj (EVP_DecryptFinal_ex ctx)) (1, out2) ∈ t /\
    Ev (inj (BIO_new_mem_buf (out ++ out2))) bio ∈ t /\
    Ev (inj (d2i_PrivateKey_bio bio)) pkey ∈ t.

Definition released (u n KEKUrl : bytes) (pkey : ptr) (t : list (event F)) : Prop :=
  exists token b cipher t1 t2,
    t = t1 ++ t2 /\ maa_token u n token t1 /\ vault_answered KEKUrl n token b t2 /\
    wrapped_key_of b = Ret cipher /\ key_opened cipher pkey t2.

Lemma maa_token_grows u n : grows (maa_token u n).
Proof. intros tok t1 t t2 (jwt & -> & Ha). exists jwt. split; [done|]. by apply attested_grows. Qed.
Lemma vault_answered_grows k n tok : grows (vault_answered k n tok).
Proof. intros b t1 t t2 (a & c & r & Hin & ?). exists a, c, r. eauto with trace. Qed.
Lemma key_opened_grows c : grows (key_opened c).
Proof.
  intros p t1 t t2 (tr & ctx & o1 & o2 & bio & ? & ? & ? & ? & Ht & ? & ? & ? & ? & ?).
  exists tr, ctx, o1, o2, bio. split_and!; try done; [by apply grows_tpm_decrypted|eauto with trace..].
Qed.
Lemma released_grows u n k : grows (released u n k).
Proof.
  intros p t0 t t3 (tok & b & c & t1 & t2 & -> & Ht & Hv & Hc & Hk).
  exists tok, b, c, (t0 ++ t1), (t2 ++ t3). rewrite <- !app_assoc. split_and!; try done.
  - rewrite <- (app_nil_r t1). by apply maa_token_grows.
  - rewrite <- (app_nil_l (t2 ++ t3)). by apply vault_answered_grows.
  - rewrite <- (app_nil_l (t2 ++ t3)). by apply key_opened_grows.
Qed.

(** *** The steps *)

Lemma yields_throw {A} (Y : A -> Prop) e : yields (S := S) (E := F) Y (throw e).
Proof. apply yields_lift. discriminate. Qed.
Lemma yields_leave {A} (Y : A -> Prop) c w : yields (S := S) (E := F) Y (leave c w).
Proof. apply yields_bind. intros []. apply yields_throw. Qed.
Lemma yields_handle_errors {A} (Y : A -> Prop) : yields (S := S) (E := F) Y handle_errors.
Proof. apply yields_bind. intros w. apply yields_throw. Qed.
Lemma ends_never {A} (P : A -> list (event F) -> Prop) (m : M F S A) :
  yields (fun _ => False) m -> ends P m.
Proof. intros Hm s a Hr. destruct (Hm s a Hr). Qed.

(** A check that goes on only under [Q]. *)
Lemma ends_checked {A} (Q : Prop) (P : A -> list (event F) -> Prop) (m : M F S unit) (k : unit -> M F S A) :
  grows P -> yields (fun _ => Q) m -> (Q -> ends P (k tt)) -> ends P (m ≫= k).
Proof.
  intros HP Hm Hk. apply (ends_bind (fun _ _ => Q)); [by apply ends_yields|].
  intros [] t HQ. apply ends_lead; [done|by apply Hk].
Qed.
Lemma yields_is_one rc : yields (fun _ => rc = 1) (is_one (F := F) (S := S) rc).
Proof. unfold is_one. destruct (rc =? 1) eqn:E; [apply yields_ret; lia|apply yields_handle_errors]. Qed.

Lemma ends_GetMAAToken u n : ends (maa_token u n) (GetMAAToken order (S := S) u n).
Proof.
  assert (Hg := maa_token_grows u n). unfold GetMAAToken. apply ends_after; [done|].
  intros []; cbn [negb]; [|apply ends_never, yields_leave]. eapply ends_before; [done|apply ends_Attest|].
  intros [result jwt] t Ha. cbn [fst snd] in Ha. cbn beta iota.
  destruct (bool_decide (code_ result = SUCCESS)) eqn:Ec; cbn [negb]; [|apply yields_leave].
  apply bool_decide_eq_true in Ec. destruct (Ha Ec) as [_ Hatt].
  destruct (bool_decide _); [apply yields_leave|].
  apply yields_bind. intros claims. apply yields_bind. intros []. apply yields_ret. by exists jwt.
Qed.

Lemma ends_perform c req prefix b :
  ends (fun r t => exists curl, Ev (inj (curl_easy_perform curl req)) (0, r) ∈ t)
    (perform (F := F) (S := S) c req prefix b).
Proof.
  assert (Hg : grows (fun (r : response) (t : list (event F)) =>
                 exists curl, Ev (inj (curl_easy_perform curl req)) (0, r) ∈ t)).
  { intros r t1 t t2 (curl & ?). exists curl. eauto with trace. }
  unfold perform. eapply ends_before; [done|apply ends_trig; intros r;
    instantiate (1 := fun r t => t = [Ev (inj (curl_easy_perform c req)) r]); done|].
  intros [rc resp] t ->. cbn beta iota. destruct (rc =? 0) eqn:E.
  - apply yields_bind. intros []. apply yields_ret. exists c. replace rc with 0 by lia. apply elem_single.
  - do 3 (apply yields_bind; intros ?). apply yields_throw.
Qed.
Lemma ends_GetKeyVaultResponse k n a tok :
  ends (vault_answered k n tok) (GetKeyVaultResponse (F := F) (S := S) (GetKeyVaultSKRurl k) a tok n).
Proof.
  assert (Hg := vault_answered_grows k n tok). unfold GetKeyVaultResponse, GetKeyVaultResponseCurl.
  apply ends_after; [done|]. intros c. destruct (is_null c); [apply ends_never, yields_throw|].
  do 9 (apply ends_after; [done|]; intros ?). eapply ends_before; [done|apply ends_perform|].
  intros r t (curl & Hin). cbn beta. destruct (status r =? 200) eqn:Es; cbn [negb]; [|apply yields_throw].
  apply yields_ret. exists a, curl, r. split_and!; [exact Hin|lia|done].
Qed.

Lemma ends_Decrypt d n w h :
  ends (fun r t => code_ (fst r) = SUCCESS -> exists x, d = Some x /\ n <= size x /\
          tpm_decrypted (take (Z.to_nat n) x) {| scheme := w; oaep_hashAlg := h |} (snd r) t)
    (Client.Decrypt (S := S) Client.NONE d n true w h).
Proof.
  unfold Client.Decrypt. apply ends_noexcept. destruct d as [x|]; [|by apply ends_ret].
  destruct (n <=? 0); [by apply ends_ret|].
  set (P := fun (k : bytes) (t : list (event F)) => n <= size x /\
    tpm_decrypted (take (Z.to_nat n) x) {| scheme := w; oaep_hashAlg := h |} k t).
  assert (Hg : grows P). { intros k t1 t t2 [? ?]. split; [done|by apply grows_tpm_decrypted]. }
  assert (Hg' : grows (fun (r : AttestationResult * bytes) t => code_ (fst r) = SUCCESS -> exists y, Some x = Some y
    /\ n <= size y /\ tpm_decrypted (F := F) (take (Z.to_nat n) y) {| scheme := w; oaep_hashAlg := h |} (snd r) t)).
  { intros r t1 t t2 Hr Hc. destruct (Hr Hc) as (y & ? & ? & ?). exists y. split_and!; try done.
    by apply grows_tpm_decrypted. }
  apply ends_try_all; [done| |].
  2: { intros e. apply ends_ret. destruct e; simpl; discriminate. }
  apply (ends_before P); [done| |].
  2: { intros k t [Hs Hk]. apply yields_ret. intros _. by exists x. }
  unfold GuestTpm.with_Tss2Ctx. do 3 (apply ends_after; [done|]; intros ?). apply ends_finally; [done|].
  apply ends_after; [done|]. intros pcrs.
  destruct (size x <? n) eqn:E; [apply ends_never, yields_bind_strong with (Z := fun _ => False); [|done];
    apply yields_lift; discriminate|].
  apply (ends_bind (fun y t => y = take (Z.to_nat n) x)); [by apply ends_ret|].
  intros y t ->. eapply ends_mono; [apply ends_DecryptWithEphemeralKey|].
  intros k t2 Hk. split; [lia|]. rewrite <- (app_nil_r t2). by apply grows_tpm_decrypted.
Qed.
(** What holds when a computation returns, as a weakest precondition. *)
Definition on_ret {A} (P : A -> list (event F) -> Prop) : post_cond F S A :=
  fun o _ t => match o with Ret a => P a t | _ => True end.
Lemma ends_wp {A} (P : A -> list (event F) -> Prop) (m : M F S A) :
  (forall s, wp m s (on_ret P)) -> ends P m.
Proof. intros Hm s a Ha. specialize (Hm s). unfold wp, on_ret in Hm. by rewrite Ha in Hm. Qed.
Lemma wp_from_ends {A} (Q : A -> list (event F) -> Prop) (m : M F S A) s (R : post_cond F S A) :
  ends Q m -> (forall o s' t, (forall a, o <> Ret a) -> R o s' t) ->
  (forall a s' t, Q a t -> R (Ret a) s' t) -> wp m s R.
Proof.
  intros Hm Hf Hr. unfold wp. specialize (Hm s). destruct (m s) as [[a|e|x] s1 t1]; simpl in *.
  - by apply Hr, Hm.
  - by apply Hf.
  - by apply Hf.
Qed.
Lemma wp_checked {A} (Q : Prop) (m : M F S unit) s (k : unit -> M F S A) (P : post_cond F S A) :
  yields (fun _ => Q) m -> (forall o s' t, (forall a, o <> Ret a) -> P o s' t) ->
  (Q -> forall s1 t, wp (k tt) s1 (fun o s2 t2 => P o s2 (t ++ t2))) -> wp (m ≫= k) s P.
Proof.
  intros Hm HP Hk. apply wp_bind. unfold wp. specialize (Hm s).
  destruct (m s) as [[[]|e|x] s1 t1]; simpl in *; [|by apply HP..].
  apply Hk. by apply (Hm tt).
Qed.

Definition unwrapped (key cipher plain : bytes) (t : list (event F)) : Prop :=
  exists ctx out out2, 32 <= size key /\ size (out ++ out2) <= 8192 /\ plain = out ++ out2 /\
    Ev (inj (EVP_DecryptInit_wrap_key ctx (take 32 key))) 1 ∈ t /\
    Ev (inj (EVP_DecryptUpdate ctx cipher)) (1, out) ∈ t /\
    Ev (inj (EVP_DecryptFinal_ex ctx)) (1, out2) ∈ t.
Lemma unwrapped_grows k c : grows (unwrapped k c).
Proof.
  intros p t1 t t2 (ctx & o1 & o2 & ? & ? & ? & ? & ? & ?). exists ctx, o1, o2. split_and!; eauto with trace.
Qed.
Ltac check_step Q := apply (wp_checked Q); [ |by intros [] ? ? Hr; try destruct (Hr _ eq_refl)|intros ? ? ?].
Lemma ends_unwrap key c : ends (unwrapped key c) (decrypt_aes_key_unwrap (S := S) key c).
Proof.
  apply ends_wp. intros s. unfold decrypt_aes_key_unwrap. apply wp_bind, wp_trig. intros ctx ? _. cbn beta iota.
  check_step True. { done. }
  apply wp_bind, wp_trig. intros [] ? _. cbn beta iota. apply wp_bind, wp_trig. intros r ? _. cbn beta iota.
  check_step True. { done. }
  check_step (32 <= size key). { destruct (size key <? 32) eqn:E; [apply yields_lift; discriminate|apply yields_ret; lia]. }
  apply wp_bind, wp_trig. intros r1 ? _. cbn beta iota. check_step (r1 = 1). { apply yields_is_one. }
  apply wp_bind, wp_trig. intros [r2 out] ? _. cbn beta iota. check_step True. { done. }
  check_step (r2 = 1). { apply yields_is_one. }
  apply wp_bind, wp_trig. intros [r3 out2] ? _. cbn beta iota.
  check_step (size (out ++ out2) <= 8192).
  { destruct (_ <? _) eqn:E; [apply yields_lift; discriminate|apply yields_ret]. unfold private_key_size in E. lia. }
  check_step (r3 = 1). { apply yields_is_one. }
  apply wp_bind, wp_trig. intros [] ? _. cbn beta iota. apply wp_ret. subst.
  exists ctx, out, out2. split_and!; try done; eauto 30 with trace.
Qed.
Ltac fails := by intros [] ? ? Hr; try destruct (Hr _ eq_refl).
Lemma wp_leave {A} c w s (R : post_cond F S A) :
  (forall o s' t, (forall a, o <> Ret a) -> R o s' t) -> wp (leave c w) s R.
Proof.
  intros HR. apply (wp_from_ends (fun _ _ => False)); [apply ends_never, yields_leave|done|done].
Qed.
Definition key_read (plain : bytes) (p : ptr) (t : list (event F)) : Prop :=
  is_null p = false /\ exists bio, Ev (inj (BIO_new_mem_buf plain)) bio ∈ t /\
    Ev (inj (d2i_PrivateKey_bio bio)) p ∈ t.
Lemma ends_read_private_key plain : ends (key_read plain) (read_private_key (S := S) plain).
Proof.
  apply ends_wp. intros s. unfold read_private_key.
  destruct (size plain =? 0); [by apply wp_leave; fails|].
  apply wp_bind, wp_trig. intros bio ? _. cbn beta iota. destruct (is_null bio); [by apply wp_leave; fails|].
  apply wp_bind, wp_trig. intros pkey ? _. cbn beta iota. apply wp_bind, wp_trig. intros [] ? _. cbn beta iota.
  destruct (is_null pkey) eqn:En.
  - apply wp_bind. eapply wp_from_ends; [apply (ends_yields (fun _ => True)); done|fails|].
    intros w ? t3 _. cbn beta iota. by apply wp_leave; fails.
  - apply wp_bind, wp_trig. intros [] ? _. apply wp_ret. split; [done|]. exists bio. split; eauto with trace.
Qed.
Lemma ends_open_key c : ends (key_opened c) (open_key (S := S) c).
Proof.
  apply ends_wp. intros s. unfold open_key. apply wp_bind, wp_trig.
  intros [] ? _; cbn beta iota; cbn [negb]; [|by apply wp_leave; fails].
  apply wp_bind. eapply wp_from_ends; [apply ends_Decrypt|fails|].
  intros [result transfer] ? t1 Hd. cbn [fst snd] in Hd. cbn beta iota.
  destruct (bool_decide (code_ result = SUCCESS)) eqn:Ec; cbn [negb]; [|by apply wp_leave; fails].
  apply bool_decide_eq_true in Ec. destruct (Hd Ec) as (x & Hx & Hsz & Ht).
  assert (x = c) as -> by (destruct c; by inversion Hx).
  apply wp_bind. eapply wp_from_ends; [apply ends_unwrap|fails|].
  intros plain ? t2 (ctx & out & out2 & Hk & Hp & -> & Hi & Hu & Hfin). cbn beta iota.
  eapply wp_from_ends; [apply ends_read_private_key|fails|]. intros p ? t3 [Hn (bio & Hb1 & Hb2)].
  exists transfer, ctx, out, out2, bio. split_and!; try done; try (eauto 8 with trace).
  by apply grows_tpm_decrypted.
Qed.

Lemma ends_doSKR u n k src : ends (released u n k) (doSKR order (S := S) u n k src).
Proof.
  unfold doSKR. apply ends_try; [apply released_grows| |].
  2: { intros e m Hm. apply ends_never. destruct e; simplify_eq/=; apply yields_throw. }
  apply ends_wp. intros s. unfold release. apply wp_bind. eapply wp_from_ends; [apply ends_GetMAAToken|fails|].
  intros tok ? t1 Htok. cbn beta iota.
  destruct tok as [|x l] eqn:Etok; [by apply wp_lift|]. rewrite <- Etok in *. clear Etok.
  apply wp_bind. eapply wp_from_ends; [by apply (ends_yields (fun _ => True))|fails|]. intros access ? t2 _. cbn beta iota.
  apply wp_bind. eapply wp_from_ends; [apply ends_GetKeyVaultResponse|fails|]. intros b ? t3 Hb. cbn beta iota.
  apply wp_bind, wp_lift. destruct (wrapped_key_of b) as [c|e|f] eqn:Ec; [|done..]. cbn beta iota.
  eapply wp_from_ends; [apply ends_open_key|fails|]. intros p ? t4 Hp.
  exists tok, b, c, t1, (t2 ++ t3 ++ t4). split_and!; try done.
  - by apply vault_answered_grows.
  - rewrite <- (app_nil_r t4). rewrite app_assoc. by apply key_opened_grows.
Qed.
End Released.

(** ** Exceptions and exit codes *)

(** Derived from [std::exception], and a [skr_error] has one of the codes. *)
Definition coded (e : exn) : Prop :=
  match e with SkrErr c _ => 1 <= c <= 6 | UnknownThrown => False | _ => True end.

Section Codes.
Context `{Bb : BoostBase64, !BoostBase64Laws, Bs : BoostString, Ba : BoostAlgo, Jt : JsonText}.
Context `{Nj : NlohmannJson, !NlohmannLaws, Sj : !SkrJson, !SkrJsonLaws}.
Import Skr.

Lemma skr_json_coded {A} (m : outcome A) : json_throws_json m -> othrows coded m.
Proof. intros Hm e ->. by destruct e. Qed.
Lemma coded_parse s : othrows coded (json_parse s).
Proof. apply skr_json_coded, parse_errors. Qed.
Lemma skr_index_coded j k : othrows coded (json_index j k).
Proof. apply skr_json_coded, index_errors. Qed.
Lemma coded_string j : othrows coded (json_get_string j).
Proof. apply skr_json_coded, Json.get_string_errors. Qed.
Lemma skr_set_coded j k v : othrows coded (json_set j k v).
Proof. apply skr_json_coded, set_errors. Qed.
Lemma coded_member j k : othrows coded (x ← json_index j k; json_get_string x.2).
Proof. apply othrows_bind; [apply skr_index_coded|]. intros. apply coded_string. Qed.
Lemma coded_b64 t : othrows coded (b64_bytes t).
Proof. intros e He. by destruct (bytes_errors t e He) as (w & ->). Qed.
Lemma coded_decoders t :
  othrows coded (SkrUtil.base64_to_binary t) /\ othrows coded (SkrUtil.base64url_to_binary t) /\
  othrows coded (SkrUtil.base64_decode t).
Proof.
  assert (Hd : forall t, othrows coded (SkrUtil.base64_to_binary t)).
  { intros u. apply othrows_bind; [apply coded_b64|]. intros. apply othrows_ret. }
  split_and!; [apply Hd|apply Hd|]. apply othrows_bind; [apply coded_b64|]. intros. apply othrows_ret.
Qed.
Lemma coded_string_at path j : othrows coded (string_at j path).
Proof.
  revert j. induction path as [|k path IH]; intros j; simpl; [apply coded_string|].
  apply othrows_bind; [apply skr_index_coded|]. intros. apply IH.
Qed.
Lemma coded_resource k b : othrows coded (getResourceUrl k b).
Proof.
  unfold getResourceUrl. repeat case_match; try apply othrows_ret. apply othrows_throw. unfold EXIT_USAGE. simpl. lia.
Qed.
Lemma coded_md n : othrows coded (get_evp_md_by_name n).
Proof. unfold get_evp_md_by_name. repeat case_match; try apply othrows_ret. by apply othrows_throw. Qed.
Lemma coded_optional_md n : othrows coded (optional_md n).
Proof. destruct n; [apply othrows_ret|]. apply othrows_bind; [apply coded_md|]. intros. apply othrows_ret. Qed.
Lemma coded_wrapped_key b : othrows coded (wrapped_key_of b).
Proof.
  unfold wrapped_key_of. apply othrows_bind; [apply coded_parse|]. intros j.
  apply othrows_bind; [apply coded_string_at|]. intros tok. case_match.
  { apply othrows_throw. unfold skr_error, EXIT_SKR_FAIL. simpl. lia. }
  do 6 (apply othrows_bind; [first [apply coded_decoders|apply coded_parse|apply coded_string_at]|]; intros ?).
  apply coded_decoders.
Qed.
Lemma coded_batch b : othrows coded (batch_keys b).
Proof.
  unfold batch_keys, EXIT_USAGE. apply othrows_bind.
  - assert (Hp := coded_parse b). destruct (json_parse b) as [j|e|f]; [apply othrows_ret| |by intros e].
    destruct_exn e; try (by intros x [= <-]; apply (Hp _ eq_refl)).
    apply othrows_throw. simpl. lia.
  - intros j. case_match; [apply othrows_throw; simpl; lia|]. apply othrows_bind; [apply skr_index_coded|].
    intros x. case_match; [apply othrows_ret|apply othrows_throw; simpl; lia].
Qed.
Lemma coded_detail j d : othrows coded (error_detail j d).
Proof. unfold error_detail. repeat case_match; try apply othrows_ret; apply coded_member. Qed.

(** The same for the computations. *)
Context {F : Type -> Type} {S : Type} `{Handler F S} `{EsysCall -< F} `{OsslCall -< F}
        `{FileCall -< F} `{CurlCall -< F} `{EvpCall -< F} `{CertCall -< F} `{UuidCall -< F}
        `{SkrCall -< F} `{Fuel}.
Variable order : gmap bytes bytes -> list (bytes * bytes).

Lemma codes_skr c w : 1 <= c <= 6 -> coded (SkrErr c w).
Proof. done. Qed.
#[local] Hint Extern 1 (coded (SkrErr _ _)) =>
  apply codes_skr; unfold EXIT_USAGE, EXIT_ATTEST_FAIL, EXIT_AUTH_FAIL, EXIT_SKR_FAIL, EXIT_CRYPTO_FAIL,
    EXIT_NETWORK_FAIL; lia : throws.
#[local] Hint Extern 1 (coded (skr_error _ _)) => unfold skr_error : throws.
#[local] Hint Extern 1 (coded (runtime_error _)) => exact I : throws.
#[local] Hint Resolve coded_resource coded_md coded_optional_md coded_wrapped_key coded_batch coded_detail
  coded_parse coded_member skr_set_coded : throws.
Notation safe := (throws (E := F) (S := S) coded).

Lemma safe_error_queue n o : safe (error_queue n o).
Proof. revert o. induction n as [|n IH]; intros o; simpl; throws_go. Qed.
#[local] Hint Resolve safe_error_queue : throws.
Lemma safe_handle_errors {A} : safe (handle_errors (A := A)).
Proof. unfold handle_errors. throws_go. Qed.
#[local] Hint Resolve safe_handle_errors : throws.
Lemma safe_positive rc : safe (positive rc).
Proof. unfold positive. throws_go. Qed.
Lemma safe_is_one rc : safe (is_one rc).
Proof. unfold is_one. throws_go. Qed.
Lemma safe_leave {A} c w : 1 <= c <= 6 -> safe (leave (A := A) c w).
Proof. intros Hc. unfold leave. throws_go. Qed.
Lemma safe_setopt c o w : safe (setopt c o w).
Proof. unfold setopt. throws_go. Qed.
Lemma safe_setopt_text c o : safe (setopt_text c o).
Proof. unfold setopt_text. throws_go. Qed.
Lemma safe_perform c r p b : safe (perform c r p b).
Proof. unfold perform. throws_go. Qed.
Lemma safe_url_encode d : safe (url_encode d).
Proof. unfold url_encode, TRACE_ERROR_EXIT. throws_go. Qed.
Lemma safe_env n : safe (nonempty_env n).
Proof. unfold nonempty_env. throws_go. Qed.
#[local] Hint Resolve safe_positive safe_is_one safe_setopt safe_setopt_text safe_perform safe_url_encode
  safe_env : throws.
Lemma safe_GetImdsTokenUrl u : safe (GetImdsTokenUrl u).
Proof. unfold GetImdsTokenUrl. throws_go. Qed.
#[local] Hint Resolve safe_GetImdsTokenUrl : throws.
Lemma coded_total (d : outcome bytes) b :
  othrows coded (match d with Ret x => Ret x | Throw _ => Ret b | Fault f => Fault f end).
Proof. destruct d; [apply othrows_ret|apply othrows_ret|by intros e]. Qed.
#[local] Hint Resolve coded_total : throws.
Lemma safe_GetIMDSToken k : safe (GetIMDSToken k).
Proof. unfold GetIMDSToken, TRACE_ERROR_EXIT. throws_go. Qed.
Lemma safe_GetAADToken k : safe (GetAADToken k).
Proof. unfold GetAADToken. throws_go. Qed.
Lemma safe_GetKeyVaultResponse u a t n : safe (GetKeyVaultResponse u a t n).
Proof. unfold GetKeyVaultResponse, GetKeyVaultResponseCurl, TRACE_ERROR_EXIT. throws_go. Qed.
Lemma safe_GetMAAToken u n : safe (GetMAAToken order u n).
Proof.
  unfold GetMAAToken, EXIT_ATTEST_FAIL. throws_go; try (apply safe_leave; lia).
  apply othrows_bind; [apply coded_decoders|]. intros. apply coded_parse.
Qed.
Lemma safe_unwrap k c : safe (decrypt_aes_key_unwrap k c).
Proof. unfold decrypt_aes_key_unwrap. throws_go. Qed.
Lemma safe_read_private_key p : safe (read_private_key p).
Proof. unfold read_private_key, EXIT_CRYPTO_FAIL. throws_go; apply safe_leave; lia. Qed.
#[local] Hint Resolve safe_GetIMDSToken safe_GetAADToken safe_GetKeyVaultResponse safe_GetMAAToken safe_unwrap
  safe_read_private_key : throws.
Lemma safe_open_key c : safe (open_key c).
Proof.
  unfold open_key, EXIT_CRYPTO_FAIL, EXIT_SKR_FAIL. throws_go; try (apply safe_leave; lia).
Qed.
#[local] Hint Resolve safe_open_key : throws.
Lemma safe_release u n k src : safe (release order u n k src).
Proof. unfold release. throws_go. Qed.
#[local] Hint Resolve safe_release : throws.
Lemma safe_doSKR u n k src : safe (doSKR order u n k src).
Proof.
  unfold doSKR. apply throws_try; [throws_go|]. intros e m Hm. destruct e; simplify_eq/=; throws_go.
Qed.
#[local] Hint Resolve safe_doSKR : throws.
Lemma safe_rsa_encrypt p m : safe (rsa_encrypt p m).
Proof. unfold rsa_encrypt. throws_go. Qed.
Lemma safe_rsa_decrypt p m o g : safe (rsa_decrypt p m o g).
Proof. unfold rsa_decrypt. throws_go. Qed.
Lemma safe_try_all {A} (m : M F S A) h :
  safe m -> (forall e, coded e -> safe (h e)) -> safe (try_all m h).
Proof. intros Hm Hh. by apply (throws_caught coded). Qed.
Lemma safe_rsa_decrypt_safe p m o g : safe (rsa_decrypt_safe p m o g).
Proof.
  unfold rsa_decrypt_safe, positive_safe. apply throws_bind; [throws_go|]. intros c.
  apply throws_bind; [throws_go|]. intros []. apply throws_bind; [|intros d; throws_go].
  apply safe_try_all; [throws_go|]. intros e He. throws_go.
Qed.
#[local] Hint Resolve safe_rsa_encrypt safe_rsa_decrypt safe_rsa_decrypt_safe : throws.

Lemma safe_not_rsa {A} p w : safe (not_rsa (A := A) p w).
Proof. unfold not_rsa. throws_go. Qed.
#[local] Hint Resolve safe_not_rsa : throws.
Lemma safe_WrapKey u n m k src : safe (WrapKey order u n m k src).
Proof. unfold WrapKey. throws_go. Qed.
Lemma safe_UnwrapKey u n m k src h g : safe (UnwrapKey order u n m k src h g).
Proof. unfold UnwrapKey. throws_go; apply coded_decoders. Qed.
Lemma safe_entry_key p o g j r : safe (entry_key p o g j r).
Proof. unfold entry_key. throws_go; try apply coded_decoders; try apply coded_string. exact I. Qed.
Lemma safe_entry p o g i j : safe (unwrap_entry p o g i j).
Proof.
  unfold unwrap_entry. apply throws_bind; [apply throws_lift, skr_json_coded, value_errors|]. intros id.
  apply throws_bind; [throws_go|]. intros r. apply throws_try; [apply safe_entry_key|].
  intros e m Hm. destruct (is_std_exception e); simplify_eq. throws_go.
Qed.
Lemma safe_entries p o g i l : safe (unwrap_entries p o g i l).
Proof.
  revert i. induction l as [|j l IH]; intros i; simpl; [throws_go|].
  apply throws_bind; [apply safe_entry|]. intros r. throws_go.
Qed.
#[local] Hint Resolve safe_WrapKey safe_UnwrapKey safe_entries : throws.
Lemma safe_UnwrapKeyBatch u n b k src h g : safe (UnwrapKeyBatch order u n b k src h g).
Proof. unfold UnwrapKeyBatch. throws_go. apply skr_json_coded, pretty_errors. Qed.
Lemma safe_ReleaseKey u n k src : safe (ReleaseKey order u n k src).
Proof. unfold ReleaseKey. throws_go. Qed.
#[local] Hint Resolve safe_UnwrapKeyBatch safe_ReleaseKey : throws.
Lemma safe_run_op o : safe (run_op order o).
Proof. unfold run_op, show, batch_text. throws_go. Qed.
End Codes.

(** ** The theorems *)

Section Theorems.
Context `{Bb : BoostBase64, !BoostBase64Laws, Bs : BoostString, Ba : BoostAlgo, Jt : JsonText}.
Context `{Nj : NlohmannJson, !NlohmannLaws, Sj : !SkrJson, !SkrJsonLaws}.
Context {F : Type -> Type} {S : Type} `{Handler F S} `{EsysCall -< F} `{OsslCall -< F}
        `{FileCall -< F} `{CurlCall -< F} `{EvpCall -< F} `{CertCall -< F} `{UuidCall -< F}
        `{SkrCall -< F} `{Fuel}.
Variable order : gmap bytes bytes -> list (bytes * bytes).
Import Skr.

(** What uses the released key returns only after a release. *)
Definition key_out (u n k : bytes) (t : list (event F)) : Prop := exists pkey, released order u n k pkey t.
Lemma key_out_grows {A} u n k : grows (fun (_ : A) => key_out u n k).
Proof. intros a t1 t t2 (p & Hp). exists p. by apply released_grows. Qed.
#[local] Hint Resolve key_out_grows : core.
Lemma ends_with_key {A} u n k src (f : ptr -> M F S A) :
  ends (fun _ => key_out u n k) (doSKR order u n k src ≫= f).
Proof.
  eapply ends_before; [done|apply ends_doSKR|]. intros p t Hp ? ? ?. by exists p.
Qed.
Lemma ends_UnwrapKeyBatch u n b k src h g :
  ends (S := S) (fun _ => key_out u n k) (UnwrapKeyBatch order u n b k src h g).
Proof. apply ends_after; [done|]. intros keys. apply ends_with_key. Qed.
Lemma ends_ReleaseKey u n k src : ends (S := S) (fun _ => key_out u n k) (ReleaseKey order u n k src).
Proof. apply ends_with_key. Qed.

(** The exit code of an operation is 0 only after a release. *)
Definition done_with (o : options) (r : Z) (t : list (event F)) : Prop :=
  r = 0 -> op o <> NoOperation /\ key_out (attestation_url o) (nonce o) (key_enc_key_url o) t.
Lemma done_with_grows o : grows (done_with o).
Proof. intros r t1 t t2 Hr E. destruct (Hr E) as (? & p & Hp). split; [done|]. exists p. by apply released_grows. Qed.
Lemma ends_to_done {A} o (m : M F S A) (f : A -> M F S Z) :
  op o <> NoOperation ->
  ends (fun _ => key_out (attestation_url o) (nonce o) (key_enc_key_url o)) m -> ends (done_with o) (m ≫= f).
Proof.
  intros Ho Hm. eapply ends_before; [apply done_with_grows|exact Hm|]. intros a t Ha ? ? ? ?. done.
Qed.
Lemma ends_run_op o : ends (done_with o) (run_op order (S := S) o).
Proof.
  unfold run_op, show. destruct (op o) eqn:Eo.
  - by apply ends_ret.
  - apply ends_to_done; [by rewrite Eo|apply ends_with_key].
  - apply ends_to_done; [by rewrite Eo|apply ends_with_key].
  - apply ends_after; [apply done_with_grows|]. intros [txt|]; [|by apply ends_ret].
    apply ends_to_done; [by rewrite Eo|apply ends_UnwrapKeyBatch].
  - apply ends_to_done; [by rewrite Eo|apply ends_ReleaseKey].
Qed.

(** C3: The app only succeeds by releasing a key. When it exits with 0, its options were accepted
    and name an operation, and in this run: [Attest] handed out a token for the configured URL
    and nonce (after its evidence checks, over https), the key vault answered 200 to the POST of
    that token to the release URL of the configured key, the TPM decrypted the first 256 bytes
    of the wrapped key with OAEP, and the rest, unwrapped under the first 32 bytes of the
    result, was read as a private key. *)
Theorem key_released args s :
  res (main order args s) = Ret 0 ->
  exists o pkey, read_options default_options args = Some o /\ op o <> NoOperation /\
    released order (attestation_url o) (nonce o) (key_enc_key_url o) pkey (evs (main order args s)).
Proof.
  set (P := fun (r : Z) (t : list (event F)) => r = 0 -> exists o pkey,
    read_options default_options args = Some o /\ op o <> NoOperation /\
    released order (attestation_url o) (nonce o) (key_enc_key_url o) pkey t).
  assert (Hg : grows P).
  { intros r t1 t t2 Hr E. destruct (Hr E) as (o & p & ? & ? & Hp). exists o, p. split_and!; [done..|].
    by apply released_grows. }
  enough (Hm : ends P (main order (S := S) args)) by (intros Hr; by apply (Hm s 0 Hr)).
  apply ends_noexcept, ends_after; [done|]. intros _. apply ends_after; [done|].
  intros []; cbn [negb]; [|by apply ends_ret]. destruct (read_options default_options args) as [o|] eqn:Eo;
    [|by apply ends_ret].
  apply (ends_caught coded); [apply safe_run_op|done| |].
  - eapply ends_mono; [apply ends_run_op|]. intros r t Hd E. destruct (Hd E) as (Ho & p & Hp). by exists o, p.
  - intros e k He Hk. destruct e; simplify_eq/=; try done; apply ends_ret; intros E; first [discriminate|simpl in *; lia].
Qed.

(** *** Exit codes *)

Lemma yields_run_op o : yields (fun r => r = 0 \/ r = 1) (run_op order (S := S) o).
Proof.
  assert (Hs : forall m : M F S bytes, yields (fun r => r = 0 \/ r = 1) (show m)).
  { intros m. unfold show. do 2 (apply yields_bind; intros ?). apply yields_ret. by left. }
  unfold run_op. destruct (op o); try apply Hs; [by apply yields_ret; right| |].
  - apply yields_bind. intros [txt|]; [apply Hs|]. apply yields_ret. by right.
  - apply yields_bind. intros []; apply yields_ret; [by left|by right].
Qed.
Lemma yields_main_run args : yields (fun r => -1 <= r <= 6) (main_run order (S := S) args).
Proof.
  unfold main_run. apply yields_bind. intros _. apply yields_bind.
  intros []; cbn [negb]; [|apply yields_ret; lia].
  destruct (read_options default_options args) as [o|]; [|apply yields_ret; unfold EXIT_USAGE; lia].
  enough (He : ends (fun r _ => -1 <= r <= 6) (try_catch (run_op order (S := S) o)
    (fun e => match e with SkrErr code _ => Some (mret code)
              | e => if is_std_exception e then Some (mret EXIT_USAGE) else None end))) by exact He.
  apply (ends_caught coded); [apply safe_run_op|by intros ?|apply ends_yields|].
  - intros s r Hr. destruct (yields_run_op o s r Hr); lia.
  - intros e k He Hk. destruct e; simplify_eq/=; try done; apply ends_ret; unfold EXIT_USAGE; lia.
Qed.
Lemma throws_main_run args : throws (fun _ => False) (main_run order (S := S) args).
Proof.
  unfold main_run, ensure_ca_bundle, set_tracing, nonempty_env. apply throws_bind.
  { throws_go. unfold candidates. simpl. throws_go. }
  intros _. apply throws_bind; [throws_go|]. intros []; cbn [negb]; [|throws_go].
  destruct (read_options default_options args) as [o|]; [|throws_go].
  apply (throws_caught coded); [apply safe_run_op|]. intros e He. destruct e; simpl in *; try done; throws_go.
Qed.
Lemma throws_doSKR u n k src :
  throws (fun e => exists c w, e = SkrErr c w /\ 1 <= c <= 6) (doSKR order (S := S) u n k src).
Proof.
  unfold doSKR. apply (throws_caught coded); [apply safe_release|]. intros e He.
  destruct e; simpl in *; eauto; try done; apply throws_throw; unfold EXIT_SKR_FAIL; eexists _, _; split; try done; lia.
Qed.

(** C30: Every failure becomes an exit code. Whatever the network, the TPM, OpenSSL and the inputs
    do, [doSKR] throws nothing but [skr_error] with one of the codes 1 to 6 of the header, no
    exception leaves [main], and a value it returns is -1 (a bad tracing flag), 0, or one of
    those codes. *)
Theorem exit_codes args u n k src s :
  (forall e, res (doSKR order u n k src s) = Throw e -> exists c w, e = SkrErr c w /\ 1 <= c <= 6) /\
  (forall e, res (main_run order args s) <> Throw e) /\
  (forall r, res (main order args s) = Ret r -> -1 <= r <= 6).
Proof.
  split_and!.
  - apply throws_doSKR.
  - intros e He. by apply (throws_main_run args s e).
  - intros r. unfold main, noexcept_m. assert (Hy := yields_main_run args s).
    destruct (main_run order args s) as [[a|x|f] s1 t1]; simpl in *; [apply Hy|done..].
Qed.
End Theorems.
