(* ===== verification/SkrKeys.v ===== *)
(** * What WrapKey, UnwrapKey and UnwrapKeyBatch do with the released key

    The OpenSSL calls behind what they return: OAEP with the named digests, the wrapped key
    without its trailing zero bytes, and one result per entry of a batch, whatever fails. *)

From S2P Require Import Prelude Base64 Json Ossl Esys GuestTpm JsonCpp JsonText Http ClientUtils Evidence TokenDecrypt AkCert Attest AttestFacts Skr SkrFacts.
#[local] Open Scope Z_scope.

(** A call that succeeds or fails without a result. *)
Ltac failed := by intros [] ? ? Hr; try destruct (Hr _ eq_refl).
Tactic Notation "called" simple_intropattern(r) := apply wp_bind, wp_trig; intros r ? _; cbn beta iota.

Section Crypto.
Context {F : Type -> Type} {S : Type} `{Handler F S} `{OsslCall -< F} `{EvpCall -< F} `{SkrCall -< F} `{Fuel}.
Import Skr.

(** [raw] is what OpenSSL makes of [msg] under [pkey], RSA with OAEP and these digests. *)
Definition rsa_decrypted (pkey : ptr) (msg : bytes) (oaep_md : md) (mgf1_md : option md) (raw : bytes)
    (t : list (event F)) : Prop :=
  exists ctx room rc r1 r2 r3, 0 < rc /\ 0 < r1 /\ 0 < r2 /\ 0 < r3 /\
    Ev (inj (EVP_PKEY_CTX_new_pkey pkey)) ctx ∈ t /\
    Ev (inj (EVP_PKEY_CTX_set_rsa_padding ctx Crypto.RSA_PKCS1_OAEP_PADDING)) r1 ∈ t /\
    Ev (inj (EVP_PKEY_CTX_set_rsa_oaep_md ctx oaep_md)) r2 ∈ t /\
    Ev (inj (EVP_PKEY_CTX_set_rsa_mgf1_md ctx (default oaep_md mgf1_md))) r3 ∈ t /\
    Ev (inj (EVP_PKEY_decrypt ctx room msg)) (rc, raw) ∈ t.
Definition rsa_encrypted (pkey : ptr) (msg raw : bytes) (t : list (event F)) : Prop :=
  exists ctx room rc r1 r2, 0 < rc /\ 0 < r1 /\ 0 < r2 /\
    Ev (inj (EVP_PKEY_CTX_new_pkey pkey)) ctx ∈ t /\
    Ev (inj (EVP_PKEY_CTX_set_rsa_padding ctx Crypto.RSA_PKCS1_OAEP_PADDING)) r1 ∈ t /\
    Ev (inj (EVP_PKEY_CTX_set_rsa_oaep_md ctx SHA256)) r2 ∈ t /\
    Ev (inj (EVP_PKEY_encrypt ctx room msg)) (rc, raw) ∈ t.
Lemma rsa_decrypted_grows p m o g : grows (rsa_decrypted p m o g).
Proof.
  intros raw t1 t t2 (ctx & room & rc & r1 & r2 & r3 & ? & ? & ? & ? & ? & ? & ? & ? & ?).
  exists ctx, room, rc, r1, r2, r3. split_and!; eauto with trace.
Qed.
Lemma rsa_encrypted_grows p m : grows (rsa_encrypted p m).
Proof.
  intros raw t1 t t2 (ctx & room & rc & r1 & r2 & ? & ? & ? & ? & ? & ? & ?).
  exists ctx, room, rc, r1, r2. split_and!; eauto with trace.
Qed.
Lemma wp_positive {A} rc s (k : unit -> M F S A) (P : post_cond F S A) :
  (forall o s' t, (forall a, o <> Ret a) -> P o s' t) ->
  (0 < rc -> forall s1 t, wp (k tt) s1 (fun o s2 t2 => P o s2 (t ++ t2))) -> wp (positive rc ≫= k) s P.
Proof.
  intros HP Hk. apply (wp_checked (0 < rc)); [|done|done].
  unfold positive. destruct (rc <=? 0) eqn:E; [apply yields_handle_errors|apply yields_ret; lia].
Qed.

(** A call, a check that [rc] is positive, and one with nothing to remember. *)
Ltac check_rc := apply wp_positive; [failed|intros ? ? ?].
Ltac check_true := apply (wp_checked True); [done|failed|intros ? ? ?].

Lemma ends_rsa_decrypt p m o g : ends (rsa_decrypted p m o g) (rsa_decrypt (S := S) p m o g).
Proof.
  apply ends_wp. intros s. unfold rsa_decrypt. called ctx. check_true. called r0. check_rc.
  called r1. check_rc. called r2. check_rc. called r3. check_rc. called [r4 room]. check_rc. called got. check_true.
  called [rc raw]. check_rc. called []. apply wp_ret.
  exists ctx, room, rc, r1, r2, r3. destruct g; split_and!; eauto 40 with trace.
Qed.
Lemma ends_rsa_encrypt p m : ends (rsa_encrypted p m) (rsa_encrypt (S := S) p m).
Proof.
  apply ends_wp. intros s. unfold rsa_encrypt. called ctx. check_true. called r0. check_rc.
  called r1. check_rc. called r2. check_rc. called [r4 room]. check_rc. called got. check_true.
  called [rc raw]. check_rc. called []. apply wp_ret.
  exists ctx, room, rc, r1, r2. split_and!; eauto 40 with trace.
Qed.
End Crypto.

Section Keys.
Context `{Bb : BoostBase64, !BoostBase64Laws, Bs : BoostString, !BoostStringLaws, Ba : BoostAlgo, Jt : JsonText}.
Context `{Nj : NlohmannJson, !NlohmannLaws, Sj : !SkrJson, !SkrJsonLaws}.
Context {F : Type -> Type} {S : Type} `{Handler F S} `{EsysCall -< F} `{OsslCall -< F}
        `{FileCall -< F} `{CurlCall -< F} `{EvpCall -< F} `{CertCall -< F} `{UuidCall -< F}
        `{SkrCall -< F} `{Fuel}.
Variable order : gmap bytes bytes -> list (bytes * bytes).
Import Skr.

Definition wrapped_by (u n k m : bytes) (text : bytes) (t : list (event F)) : Prop :=
  exists pkey enc, released order u n k pkey t /\ rsa_encrypted pkey m enc t /\
    text = SkrUtil.binary_to_base64 enc.
Definition unwrapped_by (u n k enc h g : bytes) (plain : bytes) (t : list (event F)) : Prop :=
  exists pkey oaep mgf1 raw, released order u n k pkey t /\
    get_evp_md_by_name h = Ret oaep /\ optional_md g = Ret mgf1 /\
    rsa_decrypted pkey (strip_nul enc) oaep mgf1 raw t /\ plain = strip_nul raw.

Lemma wp_not_rsa {A} p w s (R : post_cond F S A) :
  (forall o s' t, (forall a, o <> Ret a) -> R o s' t) -> wp (not_rsa p w) s R.
Proof.
  intros HR. apply (wp_from_ends (fun _ _ => False)); [|done|done].
  apply ends_never, yields_bind. intros []. apply yields_throw.
Qed.

Lemma ends_WrapKey u n m k src : ends (wrapped_by u n k m) (WrapKey order (S := S) u n m k src).
Proof.
  apply ends_wp. intros s. unfold WrapKey.
  apply wp_bind. eapply wp_from_ends; [apply ends_doSKR|failed|]. intros pkey ? t1 Hp. cbn beta iota.
  called id. destruct (is_rsa id); cbn [negb]; [|by apply wp_not_rsa; failed]. called sz.
  apply wp_bind. eapply wp_from_ends; [apply ends_rsa_encrypt|failed|]. intros enc ? t2 Henc. cbn beta iota.
  called []. apply wp_ret. exists pkey, enc. split_and!; [..|done].
  - grow (released_grows order u n k).
  - grow (rsa_encrypted_grows (F := F) pkey m).
Qed.
Lemma ends_UnwrapKey u n enc k src h g :
  ends (unwrapped_by u n k enc h g) (UnwrapKey order (S := S) u n (SkrUtil.binary_to_base64 enc) k src h g).
Proof.
  apply ends_wp. intros s. unfold UnwrapKey.
  apply wp_bind. eapply wp_from_ends; [apply ends_doSKR|failed|]. intros pkey ? t1 Hp. cbn beta iota.
  called id. destruct (is_rsa id); cbn [negb]; [|by apply wp_not_rsa; failed]. called sz.
  rewrite skr_decode_padded. apply wp_bind, wp_lift. cbn beta iota.
  apply wp_bind, wp_lift. destruct (get_evp_md_by_name h) as [oaep|e|f] eqn:Eh; [|done..]. cbn beta iota.
  apply wp_bind, wp_lift. destruct (optional_md g) as [mgf1|e|f] eqn:Eg; [|done..]. cbn beta iota.
  apply wp_bind. eapply wp_from_ends; [apply ends_rsa_decrypt|failed|]. intros raw ? t2 Hraw. cbn beta iota.
  called []. rewrite skr_decode_string. apply wp_lift. exists pkey, oaep, mgf1, raw. split_and!; try done.
  - grow (released_grows order u n k).
  - grow (rsa_decrypted_grows (F := F) pkey (strip_nul enc) oaep mgf1).
Qed.

(** C22: Wrapping and unwrapping use a released key, RSA-OAEP and the named digests, but lose zero
    bytes. What [WrapKey] returns is the base64 of OpenSSL's ciphertext of the key; when
    [UnwrapKey] returns for that same text, what OpenSSL has decrypted is the ciphertext without
    the zero bytes at its end, and what is returned is the plaintext without those at its end. *)
Theorem wrap_then_unwrap u n m k src h g s1 s2 text plain :
  res (WrapKey order u n m k src s1) = Ret text ->
  res (UnwrapKey order u n text k src h g s2) = Ret plain ->
  exists enc, text = SkrUtil.binary_to_base64 enc /\
    (exists pkey, released order u n k pkey (evs (WrapKey order u n m k src s1)) /\
       rsa_encrypted pkey m enc (evs (WrapKey order u n m k src s1))) /\
    unwrapped_by u n k enc h g plain (evs (UnwrapKey order u n text k src h g s2)).
Proof.
  intros Hw Hu. destruct (ends_WrapKey u n m k src s1 text Hw) as (pkey & enc & Hr & He & ->).
  exists enc. split_and!; [done|by exists pkey|]. by apply ends_UnwrapKey.
Qed.

(** *** Batches *)

(** The result of the [i]-th entry: its id with the key or the error. *)
Definition entry_result (i : nat) (entry r : json) : Prop :=
  exists id base, json_value entry (str "id") (z_text (Z.of_nat i)) = Ret id /\
    json_set json_null (str "id") (json_str id) = Ret base /\
    ((exists plain, json_set base (str "unwrapped") (json_str plain) = Ret r) \/
     (exists w, json_set base (str "error") (json_str w) = Ret r)).
Lemma yields_entry p o g i j : yields (entry_result i j) (unwrap_entry (F := F) (S := S) p o g i j).
Proof.
  unfold unwrap_entry. apply (yields_bind_strong (fun id =>
    json_value j (str "id") (z_text (Z.of_nat i)) = Ret id)); [by apply yields_lift|]. intros id Hid.
  apply (yields_bind_strong (fun base => json_set json_null (str "id") (json_str id) = Ret base));
    [by apply yields_lift|]. intros base Hb.
  intros s r. revert s r. apply (ends_try (fun r _ => entry_result i j r)); [by intros ?|apply ends_yields|].
  - unfold entry_key. destruct (opt_string j "wrapped"); [|apply yields_throw]. do 3 (apply yields_bind; intros ?).
    apply yields_bind. intros plain. apply yields_lift. intros r Hr. exists id, base. eauto.
  - intros e m Hm. destruct (is_std_exception e); simplify_eq. apply ends_lift. intros r Hr. exists id, base. eauto.
Qed.
Lemma yields_entries p o g i l :
  yields (fun rs => length rs = length l /\
            forall n entry r, l !! n = Some entry -> rs !! n = Some r -> entry_result (i + n) entry r)
    (unwrap_entries (F := F) (S := S) p o g i l).
Proof.
  revert i. induction l as [|j l IH]; intros i; simpl; [by apply yields_ret|].
  eapply yields_bind_strong; [apply yields_entry|]. intros r Hr.
  eapply yields_bind_strong; [apply IH|]. intros rs [Hl Hrs]. apply yields_ret. simpl. split; [by rewrite Hl|].
  intros [|n] entry r' E1 E2; simplify_eq/=; [by rewrite Nat.add_0_r|].
  rewrite <- Nat.add_succ_comm. by apply Hrs.
Qed.
(** Only the JSON library's exceptions leave an entry. *)
Lemma only_json_entries p o g i l :
  throws (fun e => exists k w, e = JsonError k w) (unwrap_entries (F := F) (S := S) p o g i l).
Proof.
  assert (Hj : forall A (m : outcome A), json_throws_json m ->
    throws (E := F) (S := S) (fun e => exists k w, e = JsonError k w) (lift m)).
  { intros A m Hm. apply throws_lift. intros e ->. destruct e; naive_solver. }
  revert i. induction l as [|j l IH]; intros i; simpl; [apply throws_ret|].
  apply throws_bind; [|intros r; apply throws_bind; [apply IH|intros rs; apply throws_ret]].
  unfold unwrap_entry. apply throws_bind; [apply Hj, value_errors|]. intros id.
  apply throws_bind; [apply Hj, set_errors|]. intros base.
  apply (throws_caught coded); [apply safe_entry_key|]. intros e He.
  destruct (is_std_exception e) eqn:E; [apply Hj, set_errors|]. destruct e; simpl in *; done.
Qed.

(** A batch is not lost with one of its entries. Once the key is there, whatever an entry
    holds and OpenSSL says of it, the loop gives one result per entry, in order, each with the
    entry's id and either the key or the error; no exception leaves it but one of the JSON
    library (an id that is not a string). *)
Theorem batch_isolated pkey oaep mgf1 keys s :
  (forall rs, res (unwrap_entries (F := F) pkey oaep mgf1 0 keys s) = Ret rs ->
     length rs = length keys /\
     forall n entry r, keys !! n = Some entry -> rs !! n = Some r -> entry_result n entry r) /\
  (forall e, res (unwrap_entries (F := F) pkey oaep mgf1 0 keys s) = Throw e -> exists k w, e = JsonError k w).
Proof. split; [apply (yields_entries pkey oaep mgf1 0 keys s)|apply only_json_entries]. Qed.
(** *** The wrapped key of the vault *)

Lemma decoded_stripped t c : SkrUtil.base64url_to_binary t = Ret c -> last c <> Some x00.
Proof.
  unfold SkrUtil.base64url_to_binary, SkrUtil.base64_to_binary.
  destruct (b64_bytes _) as [d|e|f]; simpl; try discriminate. intros [= <-] Hl.
  by pose proof (trim_right_last d _ _ Hl).
Qed.

(** The key the vault sends is stripped too. The wrapped key that [doSKR] takes from an answer
    never ends in a zero byte: [base64url_to_binary] has cut those off, so a ciphertext that ends
    in one (one in 256) reaches the unwrapping shorter than the vault has sent it. *)
Theorem vault_key_stripped b c : wrapped_key_of b = Ret c -> last c <> Some x00.
Proof.
  unfold wrapped_key_of. intros Hc. revert Hc.
  repeat lazymatch goal with
  | |- mbind _ ?m = _ -> _ => destruct m as [?|?|?] eqn:?; cbn [mbind outcome_bind]; [|discriminate..]
  | |- (if ?x then _ else _) = _ -> _ => destruct x; [discriminate|]
  end.
  apply decoded_stripped.
Qed.
End Keys.
