(* ===== verification/WinHttp.v ===== *)
(** * The secure-key-release app on Windows: WinHTTP and getopt

    [GetKeyVaultResponseWinHttp] (AttestationUtil.cpp) posts the release request with WinHTTP, and the
    Windows build has its own [getopt] (Main.cpp). [winhttp_session]: the three handles are used
    while they are open and closed once each, the last first, whatever WinHTTP answers, and a text is
    returned only for a 200 to the POST of the request, and is all that was read. *)

From S2P Require Import Prelude Base64 Json Ossl Esys GuestTpm JsonCpp JsonText Http ClientUtils Evidence TokenDecrypt AkCert Attest Skr.
#[local] Open Scope Z_scope.

(** Texts of 16-bit characters; what [WinHttpCrackUrl] finds. [None] is a call that failed. *)
Notation wtext := (list Z).
Record url_components := { lpszHostName : wtext; lpszUrlPath : wtext; nPort : Z; nScheme : Z }.
Inductive WinHttpCall : Type -> Type :=
| GetLastError : WinHttpCall Z
| WinHttpCrackUrl (url : wtext) : WinHttpCall (option url_components)
| WinHttpOpen : WinHttpCall ptr
| WinHttpConnect (session : ptr) (host : wtext) (port : Z) : WinHttpCall ptr
| WinHttpOpenRequest (connect : ptr) (path : wtext) (flags : Z) : WinHttpCall ptr
| WinHttpAddRequestHeaders (request : ptr) (header : wtext) : WinHttpCall bool
| WinHttpSendRequest (request : ptr) (body : bytes) : WinHttpCall bool
| WinHttpReceiveResponse (request : ptr) : WinHttpCall bool
| WinHttpQueryHeaders_status (request : ptr) : WinHttpCall (option Z)
| WinHttpQueryDataAvailable (request : ptr) : WinHttpCall (option Z)
| WinHttpReadData (request : ptr) (n : Z) : WinHttpCall (option bytes)
| WinHttpCloseHandle (h : ptr) : WinHttpCall unit.

Module WinHttp.
Definition INTERNET_SCHEME_HTTPS : Z := 2.
Definition WINHTTP_FLAG_SECURE : Z := 0x00800000.
(** [std::wstring(s.begin(), s.end())]: a [char] is signed. *)
Definition wide (s : bytes) : wtext :=
  map (fun c => if z_of_byte c <? 128 then z_of_byte c else z_of_byte c + 0xff00) s.

(** The variables that the clean-up looks at. *)
Record handles := { hSession : ptr; hConnect : ptr; hRequest : ptr }.
Definition no_handles : handles := {| hSession := null; hConnect := null; hRequest := null |}.
Definition with_session h p := {| hSession := p; hConnect := hConnect h; hRequest := hRequest h |}.
Definition with_connect h p := {| hSession := hSession h; hConnect := p; hRequest := hRequest h |}.
Definition with_request h p := {| hSession := hSession h; hConnect := hConnect h; hRequest := p |}.

Section Ops.
Context {F : Type -> Type} {S : Type} `{Handler F S} `{WinHttpCall -< F} `{Fuel}.
Notation MH := (M F (S * handles)).

(** [oss << w << GetLastError(); TRACE_ERROR_EXIT(...)] *)
Definition fail_with {A} (w : string) : MH A :=
  error ← trig GetLastError; throw (SkrErr Skr.EXIT_NETWORK_FAIL (str w ++ z_text error)).
Definition must (b : bool) (w : string) : MH unit := if b then mret tt else fail_with w.
Definition keep (set : handles -> ptr -> handles) (e : WinHttpCall ptr) (w : string) : MH ptr :=
  p ← trig e;
  h ← get_local;
  _ ← put_local (set h p);
  _ ← must (negb (is_null p)) w;
  mret p.
Definition add_header (request : ptr) (header : bytes) (w : string) : MH unit :=
  b ← trig (WinHttpAddRequestHeaders request (wide header));
  must b w.

(** The blocks of the body; a block of no bytes does not end the loop. *)
Definition sizeof_szBuffer : Z := 8192.
Fixpoint read_body (n : nat) (request : ptr) (responseStr : bytes) : MH bytes :=
  match n with
  | O => fault_with OutOfFuel
  | Datatypes.S n' =>
      available ← trig (WinHttpQueryDataAvailable request);
      match available with
      | None => fail_with "WinHttpQueryDataAvailable failed with error: "
      | Some dwSize =>
          if 0 <? dwSize then
            let dwToRead := if dwSize <? sizeof_szBuffer - 1 then dwSize else sizeof_szBuffer - 1 in
            block ← trig (WinHttpReadData request dwToRead);
            match block with
            | None => fail_with "WinHttpReadData failed with error: "
            | Some szBuffer =>
                if sizeof_szBuffer <=? size szBuffer then fault_with UndefinedBehaviour
                else read_body n' request (responseStr ++ szBuffer)
            end
          else mret responseStr
      end
  end.

(** The body of the [try]. The answer to the query of the status is not checked: 0 stands for none. *)
Definition post_request (requestUri access_token requestBodyStr : bytes) : MH bytes :=
  cracked ← trig (WinHttpCrackUrl (wide requestUri));
  match cracked with
  | None => fail_with "WinHttpCrackUrl failed with error: "
  | Some urlComp =>
      session ← keep with_session WinHttpOpen "WinHttpOpen failed with error: ";
      connect ← keep with_connect (WinHttpConnect session (lpszHostName urlComp) (nPort urlComp))
                  "WinHttpConnect failed with error: ";
      let dwFlags := if nScheme urlComp =? INTERNET_SCHEME_HTTPS then WINHTTP_FLAG_SECURE else 0 in
      request ← keep with_request (WinHttpOpenRequest connect (lpszUrlPath urlComp) dwFlags)
                  "WinHttpOpenRequest failed with error: ";
      _ ← add_header request (str "Authorization: Bearer " ++ access_token)
            "WinHttpAddRequestHeaders (Authorization) failed: ";
      _ ← add_header request (str "Content-Type: application/json")
            "WinHttpAddRequestHeaders (Content-Type) failed: ";
      _ ← add_header request (str "Accept: application/json") "WinHttpAddRequestHeaders (Accept) failed: ";
      _ ← add_header request (str "User-Agent: AzureDiskEncryption")
            "WinHttpAddRequestHeaders (User-Agent) failed: ";
      sent ← trig (WinHttpSendRequest request (take (Z.to_nat (u32 (size requestBodyStr))) requestBodyStr));
      _ ← must sent "WinHttpSendRequest failed with error: ";
      received ← trig (WinHttpReceiveResponse request);
      _ ← must received "WinHttpReceiveResponse failed with error: ";
      status ← trig (WinHttpQueryHeaders_status request);
      let dwStatusCode := default 0 status in
      responseStr ← read_body fuel request [];
      if negb (dwStatusCode =? 200)
      then throw (SkrErr Skr.EXIT_SKR_FAIL (str "SKR HTTP request failed: HTTP " ++ z_text dwStatusCode
                                            ++ str ": " ++ responseStr))
      else mret responseStr
  end.

Definition close_if (h : ptr) : M F S unit := if is_null h then mret tt else trig (WinHttpCloseHandle h).
Definition close_all (h : handles) : M F S unit :=
  _ ← close_if (hRequest h); _ ← close_if (hConnect h); close_if (hSession h).
(** The [catch (...)] that rethrows and the end of the function clean up alike. *)
Definition GetKeyVaultResponseWinHttp (requestUri access_token requestBodyStr : bytes) : M F S bytes :=
  scoped no_handles (post_request requestUri access_token requestBodyStr) close_all.
End Ops.

(** ** Options *)

Definition optstring : bytes := str "a:n:k:c:s:uwrB:H:G:".
(** [argv] is what is left from [optind] on. [strchr] finds the terminating null too: the argument [-] is
    looked up as the option 0, and what follows the null of the option string is read. *)
Definition strchr (s : bytes) (c : byte) : option nat := list_find (fun x => x = c) (s ++ [x00]) ≫= fun p => Some p.1.
Definition getopt (argv : list bytes) : outcome (option (byte * bytes) * list bytes) :=
  match argv with
  | ("-"%byte :: text) :: argv' =>
      let opt := match text with c :: _ => c | [] => x00 end in
      match strchr optstring opt with
      | None => Ret (Some ("?"%byte, []), argv)
      | Some p =>
          if (length optstring <=? p)%nat then Fault UndefinedBehaviour
          else if decide (optstring !! (p + 1)%nat = Some ":"%byte) then
            match argv' with
            | [] => Ret (Some ("?"%byte, []), [])
            | optarg :: argv'' => Ret (Some (opt, optarg), argv'')
            end
          else Ret (Some (opt, []), argv')
      end
  | _ => Ret (None, argv)
  end.
(** The loop of [main]; it stops at the first option it does not take. *)
Fixpoint options_of (n : nat) (argv : list bytes) (o : Skr.options) : outcome (option Skr.options) :=
  match n with
  | O => Ret (Some o)
  | Datatypes.S n' =>
      '(found, argv) ← getopt argv;
      match found with
      | None => Ret (Some o)
      | Some (opt, optarg) =>
          match Skr.apply_option o opt optarg with
          | Some o' => options_of n' argv o'
          | None => Ret None
          end
      end
  end.
End WinHttp.

(** ** Sessions *)

Section Sessions.
Context {F : Type -> Type} {S : Type} `{Handler F S} `{WinHttpCall -< F} `{Fuel}.
Import WinHttp.

(** The handle a call works on, and the calls that make one. *)
Definition on_handle {R} (e : WinHttpCall R) : option ptr :=
  match e with
  | GetLastError | WinHttpCrackUrl _ | WinHttpOpen => None
  | WinHttpConnect p _ _ | WinHttpOpenRequest p _ _ | WinHttpAddRequestHeaders p _ | WinHttpSendRequest p _ | WinHttpReceiveResponse p
  | WinHttpQueryHeaders_status p | WinHttpQueryDataAvailable p | WinHttpReadData p _ | WinHttpCloseHandle p => Some p
  end.
Definition opens {R} (e : WinHttpCall R) : bool :=
  match e with WinHttpOpen | WinHttpConnect _ _ _ | WinHttpOpenRequest _ _ _ => true | _ => false end.
Definition closes {R} (e : WinHttpCall R) : bool := match e with WinHttpCloseHandle _ => true | _ => false end.
Definition live {R} (e : WinHttpCall R) (hs : list ptr) : Prop := match on_handle e with Some p => p ∈ hs | None => True end.

(** A call with the open handles before and after it, the last opened first. *)
Inductive handle_step (hs : list ptr) : event F -> list ptr -> Prop :=
| opened (e : WinHttpCall ptr) p : opens e = true -> live e hs -> is_null p = false -> handle_step hs (Ev (inj e) p) (p :: hs)
| not_opened (e : WinHttpCall ptr) p : opens e = true -> live e hs -> is_null p = true -> handle_step hs (Ev (inj e) p) hs
| used {R} (e : WinHttpCall R) r : opens e = false -> closes e = false -> live e hs -> handle_step hs (Ev (inj e) r) hs
| closed p hs' : hs = p :: hs' -> handle_step hs (Ev (inj (WinHttpCloseHandle p)) tt) hs'.
Inductive session : list ptr -> list (event F) -> list ptr -> Prop :=
| session_nil hs : session hs [] hs
| session_cons hs ev hs' t hs'' : handle_step hs ev hs' -> session hs' t hs'' -> session hs (ev :: t) hs''.

Lemma session_app hs t hs' t' hs'' : session hs t hs' -> session hs' t' hs'' -> session hs (t ++ t') hs''.
Proof. induction 1; [done|]. intros Hs. econstructor; eauto. Qed.
Lemma session_one hs ev hs' : handle_step hs ev hs' -> session hs [ev] hs'.
Proof. intros Hs. econstructor; [exact Hs|constructor]. Qed.

(** The open handles, the last opened first. *)
Definition stack (h : handles) : list ptr := filter (fun p => is_null p = false) [hRequest h; hConnect h; hSession h].
(** From the handles [h] on, the calls of a computation are a session that ends with the handles it leaves. *)
Definition in_session {A} (h : handles) (m : M F (S * handles) A) : Prop :=
  forall s, wp m (s, h) (fun _ s' t => session (stack h) t (stack (snd s'))).
Lemma in_session_bind {A B} h (m : M F (S * handles) A) (k : A -> M F (S * handles) B) :
  in_session h m -> (forall a h', in_session h' (k a)) -> in_session h (m ≫= k).
Proof.
  intros Hm Hk s. apply wp_bind. eapply wp_mono; [apply Hm|]. intros [a|e|f] [s1 h1] t Hs; [|done..].
  eapply wp_mono; [apply Hk|]. intros o s2 t2 Hs2. by eapply session_app.
Qed.
(** The same when [m] leaves the handles as they are. *)
Definition stays {A} (h : handles) (m : M F (S * handles) A) : Prop :=
  forall s, wp m (s, h) (fun _ s' t => session (stack h) t (stack h) /\ snd s' = h).
Lemma stays_session {A} h (m : M F (S * handles) A) : stays h m -> in_session h m.
Proof. intros Hm s. eapply wp_mono; [apply Hm|]. by intros o s' t [Hs ->]. Qed.
Lemma stays_bind {A B} h (m : M F (S * handles) A) (k : A -> M F (S * handles) B) :
  stays h m -> (forall a, stays h (k a)) -> stays h (m ≫= k).
Proof.
  intros Hm Hk s. apply wp_bind. eapply wp_mono; [apply Hm|]. intros [a|e|f] [s1 h1] t [Hs Eh]; cbn [snd] in Eh; subst h1; [|done..].
  eapply wp_mono; [apply Hk|]. intros o s2 t2 [Hs2 E]. split; [by eapply session_app|done].
Qed.
Lemma in_session_after {A B} h (m : M F (S * handles) A) (k : A -> M F (S * handles) B) :
  stays h m -> (forall a, in_session h (k a)) -> in_session h (m ≫= k).
Proof.
  intros Hm Hk s. apply wp_bind. eapply wp_mono; [apply Hm|]. intros [a|e|f] [s1 h1] t [Hs Eh]; cbn [snd] in Eh; subst h1; [|done..].
  eapply wp_mono; [apply Hk|]. intros o s2 t2 Hs2. by eapply session_app.
Qed.
Lemma stays_ret {A} h (a : A) : stays h (mret a).
Proof. intros s. split; [constructor|done]. Qed.
Lemma stays_throw {A} h e : stays (A := A) h (throw e).
Proof. intros s. split; [constructor|done]. Qed.
Lemma stays_fault {A} h f : stays (A := A) h (fault_with f).
Proof. intros s. split; [constructor|done]. Qed.
Lemma stays_call {R} h (e : WinHttpCall R) : opens e = false -> closes e = false -> live e (stack h) -> stays h (trig e).
Proof.
  intros Ho Hc Hl s. apply wp_trig. intros r [s' h'] E. unfold handle at 1, handler_local in E. destruct (handle (inj e) (s, h).1) as [x y].
  injection E as -> <- <-. split; [|done]. by apply session_one, used.
Qed.
Lemma stays_fail {A} h w : stays (A := A) h (fail_with w).
Proof. apply stays_bind; [by apply stays_call|]. intros n. apply stays_throw. Qed.
Lemma stays_must h b w : stays h (must b w).
Proof. destruct b; [apply stays_ret|apply stays_fail]. Qed.

Lemma stack_cases h : stack h = (if is_null (hRequest h) then [] else [hRequest h]) ++ (if is_null (hConnect h) then [] else [hConnect h]) ++
  (if is_null (hSession h) then [] else [hSession h]).
Proof. unfold stack. rewrite !filter_cons. by repeat case_match. Qed.
(** [set] fills a variable that is null, above the handles in use. *)
Definition pushes (set : handles -> ptr -> handles) (h : handles) : Prop :=
  forall p, stack (set h p) = (if is_null p then [] else [p]) ++ stack h.
Lemma in_session_keep {A} set (e : WinHttpCall ptr) w h (k : ptr -> M F (S * handles) A) :
  opens e = true -> live e (stack h) -> pushes set h -> (forall p, is_null p = false -> in_session (set h p) (k p)) ->
  in_session h (keep set e w ≫= k).
Proof.
  intros Ho Hl Hp Hk s. apply wp_bind. unfold keep. apply wp_bind, wp_trig. intros p [s1 h1] E.
  assert (h1 = h) as -> by (unfold handle at 1, handler_local in E; destruct (handle (inj e) (s, h).1) as [x y]; by injection E).
  apply wp_bind, wp_get_local. apply wp_bind, wp_put_local. cbn [fst snd app].
  assert (Hs : session (stack h) [Ev (inj e) p] (stack (set h p))).
  { rewrite Hp. destruct (is_null p) eqn:En; apply session_one; [by apply not_opened|by apply opened]. }
  apply wp_bind. destruct (is_null p) eqn:En; cbn [negb must].
  - eapply (wp_mono _ _ (fun o s' t => session (stack (set h p)) t (stack (snd s')) /\ forall a, o <> Ret a)).
    + apply wp_bind. eapply wp_mono; [by apply (stays_call (set h p) GetLastError)|].
      intros [n|x|f] [s2 h2] t [Ht Eh]; cbn [snd] in Eh; subst h2; [|done..]. apply wp_lift. by rewrite app_nil_r.
    + intros [a|x|f] [s2 h2] t [Ht Hn]; [by destruct (Hn a)|by eapply (session_app _ [_])..].
  - do 2 apply wp_ret. eapply wp_mono; [by apply Hk|]. intros o s2 t Ht. by eapply (session_app _ [_]).
Qed.

Lemma stays_read_body n r : forall acc h, r ∈ stack h -> stays h (read_body n r acc).
Proof.
  induction n as [|n IH]; intros acc h Hr; cbn [read_body]; [apply stays_fault|].
  apply stays_bind; [by apply stays_call|]. intros [size|]; [|apply stays_fail].
  destruct (0 <? size); [|apply stays_ret]. apply stays_bind; [by apply stays_call|].
  intros [block|]; [|apply stays_fail]. destruct (_ <=? _); [apply stays_fault|by apply IH].
Qed.
Lemma in_session_post u a b : in_session no_handles (post_request u a b).
Proof.
  unfold post_request. apply in_session_after; [by apply stays_call|]. intros [c|]; [|by apply stays_session, stays_fail].
  apply in_session_keep; [done|done|by intros p; rewrite !stack_cases; cbn; destruct (is_null p)|]. intros session Hs.
  apply in_session_keep; [done| |by intros p; rewrite !stack_cases; cbn; rewrite Hs; destruct (is_null p)|].
  { unfold live, on_handle. rewrite stack_cases. cbn. rewrite Hs. by left. }
  intros connect Hc.
  apply in_session_keep; [done| |by intros p; rewrite !stack_cases; cbn; rewrite Hc, Hs; destruct (is_null p)|].
  { unfold live, on_handle. rewrite stack_cases. cbn. rewrite Hc. by left. }
  intros request Hr. set (h := with_request _ _). assert (Hin : request ∈ stack h) by (rewrite stack_cases; cbn; rewrite Hr; by left).
  unfold add_header. repeat (apply in_session_after; [first [by apply stays_call|apply stays_must
    |apply stays_bind; [by apply stays_call|intros ?; apply stays_must]]|intros ?]).
  apply in_session_after; [by apply stays_read_body|]. intros text. apply stays_session.
  destruct (negb _); [apply stays_throw|apply stays_ret].
Qed.
Lemma close_one p hs s : wp (close_if p) s (fun o _ t => o = Ret tt /\ session ((if is_null p then [] else [p]) ++ hs) t hs).
Proof.
  unfold close_if. destruct (is_null p); [split; [done|constructor]|]. apply wp_trig. intros [] s' _.
  split; [done|]. by eapply session_one, closed.
Qed.
Lemma close_session h s : wp (close_all h) s (fun o _ t => o = Ret tt /\ session (stack h) t []).
Proof.
  rewrite stack_cases. unfold close_all.
  apply wp_bind. eapply wp_mono; [apply close_one|]. intros o s1 t1 [-> H1']. cbn beta iota.
  apply wp_bind. eapply wp_mono; [apply close_one|]. intros o s2 t2 [-> H2']. cbn beta iota.
  eapply wp_mono; [apply (close_one (hSession h) [])|]. intros o s3 t3 [-> H3']. split; [done|].
  rewrite app_nil_r in H3'. by do 2 (eapply session_app; [eassumption|]).
Qed.
Lemma whole_session u a b s : match res (GetKeyVaultResponseWinHttp u a b s) with
  | Fault _ => True | _ => session [] (evs (GetKeyVaultResponseWinHttp u a b s)) [] end.
Proof.
  enough (Hw : wp (GetKeyVaultResponseWinHttp u a b) s (fun o _ t => match o with Fault _ => True | _ => session [] t [] end)) by exact Hw.
  unfold GetKeyVaultResponseWinHttp. apply wp_scoped. eapply wp_mono; [apply in_session_post|].
  intros [x|x|x] [s1 h1] t Ht; [| |done]; cbn [snd fst]; (eapply wp_mono; [apply close_session|]); intros o s2 t2 [-> Hc]; by eapply session_app.
Qed.

(** *** The answer *)

(** The blocks that were read, each after the size that was available, and the last size. *)
Definition blocks (request : ptr) (l : list (Z * bytes)) (rest : Z) : list (event F) :=
  concat (map (fun '(n, d) => [Ev (inj (WinHttpQueryDataAvailable request)) (Some n);
    Ev (inj (WinHttpReadData request (Z.min n (sizeof_szBuffer - 1)))) (Some d)]) l) ++
  [Ev (inj (WinHttpQueryDataAvailable request)) (Some rest)].
Definition posted (u a body : bytes) (t : list (event F)) (request : ptr) : Prop := exists c session connect,
  Ev (inj (WinHttpCrackUrl (wide u))) (Some c) ∈ t /\
  Ev (inj (WinHttpConnect session (lpszHostName c) (nPort c))) connect ∈ t /\
  Ev (inj (WinHttpOpenRequest connect (lpszUrlPath c) (if nScheme c =? INTERNET_SCHEME_HTTPS then WINHTTP_FLAG_SECURE else 0))) request ∈ t /\
  Ev (inj (WinHttpAddRequestHeaders request (wide (str "Authorization: Bearer " ++ a)))) true ∈ t /\
  Ev (inj (WinHttpSendRequest request (take (Z.to_nat (u32 (size body))) body))) true ∈ t /\
  Ev (inj (WinHttpReceiveResponse request)) true ∈ t /\
  Ev (inj (WinHttpQueryHeaders_status request)) (Some 200) ∈ t.
Definition answered (u a body b : bytes) (t : list (event F)) : Prop := exists request t1 l rest t2,
  t = t1 ++ blocks request l rest ++ t2 /\ posted u a body t1 request /\ rest <= 0 /\ b = concat (map snd l).

Lemma wp_never {A} (m : M F (S * handles) A) s (Q : post_cond F (S * handles) A) :
  yields (fun _ => False) m -> (forall o s' t, (forall a, o <> Ret a) -> Q o s' t) -> wp m s Q.
Proof.
  intros Hm HQ. unfold wp. specialize (Hm s). destruct (m s) as [[a|e|f] s1 t1]; simpl in *; [by destruct (Hm a)|by apply HQ..].
Qed.
Lemma yields_fail {A} (P : A -> Prop) w : yields P (fail_with (F := F) (S := S) w).
Proof. apply yields_bind. intros n. by apply yields_lift. Qed.
Lemma wp_must {A} b w s (k : unit -> M F (S * handles) A) (Q : post_cond F (S * handles) A) :
  (forall o s' t, (forall a, o <> Ret a) -> Q o s' t) -> (b = true -> wp (k tt) s Q) -> wp (must b w ≫= k) s Q.
Proof.
  intros HQ Hk. destruct b; cbn [must].
  - apply wp_bind, wp_ret. by apply Hk.
  - apply wp_never; [|done]. apply (yields_bind_strong (fun _ => False)); [apply yields_fail|done].
Qed.
Lemma read_body_spec n r : forall acc s, wp (read_body (S := S) n r acc) s (fun o _ t => forall b, o = Ret b ->
  exists l rest, t = blocks r l rest /\ rest <= 0 /\ b = acc ++ concat (map snd l)).
Proof.
  induction n as [|n IH]; intros acc s; cbn [read_body]; [done|].
  apply wp_bind, wp_trig. intros [size|] s1 _; cbn beta iota; [|by apply wp_never; [apply yields_fail|naive_solver]].
  destruct (0 <? size) eqn:Es.
  - apply wp_bind, wp_trig. intros [d|] s2 _; cbn beta iota; [|by apply wp_never; [apply yields_fail|naive_solver]].
    destruct (_ <=? _); [done|]. eapply wp_mono; [apply IH|]. intros o s3 t Ho b Hb.
    destruct (Ho b Hb) as (l & rest & -> & Hr & ->). exists ((size, d) :: l), rest.
    unfold blocks. cbn [map concat snd app]. rewrite <- app_assoc. split_and!; [|done|done].
    do 2 f_equal. destruct (size <? _) eqn:E; [by rewrite Z.min_l by lia|by rewrite Z.min_r by lia].
  - apply wp_ret. intros b [= <-]. exists [], size. split_and!; [done|lia|by rewrite app_nil_r].
Qed.

Lemma wp_keep {A} set (e : WinHttpCall ptr) w s (k : ptr -> M F (S * handles) A) (Q : post_cond F (S * handles) A) :
  (forall o s' t, (forall a, o <> Ret a) -> Q o s' t) ->
  (forall p s', wp (k p) s' (fun o s2 t => Q o s2 (Ev (inj e) p :: t))) -> wp (keep set e w ≫= k) s Q.
Proof.
  intros HQ Hk. apply wp_bind. unfold keep. apply wp_bind, wp_trig. intros p s1 _.
  apply wp_bind, wp_get_local. apply wp_bind, wp_put_local. cbn [app].
  apply wp_must; [intros [x|x|f] s' t Ho; [by destruct (Ho x)|by apply HQ..]|]. intros _. apply wp_ret. apply Hk.
Qed.
Lemma wp_checked_call {A} (e : WinHttpCall bool) w s (k : unit -> M F (S * handles) A) (Q : post_cond F (S * handles) A) :
  (forall o s' t, (forall a, o <> Ret a) -> Q o s' t) ->
  (forall s', wp (k tt) s' (fun o s2 t => Q o s2 (Ev (inj e) true :: t))) -> wp (b ← trig e; must b w ≫= k) s Q.
Proof. intros HQ Hk. apply wp_bind, wp_trig. intros b s1 _. cbn beta iota. apply wp_must; [naive_solver|]. intros ->. apply Hk. Qed.
Lemma wp_header {A} r hdr w s (k : unit -> M F (S * handles) A) (Q : post_cond F (S * handles) A) :
  (forall o s' t, (forall a, o <> Ret a) -> Q o s' t) ->
  (forall s', wp (k tt) s' (fun o s2 t => Q o s2 (Ev (inj (WinHttpAddRequestHeaders r (wide hdr))) true :: t))) ->
  wp (add_header r hdr w ≫= k) s Q.
Proof.
  intros HQ Hk. unfold add_header. apply wp_bind, wp_bind, wp_trig. intros b s1 _. cbn beta iota. destruct b; cbn [must]; [apply wp_ret, Hk|].
  apply wp_never; [apply yields_fail|]. intros [x|x|f] s' t Ho; [by destruct (Ho x)|by apply HQ..].
Qed.
Lemma post_spec u a b s : wp (post_request (S := S) u a b) s (fun o _ t => forall x, o = Ret x -> answered u a b x t).
Proof.
  unfold post_request. apply wp_bind, wp_trig. intros [c|] s1 _; cbn beta iota; [|by apply wp_never; [apply yields_fail|naive_solver]].
  apply wp_keep; [naive_solver|]. intros session s2. apply wp_keep; [naive_solver|]. intros connect s3.
  apply wp_keep; [naive_solver|]. intros request s4.
  do 4 (apply wp_header; [naive_solver|]; intros ?). do 2 (apply wp_checked_call; [naive_solver|]; intros ?).
  apply wp_bind, wp_trig. intros status s5 _. cbn beta iota. apply wp_bind. eapply wp_mono; [apply read_body_spec|].
  intros [text|x|f] s6 t6 Ht; [|done..]. destruct (Ht text eq_refl) as (l & rest & -> & Hr & ->). cbn beta iota.
  destruct (default 0 status =? 200) eqn:Es; cbn [negb]; [|by apply wp_lift].
  assert (status = Some 200) as -> by (destruct status; cbn in Es; [f_equal; lia|done]).
  apply wp_ret. intros y [= <-]. rewrite app_nil_r. eexists request, [_; _; _; _; _; _; _; _; _; _; _], l, rest, [].
  rewrite app_nil_r. split_and!; [reflexivity| |done|done]. exists c, session, connect. split_and!; eauto 20 with trace.
Qed.

(** C21: the WinHTTP session of a release is balanced, and its answer complete. Whatever WinHTTP answers:
    (1) unless memory is overrun or the fuel runs out, each of the session, connection and request handles
    that were opened is used only while it is open, and is closed exactly once, the last opened first, also
    when an exception leaves the function; (2) a text that is returned was posted for: the host, port and
    path are those of the URL, over TLS for https, the bearer token and the request were sent, the
    status was 200, and the text is every block that was read, in order, up to the end of the data. *)
Theorem winhttp_session u a b s :
  match res (GetKeyVaultResponseWinHttp u a b s) with
  | Fault _ => True | _ => session [] (evs (GetKeyVaultResponseWinHttp u a b s)) [] end /\
  forall text, res (GetKeyVaultResponseWinHttp u a b s) = Ret text -> answered u a b text (evs (GetKeyVaultResponseWinHttp u a b s)).
Proof.
  split; [apply whole_session|].
  enough (Hw : wp (GetKeyVaultResponseWinHttp u a b) s (fun o _ t => forall x, o = Ret x -> answered u a b x t)) by exact Hw.
  unfold GetKeyVaultResponseWinHttp. apply wp_scoped. eapply wp_mono; [apply post_spec|].
  intros [x|x|x] [s1 h1] t Ht; cbn [snd fst]; [| |done]; (eapply wp_mono; [apply close_session|]); intros o s2 t2 [-> _]; [|done].
  intros y [= <-]. destruct (Ht x eq_refl) as (r & t1 & l & rest & t3 & -> & Hp & Hr & ->).
  exists r, t1, l, rest, (t3 ++ t2). rewrite <- !app_assoc. by split_and!.
Qed.
End Sessions.

(** ** The whole body, and the command line *)

(** A response whose body is [pending]: some of it is available until all is read, and a read gives
    at least a byte of what was announced. *)
Class BodyLaws (F : Type -> Type) (S : Type) `{Handler F S} `{WinHttpCall -< F} := {
  pending : S -> ptr -> bytes;
  body_available s r : exists n s', handle (inj (WinHttpQueryDataAvailable r)) s = (Some n, s') /\
    pending s' r = pending s r /\ 0 <= n /\ (n = 0 <-> pending s r = []);
  body_read s r n : 0 < n -> pending s r <> [] -> exists d rest s', handle (inj (WinHttpReadData r n)) s = (Some d, s') /\
    pending s r = d ++ rest /\ pending s' r = rest /\ d <> [] /\ size d <= n }.
Section Whole.
Context {F : Type -> Type} {S : Type} `{HF : Handler F S} `{HW : WinHttpCall -< F} `{!BodyLaws F S}.

Lemma local_call {R} (e : WinHttpCall R) s (h : WinHttp.handles) r s' : handle (inj e) s = (r, s') -> handle (inj e) (s, h) = (r, (s', h)).
Proof. intros E. unfold handle, handler_local. cbn [fst snd]. by rewrite E. Qed.
(** As many rounds as the body has bytes, and one, read all of it. *)
Lemma read_whole n r : forall s h acc, (length (pending s r) < n)%nat ->
  delivers (WinHttp.read_body n r acc) (s, h) (fun b s' => b = acc ++ pending s r /\ snd s' = h).
Proof.
  induction n as [|n IH]; intros s h acc Hn; [lia|]. cbn [WinHttp.read_body].
  destruct (body_available s r) as (k & s1 & E1 & P1 & Hk & Hz). eapply next_call; [by apply local_call|]. cbn beta iota.
  destruct (0 <? k) eqn:Ek.
  - destruct (body_read s1 r (if k <? WinHttp.sizeof_szBuffer - 1 then k else WinHttp.sizeof_szBuffer - 1)) as (d & rest & s2 & E2 & P2 & P3 & Hd & Hs).
    { unfold WinHttp.sizeof_szBuffer. case_match; lia. }
    { rewrite P1. intros Hp. apply Hz in Hp. lia. }
    eapply next_call; [by apply local_call|]. cbn beta iota.
    rewrite (proj2 (Z.leb_gt _ _)) by (unfold WinHttp.sizeof_szBuffer in *; case_match; lia).
    rewrite P1 in P2. eapply delivers_mono; [apply IH; rewrite P3; rewrite P2, length_app in Hn; destruct d; [done|simpl in Hn; lia]|].
    intros b s3 [-> Hh]. split; [|done]. by rewrite P3, P2, <- app_assoc.
  - apply delivers_ret. split; [|done]. rewrite (proj1 Hz) by lia. by rewrite app_nil_r.
Qed.
End Whole.

(** A command line of options of the app, as its words. *)
Definition option_words (o : byte * bytes) : list bytes :=
  if decide (o.1 ∈ [byte_of_z 117; byte_of_z 119; byte_of_z 114]) then [["-"%byte; o.1]] else [["-"%byte; o.1]; o.2].
Lemma getopt_word o rest : is_Some (Skr.apply_option Skr.default_options o.1 o.2) ->
  WinHttp.getopt (option_words o ++ rest) = Ret (Some (o.1, if decide (o.1 ∈ [byte_of_z 117; byte_of_z 119; byte_of_z 114]) then [] else o.2), rest).
Proof. destruct o as [c w]. intros [x Hx]. destruct c; first [discriminate|reflexivity]. Qed.
Lemma apply_words o opt w : is_Some (Skr.apply_option Skr.default_options opt w) ->
  exists o', Skr.apply_option o opt w = Some o' /\
    Skr.apply_option o opt (if decide (opt ∈ [byte_of_z 117; byte_of_z 119; byte_of_z 114]) then [] else w) = Some o'.
Proof. intros [x Hx]. destruct o as [a n s k h g b p c]. destruct opt; first [discriminate|by eexists]. Qed.
(** The Windows build reads from a command line the options the Linux build gets from the C library. *)
Theorem options_read_back l n o : Forall (fun p => is_Some (Skr.apply_option Skr.default_options p.1 p.2)) l ->
  (length (concat (map option_words l)) < n)%nat ->
  WinHttp.options_of n (concat (map option_words l)) o = Ret (Skr.read_options o l).
Proof.
  intros Hl. revert n o. induction Hl as [|[opt w] l Ho Hl IH]; intros n o Hn; (destruct n as [|n]; [lia|]).
  - done.
  - cbn [concat map WinHttp.options_of] in *. rewrite getopt_word by done. cbn [mbind outcome_bind fst snd] in *.
    destruct (apply_words o opt w Ho) as (o' & E1 & E2). rewrite E2. cbn [Skr.read_options]. rewrite E1.
    apply IH. rewrite length_app in Hn.
    assert (1 <= length (option_words (opt, w)))%nat by (unfold option_words; destruct (decide _); simpl; lia). lia.
Qed.

(** ** Witness: two blocks *)

Definition win_answer (R : Type) (e : WinHttpCall R) (s : list bytes) : R * list bytes :=
  match e with
  | GetLastError => (0, s)
  | WinHttpCrackUrl u => (Some {| lpszHostName := take 3 u; lpszUrlPath := drop 3 u; nPort := 443; nScheme := 2 |}, s)
  | WinHttpOpen => (1%N, s)
  | WinHttpConnect _ _ _ => (2%N, s)
  | WinHttpOpenRequest _ _ _ => (3%N, s)
  | WinHttpAddRequestHeaders _ _ | WinHttpSendRequest _ _ | WinHttpReceiveResponse _ => (true, s)
  | WinHttpQueryHeaders_status _ => (Some 200, s)
  | WinHttpQueryDataAvailable _ => (Some (match s with [] => 0 | b :: _ => size b end), s)
  | WinHttpReadData _ _ => match s with [] => (Some [], []) | b :: s' => (Some b, s') end
  | WinHttpCloseHandle _ => (tt, s)
  end.
Definition win_world : Handler WinHttpCall (list bytes) := win_answer.
#[local] Instance win_fuel : Fuel := 4%nat.
Theorem winhttp_session_witness :
  let r := WinHttp.GetKeyVaultResponseWinHttp (H := win_world) (str "https://v/keys/k/release") (str "token") (str "{}") [str "ab"; str "c"] in
  res r = Ret (str "abc") /\ session [] (evs r) [] /\
  answered (str "https://v/keys/k/release") (str "token") (str "{}") (str "abc") (evs r).
Proof.
  intros r. assert (Hr : res r = Ret (str "abc")) by vm_eq.
  destruct (winhttp_session (H := win_world) (str "https://v/keys/k/release") (str "token") (str "{}") [str "ab"; str "c"]) as [Hs Ha].
  split; [exact Hr|]. fold r in Hs, Ha. rewrite Hr in Hs. split; [exact Hs|exact (Ha _ Hr)].
Defined.
