(* ===== verification/ClientDemo.v ===== *)
(** * The client in a concrete world

    A TPM whose key decrypts to a fixed inner key, an OpenSSL that accepts, one file for
    every path, a certificate with [days] days past its expiry and a network that answers
    from a list: the client's programs are evaluated in it, and its theorems applied. *)

From S2P Require Import Prelude Base64 Json Ossl Jwt Esys GuestTpm GuestTpmFacts HclReport JsonCpp JsonText Http ClientUtils Evidence TokenDecrypt AkCert Attest AttestFacts.
#[local] Open Scope Z_scope.

Definition inner_key : bytes := replicate 32 x2a.
Definition demo_esys (R : Type) (e : EsysCall R) : R :=
  match e in EsysCall T return T with
  | Esys_TR_FromTPMPublic i => if i =? TpmUtil.HCL_REPORT_INDEX then (0x18b, 0) else (0, 5)
  | Esys_PCR_Read sel =>
      let l := take 8 (selected (pcrSelect sel)) in
      (0, Some ({| sel_hash := sel_hash sel; sizeofSelect := 3; pcrSelect := octets_of l |},
                map sim_bank l))
  | Esys_ReadPublic _ =>
      (0, Some {| type_ := TPM2_ALG_RSA; nameAlg := TPM2_ALG_SHA256; objectAttributes := 0;
                  authPolicy := []; sym_algorithm := 0; sym_keyBits := 0; sym_mode := 0;
                  scheme_alg := 0; keyBits := 2048; exponent := 0; rsa_buffer := inner_key;
                  rsa_size := 32 |})
  | MU_TPM2B_PUBLIC_Marshal _ => (0, inner_key)
  | e => esys_accept inner_key _ e
  end.
Definition demo_evp (R : Type) (e : EvpCall R) : R :=
  match e in EvpCall T return T with
  | BIO_new | EVP_PKEY_CTX_new_from_name _ | EVP_PKEY_CTX_new_pkey _ | BN_bin2bn _
  | PEM_read_bio_PUBKEY _ => 1%N
  | BIO_free _ | EVP_PKEY_CTX_free _ | EVP_CIPHER_CTX_free _ => tt
  | OSSL_PARAM_set_BN _ _ | EVP_PKEY_fromdata_init _ | PEM_write_bio_PUBKEY _ _
  | EVP_PKEY_encrypt_init _ | EVP_PKEY_CTX_set_rsa_padding _ _ | EVP_PKEY_CTX_set_rsa_oaep_md _ _
  | EVP_DecryptInit_aes_gcm _ _ | EVP_DecryptUpdate_aad _ _ => 1
  | EVP_PKEY_fromdata _ _ _ => (1, 1%N)
  | EVP_PKEY_encrypt_size _ _ => (1, 256)
  | EVP_PKEY_encrypt _ _ data => (1, data)
  end.
Definition demo_cert (days : Z) (R : Type) (e : CertCall R) : R :=
  match e in CertCall T return T with
  | PEM_read_X509 _ => 1%N
  | issuer_oneline _ => Some (str "/CN=Global Virtual TPM CA")
  | subject_oneline _ => Some (str "/CN=vm")
  | X509_digest _ => (1, [x01])
  | ASN1_TIME_diff_notAfter _ => Some days
  | X509_free _ => tt
  end.
Definition os_release : bytes := str "NAME=Ubuntu" ++ [x0a] ++ str "VERSION_ID=22.04".
Definition demo_world (days : Z) : Handler ClientE net := fun R e s =>
  match e with
  | InL e => (demo_esys R e, s)
  | InR (InL e) => (ossl_accept [] R e, s)
  | InR (InR (InL e)) =>
      (match e in FileCall T return T with ReadFile _ => Some os_release end, s)
  | InR (InR (InR (InL e))) => net_handler R e s
  | InR (InR (InR (InR (InL e)))) => (demo_evp R e, s)
  | InR (InR (InR (InR (InR (InL e))))) => (demo_cert days R e, s)
  | InR (InR (InR (InR (InR (InR e))))) =>
      (match e in UuidCall T return T with Uuid => str "id" end, s)
  end.

(** The answer of the service: the token [jwt] encrypted (by the identity) under the inner key. *)
Definition demo_envelope (jwt : bytes) : Value :=
  let s x := stringValue (b64_text x) in
  objectValue [(str "AuthenticationData", s [x07]); (str "EncryptedInnerKey", s [x09]);
    (str "EncryptionParams", objectValue
       [(str "BlockMode", stringValue (str "ChainingModeGCM")); (str "BlockPadding", stringValue (str "PKCS7"));
        (str "Cipher", stringValue (str "AES")); (str "Iv", s [x01]); (str "KeySizeInBits", intValue 256)]);
    (str "Jwt", s jwt)].
Definition encrypted_jwt (jwt : bytes) : bytes :=
  AttestBase64.binary_to_base64url (writeString (demo_envelope jwt)).
Definition demo_jwt : bytes := encrypted_jwt (str "token").
Definition token_answer (jwt : bytes) : response :=
  {| status := 200; body := writeString (objectValue [(str "token", stringValue (encrypted_jwt jwt))]);
     retry_after := 0 |}.
Definition demo_answer : response := token_answer (str "token").
Definition demo_client : Client.ClientParameters :=
  {| Client.version := 1; Client.attestation_endpoint_url := Some (str "https://maa.example/");
     Client.client_payload := None |}.
#[local] Instance demo_fuel : Fuel := 12%nat.

Theorem token_opened_witness :
  exists t, evs (TokenDecrypt.DecryptMaaToken (H := demo_world 0) demo_jwt []) = t /\
    maa_opened demo_jwt (str "token") t.
Proof.
  eexists. split; [reflexivity|].
  assert (Hr : res (TokenDecrypt.DecryptMaaToken (H := demo_world 0) demo_jwt []) = Ret (ok, str "token")) by vm_eq.
  exact (token_opened (H := demo_world 0) demo_jwt [] ok (str "token") Hr eq_refl).
Defined.

(** The answers [[]], and a text that is not base64url. *)
Theorem malformed_token_terminates_witness :
  TokenDecrypt.DecryptMaaToken (H := demo_world 0) (AttestBase64.binary_to_base64url (str "[]")) []
    = Res (Fault StdTerminate) [] [] /\
  TokenDecrypt.DecryptMaaToken (H := demo_world 0) (str "?") [] = Res (Fault StdTerminate) [] [].
Proof.
  assert (Hd : AttestBase64.base64url_to_binary (AttestBase64.binary_to_base64url (str "[]")) = Ret (str "[]")) by vm_eq.
  assert (Hp : reader_parse (c_str (str "[]")) = Ret (Some (arrayValue []))) by vm_eq.
  assert (Hx : AttestBase64.base64url_to_binary (str "?") = Throw b64_error) by vm_eq.
  assert (Hj : AttestBase64.binary_to_base64url (str "[]") <> []) by (vm_compute; discriminate).
  destruct (malformed_token_terminates (H := demo_world 0) (AttestBase64.binary_to_base64url (str "[]")) (str "[]")
              (arrayValue []) [] Hj Hd Hp eq_refl) as [He Ht].
  split; [exact He|]. apply (Ht (str "?") b64_error); [discriminate|exact Hx].
Defined.

Theorem pem_round_trip_witness :
  AttestBase64.base64_to_binary (AkCert.RemoveCertHeaderAndFooter
    (AkCert.CERTIFICATE_HEADER ++ str "yv" ++ [x0d; x0a] ++ str "4=" ++ AkCert.CERTIFICATE_FOOTER ++ [x0a]))
    = Ret [xca; xfe].
Proof.
  assert (Hf : fits [xca; xfe]) by by vm_compute.
  apply (pem_round_trip _ (str "yv" ++ [x0a] ++ str "4=") [x0a] [xca; xfe]);
    [vm_eq|right; left|vm_eq|exact Hf].
Defined.


(** A whole run: evidence is collected and posted, and the answer's token is returned. *)
Definition demo_run := Client.Attest map_to_list (H := demo_world (-100)) demo_client true [demo_answer].
Theorem attest_token_witness :
  res demo_run = Ret (ok, str "token") /\ attested map_to_list demo_client (str "token") (evs demo_run).
Proof.
  assert (Hr : res demo_run = Ret (ok, str "token")) by vm_eq. split; [exact Hr|].
  destruct (attest_token (H := demo_world (-100)) map_to_list demo_client true [demo_answer] ok (str "token") Hr
              eq_refl) as [_ Ha].
  exact Ha.
Defined.
