(* ===== verification/TpmClient.v ===== *)
(** * The command-line client of LinuxTpm

    LinuxTpm/testclient: main.cpp, which runs named commands on the TPM through the class [Tpm] and writes what
    they give to files, and TestUtil.cpp, which seals a secret the way the service does.
    [exit_status]: what the exit status says of the commands - for a group of commands, the contrary. *)

From S2P Require Import Prelude Ossl Esys GuestTpm TpmFacade Http AttestFacts ClientDemo.
#[local] Open Scope Z_scope.

(** A file is opened, which makes it empty, and written to. *)
Inductive ClientCall : Type -> Type :=
| temp_directory_path : ClientCall bytes
| open_file (path : bytes) : ClientCall unit
| append_file (path text : bytes) : ClientCall unit
| cout (text : bytes) : ClientCall unit
| setenv (name value : bytes) : ClientCall unit.
(** The calls of tpm2-tss beyond those of Esys.v. *)
Inductive SealCall : Type -> Type :=
| Esys_Create (parent session : ESYS_TR) (sensitive : bytes) (inPublic : TPM2B_PUBLIC) (creationPcr : pcr_selection)
  : SealCall (Z * (bytes * TPM2B_PUBLIC))
| Esys_Duplicate (object parent session : ESYS_TR) : SealCall (Z * (bytes * bytes))
| MU_TPM2B_PRIVATE_Marshal (private : bytes) : SealCall (Z * bytes)
| MU_TPM2B_ENCRYPTED_SECRET_Marshal (secret : bytes) : SealCall (Z * bytes).

(** ** TestUtil.cpp *)
Module TestUtil.
Import TpmUtil TpmSession.
Definition TPM2_ALG_KEYEDHASH : Z := 0x0008.
Definition TPM2_CC_Duplicate : Z := 0x14b.
(** The room in TPM2B_SENSITIVE_DATA *)
Definition TPM2_MAX_SYM_DATA : Z := 256.
Section Ops.
Context {F : Type -> Type} {S : Type} `{Handler F S} `{EsysCall -< F} `{SealCall -< F} `{OsslCall -< F} `{Fuel}.
Notation MS := (M F (S * Z)).

(** The loop ends when as many digests were read as there are entries. *)
Fixpoint pcr_loop (n : nat) (sel : pcr_selection) (l : list PcrValue) (pcrCount : nat) : M F S (list PcrValue) :=
  match n with
  | O => fault_with OutOfFuel
  | Datatypes.S n' =>
      '(ret, out) ← trig (Esys_PCR_Read sel);
      _ ← check ret "Unable to read PCRs";
      '(l, sel, pcrCount) ← match out with
        | Some (pcrSel, vals) =>
            l ← lift (append_digests l pcrCount vals);
            '(octets, _) ← lift (clear_octets (pcrSelect sel) (pcrSelect pcrSel) (sizeofSelect pcrSel));
            mret (l, {| sel_hash := sel_hash sel; sizeofSelect := sizeofSelect sel; pcrSelect := octets |}, (pcrCount + length vals)%nat)
        | None => mret (l, sel, pcrCount)
        end;
      if (pcrCount <? length l)%nat then pcr_loop n' sel l pcrCount else mret l
  end.
Definition PopulateCurrentPcrs (pcrSet : PcrSet) : M F S PcrSet :=
  selection ← GetTssPcrSelection pcrSet (hashAlg pcrSet);
  l ← pcr_loop fuel selection (pcrs pcrSet) 0;
  mret {| hashAlg := hashAlg pcrSet; pcrs := l |}.

(** What is created under the parent: data that may be duplicated *)
Definition sealed_template (policyDigest : bytes) : TPM2B_PUBLIC :=
  {| type_ := TPM2_ALG_KEYEDHASH; nameAlg := TPM2_ALG_SHA256; objectAttributes := TPMA_OBJECT_USERWITHAUTH;
     authPolicy := policyDigest; sym_algorithm := 0; sym_keyBits := 0; sym_mode := 0; scheme_alg := TPM2_ALG_NULL;
     keyBits := 0; exponent := 0; rsa_buffer := []; rsa_size := 0 |}.
Definition duplicate_session : MS ESYS_TR :=
  _ ← Restart TPM2_SE_POLICY; _ ← PolicyCommandCode TPM2_CC_Duplicate; GetHandle.
Definition endorsed_session : MS ESYS_TR :=
  _ ← Restart TPM2_SE_POLICY; _ ← PolicySecret ESYS_TR_RH_ENDORSEMENT; GetHandle.
(** From the session on; the answer is public part, private part and seed, marshalled. *)
Definition seal_session (parent : ESYS_TR) (creationPcr : pcr_selection) (clearKey : bytes) : MS (bytes * bytes * bytes) :=
  _ ← Start TPM2_SE_TRIAL;
  _ ← PolicyCommandCode TPM2_CC_Duplicate;
  policyDigest ← GetDigest;
  session ← endorsed_session;
  '(ret, (outPriv, outPub)) ← trig (Esys_Create parent session clearKey (sealed_template policyDigest) creationPcr);
  _ ← check_s ret "Failed to create";
  session ← endorsed_session;
  '(ret, loadedData) ← trig (Esys_Load parent session outPriv outPub);
  finally (
    _ ← check_s ret "Failed to load encrypted data";
    session ← duplicate_session;
    '(ret, (duplicate, outSymSeed)) ← trig (Esys_Duplicate loadedData parent session);
    _ ← check_s ret "Esys_Duplicate";
    '(ret, pub) ← trig (MU_TPM2B_PUBLIC_Marshal outPub);
    _ ← check_s ret "Failed to marshal TPM2B_PUBLIC";
    '(ret, priv) ← trig (MU_TPM2B_PRIVATE_Marshal duplicate);
    _ ← check_s ret "Failed to marshal TPM2B_PRIVATE";
    '(ret, seed) ← trig (MU_TPM2B_ENCRYPTED_SECRET_Marshal outSymSeed);
    _ ← check_s ret "Failed to marshal TPM2B_ENCRYPTED_SECRET";
    mret (pub, priv, seed))
  (close_handle loadedData).
Definition seal_under (parent : ESYS_TR) (pcrSet : PcrSet) (hashAlg : HashAlg) (clearKey : bytes) : M F S (bytes * bytes * bytes) :=
  creationPcr ← GetTssPcrSelection pcrSet hashAlg;
  if TPM2_MAX_SYM_DATA <? size clearKey then fault_with UndefinedBehaviour
  else with_session (seal_session parent creationPcr clearKey).
Definition SealSeedToEk (pcrSet : PcrSet) (hashAlg : HashAlg) (clearKey : bytes) (useStoredEk : bool) : M F S (bytes * bytes * bytes) :=
  if useStoredEk then HandleToEsys EK_PUB_INDEX (fun parent => seal_under parent pcrSet hashAlg clearKey)
  else
    '(ekHandle, _) ← GenerateEkFromSpec false;
    finally (seal_under ekHandle pcrSet hashAlg clearKey) (close_handle ekHandle).
End Ops.
End TestUtil.

(** ** main.cpp *)
Module TpmClient.
Definition MAX_PATH : Z := 260.
(** [TSS2_TCTI_RC_LAYER] and the base code of an I/O error *)
Definition TSS2_TCTI_RC_IO_ERROR : Z := 0xa000a.
Definition endl : bytes := [x0a].
Definition hex_char (upper : bool) (z : Z) : byte := byte_of_z (if z <? 10 then 48 + z else (if upper then 55 else 87) + z).
(** Two digits, and as many as are needed. *)
Definition hex2 (upper : bool) (c : byte) : bytes := [hex_char upper (z_of_byte c / 16); hex_char upper (z_of_byte c mod 16)].
Definition hex1 (c : byte) : bytes := if z_of_byte c <? 16 then [hex_char false (z_of_byte c)] else hex2 false c.

Section Ops.
Context {F : Type -> Type} {S : Type} `{Handler F S} `{EsysCall -< F} `{SealCall -< F} `{OsslCall -< F} `{FileCall -< F} `{ClientCall -< F}
  `{TssWrapper F S} `{Fuel}.
(** The order in which the hash table [g_tests] is traversed. *)
Variable g_order : list bytes.

Definition print (text : bytes) : M F S unit := trig (cout text).
Definition prepend_tempdir_path (filename : bytes) : M F S bytes :=
  dir ← trig temp_directory_path;
  let file_path := dir ++ (if decide (last dir = Some "/"%byte) then [] else str "/") ++ filename in
  if MAX_PATH <? size file_path then throw (runtime_error "Temp File length > MAX_PATH") else mret file_path.
(** An [ofstream], and a copy into it *)
Definition write_file (path data : bytes) : M F S unit := _ ← trig (open_file path); trig (append_file path data).

Definition output_tss2_error (w : bytes) (rc : Z) : M F S unit :=
  _ ← print (str "Error: " ++ w ++ endl);
  if rc =? TSS2_TCTI_RC_IO_ERROR then
    _ ← print (str "Could not open tpm device file" ++ endl);
    print (str "Either there in not a TPM on this machine or this application is not running as root" ++ endl)
  else mret tt.

Definition process_get_tpmversion : M F S unit :=
  version ← Tpm.GetVersion;
  print ((match version with V2_0 => str "TPM Version 2.0" | V1_2 => str "TPM Version 1.2" end) ++ endl).
Definition dump (filename : bytes) (get : M F S bytes) (w : bytes) : M F S unit :=
  path ← prepend_tempdir_path filename;
  data ← get;
  _ ← write_file path data;
  print (str "Wrote " ++ w ++ str " to " ++ path ++ endl).
Definition process_get_ekpub : M F S unit := dump (str "ek.pub") Tpm.GetEkPub (str "EK Pub").
Definition process_get_ekcert : M F S unit := dump (str "ek.cer") Tpm.GetEkNvCert (str "EK Cert").
Definition process_get_aikpub : M F S unit := dump (str "aik.pub") Tpm.GetAIKPub (str "AIK Pub").
Definition process_get_aikcert : M F S unit := dump (str "aik.cert") Tpm.GetAIKCert (str "AIK Cert").
Definition process_get_tcglog : M F S unit := dump (str "bios_measurements") Tpm.GetTcgLog (str "TCG Log").

(** [PcrList pcrs(count); std::iota(...)] *)
Definition all_pcrs : M F S (list Z) :=
  pcrCount ← TpmUtil.GetPcrCount; mret (map Z.of_nat (seq 0 (Z.to_nat pcrCount))).
Definition process_get_pcrquote : M F S unit :=
  GuestTpm.with_Tss2Ctx (
    pcrs ← all_pcrs;
    q1 ← prepend_tempdir_path (str "pcrquote_sha1");
    q2 ← prepend_tempdir_path (str "pcrquote_sha256");
    q3 ← prepend_tempdir_path (str "pcrquote_sha384");
    s1 ← prepend_tempdir_path (str "pcrsig_sha1");
    s2 ← prepend_tempdir_path (str "pcrsig_sha256");
    s3 ← prepend_tempdir_path (str "pcrsig_sha384");
    for_each [(q1, s1, Sha1); (q2, s2, Sha256); (q3, s3, Sha384)] (fun '(pcrquoteFile, pcrsigFile, a) =>
      _ ← trig (open_file pcrquoteFile);
      _ ← trig (open_file pcrsigFile);
      pcrQuote ← Tpm.GetPCRQuote pcrs a;
      _ ← trig (append_file pcrquoteFile (quote pcrQuote));
      _ ← trig (append_file pcrsigFile (quote_signature pcrQuote));
      _ ← print (str "Wrote PCR Quote to " ++ pcrquoteFile ++ endl);
      print (str "Wrote PCR Signature to " ++ pcrsigFile ++ endl))).

Definition pcr_line (p : PcrValue) : bytes :=
  str "  " ++ z_text (index p) ++ (if index p <? 10 then str " : " else str ": ") ++ str "0x" ++ flat_map (hex2 true) (digest p) ++ endl.
Definition bank_name (a : HashAlg) : bytes :=
  match a with Sha1 => str "sha1:" ++ endl | Sha256 => str "sha256:" ++ endl | Sha384 => str "sha384:" ++ endl | _ => [] end.
Definition process_get_pcrvalues : M F S unit :=
  path ← prepend_tempdir_path (str "pcrlist");
  _ ← trig (open_file path);
  GuestTpm.with_Tss2Ctx (
    pcrs ← all_pcrs;
    _ ← for_each [Sha1; Sha256; Sha384] (fun a =>
      _ ← trig (append_file path (bank_name a));
      pcrValues ← Tpm.GetPCRValues pcrs a;
      for_each (GuestTpm.pcrs pcrValues) (fun p => trig (append_file path (pcr_line p))));
    print (str "Wrote PCR Values to " ++ path ++ endl)).

(** [GetEkPub] makes a key only when there is none. *)
Definition process_create_ek : M F S unit :=
  _ ← try_catch Tpm.RemovePersistentEk (fun e => if is_std_exception e then Some (print (what e ++ endl)) else None);
  _ ← print (str "Generating new EK. This may take a few seconds..." ++ endl);
  _ ← Tpm.GetEkPub;
  print (str "Generated new EK" ++ endl).

Definition first_pcrs : PcrSet :=
  {| hashAlg := Sha256; pcrs := map (fun i => {| index := Z.of_nat i; digest := [] |}) (seq 0 14) |}.
(** The second time too it is the first result that is printed. *)
Definition print_seeds (clearKey data : bytes) : M F S unit :=
  _ ← print (str "Expected Seed: 0x" ++ flat_map (hex2 false) clearKey ++ endl);
  print (str "Actual decrypted seed: 0x" ++ flat_map hex1 data ++ endl).
Definition process_unseal : M F S unit :=
  GuestTpm.with_Tss2Ctx (
    pcrSet ← TestUtil.PopulateCurrentPcrs first_pcrs;
    _ ← print (str "Unealing from stored Ek" ++ endl);
    let clearKey := str "ABC" in
    '(inPub, inPriv, encryptedSeed) ← TestUtil.SealSeedToEk pcrSet Sha256 clearKey true;
    data ← Tpm.Unseal inPub inPriv encryptedSeed pcrSet Sha256 false;
    _ ← print_seeds clearKey data;
    _ ← print (str "Unealing from generated Ek" ++ endl);
    let clearKey2 := str "ABC" in
    '(inPub, inPriv, encryptedSeed) ← TestUtil.SealSeedToEk pcrSet Sha256 clearKey2 false;
    data2 ← Tpm.UnsealWithEkFromSpec inPub inPriv encryptedSeed pcrSet Sha256 false;
    print_seeds clearKey data).

Definition process_get_certifiedek : M F S unit :=
  ekpubFile ← prepend_tempdir_path (str "ek.pub.certified");
  certifyInfoFile ← prepend_tempdir_path (str "ek.pub.certifyinfo");
  certifyInfoSignatureFile ← prepend_tempdir_path (str "ek.pub.certifyinfo.signature");
  k ← Tpm.GetEkPubWithCertification;
  _ ← write_file ekpubFile (encryptionKey k);
  _ ← print (str "Wrote EK Pub to " ++ ekpubFile ++ endl);
  _ ← write_file certifyInfoFile (certifyInfo k);
  _ ← print (str "Wrote Certified Information to " ++ certifyInfoFile ++ endl);
  _ ← write_file certifyInfoSignatureFile (certifyInfoSignature k);
  print (str "Wrote Certified Information Signature to " ++ certifyInfoSignatureFile ++ endl).

Definition g_tests : list (bytes * M F S unit) :=
  [(str "tpmversion", process_get_tpmversion); (str "ekpub", process_get_ekpub); (str "ekcert", process_get_ekcert);
   (str "aikpub", process_get_aikpub); (str "aikcert", process_get_aikcert); (str "pcrquote", process_get_pcrquote);
   (str "pcrvalues", process_get_pcrvalues); (str "tcglog", process_get_tcglog); (str "generateek", process_create_ek);
   (str "unseal", process_unseal); (str "certifyek", process_get_certifiedek)].
Definition test_named (name : bytes) : option (M F S unit) := snd <$> find (fun p => bool_decide (p.1 = name)) g_tests.

Definition print_usage : M F S unit :=
  print (str "Usage: TpmUtil <commands>" ++ endl ++ endl ++ str "Supported Commands:" ++ endl ++ [x09] ++ str "all" ++ endl ++ [x09]
         ++ str "hardware_tpm" ++ endl ++ [x09] ++ str "gen2_vtpm" ++ endl ++ flat_map (fun name => [x09] ++ name ++ endl) g_order ++ endl).
Definition process_command (cmd_name : bytes) : M F S bool :=
  match test_named cmd_name with
  | None => _ ← print (str "Unknown command " ++ cmd_name ++ endl); mret false
  | Some test =>
      _ ← print (str "Processing Action: " ++ cmd_name ++ endl);
      ok ← try_catch (_ ← test; mret true) (fun e =>
        match e with
        | Tss2Exception w rc => Some (_ ← output_tss2_error w rc; _ ← print endl; mret false)
        | UnknownThrown => None
        | _ => Some (_ ← print (str "Error for command '" ++ cmd_name ++ str "': " ++ what e ++ endl ++ endl); mret false)
        end);
      if ok : bool then _ ← print endl; mret true else mret false
  end.

(** The loop over the tests, and [return all_succeeded ? 0 : 1;] of a function to [bool]. *)
Fixpoint run_group (names : list bytes) (all_succeeded : bool) : M F S bool :=
  match names with
  | [] => mret (if all_succeeded then false else true)
  | name :: names => ok ← process_command name; run_group names (ok && all_succeeded)
  end.
Definition aik_tests : list bytes := [str "aikpub"; str "aikcert"; str "certifyek"].
Definition ek_tests : list bytes := [str "ekpub"; str "ekcert"; str "generateek"].
Definition hardware_tests : list bytes := filter (fun n => n ∉ aik_tests) g_order.
Definition vtpm_tests : list bytes := filter (fun n => n ∉ ek_tests) g_order.
Definition process_hardware_tpm : M F S bool := run_group hardware_tests true.
Definition process_gen2_vtpm : M F S bool := run_group vtpm_tests true.
Definition process_all : M F S bool := run_group g_order true.

(** Every branch of the loop returns. *)
Definition main_body (args : list bytes) : M F S Z :=
  match args with
  | [] => _ ← print_usage; mret 1
  | cmd :: _ =>
      _ ← trig (setenv (str "TSS2_LOG") (str "all+NONE"));
      ok ← (if decide (cmd = str "all") then _ ← print endl; process_all
            else if decide (cmd = str "hardware_tpm") then _ ← print endl; process_hardware_tpm
            else if decide (cmd = str "gen2_vtpm") then _ ← print endl; process_gen2_vtpm
            else process_command cmd);
      mret (if ok : bool then 0 else 1)
  end.
(** [g_tpm] is made before [main] starts and destroyed after it; what leaves either ends the process. *)
Definition main (args : list bytes) : M F S Z := noexcept_m (with_Tpm (noexcept_m (main_body args))).
End Ops.
End TpmClient.

(** ** Properties *)
Section Facts.
Context {F : Type -> Type} {S : Type} `{HF : Handler F S} `{HE : EsysCall -< F} `{HS : SealCall -< F} `{HO : OsslCall -< F}
  `{HFi : FileCall -< F} `{HC : ClientCall -< F} `{Tw : TssWrapper F S} `{Fu : Fuel}.
Variable g_order : list bytes.
Import TpmClient.
Implicit Types t : list (event F).

Definition printed (text : bytes) : event F := Ev (inj (cout text)) tt.
(** What is printed when a command throws [e]. *)
Definition error_report (cmd_name : bytes) (e : exn) : list (event F) :=
  match e with
  | Tss2Exception w rc =>
      [printed (str "Error: " ++ w ++ endl)] ++
      (if rc =? TSS2_TCTI_RC_IO_ERROR
       then [printed (str "Could not open tpm device file" ++ endl);
             printed (str "Either there in not a TPM on this machine or this application is not running as root" ++ endl)]
       else []) ++ [printed endl]
  | _ => [printed (str "Error for command '" ++ cmd_name ++ str "': " ++ what e ++ endl ++ endl)]
  end.
(** The calls of one command, and whether it succeeded. *)
Definition command_ran (cmd_name : bytes) (ok : bool) t : Prop :=
  match test_named (F := F) (S := S) cmd_name with
  | None => ok = false /\ t = [printed (str "Unknown command " ++ cmd_name ++ endl)]
  | Some test => exists s,
      if ok then res (test s) = Ret tt /\ t = [printed (str "Processing Action: " ++ cmd_name ++ endl)] ++ evs (test s) ++ [printed endl]
      else exists e, res (test s) = Throw e /\ is_std_exception e = true /\
        t = [printed (str "Processing Action: " ++ cmd_name ++ endl)] ++ evs (test s) ++ error_report cmd_name e
  end.
(** Commands one after the other, and whether all succeeded. *)
Inductive commands_ran : list bytes -> bool -> list (event F) -> Prop :=
| ran_none : commands_ran [] true []
| ran_one name names ok all t t' : command_ran name ok t -> commands_ran names all t' -> commands_ran (name :: names) (ok && all) (t ++ t').
(** The commands an argument stands for, and whether it names a group. *)
Definition commands_of (cmd : bytes) : list bytes :=
  if decide (cmd = str "all") then g_order else if decide (cmd = str "hardware_tpm") then hardware_tests g_order
  else if decide (cmd = str "gen2_vtpm") then vtpm_tests g_order else [cmd].
Definition is_group (cmd : bytes) : bool := bool_decide (cmd ∈ [str "all"; str "hardware_tpm"; str "gen2_vtpm"]).

Lemma ends_cout P text : P tt [printed text] -> ends P (print (F := F) (S := S) text).
Proof. intros HP. apply ends_trig. by intros []. Qed.
Lemma ends_then_print {A} (P : A -> list (event F) -> Prop) text (k : M F S A) :
  ends (fun a t => P a (printed text :: t)) k -> ends P (_ ← print text; k).
Proof. intros Hk. eapply (ends_bind (fun _ t => t = [printed text])); [by apply ends_cout|]. by intros [] t ->. Qed.
Lemma ends_try_seen {A} (P : A -> list (event F) -> Prop) (m : M F S A) h :
  ends P m -> (forall s e k, res (m s) = Throw e -> h e = Some k -> ends (fun a t => P a (evs (m s) ++ t)) k) ->
  ends P (try_catch m h).
Proof.
  intros Hm Hh s a. unfold try_catch. specialize (Hm s a). specialize (Hh s). destruct (m s) as [[b|e|x] s1 t1]; cbn in *; [done| |done].
  destruct (h e) as [k|] eqn:Eh; [|done]. specialize (Hh e k eq_refl Eh s1 a). by destruct (k s1).
Qed.
Lemma ends_tpm_report w rc : ends (fun ok t => ok = false /\ t = error_report [] (Tss2Exception w rc))
  (_ ← output_tss2_error (F := F) (S := S) w rc; _ ← print endl; mret false).
Proof.
  unfold output_tss2_error. eapply (ends_bind (fun _ t => t ++ [printed endl] = error_report [] (Tss2Exception w rc))).
  - apply ends_then_print. cbn [error_report]. case_match; [apply ends_then_print, ends_cout|apply ends_ret]; done.
  - intros [] t Ht. apply ends_then_print, ends_ret. done.
Qed.
Lemma ends_process_command name : ends (command_ran name) (process_command (F := F) (S := S) name).
Proof.
  unfold process_command, command_ran. destruct (test_named name) as [test|] eqn:En.
  2: { apply ends_then_print, ends_ret. done. }
  apply ends_then_print. eapply (ends_bind (fun ok t => exists s, if ok : bool then res (test s) = Ret tt /\ t = evs (test s)
    else exists e, res (test s) = Throw e /\ is_std_exception e = true /\ t = evs (test s) ++ error_report name e)).
  - apply ends_try_seen.
    + intros s ok. unfold mbind, M_bind. destruct (test s) as [[[]|e|x] s1 t1] eqn:Et; cbn; [|done..]. intros [= <-].
      exists s. rewrite Et, app_nil_r. done.
    + intros s e k Hs Hk. unfold mbind, M_bind in Hs |- *. destruct (test s) as [[[]|e1|x] s1 t1] eqn:Et; cbn [res evs] in Hs |- *; [done| |done]. injection Hs as <-.
      assert (Hm : ends (fun ok t => ok = false /\ t = error_report name e1 /\ is_std_exception e1 = true) k).
      { destruct e1; try discriminate; injection Hk as <-; try (by apply ends_then_print, ends_ret).
        eapply ends_mono; [apply ends_tpm_report|]. by intros ok t [-> ->]. }
      eapply ends_mono; [exact Hm|]. intros ok t (-> & -> & He). exists s, e1. by rewrite Et.
  - intros [|] t (s & Ht); [apply ends_then_print, ends_ret|apply ends_ret]; exists s.
    + destruct Ht as [Hr ->]. done.
    + destruct Ht as (e & Hr & He & ->). exists e. rewrite app_nil_r. done.
Qed.
(** A group answers the contrary of what it found. *)
Lemma ends_run_group names all :
  ends (fun b t => exists all', commands_ran names all' t /\ b = negb (all' && all)) (run_group (F := F) (S := S) names all).
Proof.
  revert all. induction names as [|name names IH]; intros all; cbn [run_group].
  - apply ends_ret. exists true. split; [constructor|by destruct all].
  - eapply ends_bind; [apply ends_process_command|]. intros ok t Ht. eapply ends_mono; [apply IH|].
    intros b t' (all' & Ha & ->). exists (ok && all'). split; [by constructor|]. by destruct ok, all', all.
Qed.

(** What the program does between making its context and closing it *)
Definition session_ran (cmd : bytes) (code : Z) t : Prop :=
  exists all t', commands_ran (commands_of cmd) all t' /\ code = (if xorb all (is_group cmd) then 0 else 1) /\
    t = [Ev (inj (setenv (str "TSS2_LOG") (str "all+NONE"))) tt] ++ (if is_group cmd then [printed endl] else []) ++ t'.
Lemma ends_main_body cmd rest : ends (session_ran cmd) (main_body (F := F) (S := S) g_order (cmd :: rest)).
Proof.
  eapply (ends_bind (fun _ t => t = [Ev (inj (setenv (str "TSS2_LOG") (str "all+NONE"))) tt])); [by apply ends_trig; intros []|].
  intros [] t0 ->. eapply (ends_bind (fun b t => exists all t', commands_ran (commands_of cmd) all t' /\ b = xorb all (is_group cmd) /\
    t = (if is_group cmd then [printed endl] else []) ++ t')).
  2: { intros b t (all & t' & Hc & -> & ->). apply ends_ret. exists all, t'. rewrite app_nil_r. done. }
  assert (Hg : forall names, is_group cmd = true -> commands_of cmd = names ->
    ends (fun b t => exists all t', commands_ran (commands_of cmd) all t' /\ b = xorb all (is_group cmd) /\
      t = (if is_group cmd then [printed endl] else []) ++ t') (_ ← print (S := S) endl; run_group names true)).
  { intros names Hc <-. rewrite Hc. apply ends_then_print. eapply ends_mono; [apply ends_run_group|].
    intros b t (all & Ha & ->). exists all, t. by destruct all. }
  unfold commands_of in *. repeat case_decide; subst; [by apply Hg..|].
  assert (Hn : is_group cmd = false) by (apply bool_decide_eq_false; set_solver). rewrite Hn.
  eapply ends_mono; [apply ends_process_command|]. intros ok t Ht. exists (ok && true), (t ++ []).
  split_and!; [by repeat constructor|by destruct ok|by rewrite app_nil_r].
Qed.

(** Without arguments the usage is printed; arguments after the first are not looked at. *)
Definition program_ran (args : list bytes) (code : Z) t : Prop :=
  match args with
  | [] => code = 1 /\ exists text, t = [printed text]
  | cmd :: _ => session_ran cmd code t
  end.
Definition within (P : Z -> list (event F) -> Prop) (code : Z) t : Prop := exists t0 t' t1, t = t0 ++ t' ++ t1 /\ P code t'.
Lemma within_grows P : grows (within P).
Proof. intros code t1 t t2 (u & t' & v & -> & Hp). exists (t1 ++ u), t', (v ++ t2). by rewrite <- !app_assoc. Qed.
Lemma ends_within P (m : M F S Z) : ends P m -> ends (within P) m.
Proof. intros Hm. eapply ends_mono; [exact Hm|]. intros a t Hp. exists [], t, []. by rewrite app_nil_r. Qed.

(** C37: The exit status of the client. Whatever it exits with, the commands of its first argument have run one
    after the other, each announced, finished or reported with its error, and nothing else was run. For a single
    command the status is 0 when it succeeded and 1 when it failed or is unknown; for a group of commands
    it is 1 when all succeeded and 0 when one failed, the contrary of what the comments of the groups say.
    Without arguments it is 1. *)
Theorem exit_status args s code :
  res (main (F := F) g_order args s) = Ret code ->
  exists t0 t t1, evs (main (F := F) g_order args s) = t0 ++ t ++ t1 /\ program_ran args code t.
Proof.
  revert s code. change (ends (within (program_ran args)) (main (F := F) (S := S) g_order args)).
  unfold main, with_Tpm, GuestTpm.with_Tss2Ctx. apply ends_noexcept.
  do 3 (apply ends_after; [apply within_grows|]; intros ?). apply ends_finally; [apply within_grows|].
  apply ends_noexcept, ends_within. destruct args as [|cmd rest]; [|apply ends_main_body].
  cbn [main_body]. unfold print_usage. apply ends_then_print, ends_ret. split; [done|]. by eexists.
Qed.
End Facts.

(** ** Witness: the TPM of ClientDemo.v, with or without a boot log *)
Notation ToolE := (sumE ClientCall (sumE SealCall ClientE)).
Definition tool_world (log : bool) : Handler ToolE net := fun R e s =>
  match e with
  | InL e => (match e in ClientCall T return T with temp_directory_path => str "/tmp" | _ => tt end, s)
  | InR (InL e) =>
      (match e in SealCall T return T with
       | Esys_Create _ _ d pub _ => (0, (d, pub))
       | Esys_Duplicate _ _ _ => (0, ([], []))
       | MU_TPM2B_PRIVATE_Marshal d | MU_TPM2B_ENCRYPTED_SECRET_Marshal d => (0, d)
       end, s)
  | InR (InR (InR (InR (InL e)))) => (match e in FileCall T return T with ReadFile _ => if log then Some os_release else None end, s)
  | InR (InR e) => demo_world 0 R e s
  end.
#[local] Instance tool_fuel : Fuel := 12%nat.
Definition tool_order : list bytes := [str "tpmversion"; str "ekpub"; str "tcglog"; str "unseal"].
Definition tool_tpm (log : bool) : TssWrapper ToolE net := Tss2Wrapper (H := tool_world log).
Definition tool_run (log : bool) (args : list bytes) :=
  TpmClient.main (F := ToolE) (H := tool_world log) (H5 := tool_tpm log) tool_order args [].

(** A group exits with 1 when all its commands succeed and with 0 when one fails; a single command does as expected. *)
Theorem exit_status_witness :
  Forall (fun '(log, arg, code) =>
      res (tool_run log [arg]) = Ret code /\ exists t0 t t1, evs (tool_run log [arg]) = t0 ++ t ++ t1 /\
        program_ran (HF := tool_world log) (Tw := tool_tpm log) tool_order [arg] code t)
    [(true, str "all", 1); (false, str "all", 0); (true, str "tcglog", 0); (false, str "tcglog", 1)].
Proof.
  repeat constructor; try vm_eq; apply exit_status; vm_eq.
Defined.
