(* ===== verification/SampleApp.v ===== *)
(** * The attestation sample app: main.cpp and AttestationClientApp.cpp

    The app of cvm-attestation-sample-app attests the machine and prints the token, or whether
    the claims of the token are those of a compliant SNP machine. The two programs differ
    in the text of their usage and in the case of a word that is compared without regard to case.
    The Linux build takes its options from the C library's [getopt]; the Windows build has its
    own. *)

From S2P Require Import Prelude Base64 Json Ossl Esys GuestTpm JsonCpp JsonText Http ClientUtils Evidence TokenDecrypt AkCert Attest AttestFacts ClientDemo.
#[local] Open Scope Z_scope.

(** [Initialize] and [Uninitialize] are those of Lifecycle.v. *)
Inductive AppCall : Type -> Type :=
| Initialize : AppCall bool
| Uninitialize : AppCall unit
| printf (text : bytes) : AppCall unit
| fprintf_stderr (text : bytes) : AppCall unit.

Module Sample.
(** ** Options *)

Definition optstring : bytes := str ":a:n:o:".

(** The [getopt] of the Windows build. [argv] is what is left from [optind] on; the answer is the
    option with [optarg], and what is left then. *)
Definition strchr (s : bytes) (c : byte) : option nat := list_find (fun x => x = c) (s ++ [x00]) ≫= fun p => Some p.1.
Definition getopt (argv : list bytes) : outcome (option (byte * bytes) * list bytes) :=
  match argv with
  | ("-"%byte :: text) :: argv' =>
      let opt := match text with c :: _ => c | [] => x00 end in
      match strchr optstring opt with
      | None => Ret (Some ("?"%byte, []), argv)
      | Some p =>
          match optstring !! (p + 1)%nat with
          | None => if decide (p + 1 = length optstring)%nat then Ret (Some (opt, []), argv)
                    else Fault UndefinedBehaviour
          | Some ":"%byte =>
              match argv' with
              | [] => Ret (Some ("?"%byte, []), [])
              | optarg :: argv'' => Ret (Some (opt, optarg), argv'')
              end
          | Some _ => Ret (Some (opt, []), argv)
          end
      end
  | _ => Ret (None, argv)
  end.

(** The loop of [main] stops at the first option it does not know. *)
Definition known (opt : byte) : bool := bool_decide (opt = "a"%byte \/ opt = "n"%byte \/ opt = "o"%byte).
Fixpoint options_of (n : nat) (argv : list bytes) : outcome (list (byte * bytes)) :=
  match n with
  | O => Ret []
  | Datatypes.S n' =>
      '(o, argv) ← getopt argv;
      match o with
      | None => Ret []
      | Some (opt, optarg) =>
          if known opt then l ← options_of n' argv; Ret ((opt, optarg) :: l) else Ret [(opt, optarg)]
      end
  end.

Record settings := { attestation_url : bytes; nonce : bytes; output_type : bytes }.
Definition no_settings : settings := {| attestation_url := []; nonce := []; output_type := [] |}.

(** What the loop leaves with: the settings, or the option it stops at. *)
Fixpoint read_options (s : settings) (l : list (byte * bytes)) : settings + byte :=
  match l with
  | [] => inl s
  | (opt, optarg) :: l' =>
      match opt with
      | "a"%byte => read_options {| attestation_url := optarg; nonce := nonce s; output_type := output_type s |} l'
      | "n"%byte => read_options {| attestation_url := attestation_url s; nonce := optarg; output_type := output_type s |} l'
      | "o"%byte => read_options {| attestation_url := attestation_url s; nonce := nonce s; output_type := optarg |} l'
      | opt => inr opt
      end
  end.

(** ** Claims *)

Definition to_upper (c : byte) : byte := if in_range "a" "z" c then byte_of_z (z_of_byte c - 32) else c.
(** [boost::iequals] in the classic locale *)
Definition iequals (a b : bytes) : bool := bool_decide (map to_upper a = map to_upper b).

Definition default_attestation_url : bytes := str "https://sharedeus2.eus2.attest.azure.net/".
Definition or_default (s default : bytes) : bytes := match s with [] => default | _ => s end.

Section Claims.
Context `{BoostBase64, BoostString, NlohmannJson}.

(** An access that succeeds has not changed the document, and none follows one that fails. *)
Definition compliant (claims : json) : outcome bool :=
  attestation_type ← string_at claims ["x-ms-isolation-tee"; "x-ms-attestation-type"]%string;
  compliance_status ← string_at claims ["x-ms-isolation-tee"; "x-ms-compliance-status"]%string;
  Ret (iequals attestation_type (str "sevsnpvm") && iequals compliance_status (str "azure-compliant-cvm")).

Definition jwt_parts (jwt_str : bytes) : list bytes := split (fun c => bool_decide (c = "."%byte)) jwt_str.
(** [None]: not a token. *)
Definition is_cvm_token (jwt_str : bytes) : outcome (option bool) :=
  let tokens := jwt_parts jwt_str in
  if bool_decide (length tokens < 3)%nat then Ret None
  else
    claims ← SampleUtils.base64_decode (nth 1 tokens []);
    attestation_claims ← json_parse claims;
    match compliant attestation_claims with
    | Ret b => Ret (Some b)
    | Throw _ => Ret (Some false)
    | Fault x => Fault x
    end.
End Claims.

(** ** The programs *)

Section App.
Context {F : Type -> Type} {S : Type} `{Handler F S} `{EsysCall -< F} `{OsslCall -< F}
        `{FileCall -< F} `{CurlCall -< F} `{EvpCall -< F} `{CertCall -< F} `{UuidCall -< F}
        `{AppCall -< F} `{Fuel}.
Context `{BoostBase64, BoostString, BoostAlgo, JsonText, NlohmannJson}.
Variable order : gmap bytes bytes -> list (bytes * bytes).

(** [{"nonce":"..."}], without escaping *)
Definition client_payload_str (nonce : bytes) : bytes :=
  str "{" ++ [x22] ++ str "nonce" ++ [x22] ++ str ":" ++ [x22] ++ nonce ++ [x22] ++ str "}".
Definition client_params (s : settings) : Client.ClientParameters :=
  {| Client.version := Client.CLIENT_PARAMS_VERSION;
     Client.attestation_endpoint_url := Some (or_default (attestation_url s) default_attestation_url);
     Client.client_payload := Some (client_payload_str (nonce s)) |}.

(** What is printed with [-o token], and without. *)
Definition report (token success is_cvm : bool) (jwt_str description_ : bytes) : bytes :=
  if token then c_str (if success then jwt_str else description_)
  else if is_cvm then str "true" else str "false".

Definition run (OUTPUT_TYPE_JWT OUTPUT_TYPE_BOOL : string) (s : settings) : M F S Z :=
  let output_type := or_default (output_type s) (str OUTPUT_TYPE_BOOL) in
  let token := iequals output_type (str OUTPUT_TYPE_JWT) in
  initialized ← trig Initialize;
  if negb initialized
  then _ ← trig (printf (str "Failed to create attestation client object" ++ [x0a]));
       _ ← trig Uninitialize; mret 1
  else
    '(result, jwt) ← Client.Attest order (client_params s) true;
    let success := bool_decide (code_ result = SUCCESS) in
    let jwt_str := if success then c_str jwt else [] in
    is_cvm ← lift (if success then is_cvm_token jwt_str else Ret (Some false));
    match is_cvm with
    | None => _ ← trig (printf (str "Invalid JWT token")); mret 1
    | Some is_cvm =>
        _ ← trig (printf (report token success is_cvm jwt_str (description_ result)));
        _ ← trig Uninitialize; mret 0
    end.
Definition main_of (usage : bytes -> bytes) (jwt bool_ : string) (programName : bytes) (args : list (byte * bytes))
    : M F S Z :=
  match read_options no_settings args with
  | inr ":"%byte => _ ← trig (fprintf_stderr (str "Option needs a value" ++ [x0a])); mret 1
  | inr _ => _ ← trig (printf (usage programName)); mret 1
  | inl s =>
      noexcept_m (try_catch (run jwt bool_ s)
        (fun e => if is_std_exception e
                  then Some (_ ← trig (printf (str "Exception occured. Details - " ++ c_str (what e))); mret 1)
                  else None))
  end.

Definition usage (programName : bytes) : bytes :=
  str "Usage: " ++ programName ++ str " -a <attestation-endpoint> -n <nonce> -o <bool|token>" ++ [x0a].
Definition main (argv0 : bytes) (args : list (byte * bytes)) : M F S Z := main_of usage "token" "bool" argv0 args.

(** AttestationClientApp.cpp *)
Definition ClientApp_usage (programName : bytes) : bytes :=
  str "Usage: " ++ programName ++ str " -a <attestation-endpoint> -n <nonce> -o JWT" ++ [x0a].
Definition ClientApp_main (argv0 : bytes) (args : list (byte * bytes)) : M F S Z :=
  main_of ClientApp_usage "TOKEN" "BOOL" argv0 args.
End App.
End Sample.

(** ** Properties *)

(** The Windows [getopt] reads back a command line of known options. *)
Definition command_line (l : list (byte * bytes)) : list bytes :=
  concat (map (fun '(opt, optarg) => ["-"%byte :: [opt]; optarg]) l).
Lemma getopt_known opt optarg rest : Sample.known opt = true ->
  Sample.getopt (("-"%byte :: [opt]) :: optarg :: rest) = Ret (Some (opt, optarg), rest).
Proof. unfold Sample.known. intros [->|[->| ->]]%bool_decide_eq_true; done. Qed.
Lemma options_of_command_line l n :
  Forall (fun o => Sample.known o.1 = true) l -> (length (command_line l) <= n)%nat ->
  Sample.options_of n (command_line l) = Ret l.
Proof.
  intros Hl. revert n. induction Hl as [|[opt optarg] l Ho Hl IH]; intros n Hn; [by destruct n|].
  destruct n as [|n]; [simpl in Hn; lia|]. cbn [command_line map concat app Sample.options_of fst] in *.
  rewrite getopt_known by done. cbn. rewrite Ho. fold (command_line l). rewrite IH; [done|]. simpl in Hn. fold (command_line l) in Hn. lia.
Qed.

Section Facts.
Context {F : Type -> Type} {S : Type} `{HF : Handler F S} `{HE : EsysCall -< F} `{HO : OsslCall -< F}
        `{HFi : FileCall -< F} `{HCu : CurlCall -< F} `{HEv : EvpCall -< F} `{HCe : CertCall -< F}
        `{HU : UuidCall -< F} `{HA : AppCall -< F} `{Fu : Fuel}.
Context `{Bb : BoostBase64, Bs : BoostString, Ba : BoostAlgo, Jt : JsonText, Nj : NlohmannJson}.
Variable order : gmap bytes bytes -> list (bytes * bytes).
Import Sample.

(** The claims of a token: its second part of three or more. *)
Definition claims_of (jwt_str : bytes) (claims : json) : Prop :=
  exists parts text, parts = jwt_parts jwt_str /\ (3 <= length parts)%nat /\
    SampleUtils.base64_decode (nth 1 parts []) = Ret text /\ json_parse text = Ret claims.
Definition claim_is (claims : json) (name : string) (value : string) : Prop :=
  exists v, string_at claims ["x-ms-isolation-tee"%string; name] = Ret v /\ map to_upper v = map to_upper (str value).
Lemma is_cvm_token_claims jwt_str : is_cvm_token jwt_str = Ret (Some true) ->
  exists claims, claims_of jwt_str claims /\ claim_is claims "x-ms-attestation-type" "sevsnpvm" /\
    claim_is claims "x-ms-compliance-status" "azure-compliant-cvm".
Proof.
  unfold is_cvm_token. set (parts := jwt_parts _). case_bool_decide as Hl; [done|].
  destruct (SampleUtils.base64_decode _) as [text|e|x] eqn:Et; [|done..]. cbn [mbind outcome_bind].
  destruct (json_parse text) as [claims|e|x] eqn:Ec; [|done..]. cbn [mbind outcome_bind].
  destruct (compliant claims) as [[]|e|x] eqn:Eo; [|done..]. intros _. exists claims.
  split; [exists parts, text; split_and!; done || lia|]. revert Eo. unfold compliant.
  destruct (string_at claims ["x-ms-isolation-tee"; "x-ms-attestation-type"]%string) as [a|e|x] eqn:Ea; [|done..].
  cbn [mbind outcome_bind].
  destruct (string_at claims ["x-ms-isolation-tee"; "x-ms-compliance-status"]%string) as [c|e|x] eqn:Es; [|done..].
  cbn [mbind outcome_bind]. intros [= [Ha Hc]%andb_prop].
  split; [exists a|exists c]; (split; [done|]); by eapply bool_decide_eq_true_1.
Qed.

(** A token of the attestation service whose claims are those of a compliant SNP machine. *)
Definition cvm_attested (s : settings) (t : list (event F)) : Prop :=
  exists jwt claims, attested order (client_params s) jwt t /\ claims_of (c_str jwt) claims /\
    claim_is claims "x-ms-attestation-type" "sevsnpvm" /\
    claim_is claims "x-ms-compliance-status" "azure-compliant-cvm".
(** The last text printed is the verdict [b]. *)
Definition verdict (s : settings) (b : bool) (t : list (event F)) : Prop :=
  exists t0, t = t0 ++ [Ev (inj (printf (str (if b then "true" else "false")))) tt; Ev (inj Uninitialize) tt] /\
    (b = true -> cvm_attested s t0).

Lemma cvm_attested_l s t t2 : cvm_attested s t -> cvm_attested s (t2 ++ t).
Proof.
  intros (jwt & claims & Ha & Hc). exists jwt, claims. split; [|done]. rewrite <- (app_nil_r t). by apply attested_grows.
Qed.
Lemma verdict_l s b t t2 : verdict s b t -> verdict s b (t2 ++ t).
Proof. intros (t0 & -> & Hc). exists (t2 ++ t0). rewrite app_assoc. split; [done|]. intros Hb. by apply cvm_attested_l, Hc. Qed.

Lemma ends_printed (P : Z -> list (event F) -> Prop) text code :
  P code [Ev (inj (printf text)) tt; Ev (inj Uninitialize) tt] ->
  ends P (_ ← trig (printf text); _ ← trig Uninitialize; mret (M := M F S) code).
Proof.
  intros HP. apply (ends_bind (fun _ t => t = [Ev (inj (printf text)) tt])); [by apply ends_trig; intros []|].
  intros [] t ->. apply (ends_bind (fun _ t => t = [Ev (inj Uninitialize) tt])); [by apply ends_trig; intros []|].
  intros [] t ->. by apply ends_ret.
Qed.
Lemma ends_try_unless {A} (X : A -> Prop) (Q : A -> list (event F) -> Prop) (m : M F S A) h :
  ends (fun a t => X a -> Q a t) m -> (forall e k, h e = Some k -> yields (fun a => ~ X a) k) ->
  ends (fun a t => X a -> Q a t) (try_catch m h).
Proof.
  intros Hm Hh s a. unfold try_catch. specialize (Hm s). destruct (m s) as [[b|e|x] s1 t1]; simpl in *; [apply Hm| |done].
  destruct (h e) as [k|] eqn:Eh; [|done]. specialize (Hh e k Eh s1 a).
  destruct (k s1) as [o s2 t2]; simpl in *. intros Ho HX. by destruct (Hh Ho).
Qed.
Lemma ends_run jwt_word bool_word s :
  iequals (or_default (output_type s) (str bool_word)) (str jwt_word) = false ->
  ends (fun r t => r = 0 -> exists b, verdict s b t) (run order (S := S) jwt_word bool_word s).
Proof.
  intros Ht. unfold run. rewrite Ht. apply (ends_bind (fun _ _ => True)); [done|]. intros [] t1 _; cbn [negb].
  2: { apply ends_unless. do 2 (apply yields_bind; intros ?). by apply yields_ret. }
  eapply ends_bind; [apply ends_Attest|]. intros [result jwt] t2 Ha. cbn [fst snd] in Ha.
  set (success := bool_decide (code_ result = SUCCESS)).
  eapply ends_bind; [apply ends_lift; intros b Hb; instantiate (1 := fun b t => t = [] /\
    (if success then is_cvm_token (c_str jwt) = Ret b else b = Some false))|].
  { split; [done|]. destruct success; [done|by injection Hb]. }
  intros [b|] t3 [-> Hb]; [|apply ends_unless, yields_bind; intros ?; by apply yields_ret].
  apply ends_printed. intros _. exists b. unfold report. destruct b.
  - exists (t1 ++ t2). rewrite <- !app_assoc. split; [done|]. intros _. subst success.
    case_bool_decide as Hc; [|done]. destruct (Ha Hc) as [_ Ha']. apply cvm_attested_l.
    apply is_cvm_token_claims in Hb as (claims & Hcl & H1 & H2). by exists jwt, claims.
  - exists (t1 ++ t2). rewrite <- !app_assoc. done.
Qed.

(** C4: The app says [true] only of a machine that was attested. When it exits with 0 and the output
    is not the token, what it printed last is [true] or [false]; [true] means that a token was
    obtained from the host of the configured URL for evidence of this machine and the nonce,
    and that its claims name the type sevsnpvm and the status azure-compliant-cvm. *)
Theorem app_verdict argv0 args st s :
  read_options no_settings args = inl st ->
  iequals (output_type st) (str "token") = false ->
  res (main order argv0 args s) = Ret 0 ->
  exists b, verdict st b (evs (main order argv0 args s)).
Proof.
  intros Ho Ht Hs.
  assert (Hr : ends (fun r t => r = 0 -> exists b, verdict st b t) (run order (S := S) "token" "bool" st)).
  { apply ends_run. by destruct (output_type st). }
  assert (Hm : ends (fun r t => r = 0 -> exists b, verdict st b t) (main order (S := S) argv0 args)).
  2: { by apply (Hm s 0 Hs). }
  unfold main, main_of. rewrite Ho. apply ends_noexcept, ends_try_unless; [done|]. intros e k Hk. destruct (is_std_exception e); [|done].
  injection Hk as <-. apply yields_bind. intros []. by apply yields_ret.
Qed.
End Facts.

(** ** Witness: a compliant machine in the world of ClientDemo.v *)

Notation AppE := (sumE AppCall ClientE).
#[local] Instance app_world : Handler AppE net := fun R e s =>
  match e with
  | InL e => (match e in AppCall T return T with
              | Initialize => true | Uninitialize | printf _ | fprintf_stderr _ => tt end, s)
  | InR e => demo_world (-100) R e s
  end.
#[local] Instance app_fuel : Fuel := 12%nat.
Definition snp_claims (status : string) : jtree :=
  JObj [(str "x-ms-isolation-tee", JObj [(str "x-ms-attestation-type", JStr (str "sevsnpvm"));
                                         (str "x-ms-compliance-status", JStr (str status))])].
Definition snp_jwt (status : string) : bytes :=
  str "h." ++ SampleUtils.binary_to_base64url (dump_tree (snp_claims status)) ++ str ".s".
Definition app_args : list (byte * bytes) := [("n"%byte, str "n1"); ("o"%byte, str "BOOL")].
Definition app_settings : Sample.settings :=
  {| Sample.attestation_url := []; Sample.nonce := str "n1"; Sample.output_type := str "BOOL" |}.
Definition app_answers : net := [token_answer (snp_jwt "azure-compliant-cvm")].
Definition app_run := Sample.main (F := AppE) (H := app_world) map_to_list (str "app") app_args app_answers.
Theorem app_verdict_witness :
  res app_run = Ret 0 /\ (exists b, verdict (F := AppE) map_to_list app_settings b (evs app_run)) /\
  Sample.is_cvm_token (snp_jwt "azure-compliant-cvm") = Ret (Some true).
Proof.
  assert (Hr : res app_run = Ret 0) by vm_eq. split; [exact Hr|].
  assert (Ho : Sample.read_options Sample.no_settings app_args = inl app_settings) by reflexivity.
  assert (Ht : Sample.iequals (Sample.output_type app_settings) (str "token") = false) by vm_eq.
  split; [|vm_eq]. exact (app_verdict (F := AppE) (HF := app_world) map_to_list (str "app") app_args app_settings app_answers Ho Ht Hr).
Defined.
