(* ===== verification/SkrDemo.v ===== *)
(** * The secure-key-release app in a concrete world

    The world of ClientDemo.v with a key vault that answers with a wrapped key and an OpenSSL
    whose RSA is the identity: the app is run in it, and its theorems applied. *)

From S2P Require Import Prelude Base64 Json Ossl Esys GuestTpm JsonCpp JsonText Http ClientUtils Evidence TokenDecrypt AkCert Attest AttestFacts Skr SkrFacts SkrKeys ClientDemo.
#[local] Open Scope Z_scope.

(** [dump(2)]: a line per value, indented by [n] blanks. *)
Fixpoint pretty (n : nat) (j : jtree) : bytes :=
  let line m x := x0a :: replicate m " "%byte ++ x in
  match j with
  | JArr (_ :: _ as l) => str "[" ++ join (str ",") (map (fun v => line (n + 2)%nat (pretty (n + 2) v)) l)
                          ++ line n (str "]")
  | JObj (_ :: _ as l) =>
      str "{" ++ join (str ",") (map (fun '(k, v) => line (n + 2)%nat (Json.quote k ++ str ": " ++ pretty (n + 2) v)) l)
      ++ line n (str "}")
  | j => dump_tree j
  end.
#[export] Instance skr_tree : SkrJson := {|
  json_value j k d :=
    match j with
    | JObj l => match obj_lookup k l with
                | Some (JStr s) => Ret s | Some _ => type_error "302" | None => Ret d end
    | _ => type_error "306"
    end;
  json_array := JArr;
  json_dump_pretty j := if ascii_tree j then Ret (pretty 0 j) else type_error "316" |}.
#[export] Instance skr_tree_laws : SkrJsonLaws.
Proof.
  split; cbn [json_value json_dump_pretty skr_tree].
  - intros [] k d; try done. by destruct (obj_lookup k l) as [[]|].
  - intros j. by destruct (ascii_tree j).
Qed.

Notation SkrE := (sumE SkrCall ClientE).
Definition demo_skr (R : Type) (e : SkrCall R) : R :=
  match e in SkrCall T return T with
  | getenv _ => None
  | curl_easy_setopt _ _ => 0
  | errbuf _ => []
  | Initialize => true
  | Uninitialize | EVP_CIPHER_CTX_set_wrap_allow _ | EVP_PKEY_free _ | print _ => tt
  | EVP_DecryptInit_wrap_pad _ | EVP_DecryptInit_wrap_key _ _ | EVP_PKEY_decrypt_init _
  | EVP_PKEY_CTX_set_rsa_mgf1_md _ _ => 1
  | BIO_new_mem_buf _ | d2i_PrivateKey_bio _ => 1%N
  | EVP_PKEY_base_id _ => Skr.EVP_PKEY_RSA
  | EVP_PKEY_get_size _ => 256
  | EVP_PKEY_decrypt_size _ _ => (1, 256)
  | EVP_PKEY_decrypt _ _ data => (1, data)
  | OPENSSL_malloc _ => true
  | ReadStdin => []
  | stat _ => (-1, false)
  | symlink _ _ => 0
  end.
Definition skr_world : Handler SkrE net := fun R e s =>
  match e with
  | InL e => (demo_skr R e, s)
  | InR e => demo_world (-100) R e s
  end.

(** The answers: the token of the attestation service, the access token, the wrapped key. *)
Definition ok_answer (j : jtree) : response := {| status := 200; body := dump_tree j; retry_after := 0 |}.
Definition url64 (j : jtree) : jtree := JStr (SkrUtil.binary_to_base64url (dump_tree j)).
Definition part (k : string) (j : jtree) : jtree := JObj [(str k, j)].
Definition wrapped : bytes := replicate 256 x01 ++ [x02].
Definition answer_with (ciphertext : bytes) : response :=
  let hsm := url64 (part "ciphertext" (JStr (SkrUtil.binary_to_base64url ciphertext))) in
  let payload := part "response" (part "key" (part "key" (part "key_hsm" hsm))) in
  ok_answer (part "value" (JStr (str "h." ++ SkrUtil.binary_to_base64url (dump_tree payload) ++ str ".s"))).
Definition vault_answer : response := answer_with wrapped.
Definition maa_jwt : bytes := str "h.e30.s".
Definition skr_net : net :=
  [token_answer maa_jwt; ok_answer (part "access_token" (JStr (str "a"))); vault_answer].
Definition vault_key : bytes := str "https://v.vault.azure.net/keys/k".
#[local] Instance skr_fuel : Fuel := 12%nat.

Definition wrap_args : list (byte * bytes) := [("k"%byte, vault_key); ("s"%byte, [x07; x00]); ("w"%byte, [])].
Definition skr_main := Skr.main map_to_list (H := skr_world) wrap_args skr_net.
Theorem key_released_witness :
  res skr_main = Ret 0 /\ exists o pkey, Skr.read_options Skr.default_options wrap_args = Some o /\
    Skr.op o <> Skr.NoOperation /\
    released map_to_list (Skr.attestation_url o) (Skr.nonce o) (Skr.key_enc_key_url o) pkey (evs skr_main).
Proof.
  assert (Hr : res skr_main = Ret 0) by vm_eq. split; [exact Hr|].
  exact (key_released (H2 := skr_world) map_to_list wrap_args skr_net Hr).
Defined.

(** Without options there is nothing to do; without a network the attestation fails. *)
Theorem exit_codes_witness :
  res (Skr.main map_to_list (H := skr_world) [] []) = Ret 1 /\ -1 <= 1 <= 6 /\
  exists c w, res (Skr.doSKR map_to_list (H := skr_world) [] [] vault_key Skr.Imds []) = Throw (SkrErr c w) /\ 1 <= c <= 6.
Proof.
  destruct (exit_codes (H2 := skr_world) map_to_list [] [] [] vault_key Skr.Imds []) as (Ht & _ & Hm).
  assert (Hr : res (Skr.main map_to_list (H := skr_world) [] []) = Ret 1) by vm_eq.
  split; [exact Hr|]. split; [exact (Hm 1 Hr)|].
  destruct (res (Skr.doSKR map_to_list (H := skr_world) [] [] vault_key Skr.Imds [])) as [p|e|f] eqn:E.
  - assert (Hn : match res (Skr.doSKR map_to_list (H := skr_world) [] [] vault_key Skr.Imds []) with
                 | Ret _ => false | _ => true end = true) by vm_eq. rewrite E in Hn. discriminate Hn.
  - destruct (Ht e eq_refl) as (c & w & -> & Hc). exists c, w. split; [reflexivity|exact Hc].
  - assert (Hn : match res (Skr.doSKR map_to_list (H := skr_world) [] [] vault_key Skr.Imds []) with
                 | Fault _ => false | _ => true end = true) by vm_eq. rewrite E in Hn. discriminate Hn.
Defined.

(** A key that ends in a zero byte comes back without it. *)
Theorem wrap_then_unwrap_witness :
  exists text enc,
    text = SkrUtil.binary_to_base64 enc /\
    res (Skr.WrapKey map_to_list (H := skr_world) [] [] [x07; x00] vault_key Skr.Imds skr_net) = Ret text /\
    unwrapped_by map_to_list [] [] vault_key enc (str "SHA-256") [] [x07]
      (evs (Skr.UnwrapKey map_to_list (H := skr_world) [] [] text vault_key Skr.Imds (str "SHA-256") [] skr_net)).
Proof.
  set (text := str "BwA=").
  assert (Hw : res (Skr.WrapKey map_to_list (H := skr_world) [] [] [x07; x00] vault_key Skr.Imds skr_net)
               = Ret text) by vm_eq.
  assert (Hu : res (Skr.UnwrapKey map_to_list (H := skr_world) [] [] text vault_key Skr.Imds (str "SHA-256") []
                      skr_net) = Ret [x07]) by vm_eq.
  destruct (wrap_then_unwrap (H3 := skr_world) map_to_list [] [] [x07; x00] vault_key Skr.Imds (str "SHA-256") []
              skr_net skr_net text [x07] Hw Hu) as (enc & He & _ & Hd).
  exists text, enc. split; [exact He|]. split; [exact Hw|exact Hd].
Defined.

(** The second entry has no key: the batch has two results; an id that is a number fails it. *)
Definition demo_keys : list json := [JObj [(str "wrapped", JStr (str "Bw=="))]; JObj []].
Definition demo_results : list json :=
  [JObj [(str "id", JStr (str "0")); (str "unwrapped", JStr [x07])];
   JObj [(str "error", JStr (str "missing or invalid " ++ Skr.in_quotes (str "wrapped") ++ str " field"));
         (str "id", JStr (str "1"))]].
Definition bad_keys : list json := demo_keys ++ [JObj [(str "id", JInt 3)]].
Theorem batch_isolated_witness :
  (res (Skr.unwrap_entries (H := skr_world) 1%N SHA256 None 0 demo_keys []) = Ret demo_results /\
   forall r, demo_results !! 1%nat = Some r -> entry_result 1 (JObj []) r) /\
  res (Skr.unwrap_entries (H := skr_world) 1%N SHA256 None 0 bad_keys []) = Throw (JsonError TypeErr (str "302")) /\
  exists k w, JsonError TypeErr (str "302") = JsonError k w.
Proof.
  assert (Hr : res (Skr.unwrap_entries (H := skr_world) 1%N SHA256 None 0 demo_keys []) = Ret demo_results) by vm_eq.
  assert (He : res (Skr.unwrap_entries (H := skr_world) 1%N SHA256 None 0 bad_keys [])
               = Throw (JsonError TypeErr (str "302"))) by vm_eq.
  split.
  - split; [exact Hr|]. intros r E.
    destruct (batch_isolated (H3 := skr_world) 1%N SHA256 None demo_keys []) as [Hb _].
    destruct (Hb _ Hr) as [_ Hn]. exact (Hn 1%nat (JObj []) r eq_refl E).
  - destruct (batch_isolated (H3 := skr_world) 1%N SHA256 None bad_keys []) as [_ Hb]. split; [exact He|exact (Hb _ He)].
Defined.

(** A ciphertext of 259 bytes that ends in two zero bytes arrives as 257 bytes. *)
Theorem vault_key_stripped_witness :
  Skr.wrapped_key_of (body (answer_with (wrapped ++ [x00; x00]))) = Ret wrapped /\ last wrapped <> Some x00.
Proof.
  assert (Hr : Skr.wrapped_key_of (body (answer_with (wrapped ++ [x00; x00]))) = Ret wrapped) by vm_eq.
  split; [exact Hr|exact (vault_key_stripped _ wrapped Hr)].
Defined.
