(* ===== verification/Lifecycle.v ===== *)
(** * The life of the client: AttestationClient.cpp and Logging.cpp

    [Initialize] takes a raw pointer to the caller's logger into a fresh shared pointer,
    which owns it from then on; the library keeps the first one it is given. What is
    modelled is which logger the library holds and which ones have been deleted, once or
    more. *)

From S2P Require Import Prelude.

Module Lifecycle.
(** The globals [attestation_client] and [attest::logger], and the loggers whose owner has
    died. Pointers are numbers; 0 is null. *)
Record lib := { attestation_client : bool; logger : option N; deleted : gset N }.
Definition initial : lib := {| attestation_client := false; logger := None; deleted := ∅ |}.

Definition SetLogger (l : N) (s : lib) : lib :=
  match logger s with
  | None => {| attestation_client := attestation_client s; logger := Some l; deleted := deleted s |}
  | Some _ => s
  end.

(** The local shared pointer of [Initialize] is destroyed on return: when the library has not
    taken a copy, the logger is deleted. [kept] says whether it has. *)
Definition release (kept : bool) (l : N) (s : lib) : lib :=
  if kept then s
  else {| attestation_client := attestation_client s; logger := logger s; deleted := {[l]} ∪ deleted s |}.
Definition takes (s : lib) : bool := match logger s with None => true | Some _ => false end.

(** The answer, whether the caller's [*client] was set, and the library after the call. [alloc]
    says whether [new] succeeds; [SetLogger] is called by the constructor, and when [new] fails. *)
Definition Initialize (attestation_logger : N) (client_null alloc : bool) (s : lib)
  : bool * bool * lib :=
  if bool_decide (attestation_logger = 0%N) || client_null then (false, false, s)
  else if attestation_client s then (true, true, release false attestation_logger s)
  else
    let s1 := SetLogger attestation_logger s in
    let s2 := if alloc
              then {| attestation_client := true; logger := logger s1; deleted := deleted s1 |} else s1 in
    (alloc, alloc, release (takes s) attestation_logger s2).

(** [free] of an object made by [new] is undefined. *)
Definition Uninitialize (s : lib) : outcome lib :=
  if attestation_client s then Fault UndefinedBehaviour else Ret s.

(** One call of the application; the trace of accepted loggers grows by the one it passes. *)
Inductive step : lib * list N -> lib * list N -> Prop :=
| step_initialize s used l null alloc answer set s' :
    Initialize l null alloc s = (answer, set, s') ->
    step (s, used) (s', if bool_decide (l = 0%N) || null then used else l :: used)
| step_uninitialize s used s' : Uninitialize s = Ret s' -> step (s, used) (s', used).
Definition reachable (x : lib * list N) : Prop := rtc step (initial, []) x.
End Lifecycle.

Import Lifecycle.

(** The library holds the first logger it was given, and every later one is gone. *)
Record invariant (x : lib * list N) : Prop := {
  inv_first : logger x.1 = last x.2;
  inv_deleted : deleted x.1 = list_to_set (removelast x.2);
  inv_client : attestation_client x.1 = true -> x.2 <> [] }.

Lemma invariant_step x y : invariant x -> step x y -> invariant y.
Proof.
  intros [Hf Hd Hc] Hs. destruct Hs as [s used l null alloc an st s' Hi|s used s' Hu]; simpl in *.
  - unfold Initialize in Hi. destruct (bool_decide (l = 0%N) || null) eqn:E; [by simplify_eq|].
    destruct used as [|u used].
    + assert (Ec : attestation_client s = false).
      { destruct (attestation_client s); [|done]. by destruct (Hc eq_refl). }
      simpl in Hf. rewrite Ec in Hi. unfold SetLogger, takes, release in Hi. rewrite Hf in Hi.
      destruct alloc; simplify_eq; split; simpl; done.
    + assert (Hl : logger s <> None) by (rewrite Hf; clear; revert u; induction used as [|v l IH]; [done|intros u; apply IH]).
      assert (Ht : takes s = false) by (unfold takes; by destruct (logger s)).
      assert (Hsl : SetLogger l s = s) by (unfold SetLogger; by destruct (logger s)).
      rewrite Ht, Hsl in Hi. unfold release in Hi.
      destruct (attestation_client s), alloc; simplify_eq; split; simpl in *; try done; by rewrite Hd.
  - unfold Uninitialize in Hu. destruct (attestation_client s) eqn:Ec; [done|]. simplify_eq.
    by split; simpl; [..|rewrite Ec].
Qed.

Lemma reachable_invariant x : reachable x -> invariant x.
Proof.
  intros Hr. unfold reachable in Hr. remember (initial, []) as x0 eqn:E0.
  assert (H0 : invariant x0) by (subst; by split). clear E0.
  induction Hr as [x|x y z Hs _ IH]; [done|]. by apply IH, (invariant_step x).
Qed.

(** C32: In every state the application can reach, the library's logger is the first one it was
    given, and the deleted ones are exactly those given later. So the logger in use is alive
    exactly when it was not given a second time, which a repeated [Initialize] with the
    same logger does. *)
Theorem logger_alive s used l :
  reachable (s, used) -> logger s = Some l ->
  last used = Some l /\ (forall x, x ∈ deleted s <-> x ∈ removelast used) /\
  (l ∈ deleted s <-> l ∈ removelast used).
Proof.
  intros [Hf Hd _]%reachable_invariant Hl. simpl in *. rewrite <- Hf. split; [done|].
  rewrite Hd. setoid_rewrite elem_of_list_to_set. done.
Qed.

(** One call leaves a live logger; the second call with it leaves a dangling one. *)
Theorem logger_alive_witness :
  (5%N ∉ deleted (Initialize 5 false true initial).2) /\
  5%N ∈ deleted (Initialize 5 false true (Initialize 5 false true initial).2).2.
Proof.
  assert (H1 : reachable ((Initialize 5 false true initial).2, [5%N])).
  { eapply rtc_l; [|reflexivity]. by apply (step_initialize initial [] 5 false true true true). }
  assert (H2 : reachable ((Initialize 5 false true (Initialize 5 false true initial).2).2, [5%N; 5%N])).
  { eapply rtc_r; [exact H1|]. by apply (step_initialize _ [5%N] 5 false true true true). }
  destruct (logger_alive _ _ 5%N H1 eq_refl) as (_ & _ & E1).
  destruct (logger_alive _ _ 5%N H2 eq_refl) as (_ & _ & E2). split.
  - intros Hin. apply E1 in Hin. by apply not_elem_of_nil in Hin.
  - apply E2. left.
Defined.
